(* ===== verification/_CoqProject ===== *)
-Q . S2P
Prelude.v
Steps.v
Critical.v
Session.v
SessionStore.v
SessionFacts.v
SessionOps.v
SessionRefresh.v
SessionInv.v
SessionSpec.v
SessionProps.v
SessionSweep.v
SessionUse.v
SessionConc.v
GoStrings.v
GoUrl.v
Browser.v
Redact.v
Http.v
Lru.v
RateLimit.v
RateLimitConc.v
GoHttp.v
Base64.v
K8sCred.v
SessionContext.v
Authn.v
Oidc.v
Password.v
PasswordConc.v
Auth.v
OAuth2.v
AuthDemo.v
Flowpb.v
Flow.v
FlowFilter.v
FlowStream.v
FlowStreamEnd.v
Access.v
Plugins.v
PluginsConc.v
Config.v
Traceflow.v
Api.v
AntreaSvc.v
PortForward.v
SvcForward.v
K8sProxy.v
Server.v
Startup.v
Lifecycle.v
EndToEnd.v
Renewal.v
ApiDemo.v
ServerDemo.v
