(* ===== verification/Prelude.v ===== *)
(** * Antrea UI's backend, verified

    Antrea UI's backend is an HTTP server (Go, under [src/pkg] and [src/cmd]) between a browser and
    a Kubernetes cluster. It logs users in (admin password, OIDC, kubeconfig, pasted token), keeps
    the Kubernetes credential of each in a session, in memory only, and answers the browser's API
    requests with calls made as that user. This development is a shallow embedding of the server's
    own logic, written function by function after the source, with the theorems that make the
    parts correct.

    ** Conventions

    - Stateful code is a function of the monad [ST S A := S -> A * S] (this file). A handler runs on
      [HState W]: the state, and the list of what it did to the response, in order ([Http]).
    - A Go error is the [Err] of a [result]; a nil error of a procedure is [None].
    - Time is nanoseconds since Go's zero time, as an integer; durations are nanoseconds.
      [time_Sub] saturates and [time_Unix] wraps as Go's do. 64-bit and 8-bit wrap-around is
      written out where the code converts ([wrap64], [Config.wrap8]).
    - A string is a list of bytes. Byte slices that hold secrets are addresses into a memory
      ([Session.World]), because the code erases them in place and shares them.
    - A range over a Go map visits an order the language does not fix: [RangeOrder] is a parameter,
      and the theorems hold for each order.
    - Code that is not under [src] is a class: [Platform] (clock, randomness, refreshers,
      transports), [Crypto], [OIDCLib] (coreos/go-oidc, x/oauth2), [KubeLib], [TraceflowAPI],
      [ReviewAPI], [SecretAPI], [Lister], [BootLib], [ProxyLib] (client-go and the API server),
      [AntreaHTTP] (what the Antrea Service answers), [LRU] (golang-lru),
      [Limiter] (x/time/rate). The i-th call of a service is a function of [i], so a theorem holds
      whatever the service answers. A class ending in [Laws] states what the code relies on; each
      has an instance in the development. Four classes stand for parts of Go's standard library
      that the code passes values through: [GoNet] and [GoIP] (IP addresses), [GoText] (how times
      and IPv6 addresses print) and, in [OIDCLib], JSON and the printing of URLs; parsing of URLs,
      base64, splitting, trimming, case folding and sorting are defined.

    ** Files

    - [Session], [SessionStore] (auth/session/session.go, store.go): credentials, sessions, the
      store and its sweep. [SessionFacts], [SessionOps], [SessionRefresh]: what each operation does
      to the memory and the map. [SessionInv]: the store's invariant and the states requests can
      reach. [SessionSpec]: an abstract store, a map from ids to values, and the simulation of it.
      [SessionProps]: the store's theorems. [SessionConc]: requests as sequences of the atomic
      steps that the code's locks allow, interleaved in any way. [SessionSweep]: requests and the
      periodic sweep ([Run]) together. [SessionUse]: one session followed through the calls of others.
    - [Steps]: runs of a step function over a list of events, with the lemmas on invariants,
      histories and ranks that every event-driven part below uses.
    - [Critical]: goroutines that share a state under a reader-writer lock, with every statement of
      a critical section a step of its own; and why it is enough to look at whole sections, however
      they overlap. [PasswordConc], [PluginsConc]: the admin password and the plugin registry as
      such goroutines. [RateLimitConc]: the limiter of clients, which has no lock of its own, call
      by call.
    - [Redact] (auth/session/session.go): what a logger prints of a credential or a session.
    - [SessionContext] (context.go): [Store], the interface the handlers use, with its laws and the
      proof that the store above keeps them; the identity of a request.
    - [GoStrings], [GoUrl], [Base64], [Http], [Lru]: what the source uses of Go's strings, net/url,
      encoding/base64, net/http and gin; server/errors and server/utils/cookie. [Browser]: what a
      browser makes of a URL, the independent specification of the redirect filter and of the
      cross-origin gate.
    - [RateLimit] (server/ratelimit), [K8sCred] (k8s/credentials.go, factory.go), [Authn]
      (server/authn), [Oidc] and [OAuth2] (server/oauth2.go, utils/template), [Auth]
      (server/auth.go), [Password] (password, api/account.go), [Config] (config/server and the
      parts of cmd/server/main.go that interpret it).
    - [Flowpb] (flowpb): protobuf's enumerations, messages and accessors. [Flow], [FlowFilter],
      [FlowStream] (apis/v1/flow.go, handlers/flowstream): the conversion of flow records, the
      request to the Flow Aggregator, and the two loops that stream its answers, as interleaved
      steps; [FlowStreamEnd]: how they end. [Access] (handlers/access), [Plugins]
      (plugins, api/plugins.go): the two registries kept by Kubernetes watches. [Traceflow]
      (handlers/traceflow), [Api] (api/k8s_errors.go, traceflow.go, access.go).
    - [AntreaSvc] (handlers/antreasvc, api/featuregates.go): the client factory rebuilt on each CA
      bundle and the requests sent through it. [PortForward] (utils/portforwarder and the loop of
      antreasvc/handler.go): the goroutines of a port-forwarding round as a step relation; [SvcForward]: the loop that
      repeats it.
      [GoHttp], [K8sProxy] (handlers/k8sproxy, api/k8s.go): the reverse proxy of /api/v1/k8s.
    - [Server] (server/server.go, api/server.go and every Add...Routes): the routes, their
      middlewares, and a request through its chain; the handlers are an argument of
      [Server.serve], so its theorems hold for any. [Startup] (cmd/server/main.go, env, version,
      signals, k8s/client.go): how all of it is built from the configuration. [Lifecycle] (the rest of
      cmd/server/main.go): the process from there to its exit, with its workers, its requests, its
      signals and its shutdown as events.
    - [EndToEnd]: the components composed over the store: from a login to a request as that user, and
      from a 401 of the API server to the end of the session for every route, and a Traceflow from
      its creation to the sweep. [Renewal]: a request that finds the credential about to expire.
    - [AuthDemo], [ApiDemo], [ServerDemo] and the [Demo] modules: concrete instances at which theorems are applied.

    ** What the theorems show

    - Sessions, with the store's operations one after another, as they are in every state
      [SessionInv.reachable] describes: every reachable store keeps its invariant (caps, expiry,
      separate memory); it simulates the abstract store; deletion and eviction erase every byte; an
      expired or unknown session is never served; a refresh that fails loses nothing; while the
      sweep keeps to its schedule and the clock never goes back, no secret outlives the limits by
      more than one period ([SessionSweep.sweep_bounds_retention]). With requests interleaved:
      they never deadlock and one refresh runs at a time, but a deletion that overlaps a refresh
      does not last (among the findings below).
    - Login: a session starts only after the API server accepted the credential (or the admin
      password compared), a failed login leaves no session, cookie or secret; redirects stay on
      the server's origin, as a browser reads them; cross-origin requests are refused; the OIDC callback demands a signed state,
      a verified token and this browser's nonce, and an honest flow passes all three.
    - API: a 401 from the API server, and nothing else, ends the session; an access summary is
      complete or an error; namespace discovery is exact; the plugin index and its files agree; the
      flow stream asks for what the query says, neither reorders nor loses events, ends with its
      session, and leaves no goroutine behind; a password change survives a restart.
    - Server: whatever the configuration, no route that acts for a user is without the
      authentication middleware, no login without the cross-origin gate, the body limit and the
      limiter, and nothing runs behind a gate that refused; the process only listens with the
      components its routes use in place. The proxy forwards no credential or identity of the
      client's and just the path the route captured; from a rotation of the CA on, every
      session's requests go through transports that the factory of the new bundle built, and those
      of earlier bundles are released at the first of them ([AntreaSvc.rotation_supersedes]).
    - Components under load: concurrent logins and password changes are linearizable
      ([PasswordConc.password_linearizable]), and so are requests for plugins while ConfigMaps come
      and go ([PluginsConc.registry_linearizable]); no client gets more from the rate limiter by
      sending its requests at once ([RateLimitConc.concurrent_clients_limited]).
    - Process: a stop ends it within twelve steps of its own ([Lifecycle.stop_terminates]), and its
      exit status tells how it ended ([Lifecycle.process_exit_status]).
    - End to end: a request with the cookie of a login goes to the API server with exactly the
      credential of that login, for as long as the session is in the store and within its time
      limits, whatever other operations run in between ([EndToEnd.login_then_use]); one that an identity provider can renew is renewed before it is
      used ([Renewal.renewed_before_use]); once the API server answered it 401, no route accepts the cookie
      ([EndToEnd.revoked_session_ends]); a Traceflow's status sends its client to the result exactly
      when there is one ([EndToEnd.traceflow_life]).
    - Port forwarding: a round ends once it is stopped or the connection is lost, and the address
      it published goes with it; the loop then tries again, whatever happened.
    - Findings, proved: closing the stop channel of a port forwarder leaves it forwarding
      ([PortForward.stop_leaves_forwarding]); a refresh in flight revives a deleted session
      ([SessionConc.delete_undone_by_refresh]); one failed read of its Secret at startup resets the
      admin password ([Password.Init_forgets_password]); the error of a broken flow stream can be
      lost ([FlowStream.stream_error_race]); a stop with a flow stream attached always runs into its
      deadline and fails ([Lifecycle.open_stream_fails_stop]); of two password changes at once both
      can succeed, the second with a current password that no longer is
      ([PasswordConc.password_change_race]).

    ** Bounds and fuel

    [SessionStore.gc_loop] takes as fuel the number of ids left, one batch takes at least one;
    [GoStrings.itoa_fuel] takes 20, the digits of a 64-bit integer; [Oidc.replace_vars] the length of
    the template, of which every round consumes a byte; [Oidc.Init_loop] counts discovery attempts,
    and [Oidc.Init_loop_spec] shows that it ends with the first attempt that succeeds or wait that
    is cancelled; with less fuel than that [Startup.run] says [Waiting].

    The event-driven parts need no fuel: the theorems hold for every list of events, and bound the
    steps the program takes by itself by a rank: twelve for the process, six for the end of a
    forwarding round, four and two for each response for the subscriber of a stream.

    ** Not modelled

    When timers fire: a tick of the sweep, of the Traceflow collector, of the forwarding loop or of
    the keep-alive is an event, and where a theorem depends on the schedule it is a hypothesis. The
    informers and the CA controller of client-go that deliver the events modelled here, net/http
    below [ListenAndServe] and [Shutdown], gin's matching of a URL to a route, viper's reading of
    flags, environment and files, and logging, except where a log entry is all an error leaves. Of
    the code generated from protobuf: descriptors, reflection, the wire format, and the stubs of
    the server, which this program never runs. *)
From stdpp Require Export base relations gmap strings list fin_maps sorting.
From Stdlib Require Export ZArith Lia.
From Stdlib Require Export Ascii.

Set Default Proof Using "Type".

(** ** Go integers *)

Open Scope Z_scope.

Definition int64_min : Z := -9223372036854775808.
Definition int64_max : Z := 9223372036854775807.

(** Two's complement wrap-around of a 64-bit signed integer. *)
Definition wrap64 (z : Z) : Z := (z + 2^63) mod 2^64 - 2^63.

(** ** Results: Go's [(value, error)] pairs *)

Inductive result (E A : Type) : Type :=
| Ok (a : A)
| Err (e : E).
Arguments Ok {E A} a.
Arguments Err {E A} e.

#[export] Instance result_eq_dec `{EqDecision E, EqDecision A} : EqDecision (result E A).
Proof. solve_decision. Defined.

Definition is_ok {E A} (r : result E A) : bool :=
  match r with Ok _ => true | Err _ => false end.

(** ** State passing *)

Definition ST (S A : Type) : Type := S -> A * S.

#[export] Instance ST_ret {S} : MRet (ST S) := fun A a s => (a, s).
#[export] Instance ST_bind {S} : MBind (ST S) :=
  fun A B f m s => let '(a, s') := m s in f a s'.

Definition get_st {S} : ST S S := fun s => (s, s).
Definition put_st {S} (s : S) : ST S unit := fun _ => (tt, s).
Definition modify {S} (f : S -> S) : ST S unit := fun s => (tt, f s).
Definition gets {S A} (f : S -> A) : ST S A := fun s => (f s, s).
Definition run_st {S A} (m : ST S A) (s : S) : A * S := m s.
Definition exec {S A} (m : ST S A) (s : S) : S := snd (m s).
Definition eval {S A} (m : ST S A) (s : S) : A := fst (m s).
Definition when {S} (b : bool) (m : ST S unit) : ST S unit :=
  if b then m else mret tt.

Fixpoint mfor {S A} (l : list A) (f : A -> ST S unit) : ST S unit :=
  match l with
  | [] => mret tt
  | x :: l' => f x ;; mfor l' f
  end.

(** Unfolding of the state monad, for proofs by symbolic execution. *)
Lemma bind_ret {S A B} (a : A) (f : A -> ST S B) : (mret a ≫= f) = f a.
Proof. reflexivity. Qed.

Lemma bind_run {S A B} (m : ST S A) (f : A -> ST S B) (s : S) :
  (m ≫= f) s = let '(a, s') := m s in f a s'.
Proof. reflexivity. Qed.

Lemma mfor_app {S A} (l1 l2 : list A) (f : A -> ST S unit) (s : S) :
  mfor (l1 ++ l2) f s = (mfor l1 f ;; mfor l2 f) s.
Proof.
  revert s; induction l1 as [|x l1 IH]; intros s; [reflexivity|].
  simpl. rewrite !bind_run. destruct (f x s) as [[] s1]. rewrite IH. reflexivity.
Qed.

Lemma mfor_snoc {S A} (l : list A) (a : A) (f : A -> ST S unit) (s : S) :
  exec (mfor (l ++ [a]) f) s = exec (f a) (exec (mfor l f) s).
Proof.
  unfold exec. rewrite mfor_app, bind_run. destruct (mfor l f s) as [[] s1]. cbn [mfor snd].
  rewrite bind_run. by destruct (f a s1) as [[] s2].
Qed.

Lemma last_filter_snoc {A} (P : A -> Prop) `{!forall a, Decision (P a)} l (a : A) :
  last (filter P (l ++ [a])) = if decide (P a) then Some a else last (filter P l).
Proof.
  rewrite filter_app, filter_cons. case_decide; cbn [filter list_filter]; [by rewrite last_snoc|by rewrite app_nil_r].
Qed.

(** An invariant kept by every iteration is kept by the loop. *)
Lemma mfor_inv {S A} (P : S -> Prop) (l : list A) (f : A -> ST S unit) (s : S) :
  (forall x s, x ∈ l -> P s -> P (exec (f x) s)) -> P s -> P (exec (mfor l f) s).
Proof.
  revert s; induction l as [|x l IH]; intros s Hf Hs; [done|].
  unfold exec in *; simpl. rewrite bind_run.
  specialize (Hf x s ltac:(left) Hs) as Hx. destruct (f x s) as [[] s1] eqn:E.
  apply IH; [|done]. intros y s' Hy. apply Hf. by right.
Qed.

(** ** Time *)

(** A [time.Time] is its number of nanoseconds since the zero time (January 1, year 1, UTC), so
    that [IsZero] is a comparison with 0. A [time.Duration] is an int64 number of nanoseconds. *)
Definition time := Z.
Definition duration := Z.

Definition time_zero : time := 0.
Definition time_IsZero (t : time) : bool := t =? 0.
Definition time_Add (t : time) (d : duration) : time := t + d.
Definition time_Before (t u : time) : bool := t <? u.
Definition time_After (t u : time) : bool := u <? t.

(** [Time.Sub] saturates at the bounds of an int64 [Duration]. *)
Definition time_Sub (t u : time) : duration :=
  Z.max int64_min (Z.min int64_max (t - u)).

Definition Nanosecond : duration := 1.
Definition Second : duration := 1000000000.
Definition Minute : duration := 60 * Second.
Definition Hour : duration := 60 * Minute.

(** [time.Unix(sec, 0)]: the seconds are moved to the zero time's epoch in an int64. *)
Definition unix_to_internal : Z := 62135596800.
Definition time_Unix (sec : Z) : time := wrap64 (sec + unix_to_internal) * Second.

Lemma time_Sub_le t u d :
  0 <= d < int64_max -> time_Sub t u <= d <-> t - u <= d.
Proof. unfold time_Sub, int64_min, int64_max. lia. Qed.

(** ** Iteration over a Go map

    [for k, v := range m] visits every entry once, in an order the language does not fix. An
    operation that ranges over a map takes the order as an argument; its theorems hold for each. *)
Class RangeOrder := {
  range_map : forall {A : Type}, gmap string A -> list (string * A);
  range_perm : forall {A : Type} (m : gmap string A), range_map m ≡ₚ map_to_list m;
}.

Definition range_default : RangeOrder :=
  {| range_map A m := map_to_list m; range_perm A m := Permutation_refl _ |}.

Lemma elem_of_range `{RangeOrder} {A} (m : gmap string A) k v :
  (k, v) ∈ range_map m <-> m !! k = Some v.
Proof. rewrite (range_perm m). apply elem_of_map_to_list. Qed.

Lemma range_NoDup `{RangeOrder} {A} (m : gmap string A) : NoDup (range_map m).*1.
Proof. rewrite (range_perm m). apply NoDup_fst_map_to_list. Qed.

Lemma length_range `{RangeOrder} {A} (m : gmap string A) :
  length (range_map m) = size m.
Proof. rewrite (range_perm m). apply length_map_to_list. Qed.

(** ** Strings *)

(** A Go string or byte array is a [string]: a sequence of bytes. *)
Definition NUL : ascii := Ascii.zero.

Fixpoint string_map (f : ascii -> ascii) (s : string) : string :=
  match s with
  | EmptyString => EmptyString
  | String c s' => String (f c) (string_map f s')
  end.

Fixpoint string_forallb (p : ascii -> bool) (s : string) : bool :=
  match s with
  | EmptyString => true
  | String c s' => p c && string_forallb p s'
  end.

(** [strings.Cut] around the first occurrence of a byte. *)
Fixpoint strings_Cut (s : string) (sep : ascii) : string * string * bool :=
  match s with
  | EmptyString => (EmptyString, EmptyString, false)
  | String c s' =>
      if decide (c = sep) then (EmptyString, s', true)
      else let '(a, b, f) := strings_Cut s' sep in (String c a, b, f)
  end.
