(* ===== verification/Steps.v ===== *)
(** * Runs of a step function

    The concurrent parts of the program are step functions: [step e s] is the state after the event
    [e], or [None] where [e] cannot happen in [s]. A run is a sequence of events, an interleaving of
    the goroutines. What the components' proofs share: runs compose, an invariant of the steps holds
    along a run, and a run has no more steps of a kind than its states can pay for. *)
From S2P Require Import Prelude.

Section Steps.
Context {E S : Type} (step : E -> S -> option S).
Implicit Types (e : E) (l : list E) (s : S).

Fixpoint run_steps (l : list E) (s : S) : option S :=
  match l with
  | [] => Some s
  | e :: l => s' ← step e s; run_steps l s'
  end.

Lemma run_steps_app l1 l2 s : run_steps (l1 ++ l2) s = run_steps l1 s ≫= run_steps l2.
Proof. revert s; induction l1 as [|e l1 IH]; intros s; cbn; [done|]. destruct (step e s); cbn; [apply IH|done]. Qed.

Lemma run_steps_snoc l e s s' :
  run_steps (l ++ [e]) s = Some s' -> exists s1, run_steps l s = Some s1 /\ step e s1 = Some s'.
Proof.
  rewrite run_steps_app. intros (s1 & H1 & (s2 & H2 & [= <-])%bind_Some)%bind_Some. by exists s1.
Qed.

Lemma run_steps_cons e l s s' :
  run_steps (e :: l) s = Some s' -> exists s1, step e s = Some s1 /\ run_steps l s1 = Some s'.
Proof. cbn. by intros (s1 & H1 & H2)%bind_Some; exists s1. Qed.

(** An invariant of the steps holds along a run. *)
Lemma run_steps_inv (I : S -> Prop) l s s' :
  (forall e s s', I s -> step e s = Some s' -> I s') ->
  I s -> run_steps l s = Some s' -> I s'.
Proof.
  intros Hstep. revert s; induction l as [|e l IH]; cbn; intros s Hs; [by intros [= <-]|].
  intros (s1 & H1 & H2)%bind_Some. by apply (IH s1); [eapply Hstep|].
Qed.

(** The same, for an invariant that speaks of the events so far. *)
Lemma run_steps_hist (I : list E -> S -> Prop) s0 l s :
  I [] s0 -> (forall l e s s', I l s -> step e s = Some s' -> I (l ++ [e]) s') ->
  run_steps l s0 = Some s -> I l s.
Proof.
  intros H0 Hstep. revert s; induction l as [|e l IH] using rev_ind; intros s H; [by injection H as <-|].
  apply run_steps_snoc in H as (s1 & H1 & H2). eapply Hstep; [by apply IH|done].
Qed.

(** ** Budgets

    [cost] is what a step of some kind takes from the measure of a state, [credit] what an event
    from outside may add to it: a run costs no more than it started with and was credited. *)
Fixpoint total (f : E -> nat) (l : list E) : nat :=
  match l with [] => 0%nat | e :: l => (f e + total f l)%nat end.

Lemma total_app f l1 l2 : total f (l1 ++ l2) = (total f l1 + total f l2)%nat.
Proof. induction l1 as [|e l1 IH]; cbn; [done|]. rewrite IH. lia. Qed.

Lemma run_steps_budget (I : S -> Prop) (rank : S -> nat) (cost credit : E -> nat) l s s' :
  (forall e s s', I s -> step e s = Some s' -> I s' /\ (cost e + rank s' <= rank s + credit e)%nat) ->
  I s -> run_steps l s = Some s' -> I s' /\ (total cost l + rank s' <= rank s + total credit l)%nat.
Proof.
  intros Hstep. revert s; induction l as [|e l IH]; cbn; intros s Hs; [intros [= <-]; split; [done|lia]|].
  intros (s1 & H1 & H2)%bind_Some. destruct (Hstep e s s1 Hs H1) as [Hs1 Hr].
  destruct (IH s1 Hs1 H2) as [? ?]. split; [done|lia].
Qed.

(** A run of steps that all go down is no longer than the measure of its first state. *)
Lemma run_steps_rank (I : S -> Prop) (rank : S -> nat) (internal : E -> Prop) l s s' :
  (forall e s s', I s -> internal e -> step e s = Some s' -> I s' /\ (rank s' < rank s)%nat) ->
  I s -> Forall internal l -> run_steps l s = Some s' -> I s' /\ (length l + rank s' <= rank s)%nat.
Proof.
  intros Hstep Hs Hl. revert s Hs; induction Hl as [|e l He Hl IH]; cbn; intros s Hs.
  { intros [= <-]. by split. }
  intros (s1 & H1 & H2)%bind_Some. destruct (Hstep e s s1 Hs He H1) as [Hs1 ?].
  destruct (IH s1 Hs1 H2) as [? ?]. split; [done|lia].
Qed.
End Steps.
