(* ===== verification/Critical.v ===== *)
(** * Critical sections

    Several components guard their state with a [sync.RWMutex]: a method takes the lock, works in
    several steps (a hash, a call of the API server, an assignment) and releases the lock on return.
    Here such a method is a [crit], its steps one by one, and a goroutine is a sequence of sections.
    [fine] interleaves single steps as the lock allows; [coarse] runs each section in one piece, which
    is how the components' own files define their methods. The theorem that connects the two: every
    interleaving of the first has the results of one of the second. *)
From S2P Require Import Prelude.
From S2P Require Import Steps.

(** A section: the value it ends with, or its next atomic step. *)
Inductive crit (S A : Type) :=
| Return (a : A)
| Step (f : S -> crit S A * S).
Arguments Return {S A}.
Arguments Step {S A}.

Fixpoint run_crit {S A} (c : crit S A) (s : S) : A * S :=
  match c with
  | Return a => (a, s)
  | Step f => match f s with (c', s') => run_crit c' s' end
  end.

(** A section that holds the lock for reading must not write. *)
Fixpoint read_only {S A} (c : crit S A) : Prop :=
  match c with
  | Return _ => True
  | Step f => forall s, (f s).2 = s /\ read_only (f s).1
  end.

(** The induction principle of [crit]: every state after a step. *)
Definition crit_rect' {S A} (P : crit S A -> Prop) (HR : forall a, P (Return a))
    (HS : forall f, (forall s, P (f s).1) -> P (Step f)) : forall c, P c :=
  fix rec c := match c with Return a => HR a | Step f => HS f (fun s => rec (f s).1) end.

Lemma run_crit_step {S A} (f : S -> crit S A * S) s : run_crit (Step f) s = run_crit (f s).1 (f s).2.
Proof. cbn. by destruct (f s). Qed.

Lemma read_only_run {S A} (c : crit S A) s : read_only c -> (run_crit c s).2 = s.
Proof.
  revert s. induction c as [a|f IH] using crit_rect'; intros s; [done|]. intros Hc. destruct (Hc s) as [E H].
  rewrite run_crit_step, E. by apply IH.
Qed.

Inductive mode := RLock | Lock.

#[export] Instance mode_eq_dec : EqDecision mode.
Proof. solve_decision. Defined.

Section Threads.
Context {S X A : Type}.

(** What a goroutine does: it ends with an answer, or enters a section. *)
Inductive prog :=
| Answer (a : A)
| Section_ (m : mode) (c : crit S X) (k : X -> prog).

(** A goroutine that nothing interrupts. *)
Fixpoint run_prog (p : prog) (s : S) : A * S :=
  match p with
  | Answer a => (a, s)
  | Section_ _ c k => let '(x, s') := run_crit c s in run_prog (k x) s'
  end.

Inductive thread :=
| Outside (p : prog)
| Inside (m : mode) (c : crit S X) (k : X -> prog).

(** The goroutines and the state they share. *)
Record sys := mkSys { sy_threads : gmap nat thread; sy_state : S }.

Definition set_thread (n : nat) (t : thread) (x : sys) : sys :=
  mkSys (<[n := t]> (sy_threads x)) (sy_state x).

(** Whether the lock can be taken: for reading while nobody writes, for writing while nobody is in. *)
Definition blocks (m : mode) (t : thread) : bool :=
  match t, m with
  | Inside Lock _ _, _ => true
  | Inside RLock _ _, Lock => true
  | _, _ => false
  end.
Definition free (m : mode) (x : sys) : Prop := map_Forall (fun _ t => blocks m t = false) (sy_threads x).

#[export] Instance free_dec m x : Decision (free m x).
Proof. unfold free. apply _. Defined.

Inductive event :=
| Spawn (n : nat) (p : prog)
(** Take the lock, make one step under it, release it. *)
| Enter (n : nat) | Act (n : nat) | Leave (n : nat)
(** A whole section at once. *)
| Whole (n : nat).

Definition spawn (n : nat) (p : prog) (x : sys) : option sys :=
  match sy_threads x !! n with None => Some (set_thread n (Outside p) x) | Some _ => None end.

Definition fine_step (e : event) (x : sys) : option sys :=
  match e with
  | Spawn n p => spawn n p x
  | Enter n =>
      match sy_threads x !! n with
      | Some (Outside (Section_ m c k)) => if decide (free m x) then Some (set_thread n (Inside m c k) x) else None
      | _ => None
      end
  | Act n =>
      match sy_threads x !! n with
      | Some (Inside m (Step f) k) =>
          let '(c', s') := f (sy_state x) in Some (mkSys (<[n := Inside m c' k]> (sy_threads x)) s')
      | _ => None
      end
  | Leave n =>
      match sy_threads x !! n with
      | Some (Inside m (Return a) k) => Some (set_thread n (Outside (k a)) x)
      | _ => None
      end
  | Whole _ => None
  end.

Definition coarse_step (e : event) (x : sys) : option sys :=
  match e with
  | Spawn n p => spawn n p x
  | Whole n =>
      match sy_threads x !! n with
      | Some (Outside (Section_ m c k)) =>
          let '(a, s') := run_crit c (sy_state x) in Some (mkSys (<[n := Outside (k a)]> (sy_threads x)) s')
      | _ => None
      end
  | _ => None
  end.

Definition fine : list event -> sys -> option sys := run_steps fine_step.
Definition coarse : list event -> sys -> option sys := run_steps coarse_step.

(** The sections that read only are those under [RLock], in every section a goroutine can reach. *)
Inductive disciplined : prog -> Prop :=
| disc_answer a : disciplined (Answer a)
| disc_section m c k : (m = RLock -> read_only c) -> (forall x, disciplined (k x)) -> disciplined (Section_ m c k).

(** What was started, by whom. *)
Definition spawned : list event -> list (nat * prog) :=
  omap (fun e => match e with Spawn n p => Some (n, p) | _ => None end).

(** Every goroutine started is of a kind. *)
Definition spawns_only (P : prog -> Prop) (l : list event) : Prop :=
  Forall (fun e => match e with Spawn _ p => P p | _ => True end) l.

Lemma spawns_only_spawned P l : spawns_only P l <-> forall n p, (n, p) ∈ spawned l -> P p.
Proof.
  unfold spawns_only, spawned. rewrite Forall_forall. setoid_rewrite list_elem_of_omap. split.
  - intros H n p (e & He & Hp). specialize (H e He). destruct e; by simplify_eq/=.
  - intros H e He. destruct e as [n p| | | |]; try done. apply (H n p). by exists (Spawn n p).
Qed.

(** The goroutine has answered [a]. *)
Definition answered (n : nat) (a : A) (x : sys) : Prop := sy_threads x !! n = Some (Outside (Answer a)).

(** ** The refinement

    [s] is the state of the coarse system, [s1] that of the fine one. A section in progress is, in the
    coarse system, one that has not begun: what is left of it ends as the whole of it would. *)
Inductive matches (s s1 : S) : thread -> thread -> Prop :=
| m_outside p : disciplined p -> matches s s1 (Outside p) (Outside p)
| m_inside m c c0 k :
    run_crit c s1 = run_crit c0 s -> (m = RLock -> read_only c) -> (m = RLock -> read_only c0) ->
    (forall x, disciplined (k x)) ->
    matches s s1 (Inside m c k) (Outside (Section_ m c0 k)).

Definition is_writer (t : thread) : bool := match t with Inside Lock _ _ => true | _ => false end.
Definition is_inside (t : thread) : bool := match t with Inside _ _ _ => true | _ => false end.

Record simulates (x y : sys) : Prop := mkSim {
  sim_threads : forall n, match sy_threads x !! n, sy_threads y !! n with
    | Some t, Some t' => matches (sy_state y) (sy_state x) t t'
    | None, None => True
    | _, _ => False
    end;
  (** A writer is alone. *)
  sim_writer : forall n t n' t', sy_threads x !! n = Some t -> is_writer t = true ->
    sy_threads x !! n' = Some t' -> is_inside t' = true -> n' = n;
  sim_state : (forall n t, sy_threads x !! n = Some t -> is_writer t = false) -> sy_state x = sy_state y;
}.

Lemma matches_outside s s1 t' p : matches s s1 (Outside p) t' -> t' = Outside p /\ disciplined p.
Proof. intros H. by inversion H. Qed.

Lemma outside_matches s s1 s' s1' u u' : is_inside u = false -> matches s s1 u u' -> matches s' s1' u u'.
Proof. intros Hu H. destruct H; [by constructor|done]. Qed.

(** One goroutine moves in both systems, the states with it. *)
Lemma sim_set n t t' x y s1' s' :
  simulates x y -> matches s' s1' t t' ->
  (forall m u u', m <> n -> sy_threads x !! m = Some u ->
     matches (sy_state y) (sy_state x) u u' -> matches s' s1' u u') ->
  (forall m u, m <> n -> sy_threads x !! m = Some u ->
     (is_writer t = true -> is_inside u = false) /\ (is_inside t = true -> is_writer u = false)) ->
  (is_writer t = false -> (forall m u, m <> n -> sy_threads x !! m = Some u -> is_writer u = false) -> s1' = s') ->
  simulates (mkSys (<[n := t]> (sy_threads x)) s1') (mkSys (<[n := t']> (sy_threads y)) s').
Proof.
  intros [H1 H2 H3] Ht Hu Hw Hs. split; cbn.
  - intros m. rewrite !lookup_insert. case_decide as Hm; [done|]. specialize (H1 m).
    destruct (sy_threads x !! m) eqn:E, (sy_threads y !! m); try done. by eapply Hu.
  - intros m u m' u'. rewrite !lookup_insert.
    case_decide as Hm; case_decide as Hm'; subst; [done|..].
    + intros [= <-] W E I. apply (Hw m' u') in E as [E _]; [|done]. rewrite E in I; done.
    + intros E W [= <-] I. apply (Hw m u) in E as [_ E]; [|done]. rewrite E in W; done.
    + apply H2.
  - intros Hno. apply Hs.
    + apply (Hno n t). by rewrite lookup_insert_eq.
    + intros m u Hm E. apply (Hno m u). by rewrite lookup_insert_ne.
Qed.

Lemma sim_spawn n p x y x' :
  simulates x y -> disciplined p -> spawn n p x = Some x' -> exists y', spawn n p y = Some y' /\ simulates x' y'.
Proof.
  intros Hsim Hp Hs. unfold spawn in *. pose proof (sim_threads _ _ Hsim n) as Hn.
  destruct (sy_threads x !! n) eqn:E; [done|]. injection Hs as <-.
  destruct (sy_threads y !! n) eqn:E'; [done|]. eexists. split; [done|]. unfold set_thread.
  apply sim_set; [done|by constructor|done|done|]. intros _ Hno. apply (sim_state _ _ Hsim).
  intros m u Hm. apply (Hno m u); [|done]. intros ->. congruence.
Qed.

(** Every step of the fine system is none or one of the coarse one. *)
Lemma sim_step e x y x' :
  simulates x y -> spawns_only disciplined [e] -> fine_step e x = Some x' ->
  exists l y', coarse l y = Some y' /\ spawned l = spawned [e] /\ simulates x' y'.
Proof.
  intros Hsim He%Forall_inv Hs. destruct e as [n p|n|n|n|n]; cbn in Hs, He; [..|done].
  - apply (sim_spawn n p x y x' Hsim He) in Hs as (y' & Hy & Hsim'). exists [Spawn n p], y'.
    split; [cbn; by rewrite Hy|done].
  - pose proof (sim_threads _ _ Hsim n) as Hn. destruct (sy_threads x !! n) as [[[a|m c k]|]|] eqn:E; try done.
    case_decide as Hf; [|done]. injection Hs as <-. destruct (sy_threads y !! n) as [t'|] eqn:E'; [|done].
    apply matches_outside in Hn as [-> Hd]. inversion Hd as [|m' c' k' Hro Hk]; subst.
    assert (Hnw : forall i u, sy_threads x !! i = Some u -> is_writer u = false).
    { intros i u Hi. specialize (Hf i u Hi). destruct u as [|[] ? ?]; done. }
    exists [], y. split; [done|]. split; [done|]. unfold set_thread.
    destruct y as [ty sy]. rewrite <- (insert_id ty n _ E'). cbn in *.
    pose proof (sim_state _ _ Hsim Hnw) as Hst. apply (sim_set n _ _ x (mkSys ty sy)); cbn; try done.
    + constructor; try done. by rewrite Hst.
    + intros i u Hi Hu. split; [|intros _; by apply (Hnw i)]. specialize (Hf i u Hu).
      destruct m, u as [|[] ? ?]; done.
  - pose proof (sim_threads _ _ Hsim n) as Hn. destruct (sy_threads x !! n) as [[|m [a|f] k]|] eqn:E; try done.
    destruct (f (sy_state x)) as [c' s'] eqn:Ef. injection Hs as <-.
    destruct (sy_threads y !! n) as [t'|] eqn:E'; [|done]. inversion Hn as [|? ? c0 ? Hrun Hro Hro0 Hk]; subst.
    exists [], y. split; [done|]. split; [done|]. destruct y as [ty sy]. rewrite <- (insert_id ty n _ E'). cbn in *.
    rewrite Ef in Hrun. assert (Hother : forall i u, i <> n -> sy_threads x !! i = Some u ->
      (m = Lock -> is_inside u = false) /\ is_writer u = false).
    { intros i u Hi Hu. split.
      - intros ->. destruct (is_inside u) eqn:I; [|done]. by destruct Hi, (sim_writer _ _ Hsim n _ i u E eq_refl Hu I).
      - destruct (is_writer u) eqn:W; [|done]. by destruct Hi; symmetry; eapply (sim_writer _ _ Hsim i u n _ Hu W E). }
    apply (sim_set n _ _ x (mkSys ty sy)); cbn; try done.
    + constructor; try done. intros ->. destruct (Hro eq_refl (sy_state x)) as [_ H]. by rewrite Ef in H.
    + intros i u u' Hi Hu Hm. destruct m; [|by eapply outside_matches, Hm; eapply Hother].
      destruct (Hro eq_refl (sy_state x)) as [H _]. rewrite Ef in H. cbn in H. by subst s'.
    + intros i u Hi Hu. destruct (Hother i u Hi Hu) as [Hin Hwr]. by destruct m; split; auto.
    + destruct m; [|done]. intros _ Hno. destruct (Hro eq_refl (sy_state x)) as [H _]. rewrite Ef in H. cbn in H. subst s'.
      apply (sim_state _ _ Hsim). intros i u Hu. destruct (decide (i = n)) as [->|Hi]; [|by apply (Hno i)].
      rewrite E in Hu. by injection Hu as <-.
  - pose proof (sim_threads _ _ Hsim n) as Hn. destruct (sy_threads x !! n) as [[|m [a|f] k]|] eqn:E; try done.
    injection Hs as <-. destruct (sy_threads y !! n) as [t'|] eqn:E'; [|done].
    inversion Hn as [|? ? c0 ? Hrun Hro Hro0 Hk]; subst. cbn in Hrun. symmetry in Hrun.
    exists [Whole n], (mkSys (<[n := Outside (k a)]> (sy_threads y)) (sy_state x)).
    split; [cbn; by rewrite E', Hrun|]. split; [done|].
    unfold set_thread. apply sim_set; [done|by constructor|..|done|done].
    intros i u u' Hi Hu Hm. destruct m.
    + pose proof (read_only_run c0 (sy_state y) (Hro0 eq_refl)) as H. rewrite Hrun in H. cbn in H. by rewrite <- H in Hm.
    + eapply outside_matches, Hm. destruct (is_inside u) eqn:I; [|done].
      by destruct Hi, (sim_writer _ _ Hsim n _ i u E eq_refl Hu I).
Qed.

(** Every interleaving has a sequential explanation: a run in which the same goroutines are started
    in the same order and every section is one step, that ends in a matching state. *)
Lemma sections_atomic l x y x' :
  simulates x y -> spawns_only disciplined l -> fine l x = Some x' ->
  exists l' y', coarse l' y = Some y' /\ spawned l' = spawned l /\ simulates x' y'.
Proof.
  intros Hsim Hl. revert x'; induction l as [|e l IH] using rev_ind; intros x' H.
  - injection H as <-. by exists [], y.
  - apply run_steps_snoc in H as (x1 & H1 & H2). apply Forall_app in Hl as [Hl He].
    destruct (IH Hl x1 H1) as (l1 & y1 & Hy1 & Hs1 & Hsim1). destruct (sim_step e x1 y1 x' Hsim1 He H2) as (l2 & y2 & Hy & Hs2 & Hsim2).
    exists (l1 ++ l2), y2. split; [|split; [|done]].
    + unfold coarse. rewrite run_steps_app. fold coarse. by rewrite Hy1.
    + unfold spawned in *. by rewrite !omap_app, Hs1, Hs2.
Qed.

Lemma sim_init s : simulates (mkSys ∅ s) (mkSys ∅ s).
Proof.
  split; [by intros n; cbn; rewrite lookup_empty| |done]. intros n t n' t' Hn. cbn in Hn. by rewrite lookup_empty in Hn.
Qed.

Lemma sim_started x y n : simulates x y -> is_Some (sy_threads x !! n) <-> is_Some (sy_threads y !! n).
Proof.
  intros Hsim. pose proof (sim_threads _ _ Hsim n) as H.
  destruct (sy_threads x !! n), (sy_threads y !! n); try done; split; (by eexists) || by intros [].
Qed.

(** The answers are those of the sequential run, and so are the threads and the state as soon as
    nobody holds the lock. *)
Lemma sim_answered x y n a : simulates x y -> answered n a x -> answered n a y.
Proof.
  intros Hsim Ha. pose proof (sim_threads _ _ Hsim n) as Hn. unfold answered in *. rewrite Ha in Hn.
  destruct (sy_threads y !! n); [|done]. by apply matches_outside in Hn as [-> _].
Qed.

Lemma sim_quiescent x y :
  simulates x y -> (forall n t, sy_threads x !! n = Some t -> is_inside t = false) -> x = y.
Proof.
  intros Hsim Hno. pose proof (sim_threads _ _ Hsim) as Ht. pose proof (sim_state _ _ Hsim) as Hs.
  destruct x as [tx sx], y as [ty sy]; cbn in *. f_equal; [|apply Hs; intros n t E; specialize (Hno n t E); by destruct t].
  apply map_eq. intros n. specialize (Ht n). destruct (tx !! n) as [[p|]|] eqn:E.
  - destruct (ty !! n); [|done]. by apply matches_outside in Ht as [-> _].
  - by specialize (Hno n _ E).
  - by destruct (ty !! n).
Qed.

(** Nobody waits for ever: as long as a goroutine has not answered, some goroutine can go on. *)
Lemma never_stuck x n t :
  sy_threads x !! n = Some t -> (forall a, t <> Outside (Answer a)) ->
  exists e x', fine_step e x = Some x' /\ match e with Spawn _ _ => False | _ => True end.
Proof.
  intros Hn Ha.
  destruct (decide (map_Forall (fun _ u => is_inside u = false) (sy_threads x))) as [Hf|Hin].
  - pose proof (Hf n t Hn) as Ht. destruct t as [[a|m c k]|]; [by destruct (Ha a)| |done].
    exists (Enter n). cbn. rewrite Hn. rewrite decide_True; [by eexists|].
    intros i u Hu. specialize (Hf i u Hu). by destruct m, u.
  - apply map_not_Forall in Hin as (i & u & Hu & Hi); [|intros; apply _]. destruct u as [|m [a|f] k]; [done|..].
    + exists (Leave i). cbn. rewrite Hu. by eexists.
    + exists (Act i). cbn. rewrite Hu. destruct (f (sy_state x)). by eexists.
Qed.

(** ** A goroutine that nothing interrupts *)

Definition quiet (x : sys) : Prop := forall n t, sy_threads x !! n = Some t -> is_inside t = false.

(** The steps of goroutine [n] alone. *)
Definition acts_of (n : nat) (l : list event) : Prop := Forall (fun e => e = Enter n \/ e = Act n \/ e = Leave n) l.

Lemma crit_alone n m (c : crit S X) k threads s :
  exists l, acts_of n l /\
    fine l (mkSys (<[n := Inside m c k]> threads) s) =
      Some (mkSys (<[n := Outside (k (run_crit c s).1)]> threads) (run_crit c s).2).
Proof.
  revert s; induction c as [a|f IH] using crit_rect'; intros s.
  - exists [Leave n]. split; [apply Forall_singleton; auto|]. cbn. rewrite lookup_insert_eq. cbn.
    unfold set_thread. cbn. by rewrite insert_insert_eq.
  - destruct (IH s (f s).2) as (l & Hl & Hr). exists (Act n :: l). split; [apply Forall_cons; auto|].
    rewrite run_crit_step. cbn. rewrite lookup_insert_eq. destruct (f s) as [c' s']. cbn in *.
    by rewrite insert_insert_eq.
Qed.

(** Its next section, from a moment at which nobody holds the lock. *)
Lemma section_alone n m c k x :
  quiet x -> sy_threads x !! n = Some (Outside (Section_ m c k)) ->
  let x' := mkSys (<[n := Outside (k (run_crit c (sy_state x)).1)]> (sy_threads x)) (run_crit c (sy_state x)).2 in
  quiet x' /\ exists l, acts_of n l /\ fine l x = Some x'.
Proof.
  intros Hq Hn x'. split.
  { intros i t. cbn. rewrite lookup_insert. case_decide; [by intros [= <-]|apply Hq]. }
  destruct (crit_alone n m c k (sy_threads x) (sy_state x)) as (l & Hl & Hr). exists (Enter n :: l).
  split; [apply Forall_cons; auto|]. cbn. rewrite Hn, decide_True; [exact Hr|].
  intros i t Ht. specialize (Hq i t Ht). by destruct m, t.
Qed.

(** The same, for what the others see. *)
Lemma next_section n m c k x :
  quiet x -> sy_threads x !! n = Some (Outside (Section_ m c k)) ->
  exists l, acts_of n l /\ exists x', fine l x = Some x' /\ quiet x' /\
    sy_state x' = (run_crit c (sy_state x)).2 /\
    sy_threads x' !! n = Some (Outside (k (run_crit c (sy_state x)).1)) /\
    (forall i, i <> n -> sy_threads x' !! i = sy_threads x !! i).
Proof.
  intros Hq Hn. destruct (section_alone n m c k x Hq Hn) as (Hq' & l & Hl & Hr).
  exists l. split; [done|]. eexists. split_and!; [exact Hr|done|done|by cbn; rewrite lookup_insert_eq|].
  intros i Hi. cbn. by rewrite lookup_insert_ne.
Qed.
End Threads.

(** ** Methods: goroutines of one section

    [section_of] gives the lock and the body of each method. *)
Section Methods.
Context {S A Req : Type} (section_of : Req -> mode * crit S A).
Context (section_reads : forall r, (section_of r).1 = RLock -> read_only (section_of r).2).

Definition method (r : Req) : prog (S := S) := Section_ (section_of r).1 (section_of r).2 Answer.

Definition of_methods : list (event (S := S) (X := A) (A := A)) -> Prop :=
  spawns_only (fun p => exists r, p = method r).

(** The state after the methods of [o], one after the other; what the one at [k] answers. *)
Definition state_after (o : list (nat * Req)) (s : S) : S :=
  foldl (fun s nr => (run_crit (section_of nr.2).2 s).2) s o.

Record serial (l : list event) (o : list (nat * Req)) (s : S) (y : sys) : Prop := mkSerial {
  sr_nodup : NoDup o.*1;
  sr_state : sy_state y = state_after o s;
  sr_started : forall n, n ∈ o.*1 -> is_Some (sy_threads y !! n);
  sr_threads : forall n t, sy_threads y !! n = Some t -> exists r, (n, method r) ∈ spawned l /\
    (t = Outside (method r) /\ n ∉ o.*1 \/
     exists k, o !! k = Some (n, r) /\ t = Outside (Answer (run_crit (section_of r).2 (state_after (take k o) s)).1));
}.

Lemma serial_step l o s y e y' :
  serial l o s y -> (forall n p, e = Spawn n p -> exists r, p = method r) -> coarse_step e y = Some y' ->
  exists o', serial (l ++ [e]) (o ++ o') s y'.
Proof.
  intros [H1 H2 H3 H4] He Hs.
  assert (Hl : forall n p, (n, p) ∈ spawned l -> (n, p) ∈ spawned (l ++ [e])).
  { intros n p Hin. unfold spawned. rewrite omap_app. apply elem_of_app. by left. }
  destruct e as [n p|n|n|n|n]; cbn in Hs; try done.
  - destruct (He n p eq_refl) as [r ->]. unfold spawn in Hs. destruct (sy_threads y !! n) eqn:E; [done|].
    injection Hs as <-. exists []. rewrite app_nil_r. split; [done|done|..]; cbn; intros i.
    + intros Hi. rewrite lookup_insert. case_decide; [by eexists|by apply H3].
    + intros t. rewrite lookup_insert. case_decide as Hi; [intros [= <-]; subst i|].
      * exists r. split; [unfold spawned; rewrite omap_app; set_solver|]. left. split; [done|].
        intros Hin%H3. rewrite E in Hin. by destruct Hin.
      * intros (r' & Hin & Hst)%H4. exists r'. split; [by apply Hl|done].
  - destruct (sy_threads y !! n) as [[[a|m c k]|]|] eqn:E; try done.
    destruct (H4 n _ E) as (r & Hin & [[Hm Hn]|(k' & _ & Hx)]); [|done]. injection Hm as -> -> ->.
    rewrite H2 in Hs. destruct (run_crit (section_of r).2 (state_after o s)) as [a s'] eqn:Er. injection Hs as <-.
    exists [(n, r)]. split; cbn.
    + rewrite fmap_app. apply NoDup_app. split; [done|]. split; [|by apply NoDup_singleton]. set_solver.
    + unfold state_after. rewrite foldl_app. cbn. fold (state_after o s). by rewrite Er.
    + intros i. rewrite lookup_insert. case_decide; [by eexists|]. rewrite fmap_app. intros Hi. apply H3. set_solver.
    + intros i t. rewrite lookup_insert. case_decide as Hi; [intros [= <-]; subst i|].
      * exists r. split; [by apply Hl|]. right. exists (length o).
        rewrite lookup_app_r, Nat.sub_diag, take_app_le, take_ge, Er by lia. done.
      * intros (r' & Hr' & Hst)%H4. exists r'. split; [by apply Hl|]. destruct Hst as [[-> Hi']|(k & Hk & ->)].
        -- left. split; [done|]. rewrite fmap_app. set_solver.
        -- right. exists k. pose proof (lookup_lt_Some _ _ _ Hk). rewrite lookup_app_l, take_app_le by lia. done.
Qed.

Lemma serial_run l o s y l2 y' :
  of_methods l2 -> serial l o s y -> coarse l2 y = Some y' -> exists o', serial (l ++ l2) (o ++ o') s y'.
Proof.
  intros Hl He. revert y'; induction l2 as [|e l2 IH] using rev_ind; intros y' H.
  - injection H as <-. exists []. by rewrite !app_nil_r.
  - apply Forall_app in Hl as [Hl Ho]. apply Forall_inv in Ho.
    apply run_steps_snoc in H as (y1 & H1 & H2). destruct (IH Hl y1 H1) as [o1 Ho1].
    destruct (serial_step _ _ _ y1 e y' Ho1) as [o2 Ho2]; [by intros n p ->|done|].
    exists (o1 ++ o2). by rewrite !(assoc_L (++)).
Qed.

Lemma of_methods_ok l : of_methods l -> spawns_only disciplined l.
Proof.
  intros Hl. eapply Forall_impl; [exact Hl|]. intros [n p| | | |]; try done. intros [r ->].
  constructor; [by apply section_reads|constructor].
Qed.

Lemma serial_answered l o s y n a :
  serial l o s y -> answered n a y -> exists r k, (n, method r) ∈ spawned l /\ o !! k = Some (n, r) /\
    a = (run_crit (section_of r).2 (state_after (take k o) s)).1.
Proof.
  intros Hs Ha. destruct (sr_threads _ _ _ _ Hs n _ Ha) as (r & Hin & [[Hr _]|(k & Hk & [= ->])]); [done|].
  by exists r, k.
Qed.

(** Every call in the order is one that was made. *)
Lemma serial_spawned l o s y n r : serial l o s y -> (n, r) ∈ o -> (n, method r) ∈ spawned l.
Proof.
  intros [H1 _ H3 H4] [k Hk]%list_elem_of_lookup.
  assert (Hn : o.*1 !! k = Some n) by (by rewrite list_lookup_fmap, Hk).
  destruct (H3 n) as [t Ht]; [by eapply list_elem_of_lookup_2|].
  destruct (H4 n t Ht) as (r' & Hin & [[_ Hno]|(k' & Hk' & _)]).
  - by destruct Hno; eapply list_elem_of_lookup_2.
  - assert (Hn' : o.*1 !! k' = Some n) by (by rewrite list_lookup_fmap, Hk').
    pose proof (NoDup_lookup _ _ _ _ H1 Hn Hn') as <-. congruence.
Qed.

(** Methods are linearizable: there is an order of the ones that took effect, each a call that was
    made and at most once, that explains every answer; the ones that were answered in a first part
    of the run come first in it. *)
Lemma methods_linearizable (l1 l2 : list event) (s : S) (x1 x2 : sys) :
  of_methods (l1 ++ l2) -> fine l1 (mkSys ∅ s) = Some x1 -> fine l2 x1 = Some x2 ->
  exists o1 o2, let o := o1 ++ o2 in NoDup o.*1 /\
    (forall n, n ∈ o1.*1 -> is_Some (sy_threads x1 !! n)) /\
    (forall n r, (n, r) ∈ o1 -> (n, method r) ∈ spawned l1) /\
    (forall n r, (n, r) ∈ o -> (n, method r) ∈ spawned (l1 ++ l2)) /\
    (forall n a, answered n a x1 -> exists r k, (n, method r) ∈ spawned l1 /\ o1 !! k = Some (n, r) /\
       a = (run_crit (section_of r).2 (state_after (take k o1) s)).1) /\
    (forall n a, answered n a x2 -> exists r k, (n, method r) ∈ spawned (l1 ++ l2) /\ o !! k = Some (n, r) /\
       a = (run_crit (section_of r).2 (state_after (take k o) s)).1) /\
    (quiet x2 -> sy_state x2 = state_after o s).
Proof.
  intros Hl H1 H2. apply Forall_app in Hl as [Hl1 Hl2].
  assert (Hre : forall l l', of_methods l -> spawned l' = spawned l -> of_methods l').
  { intros l l' Ho Hs. apply spawns_only_spawned. rewrite Hs. by apply spawns_only_spawned. }
  destruct (sections_atomic l1 _ _ x1 (sim_init s)) as (l1' & y1 & Hy1 & Hs1 & Hsim1); [by apply of_methods_ok|done|].
  destruct (sections_atomic l2 _ _ x2 Hsim1) as (l2' & y2 & Hy2 & Hs2 & Hsim2); [by apply of_methods_ok|done|].
  assert (E0 : serial [] [] s (mkSys ∅ s)).
  { split; cbn; [constructor|done|by intros n ?%elem_of_nil|]. intros n t. by rewrite lookup_empty. }
  destruct (serial_run [] [] s _ l1' y1 (Hre l1 l1' Hl1 Hs1) E0 Hy1) as [o1 E1]. cbn in E1.
  destruct (serial_run l1' o1 s y1 l2' y2 (Hre l2 l2' Hl2 Hs2) E1 Hy2) as [o2 E2].
  assert (Hspawned : spawned (l1' ++ l2') = spawned (l1 ++ l2)).
  { unfold spawned in *. by rewrite !omap_app, Hs1, Hs2. }
  exists o1, o2. split; [apply E2|]. split_and!.
  - intros n Hn. apply (sim_started x1 y1 n Hsim1). by apply E1.
  - intros n r. rewrite <- Hs1. apply (serial_spawned _ _ _ _ _ _ E1).
  - intros n r. rewrite <- Hspawned. apply (serial_spawned _ _ _ _ _ _ E2).
  - intros n a Ha. rewrite <- Hs1. by apply (serial_answered _ _ _ _ n a E1), (sim_answered x1).
  - intros n a Ha. apply (sim_answered x2 y2 n a Hsim2) in Ha.
    rewrite <- Hspawned. apply (serial_answered _ _ _ _ n a E2 Ha).
  - intros Hq. rewrite (sim_quiescent x2 y2 Hsim2 Hq). apply E2.
Qed.
End Methods.
