(* ===== verification/Session.v ===== *)
(** * Sessions and credentials ([pkg/auth/session/session.go])

    The data of the session package: byte slices with their backing arrays, [Credential], [Spec],
    [Session], the per-session transport cache, and the in-place erasure of credential material.
    Go pointers and slices are addresses into a [World], so the sharing that [Credential.Zero]
    relies on (and that [Session.Credential] warns about) is in the model. *)
From S2P Require Import Prelude.

(** ** Kinds and modes *)

Definition KindBearer : string := "bearer".
Definition KindCert : string := "cert".
Definition KindImpersonate : string := "impersonate".

Definition ModeOIDC : string := "oidc".
Definition ModeKubeconfig : string := "kubeconfig".
Definition ModeAdmin : string := "admin".
Definition ModeSAToken : string := "serviceAccountToken".

(** A byte slice is nil, or the address of its backing array. The session package never
    re-slices, so an address stands for the whole array. *)
Definition slice := option nat.

Record Credential := mkCredential {
  cr_Kind : string;
  cr_Token : slice;
  cr_CertPEM : slice;
  cr_KeyPEM : slice;
  cr_UserName : string;
  cr_ExpiresAt : time;
}.

(** The zero value [Credential{}]. *)
Definition Credential_zero_value : Credential :=
  mkCredential "" None None None "" time_zero.

(** A credential with its bytes in place of its slices: what code outside the package hands over,
    and what the abstract store of [SessionSpec] holds. [None] is a nil slice. *)
Record CredVal := mkCredVal {
  cv_Kind : string;
  cv_Token : option string;
  cv_CertPEM : option string;
  cv_KeyPEM : option string;
  cv_UserName : string;
  cv_ExpiresAt : time;
}.

(** [Credential.String]: the only rendering of a credential, without its secrets. *)
Definition Credential_String (c : Credential) : string :=
  "Credential{Kind:" +:+ cr_Kind c +:+ ",UserName:" +:+ cr_UserName c +:+ ",Redacted}".

(** ** What the session package uses of the outside world

    The i-th reading of the clock, the i-th read of the system's random source, the i-th call of
    an identity provider, and the types of the values the package only passes around: HTTP
    transports, the cleanup closures that come with them, and refreshers. *)
Class Platform := {
  RoundTripper : Type;
  Cleanup : Type;
  Refresher : Type;
  clock_Now : nat -> time;
  rand_Read : nat -> nat -> result string string;
  (** [Refresh] of a refresher on a refresh token: an error, or the new credential and the new
      refresh token (nil when the provider did not rotate it). *)
  refresher_Refresh : Refresher -> nat -> option string -> result string (CredVal * option string);
}.

Section Session.
Context `{P : Platform}.

Record cachedTransport := mkTransport {
  ct_rt : RoundTripper;
  ct_cleanup : option Cleanup;
}.

Record Session := mkSession {
  s_id : string;
  s_mode : string;
  s_createdAt : time;
  s_username : string;
  s_capKey : string;
  s_refresher : option Refresher;
  s_credential : Credential;
  s_refreshToken : slice;
  s_lastSeen : time;
  s_expiresAt : time;
  s_transports : gmap string cachedTransport;
}.

Record Spec := mkSpec {
  sp_Mode : string;
  sp_Credential : Credential;
  sp_RefreshToken : slice;
  sp_Username : string;
  sp_Refresher : option Refresher;
}.

(** The memory, the store's map of live sessions, and the position in each outside source.
    [w_objs] holds every [Session] struct ever allocated: evicting a session from [w_sessions]
    does not free it, a request in flight may still hold the pointer. [w_closed] lists the
    cleanup closures that were run, latest last. *)
Record World := mkWorld {
  w_mem : gmap nat string;
  w_objs : gmap nat Session;
  w_brk : nat;
  w_sessions : gmap string nat;
  w_ticks : nat;
  w_draws : nat;
  w_calls : nat;
  w_closed : list Cleanup;
}.

Definition world0 : World := mkWorld ∅ ∅ 0 ∅ 0 0 0 [].

Definition set_mem (f : gmap nat string -> gmap nat string) (w : World) : World :=
  mkWorld (f (w_mem w)) (w_objs w) (w_brk w) (w_sessions w) (w_ticks w) (w_draws w) (w_calls w) (w_closed w).
Definition set_objs (f : gmap nat Session -> gmap nat Session) (w : World) : World :=
  mkWorld (w_mem w) (f (w_objs w)) (w_brk w) (w_sessions w) (w_ticks w) (w_draws w) (w_calls w) (w_closed w).
Definition set_sessions (f : gmap string nat -> gmap string nat) (w : World) : World :=
  mkWorld (w_mem w) (w_objs w) (w_brk w) (f (w_sessions w)) (w_ticks w) (w_draws w) (w_calls w) (w_closed w).
Definition set_closed (f : list Cleanup -> list Cleanup) (w : World) : World :=
  mkWorld (w_mem w) (w_objs w) (w_brk w) (w_sessions w) (w_ticks w) (w_draws w) (w_calls w) (f (w_closed w)).

(** One reading of the clock, one draw of [n] random bytes, one call to a provider. *)
Definition now : ST World time := fun w =>
  (clock_Now (w_ticks w),
   mkWorld (w_mem w) (w_objs w) (w_brk w) (w_sessions w) (S (w_ticks w)) (w_draws w) (w_calls w) (w_closed w)).
Definition draw (n : nat) : ST World (result string string) := fun w =>
  (rand_Read (w_draws w) n,
   mkWorld (w_mem w) (w_objs w) (w_brk w) (w_sessions w) (w_ticks w) (S (w_draws w)) (w_calls w) (w_closed w)).
Definition call_Refresh (r : Refresher) (tok : option string)
    : ST World (result string (CredVal * option string)) := fun w =>
  (refresher_Refresh r (w_calls w) tok,
   mkWorld (w_mem w) (w_objs w) (w_brk w) (w_sessions w) (w_ticks w) (w_draws w) (S (w_calls w)) (w_closed w)).

(** *** Byte slices *)

Definition slice_bytes (m : gmap nat string) (s : slice) : option string :=
  match s with Some l => Some (default "" (m !! l)) | None => None end.

(** A fresh array holding a copy of [b]; nil stays nil. *)
Definition alloc (b : option string) : ST World slice := fun w =>
  match b with
  | None => (None, w)
  | Some x =>
      (Some (w_brk w),
       mkWorld (<[w_brk w := x]> (w_mem w)) (w_objs w) (S (w_brk w)) (w_sessions w)
         (w_ticks w) (w_draws w) (w_calls w) (w_closed w))
  end.

Definition alloc_credential (v : CredVal) : ST World Credential :=
  tok ← alloc (cv_Token v);
  crt ← alloc (cv_CertPEM v);
  key ← alloc (cv_KeyPEM v);
  mret (mkCredential (cv_Kind v) tok crt key (cv_UserName v) (cv_ExpiresAt v)).

Definition credential_val (m : gmap nat string) (c : Credential) : CredVal :=
  mkCredVal (cr_Kind c) (slice_bytes m (cr_Token c)) (slice_bytes m (cr_CertPEM c))
    (slice_bytes m (cr_KeyPEM c)) (cr_UserName c) (cr_ExpiresAt c).

(** [zeroBytes] overwrites the array in place: every slice of it now reads as zeros. *)
Definition zero_string : string -> string := string_map (fun _ => NUL).
Definition zeroBytes (b : slice) : ST World unit :=
  match b with
  | None => mret tt
  | Some l => modify (set_mem (alter zero_string l))
  end.

(** [(c *Credential) Zero()]: the struct it leaves behind is returned. *)
Definition Credential_Zero (c : Credential) : ST World Credential :=
  zeroBytes (cr_Token c);;
  zeroBytes (cr_CertPEM c);;
  zeroBytes (cr_KeyPEM c);;
  mret (mkCredential (cr_Kind c) None None None (cr_UserName c) (cr_ExpiresAt c)).

(** [(s *Spec) Zero()]. *)
Definition Spec_Zero (sp : Spec) : ST World Spec :=
  c ← Credential_Zero (sp_Credential sp);
  zeroBytes (sp_RefreshToken sp);;
  mret (mkSpec (sp_Mode sp) c None (sp_Username sp) (sp_Refresher sp)).

(** *** Session objects *)

Definition s_set_credential (c : Credential) (s : Session) : Session :=
  mkSession (s_id s) (s_mode s) (s_createdAt s) (s_username s) (s_capKey s) (s_refresher s)
    c (s_refreshToken s) (s_lastSeen s) (s_expiresAt s) (s_transports s).
Definition s_set_refreshToken (b : slice) (s : Session) : Session :=
  mkSession (s_id s) (s_mode s) (s_createdAt s) (s_username s) (s_capKey s) (s_refresher s)
    (s_credential s) b (s_lastSeen s) (s_expiresAt s) (s_transports s).
Definition s_set_lastSeen (t : time) (s : Session) : Session :=
  mkSession (s_id s) (s_mode s) (s_createdAt s) (s_username s) (s_capKey s) (s_refresher s)
    (s_credential s) (s_refreshToken s) t (s_expiresAt s) (s_transports s).
Definition s_set_expiresAt (t : time) (s : Session) : Session :=
  mkSession (s_id s) (s_mode s) (s_createdAt s) (s_username s) (s_capKey s) (s_refresher s)
    (s_credential s) (s_refreshToken s) (s_lastSeen s) t (s_transports s).
Definition s_upd_transports (f : gmap string cachedTransport -> gmap string cachedTransport)
    (s : Session) : Session :=
  mkSession (s_id s) (s_mode s) (s_createdAt s) (s_username s) (s_capKey s) (s_refresher s)
    (s_credential s) (s_refreshToken s) (s_lastSeen s) (s_expiresAt s) (f (s_transports s)).

(** A field update through a [*Session] pointer. *)
Definition upd (o : nat) (f : Session -> Session) : ST World unit :=
  modify (set_objs (alter f o)).

(** A fresh [&Session{...}]. *)
Definition alloc_session (s : Session) : ST World nat := fun w =>
  (w_brk w,
   mkWorld (w_mem w) (<[w_brk w := s]> (w_objs w)) (S (w_brk w)) (w_sessions w)
     (w_ticks w) (w_draws w) (w_calls w) (w_closed w)).

(** Reads through a pointer: the operations below are only ever given pointers the store
    allocated, so the [None] branch, which does nothing, is never taken (see [SessionInv]). *)
Definition deref {A} (o : nat) (dflt : A) (k : Session -> ST World A) : ST World A :=
  s ← gets (fun w => w_objs w !! o);
  match s with Some s => k s | None => mret dflt end.

Definition Session_String (s : Session) : string :=
  "Session{ID:" +:+ s_id s +:+ ",Mode:" +:+ s_mode s +:+ ",Redacted}".

(** *** Cached transports *)

Definition run_cleanup (c : option Cleanup) : ST World unit :=
  match c with
  | Some f => modify (set_closed (fun l => l ++ [f]))
  | None => mret tt
  end.

(** One iteration of the loops that discard cached transports. *)
Definition discard_transport (o : nat) (e : string * cachedTransport) : ST World unit :=
  run_cleanup (ct_cleanup e.2);;
  upd o (s_upd_transports (delete e.1)).

Definition transportUpstream (key : string) : string * bool :=
  let '(upstream, _, versioned) := strings_Cut key "/" in (upstream, versioned).

(** Whether the loop of [dropSupersededTransportsLocked] discards the transport cached at [k]
    when [key] is about to be built. *)
Definition superseded_by (key k : string) : bool :=
  let '(upstream, _) := transportUpstream key in
  if decide (k = key) then false
  else let '(u, versioned) := transportUpstream k in
       versioned && bool_decide (u = upstream).

Definition dropSupersededTransportsLocked `{RangeOrder} (o : nat) (key : string) : ST World unit :=
  let '(_, versioned) := transportUpstream key in
  if versioned then
    deref o tt (fun s =>
      mfor (range_map (s_transports s)) (fun e =>
        when (superseded_by key e.1) (discard_transport o e)))
  else mret tt.

Definition dropTransportsLocked `{RangeOrder} (o : nat) : ST World unit :=
  deref o tt (fun s => mfor (range_map (s_transports s)) (discard_transport o)).

(** A [TransportBuilder] reads the credential's bytes and returns a transport, with the closure
    that releases it, or an error. *)
Definition TransportBuilder : Type :=
  CredVal -> result string (RoundTripper * option Cleanup).

(** The part of [transportFor] that runs under the session's write lock. *)
Definition transportForLocked `{RangeOrder} (o : nat) (key : string) (build : TransportBuilder)
    : ST World (result string RoundTripper) :=
  deref o (Err "nil session") (fun s =>
    match s_transports s !! key with
    | Some cached => mret (Ok (ct_rt cached))
    | None =>
        dropSupersededTransportsLocked o key;;
        m ← gets w_mem;
        match build (credential_val m (s_credential s)) with
        | Err e => mret (Err e)
        | Ok (rt, cleanup) =>
            upd o (s_upd_transports <[key := mkTransport rt cleanup]>);;
            mret (Ok rt)
        end
    end).

(** [(s *Session) transportFor]: a first look under the read lock, then the locked part. *)
Definition transportFor `{RangeOrder} (o : nat) (key : string) (build : TransportBuilder)
    : ST World (result string RoundTripper) :=
  deref o (Err "nil session") (fun s =>
    match s_transports s !! key with
    | Some cached => mret (Ok (ct_rt cached))
    | None => transportForLocked o key build
    end).

(** *** Refresh and erasure *)

Definition needsRefresh (s : Session) (now : time) (window : duration) : bool :=
  match s_refresher s with
  | None => false
  | Some _ =>
      if time_IsZero (cr_ExpiresAt (s_credential s)) then false
      else negb (time_Before (time_Add now window) (cr_ExpiresAt (s_credential s)))
  end.

(** [refreshTokenCopy]: a fresh array with the same bytes, nil for nil. *)
Definition refreshTokenCopy (s : Session) : ST World slice :=
  m ← gets w_mem;
  alloc (slice_bytes m (s_refreshToken s)).

(** [(s *Session) zero()]. *)
Definition Session_zero `{RangeOrder} (o : nat) : ST World unit :=
  deref o tt (fun s =>
    c ← Credential_Zero (s_credential s);
    upd o (s_set_credential c);;
    zeroBytes (s_refreshToken s);;
    upd o (s_set_refreshToken None);;
    dropTransportsLocked o).
End Session.
