(* ===== verification/SessionStore.v ===== *)
(** * The in-memory session store ([pkg/auth/session/store.go])

    Each method of [store] as a state-passing function over [World]. A method that takes the store
    lock for its whole body is one function; [Get], which does not, is cut here at the points
    where it holds no lock, so that [SessionConc] can interleave the pieces. *)
From S2P Require Import Prelude.
From S2P Require Import Session.

Definition DefaultIdleTimeout : duration := 30 * Minute.
Definition DefaultMaxLifetime : duration := 12 * Hour.
Definition DefaultMaxSessions : Z := 1000.
Definition DefaultMaxSessionsPerUser : Z := 10.
Definition sessionIDBytes : nat := 32.
Definition refreshWindow : duration := 60 * Second.
Definition gcBatchSize : nat := 100.

Inductive store_error := ErrNotFound | ErrExpired | ErrTooManySessions | ErrRandom (msg : string).

Definition store_error_msg (e : store_error) : string :=
  match e with
  | ErrNotFound => "session not found"
  | ErrExpired => "session expired"
  | ErrTooManySessions => "too many active sessions"
  | ErrRandom m => m
  end.

#[export] Instance store_error_eq_dec : EqDecision store_error.
Proof. solve_decision. Defined.

(** [Options], without the clock, which is the platform's. *)
Record Options := mkOptions {
  IdleTimeout : duration;
  MaxLifetime : duration;
  MaxSessions : Z;
  MaxSessionsPerUser : Z;
}.

Definition setDefaults (o : Options) : Options :=
  let idle := if IdleTimeout o <=? 0 then DefaultIdleTimeout else IdleTimeout o in
  let life := if MaxLifetime o <=? 0 then DefaultMaxLifetime else MaxLifetime o in
  let maxs := if MaxSessions o <=? 0 then DefaultMaxSessions else MaxSessions o in
  let per := if MaxSessionsPerUser o <=? 0 then DefaultMaxSessionsPerUser else MaxSessionsPerUser o in
  let per := if maxs <? per then maxs else per in
  mkOptions idle life maxs per.

(** [effectiveExpiry]: min(absolute cap, credential expiry); a zero expiry means the cap alone. *)
Definition effectiveExpiry (createdAt : time) (maxLifetime : duration) (credExpiry : time) : time :=
  let absolute := time_Add createdAt maxLifetime in
  if time_IsZero credExpiry || time_After credExpiry absolute then absolute else credExpiry.

(** [hex.EncodeToString]. *)
Definition hex_digit (n : nat) : ascii :=
  default "0"%char (String.get n "0123456789abcdef").

Fixpoint hex_EncodeToString (b : string) : string :=
  match b with
  | EmptyString => EmptyString
  | String c b' =>
      String (hex_digit (nat_of_ascii c / 16)) (String (hex_digit (nat_of_ascii c mod 16))
        (hex_EncodeToString b'))
  end.

Section Store.
Context `{P : Platform}.
(** The store's options, after [setDefaults]. *)
Context (opts : Options).

(** [random.Bytes] and [random.HexString] ([pkg/utils/random/random.go]). *)
Definition random_Bytes (n : nat) : ST World (result string string) :=
  r ← draw n;
  match r with
  | Err e => mret (Err ("error when generating random data: " +:+ e))
  | Ok b => mret (Ok b)
  end.

Definition random_HexString (n : nat) : ST World (result string string) :=
  r ← random_Bytes n;
  match r with
  | Err e => mret (Err e)
  | Ok b => mret (Ok (hex_EncodeToString b))
  end.

Definition perUserCapKey (sp : Spec) : string :=
  if decide (sp_Mode sp = ModeAdmin) then "" else sp_Username sp.

Definition lookup_session (id : string) : ST World (option nat) :=
  gets (fun w => w_sessions w !! id).

Definition Peek (id : string) : ST World (option nat) := lookup_session id.

(** [alive], on the session struct. *)
Definition alive (s : Session) (now : time) : bool :=
  if time_After now (time_Add (s_createdAt s) (MaxLifetime opts)) then false
  else if (match s_refresher s with None => true | Some _ => false end)
          && negb (time_IsZero (cr_ExpiresAt (s_credential s)))
          && time_After now (cr_ExpiresAt (s_credential s)) then false
  else time_Sub now (s_lastSeen s) <=? IdleTimeout opts.

Definition credentialExpired (s : Session) (now : time) : bool :=
  negb (time_IsZero (cr_ExpiresAt (s_credential s)))
  && time_After now (cr_ExpiresAt (s_credential s)).

(** [delete(st.sessions, id)] followed by [s.zero()]. *)
Definition evict `{RangeOrder} (id : string) (o : nat) : ST World unit :=
  modify (set_sessions (delete id));;
  Session_zero o.

Definition Delete `{RangeOrder} (id : string) : ST World unit :=
  found ← lookup_session id;
  modify (set_sessions (delete id));;
  match found with
  | Some o => Session_zero o
  | None => mret tt
  end.

(** The order of [sort.Slice] in [enforcePerUserLimitLocked]: last-seen time, then creation. *)
Definition older (a b : nat * Session) : Prop :=
  if decide (s_lastSeen a.2 = s_lastSeen b.2) then s_createdAt a.2 <= s_createdAt b.2
  else s_lastSeen a.2 < s_lastSeen b.2.

#[global] Instance older_dec : RelDecision older.
Proof. intros a b. unfold older. destruct (decide _); apply _. Defined.

(** The sessions of [st.sessions] grouped under [capKey], in iteration order. *)
Definition owned_by `{RangeOrder} (capKey : string) (w : World) : list (nat * Session) :=
  omap (fun e => match w_objs w !! e.2 with
                 | Some s => if decide (s_capKey s = capKey) then Some (e.2, s) else None
                 | None => None
                 end) (range_map (w_sessions w)).

Definition enforcePerUserLimitLocked `{RangeOrder} (capKey : string) : ST World unit :=
  if decide (capKey = "") then mret tt else
  owned ← gets (owned_by capKey);
  if Z.of_nat (length owned) <? MaxSessionsPerUser opts then mret tt else
  let sorted := merge_sort older owned in
  let evict_n := Z.to_nat (Z.of_nat (length sorted) - MaxSessionsPerUser opts + 1) in
  mfor (take evict_n sorted) (fun e => evict (s_id e.2) e.1).

(** [evictOneExpiredLocked]: drops the first session found not alive. *)
Fixpoint evict_first `{RangeOrder} (now : time) (l : list (string * nat)) : ST World bool :=
  match l with
  | [] => mret false
  | (id, o) :: l' =>
      s ← gets (fun w => w_objs w !! o);
      match s with
      | Some s => if alive s now then evict_first now l' else evict id o;; mret true
      | None => evict_first now l'
      end
  end.

Definition evictOneExpiredLocked `{RangeOrder} (now : time) : ST World bool :=
  l ← gets (fun w => range_map (w_sessions w));
  evict_first now l.

Definition new_session (id : string) (now : time) (sp : Spec) : Session :=
  mkSession id (sp_Mode sp) now (sp_Username sp) (perUserCapKey sp) (sp_Refresher sp)
    (sp_Credential sp) (sp_RefreshToken sp) now
    (effectiveExpiry now (MaxLifetime opts) (cr_ExpiresAt (sp_Credential sp))) ∅.

(** [Create]. The [Session] struct is built before the store lock is taken, but no other code can
    hold its pointer until it is put in the map: the model allocates it there. *)
Definition Create `{RangeOrder} (sp : Spec) : ST World (result store_error nat) :=
  r ← random_HexString sessionIDBytes;
  match r with
  | Err e => mret (Err (ErrRandom e))
  | Ok id =>
      t ← now;
      enforcePerUserLimitLocked (perUserCapKey sp);;
      n ← gets (fun w => Z.of_nat (size (w_sessions w)));
      room ← (if MaxSessions opts <=? n then evictOneExpiredLocked t else mret true : ST World bool);
      if (room : bool) then
        o ← alloc_session (new_session id t sp);
        modify (set_sessions (<[id := o]>));;
        mret (Ok o)
      else mret (Err ErrTooManySessions)
  end.

(** *** Refresh *)

Definition applyRefresh `{RangeOrder} (o : nat) (cred : Credential) (newRefreshToken : slice)
    : ST World unit :=
  deref o tt (fun s =>
    Credential_Zero (s_credential s);;
    upd o (s_set_credential cred);;
    match newRefreshToken with
    | Some _ => zeroBytes (s_refreshToken s);; upd o (s_set_refreshToken newRefreshToken)
    | None => mret tt
    end;;
    dropTransportsLocked o;;
    upd o (s_set_expiresAt
      (effectiveExpiry (s_createdAt s) (MaxLifetime opts) (cr_ExpiresAt cred)))).

(** The provider call of [maybeRefresh], made with a copy of the refresh token. The credential
    and the refresh token it returns are arrays of their own. *)
Definition callRefresher (r : Refresher) (tok : slice)
    : ST World (result string (Credential * slice)) :=
  m ← gets w_mem;
  res ← call_Refresh r (slice_bytes m tok);
  match res with
  | Err e => mret (Err e)
  | Ok (v, newTok) =>
      c ← alloc_credential v;
      t ← alloc newTok;
      mret (Ok (c, t))
  end.

(** The part of [maybeRefresh] that runs while [refreshMutex] is held. *)
Definition refreshLocked `{RangeOrder} (o : nat) : ST World (result string unit) :=
  t ← now;
  deref o (Ok tt) (fun s =>
    if negb (needsRefresh s t refreshWindow) then mret (Ok tt) else
    match s_refresher s with
    | None => mret (Ok tt)
    | Some r =>
        tok ← refreshTokenCopy s;
        res ← callRefresher r tok;
        out ← (match res with
               | Err e => mret (Err e)
               | Ok (c, newTok) => applyRefresh o c newTok;; mret (Ok tt)
               end);
        zeroBytes tok;;
        mret out
    end).

Definition maybeRefresh `{RangeOrder} (o : nat) (t : time) : ST World (result string unit) :=
  deref o (Ok tt) (fun s =>
    if negb (needsRefresh s t refreshWindow) then mret (Ok tt) else refreshLocked o).

(** *** Get *)

(** The end of [Get], after the refresh had its chance. *)
Definition get_tail `{RangeOrder} (id : string) (o : nat) : ST World (result store_error nat) :=
  t ← now;
  deref o (Err ErrNotFound) (fun s =>
    if credentialExpired s t then Delete id;; mret (Err ErrExpired)
    else
      t' ← now;
      upd o (s_set_lastSeen t');;
      mret (Ok o)).

Definition Get `{RangeOrder} (id : string) : ST World (result store_error nat) :=
  found ← lookup_session id;
  match found with
  | None => mret (Err ErrNotFound)
  | Some o =>
      t ← now;
      deref o (Err ErrNotFound) (fun s =>
        if negb (alive s t) then Delete id;; mret (Err ErrExpired)
        else
          (* a failed refresh is logged, not returned *)
          maybeRefresh o t;;
          get_tail id o)
  end.

(** *** The sweep *)

(** The ids whose sessions are not alive at [now], in iteration order. *)
Definition gc_expired `{RangeOrder} (t : time) (w : World) : list string :=
  omap (fun e => match w_objs w !! e.2 with
                 | Some s => if alive s t then None else Some e.1
                 | None => None
                 end) (range_map (w_sessions w)).

(** The inner loop of [doGC], under the store lock: at most [k] ids are looked up and removed;
    returns the evicted sessions and the ids left. *)
Fixpoint gc_batch (k : nat) (expired : list string) (evicted : list nat)
    : ST World (list nat * list string) :=
  match k, expired with
  | S k', id :: rest =>
      found ← lookup_session id;
      match found with
      | Some o => modify (set_sessions (delete id));; gc_batch k' rest (evicted ++ [o])
      | None => gc_batch k' rest evicted
      end
  | _, _ => mret (evicted, expired)
  end.

(** The outer loop. Each round consumes at least one id, so [length expired] rounds suffice. *)
Fixpoint gc_loop `{RangeOrder} (fuel : nat) (expired : list string) : ST World (option unit) :=
  match expired, fuel with
  | [], _ => mret (Some tt)
  | _ :: _, O => mret None
  | _ :: _, S fuel' =>
      b ← gc_batch gcBatchSize expired [];
      mfor b.1 Session_zero;;
      gc_loop fuel' b.2
  end.

Definition doGC `{RangeOrder} : ST World (option unit) :=
  t ← now;
  expired ← gets (gc_expired t);
  gc_loop (length expired) expired.
End Store.
