(* ===== verification/SessionFacts.v ===== *)
(** * What the session operations do to a [World]

    Each operation that evicts sessions ([Delete], the per-user limit, the reclaim of one expired
    session, the sweep) is shown to be an instance of one relation, [evicted D]: exactly the
    sessions of [D] leave the map, their material is erased, their transports are released, and
    nothing else changes. *)
From S2P Require Import Prelude.
From S2P Require Import Session.
From S2P Require Import SessionStore.

(** Unfolds one layer of the state monad. *)
Ltac st_step := rewrite ?bind_run; cbn [fst snd]; try reflexivity.
Ltac st_unfold :=
  unfold exec, eval, modify, gets, get_st, put_st, when, deref, upd, set_objs, set_mem,
    set_sessions, set_closed in *; cbn in *.

Lemma zero_string_idemp s : zero_string (zero_string s) = zero_string s.
Proof. unfold zero_string. induction s as [|c s IH]; simpl; congruence. Qed.

Lemma zero_string_length s : String.length (zero_string s) = String.length s.
Proof. unfold zero_string. induction s as [|c s IH]; simpl; congruence. Qed.

(** All bytes are zero. *)
Definition all_zero (s : string) : bool := string_forallb (fun c => bool_decide (c = NUL)) s.

Lemma zero_string_all_zero s : all_zero (zero_string s) = true.
Proof. unfold all_zero, zero_string. induction s as [|c s IH]; simpl; [done|]. by rewrite IH. Qed.

Section Facts.
Context `{P : Platform}.
Implicit Types (w : World) (s : Session) (o : nat).

(** The arrays that hold a session's secrets. *)
Definition cred_locs (c : Credential) : list nat :=
  omap id [cr_Token c; cr_CertPEM c; cr_KeyPEM c].
Definition session_locs (s : Session) : list nat :=
  cred_locs (s_credential s) ++ omap id [s_refreshToken s].

Definition zero_credential (c : Credential) : Credential :=
  mkCredential (cr_Kind c) None None None (cr_UserName c) (cr_ExpiresAt c).

(** What [Session.zero] leaves in the struct. *)
Definition zeroed (s : Session) : Session :=
  s_upd_transports (fun _ => ∅)
    (s_set_refreshToken None (s_set_credential (zero_credential (s_credential s)) s)).

Definition zero_cells (ls : list nat) (m : gmap nat string) : gmap nat string :=
  foldl (fun m l => alter zero_string l m) m ls.

Lemma lookup_zero_cells ls (m : gmap nat string) l :
  zero_cells ls m !! l = (if decide (l ∈ ls) then zero_string else id) <$> m !! l.
Proof.
  revert m; induction ls as [|x ls IH]; intros m.
  { rewrite decide_False by set_solver. by destruct (m !! l) eqn:E; cbn; rewrite E. }
  change (zero_cells (x :: ls) m) with (zero_cells ls (alter zero_string x m)). rewrite IH. destruct (decide (l = x)) as [->|Hne].
  - rewrite lookup_alter_eq. rewrite (decide_True (P := x ∈ x :: ls)) by left.
    destruct (m !! x); simpl; [|done]. case_decide; simpl; by rewrite ?zero_string_idemp.
  - rewrite lookup_alter_ne by done.
    destruct (decide (l ∈ ls)), (decide (l ∈ x :: ls)); set_solver.
Qed.

Lemma zero_cells_app ls1 ls2 m :
  zero_cells (ls1 ++ ls2) m = zero_cells ls2 (zero_cells ls1 m).
Proof. apply foldl_app. Qed.

Definition with_mem (m : gmap nat string) w : World :=
  mkWorld m (w_objs w) (w_brk w) (w_sessions w) (w_ticks w) (w_draws w) (w_calls w) (w_closed w).

Lemma zeroBytes_run b w :
  zeroBytes b w = (tt, with_mem (zero_cells (omap id [b]) (w_mem w)) w).
Proof. by destruct b, w. Qed.

Lemma Credential_Zero_run c w :
  Credential_Zero c w =
    (zero_credential c, with_mem (zero_cells (cred_locs c) (w_mem w)) w).
Proof. destruct w, c as [? [] [] [] ? ?]; reflexivity. Qed.

Lemma deref_run {A} o (d : A) k s w :
  w_objs w !! o = Some s -> deref o d k w = k s w.
Proof. intros Hs. unfold deref, gets. rewrite bind_run. cbn [fst snd]. by rewrite Hs. Qed.

Lemma deref_none {A} o (d : A) k w :
  w_objs w !! o = None -> deref o d k w = (d, w).
Proof. intros Hs. unfold deref, gets. rewrite bind_run. cbn [fst snd]. by rewrite Hs. Qed.

(** *** Transports *)

Definition cleanups (l : list (string * cachedTransport)) : list Cleanup :=
  omap (fun e => ct_cleanup e.2) l.

Definition with_obj (o : nat) (s : Session) (closed : list Cleanup) w : World :=
  mkWorld (w_mem w) (<[o := s]> (w_objs w)) (w_brk w) (w_sessions w) (w_ticks w) (w_draws w)
    (w_calls w) (w_closed w ++ closed).

Lemma upd_run o f s w :
  w_objs w !! o = Some s -> upd o f w = (tt, with_obj o (f s) [] w).
Proof.
  intros Hs. unfold upd, modify, set_objs, with_obj. rewrite app_nil_r. do 2 f_equal.
  apply map_eq; intros i. destruct (decide (i = o)) as [->|].
  - by rewrite lookup_alter_eq, lookup_insert_eq, Hs.
  - by rewrite lookup_alter_ne, lookup_insert_ne.
Qed.

Definition delete_keys (l : list (string * cachedTransport)) (m : gmap string cachedTransport) :=
  foldl (fun m e => delete e.1 m) m l.

Lemma with_obj_idemp o s s' c c' w :
  with_obj o s' c' (with_obj o s c w) = with_obj o s' (c ++ c') w.
Proof. unfold with_obj; simpl. by rewrite insert_insert_eq, (assoc_L (++)). Qed.

Lemma with_obj_id o s w : w_objs w !! o = Some s -> with_obj o s [] w = w.
Proof. intros Hs. unfold with_obj. rewrite app_nil_r, insert_id by done. by destruct w. Qed.

Lemma with_obj_lookup o s c w : w_objs (with_obj o s c w) !! o = Some s.
Proof. apply lookup_insert_eq. Qed.

Lemma discard_run `{RangeOrder} o e s w :
  w_objs w !! o = Some s ->
  discard_transport o e w =
    (tt, with_obj o (s_upd_transports (delete e.1) s) (cleanups [e]) w).
Proof.
  intros Hs. unfold discard_transport, cleanups. simpl. rewrite bind_run.
  destruct (ct_cleanup e.2) as [f|]; simpl.
  - rewrite (upd_run _ _ s) by done. unfold with_obj; simpl. by rewrite app_nil_r.
  - by rewrite (upd_run _ _ s).
Qed.

Lemma s_upd_transports_compose f g s :
  s_upd_transports f (s_upd_transports g s) = s_upd_transports (fun m => f (g m)) s.
Proof. done. Qed.

Lemma s_upd_transports_id s : s_upd_transports id s = s.
Proof. by destruct s. Qed.

Lemma discard_loop `{RangeOrder} o l s w :
  w_objs w !! o = Some s ->
  mfor l (discard_transport o) w =
    (tt, with_obj o (s_upd_transports (delete_keys l) s) (cleanups l) w).
Proof.
  revert s w; induction l as [|e l IH]; intros s w Hs; simpl.
  { change (delete_keys []) with (@id (gmap string cachedTransport)).
    by rewrite s_upd_transports_id, with_obj_id. }
  rewrite bind_run, (discard_run _ _ s) by done.
  rewrite (IH (s_upd_transports (delete e.1) s)) by apply with_obj_lookup.
  rewrite with_obj_idemp. do 2 f_equal.
  unfold cleanups; simpl. by destruct (ct_cleanup e.2).
Qed.

Lemma delete_keys_lookup l m k :
  delete_keys l m !! k = if decide (k ∈ l.*1) then None else m !! k.
Proof.
  revert m; induction l as [|e l IH]; intros m.
  { by rewrite decide_False by set_solver. }
  change (delete_keys (e :: l) m) with (delete_keys l (delete e.1 m)). rewrite fmap_cons, IH. destruct (decide (k = e.1)) as [->|Hne].
  - rewrite lookup_delete_eq. rewrite (decide_True (P := e.1 ∈ e.1 :: l.*1)) by left.
    by case_decide.
  - rewrite lookup_delete_ne by done.
    destruct (decide (k ∈ l.*1)), (decide (k ∈ e.1 :: l.*1)); set_solver.
Qed.

Lemma delete_keys_range `{RangeOrder} m : delete_keys (range_map m) m = ∅.
Proof.
  apply map_eq; intros k. rewrite delete_keys_lookup, lookup_empty.
  case_decide as Hk; [done|]. destruct (m !! k) as [v|] eqn:Hm; [|done].
  exfalso; apply Hk. apply list_elem_of_fmap. exists (k, v). split; [done|]. by apply elem_of_range.
Qed.

Lemma s_upd_transports_ext f g s :
  f (s_transports s) = g (s_transports s) -> s_upd_transports f s = s_upd_transports g s.
Proof. intros E. unfold s_upd_transports. by rewrite E. Qed.

Lemma dropTransportsLocked_run `{RangeOrder} o s w :
  w_objs w !! o = Some s ->
  dropTransportsLocked o w =
    (tt, with_obj o (s_upd_transports (fun _ => ∅) s) (cleanups (range_map (s_transports s))) w).
Proof.
  intros Hs. unfold dropTransportsLocked. rewrite (deref_run _ _ _ s) by done.
  rewrite (discard_loop _ _ s) by done. do 2 f_equal.
  apply s_upd_transports_ext, delete_keys_range.
Qed.

(** *** Erasure and eviction *)

Lemma Session_zero_run `{RangeOrder} o s w :
  w_objs w !! o = Some s ->
  Session_zero o w =
    (tt, with_obj o (zeroed s) (cleanups (range_map (s_transports s)))
           (with_mem (zero_cells (session_locs s) (w_mem w)) w)).
Proof.
  intros Hs. unfold Session_zero. rewrite (deref_run _ _ _ s), bind_run by done.
  rewrite Credential_Zero_run, bind_run.
  rewrite (upd_run _ _ s) by done. rewrite bind_run, zeroBytes_run, bind_run.
  erewrite upd_run by apply with_obj_lookup.
  erewrite dropTransportsLocked_run by apply with_obj_lookup.
  unfold session_locs. rewrite zero_cells_app.
  unfold with_obj, with_mem; simpl. by rewrite !insert_insert_eq, !app_nil_r.
Qed.

Lemma Session_zero_none `{RangeOrder} o w :
  w_objs w !! o = None -> Session_zero o w = (tt, w).
Proof. intros Hs. by apply deref_none. Qed.

(** The arrays of the sessions in [D]. *)
Definition locs_of (D : list nat) w : list nat :=
  D ≫= fun o => default [] (session_locs <$> w_objs w !! o).

Lemma elem_of_locs_of D w l :
  l ∈ locs_of D w <-> exists o s, o ∈ D /\ w_objs w !! o = Some s /\ l ∈ session_locs s.
Proof.
  unfold locs_of. rewrite list_elem_of_bind. split.
  - intros (o & Hl & Ho). destruct (w_objs w !! o) eqn:E; set_solver.
  - intros (o & s & Ho & E & Hl). exists o. by rewrite E.
Qed.

(** [erased D w w']: the secrets and the transports of the sessions of [D] are gone, and no other
    object or array changed. The map of live sessions is left out. *)
Record erased (D : list nat) (w w' : World) : Prop := mkErased {
  er_objs : forall o, w_objs w' !! o = (if decide (o ∈ D) then zeroed else id) <$> w_objs w !! o;
  er_mem : forall l, w_mem w' !! l =
    (if decide (l ∈ locs_of D w) then zero_string else id) <$> w_mem w !! l;
  er_brk : w_brk w' = w_brk w;
  er_ticks : w_ticks w' = w_ticks w;
  er_calls : w_calls w' = w_calls w;
  er_closed : forall f, f ∈ w_closed w' <-> f ∈ w_closed w \/
    exists o s k c, o ∈ D /\ w_objs w !! o = Some s /\ s_transports s !! k = Some c
                    /\ ct_cleanup c = Some f;
}.

(** [evicted D w w']: from [w] to [w'] the sessions of [D], and only those, were evicted. *)
Definition evicted (D : list nat) (w w' : World) : Prop :=
  erased D w w' /\
  forall id o, w_sessions w' !! id = Some o <-> w_sessions w !! id = Some o /\ o ∉ D.

Lemma zeroed_idemp s : zeroed (zeroed s) = zeroed s.
Proof. done. Qed.

Lemma session_locs_zeroed s : session_locs (zeroed s) = [].
Proof. done. Qed.

Lemma erased_nil w w' :
  w_objs w' = w_objs w -> w_mem w' = w_mem w -> w_brk w' = w_brk w -> w_ticks w' = w_ticks w ->
  w_calls w' = w_calls w -> w_closed w' = w_closed w -> erased [] w w'.
Proof.
  intros Eo Em ? ? ? Ec. split; try done; intros.
  - rewrite decide_False by set_solver. by rewrite option_fmap_id, Eo.
  - rewrite decide_False by set_solver. by rewrite option_fmap_id, Em.
  - rewrite Ec. set_solver.
Qed.

Lemma evicted_nil w : evicted [] w w.
Proof. split; [by apply erased_nil|]. set_solver. Qed.

Lemma locs_of_erased D1 D2 w w1 l :
  erased D1 w w1 -> l ∈ locs_of D1 w ++ locs_of D2 w1 <-> l ∈ locs_of (D1 ++ D2) w.
Proof.
  intros E. rewrite elem_of_app, !elem_of_locs_of. setoid_rewrite (er_objs _ _ _ E).
  split.
  - intros [(o & s & ? & ? & ?)|(o & s & Ho & Hs & Hl)]; [set_solver|].
    exists o. destruct (w_objs w !! o) as [s0|]; [|done].
    case_decide; simplify_eq/=; set_solver.
  - intros (o & s & Ho & Hs & Hl). destruct (decide (o ∈ D1)); [set_solver|].
    right. exists o, s. rewrite decide_False, Hs by done. set_solver.
Qed.

Lemma erased_closed_trans D1 D2 w w1 w2 f :
  erased D1 w w1 -> erased D2 w1 w2 ->
  f ∈ w_closed w2 <-> f ∈ w_closed w \/
    exists o s k c, o ∈ D1 ++ D2 /\ w_objs w !! o = Some s /\ s_transports s !! k = Some c
                    /\ ct_cleanup c = Some f.
Proof.
  intros [O1 _ _ _ _ L1] [_ _ _ _ _ L2]. rewrite L2, L1. split.
  - intros [[?|(o & s & k & c & ? & ? & ? & ?)]|(o & s & k & c & Ho & Hs & Hk & Hf)];
      [by left| |]; right.
    { exists o, s, k, c. set_solver. }
    rewrite O1 in Hs. destruct (w_objs w !! o) as [s0|] eqn:E0; [|done].
    case_decide; simplify_eq/=. exists o, s, k, c. set_solver.
  - intros [?|(o & s & k & c & Ho & Hs & Hk & Hf)]; [by left; left|].
    destruct (decide (o ∈ D1)).
    + left; right. by exists o, s, k, c.
    + right. exists o, s, k, c. split_and!; [set_solver| |done|done].
      by rewrite O1, decide_False, Hs.
Qed.

Lemma erased_trans D1 D2 w w1 w2 :
  erased D1 w w1 -> erased D2 w1 w2 -> erased (D1 ++ D2) w w2.
Proof.
  intros E1 E2. pose proof E1 as [O1 M1 B1 T1 C1 L1]. pose proof E2 as [O2 M2 B2 T2 C2 L2].
  split; try congruence.
  - intros o. rewrite O2, O1, <- option_fmap_compose. destruct (w_objs w !! o); [|done]. simpl.
    destruct (decide (o ∈ D1)), (decide (o ∈ D2)), (decide (o ∈ D1 ++ D2)); try done; set_solver.
  - intros l. rewrite M2, M1, <- option_fmap_compose. destruct (w_mem w !! l); [|done]. simpl.
    pose proof (locs_of_erased D1 D2 w w1 l E1) as HL. rewrite elem_of_app in HL.
    destruct (decide (l ∈ locs_of D1 w)), (decide (l ∈ locs_of D2 w1)),
      (decide (l ∈ locs_of (D1 ++ D2) w)); simpl; rewrite ?zero_string_idemp; try done; tauto.
  - intros f. by apply (erased_closed_trans _ _ _ w1).
Qed.

Lemma evicted_trans D1 D2 w w1 w2 :
  evicted D1 w w1 -> evicted D2 w1 w2 -> evicted (D1 ++ D2) w w2.
Proof.
  intros [E1 S1] [E2 S2]. split; [by eapply erased_trans|].
  intros id o. rewrite S2, S1. set_solver.
Qed.

(** [Session.zero] erases one session. *)
Lemma Session_zero_erased `{RangeOrder} o s w :
  w_objs w !! o = Some s ->
  erased [o] w (exec (Session_zero o) w) /\
  w_sessions (exec (Session_zero o) w) = w_sessions w.
Proof.
  intros Hs. unfold exec. erewrite Session_zero_run by done. split; [|done].
  assert (Hl : forall l, l ∈ locs_of [o] w <-> l ∈ session_locs s).
  { intros l. rewrite elem_of_locs_of. setoid_rewrite list_elem_of_singleton.
    split; [intros (? & ? & -> & ? & ?); simplify_eq; done|]. intros; by exists o, s. }
  split; try done; unfold with_obj, with_mem; cbn [snd w_objs w_mem w_closed].
  - intros o'. destruct (decide (o' = o)) as [->|Hne].
    + by rewrite lookup_insert_eq, Hs, decide_True by set_solver.
    + by rewrite lookup_insert_ne, decide_False, option_fmap_id by set_solver.
  - intros l. rewrite lookup_zero_cells. specialize (Hl l).
    destruct (decide (l ∈ session_locs s)), (decide (l ∈ locs_of [o] w)); tauto.
  - intros f. rewrite elem_of_app. unfold cleanups. rewrite list_elem_of_omap. split.
    + intros [?|([k c] & Hk & Hf)]; [by left|right]. apply elem_of_range in Hk.
      exists o, s, k, c. set_solver.
    + intros [?|(o' & s' & k & c & Ho & Hs' & Hk & Hf)]; [by left|right].
      apply list_elem_of_singleton in Ho as ->. simplify_eq. exists (k, c).
      by rewrite elem_of_range.
Qed.

Lemma zero_all_erased `{RangeOrder} os w :
  (forall o, o ∈ os -> is_Some (w_objs w !! o)) ->
  erased os w (exec (mfor os Session_zero) w) /\
  w_sessions (exec (mfor os Session_zero) w) = w_sessions w.
Proof.
  revert w; induction os as [|o os IH]; intros w Hos.
  { split; [by apply erased_nil|done]. }
  destruct (Hos o ltac:(left)) as [s Hs].
  destruct (Session_zero_erased o s w Hs) as [E S]. unfold exec in *; cbn [mfor].
  rewrite bind_run. destruct (Session_zero o w) as [[] w1]; cbn [snd] in *.
  destruct (IH w1) as [E' S']; [|split; [by apply (erased_trans [o] os _ w1)|congruence]].
  intros o' Ho'. rewrite (er_objs _ _ _ E). apply fmap_is_Some. apply Hos. by right.
Qed.
End Facts.
