(* ===== verification/SessionOps.v ===== *)
(** * The evicting operations of the store

    Under [wf_live] (the map's entries point to sessions that carry the entry's id) every operation
    of [SessionStore] that removes sessions is an [evicted D] step, for the [D] the code means. *)
From S2P Require Import Prelude.
From S2P Require Import Session.
From S2P Require Import SessionStore.
From S2P Require Import SessionFacts.

Section Ops.
Context `{P : Platform}.
Context (opts : Options).
Implicit Types (w : World) (s : Session) (o : nat) (id : string).

Definition wf_live (w : World) : Prop :=
  forall id o, w_sessions w !! id = Some o -> exists s, w_objs w !! o = Some s /\ s_id s = id.

Lemma wf_live_inj w id1 id2 o :
  wf_live w -> w_sessions w !! id1 = Some o -> w_sessions w !! id2 = Some o -> id1 = id2.
Proof. intros Hw H1%Hw H2%Hw. destruct H1 as (s1 & ? & ?), H2 as (s2 & ? & ?). congruence. Qed.

Lemma wf_live_evicted D w w' : evicted D w w' -> wf_live w -> wf_live w'.
Proof.
  intros [E S] Hw id o [Ho Hn]%S. destruct (Hw id o Ho) as (s & Hs & <-).
  exists s. by rewrite (er_objs _ _ _ E), decide_False, Hs.
Qed.

Lemma remove_zero_evicted `{RangeOrder} id o s w :
  wf_live w -> w_sessions w !! id = Some o -> w_objs w !! o = Some s ->
  evicted [o] w (exec (Session_zero o) (set_sessions (delete id) w)).
Proof.
  intros Hw Hid Hs. destruct (Session_zero_erased o s (set_sessions (delete id) w)) as [E S];
    [done|]. split.
  - apply (erased_trans [] [o] _ (set_sessions (delete id) w)); [by apply erased_nil|done].
  - intros id' o'. rewrite S. cbn. rewrite lookup_delete_Some, list_elem_of_singleton.
    split; [|by intros [? ?]; split; [intros ->; simplify_eq|]].
    intros [Hne Ho']. split; [done|]. intros ->. by apply Hne, (wf_live_inj w _ _ o).
Qed.

Lemma evict_evicted `{RangeOrder} id o s w :
  wf_live w -> w_sessions w !! id = Some o -> w_objs w !! o = Some s ->
  evicted [o] w (exec (evict id o) w).
Proof. apply remove_zero_evicted. Qed.

Lemma Delete_evicted `{RangeOrder} id w :
  wf_live w -> evicted (option_list (w_sessions w !! id)) w (exec (Delete id) w).
Proof.
  intros Hw. unfold Delete, exec, lookup_session, gets. rewrite bind_run; cbn [fst snd].
  rewrite bind_run. unfold modify; cbn [fst snd].
  destruct (w_sessions w !! id) as [o|] eqn:Hid; simpl.
  - destruct (Hw id o Hid) as (s & Hs & _). by apply (remove_zero_evicted id o s).
  - assert (set_sessions (delete id) w = w) as ->; [|apply evicted_nil].
    destruct w as [? ? ? ss ? ? ? ?]; unfold set_sessions; cbn in *. by rewrite delete_id.
Qed.

(** Evicting a list of live sessions one after the other. *)
Lemma evict_list_evicted `{RangeOrder} (l : list (nat * Session)) w :
  wf_live w -> NoDup l.*1 ->
  (forall o s, (o, s) ∈ l -> w_objs w !! o = Some s /\ w_sessions w !! s_id s = Some o) ->
  evicted l.*1 w (exec (mfor l (fun e => evict (s_id e.2) e.1)) w).
Proof.
  revert w; induction l as [|[o s] l IH]; intros w Hw Hnd Hl; [apply evicted_nil|].
  rewrite fmap_cons in *. apply NoDup_cons in Hnd as [Hni Hnd].
  destruct (Hl o s ltac:(left)) as [Hs Hid].
  pose proof (evict_evicted _ _ _ _ Hw Hid Hs) as E. unfold exec in *; cbn [mfor].
  rewrite bind_run; cbn [fst snd] in *. destruct (evict (s_id s) o w) as [[] w1].
  change (o :: l.*1) with ([o] ++ l.*1). apply (evicted_trans [o] _ _ w1); [done|].
  apply IH; [by eapply wf_live_evicted|done|]. intros o' s' Hin.
  destruct (Hl o' s') as [Hs' Hid']; [by right|]. destruct E as [E S].
  assert (o' <> o) by (intros ->; apply Hni, list_elem_of_fmap; by exists (o, s')).
  rewrite S, (er_objs _ _ _ E), decide_False by set_solver. rewrite Hs'. set_solver.
Qed.

(** *** The per-user limit *)

Lemma elem_of_owned `{RangeOrder} capKey w o s :
  (o, s) ∈ owned_by capKey w <->
  exists id, w_sessions w !! id = Some o /\ w_objs w !! o = Some s /\ s_capKey s = capKey.
Proof.
  unfold owned_by. rewrite list_elem_of_omap. split.
  - intros ([id o'] & Hin%elem_of_range & E). simpl in E. exists id.
    destruct (w_objs w !! o') eqn:Hs; [|done]. case_decide; by simplify_eq.
  - intros (id & Hid & Hs & Hk). exists (id, o). rewrite elem_of_range. simpl.
    by rewrite Hs, decide_True.
Qed.

Lemma NoDup_owned `{RangeOrder} capKey w : wf_live w -> NoDup (owned_by capKey w).*1.
Proof.
  intros Hw. unfold owned_by. pose proof (range_NoDup (w_sessions w)) as Hnd.
  assert (Hin : forall e, e ∈ range_map (w_sessions w) -> w_sessions w !! e.1 = Some e.2)
    by (intros [k v]; apply elem_of_range).
  induction (range_map (w_sessions w)) as [|[id o] l IH]; [constructor|].
  apply NoDup_cons in Hnd as [Hni Hnd]. specialize (IH Hnd ltac:(set_solver)).
  simpl. destruct (w_objs w !! o) as [s|]; [|done]. case_decide; [|done].
  simpl. constructor; [|done]. rewrite list_elem_of_fmap. intros ([o' s'] & -> & Ho').
  rewrite list_elem_of_omap in Ho'. destruct Ho' as ([id' o''] & Hin' & E'). simpl in *.
  destruct (w_objs w !! o'') eqn:Hs''; [|done]. case_decide; simplify_eq.
  apply Hni, list_elem_of_fmap. exists (id', o'). split; [|done].
  pose proof (Hin (id, o') ltac:(left)). pose proof (Hin (id', o') ltac:(right; done)).
  by eapply wf_live_inj.
Qed.

(** The sessions [enforcePerUserLimitLocked] drops. *)
Definition limit_victims `{RangeOrder} (capKey : string) (w : World) : list (nat * Session) :=
  if decide (capKey = "") then [] else
  let owned := owned_by capKey w in
  if Z.of_nat (length owned) <? MaxSessionsPerUser opts then [] else
  take (Z.to_nat (Z.of_nat (length owned) - MaxSessionsPerUser opts + 1)) (merge_sort older owned).

Lemma limit_victims_owned `{RangeOrder} capKey w e :
  e ∈ limit_victims capKey w -> e ∈ owned_by capKey w /\ capKey <> "".
Proof.
  unfold limit_victims. case_decide; [set_solver|]. case_match; [set_solver|].
  intros Hin%elem_of_take. rewrite <- (merge_sort_Permutation older).
  destruct Hin as (i & Hi & _). split; [by eapply list_elem_of_lookup_2|done].
Qed.

Lemma enforce_evicted `{RangeOrder} capKey w :
  wf_live w ->
  evicted (limit_victims capKey w).*1 w (exec (enforcePerUserLimitLocked opts capKey) w).
Proof.
  intros Hw. unfold enforcePerUserLimitLocked.
  assert (Hnd : NoDup (limit_victims capKey w).*1).
  { unfold limit_victims. case_decide; [constructor|]. case_match; [constructor|].
    rewrite fmap_take. apply sublist_NoDup with (merge_sort older (owned_by capKey w)).*1;
      [|apply sublist_take].
    rewrite merge_sort_Permutation. by apply NoDup_owned. }
  assert (Hl : forall o s, (o, s) ∈ limit_victims capKey w ->
            w_objs w !! o = Some s /\ w_sessions w !! s_id s = Some o).
  { intros o s [(id & Hid & Hs & _)%elem_of_owned _]%limit_victims_owned.
    split; [done|]. destruct (Hw _ _ Hid) as (s' & ? & <-). by simplify_eq. }
  pose proof (evict_list_evicted _ w Hw Hnd Hl) as E. revert E. unfold limit_victims.
  case_decide; [intros; apply evicted_nil|]. unfold exec, gets. rewrite bind_run. cbn [fst snd].
  case_match; [intros; apply evicted_nil|].
  by rewrite (Permutation_length (merge_sort_Permutation older (owned_by capKey w))).
Qed.

#[global] Instance older_total : Total older.
Proof. intros a b. unfold older. repeat case_decide; lia. Qed.

#[global] Instance older_trans : Transitive older.
Proof. intros a b c. unfold older. repeat case_decide; lia. Qed.

(** A dropped session is at most as recently seen as any owned session that is kept. *)
Lemma limit_victims_oldest `{RangeOrder} capKey w v e :
  v ∈ limit_victims capKey w -> e ∈ owned_by capKey w -> e ∉ limit_victims capKey w -> older v e.
Proof.
  unfold limit_victims. case_decide; [set_solver|]. case_match; [set_solver|].
  set (sorted := merge_sort older _). set (n := Z.to_nat _). intros Hv He Hne.
  pose proof (StronglySorted_merge_sort older (owned_by capKey w)) as Hs. fold sorted in Hs.
  rewrite <- (take_drop n sorted) in Hs.
  apply (StronglySorted_app_1_elem_of older (take n sorted) (drop n sorted)); [done|done|].
  assert (He' : e ∈ take n sorted ++ drop n sorted)
    by (rewrite take_drop; unfold sorted; by rewrite merge_sort_Permutation).
  set_solver.
Qed.

(** How many owned sessions are left once the victims are gone. *)
Lemma limit_victims_length `{RangeOrder} capKey w :
  capKey <> "" -> 0 < MaxSessionsPerUser opts ->
  Z.of_nat (length (owned_by capKey w)) - Z.of_nat (length (limit_victims capKey w))
    <= MaxSessionsPerUser opts - 1.
Proof.
  intros Hk Hm. unfold limit_victims. rewrite decide_False by done.
  case_match eqn:E; [simpl; lia|]. rewrite length_take.
  rewrite (Permutation_length (merge_sort_Permutation older (owned_by capKey w))). lia.
Qed.

(** *** Reclaiming one expired session *)

Definition dead_at (t : time) (w : World) (o : nat) : Prop :=
  exists s, w_objs w !! o = Some s /\ alive opts s t = false.

Lemma evict_first_spec `{RangeOrder} t l w :
  wf_live w -> (forall id o, (id, o) ∈ l -> w_sessions w !! id = Some o) ->
  exists D, evicted D w (exec (evict_first opts t l) w) /\
    match eval (evict_first opts t l) w with
    | true => exists o, D = [o] /\ o ∈ l.*2 /\ dead_at t w o
    | false => D = [] /\ forall o s, o ∈ l.*2 -> w_objs w !! o = Some s -> alive opts s t = true
    end.
Proof.
  intros Hw. induction l as [|[id o] l IH]; intros Hl.
  { exists []. split; [apply evicted_nil|]. simpl. set_solver. }
  destruct (Hw id o (Hl _ _ ltac:(left))) as (s & Hs & _).
  unfold exec, eval in *. cbn [evict_first]. unfold gets. rewrite bind_run. cbn [fst snd].
  rewrite Hs. destruct (alive opts s t) eqn:Ha.
  - destruct IH as (D & E & HD); [set_solver|]. exists D. split; [done|].
    destruct (evict_first opts t l w) as [[] ?]; cbn [fst] in *.
    + destruct HD as (o' & -> & ? & ?). exists o'. set_solver.
    + destruct HD as [-> HD]. split; [done|]. intros o' s' [->|?]%elem_of_cons ?; [|by eapply HD].
      simpl in *. congruence.
  - exists [o]. rewrite bind_run.
    pose proof (evict_evicted id o s w Hw (Hl _ _ ltac:(left)) Hs) as E. unfold exec in E.
    destruct (evict id o w) as [[] w1]. cbn in *. split; [done|]. exists o.
    split_and!; [done|left|]. by exists s.
Qed.

Lemma evictOne_spec `{RangeOrder} t w :
  wf_live w ->
  exists D, evicted D w (exec (evictOneExpiredLocked opts t) w) /\
    match eval (evictOneExpiredLocked opts t) w with
    | true => exists o id, D = [o] /\ w_sessions w !! id = Some o /\ dead_at t w o
    | false => D = [] /\ forall id o, w_sessions w !! id = Some o -> ~ dead_at t w o
    end.
Proof.
  intros Hw. unfold evictOneExpiredLocked, exec, eval, gets. rewrite bind_run. cbn [fst snd].
  destruct (evict_first_spec t (range_map (w_sessions w)) w Hw) as (D & E & HD);
    [intros ??; apply elem_of_range|].
  exists D. split; [done|]. unfold exec, eval in *.
  destruct (evict_first opts t (range_map (w_sessions w)) w) as [[] w1]; cbn [fst] in *.
  - destruct HD as (o & -> & Ho & Hd). apply list_elem_of_fmap in Ho as ([id o'] & -> & Hin).
    exists o', id. by rewrite <- elem_of_range.
  - destruct HD as [-> HD]. split; [done|]. intros id o Hid (s & Hs & Ha).
    rewrite (HD o s) in Ha; [done| |done]. apply list_elem_of_fmap. exists (id, o).
    by rewrite elem_of_range.
Qed.

(** *** The sweep *)

Lemma elem_of_gc_expired `{RangeOrder} t w id :
  wf_live w -> id ∈ gc_expired opts t w <->
  exists o, w_sessions w !! id = Some o /\ dead_at t w o.
Proof.
  intros Hw. unfold gc_expired. rewrite list_elem_of_omap. split.
  - intros ([id' o] & Hin%elem_of_range & E). simpl in E. exists o.
    destruct (w_objs w !! o) as [s|] eqn:Hs; [|done]. destruct (alive opts s t) eqn:Ha; [done|].
    simplify_eq. split; [done|]. by exists s.
  - intros (o & Hid & s & Hs & Ha). exists (id, o). rewrite elem_of_range. simpl.
    by rewrite Hs, Ha.
Qed.

Lemma NoDup_gc_expired `{RangeOrder} t w : NoDup (gc_expired opts t w).
Proof.
  unfold gc_expired. pose proof (range_NoDup (w_sessions w)) as Hnd.
  induction (range_map (w_sessions w)) as [|[id o] l IH]; [constructor|].
  apply NoDup_cons in Hnd as [Hni Hnd]. specialize (IH Hnd).
  simpl. destruct (w_objs w !! o) as [s|]; [|done]. destruct (alive opts s t); [done|].
  constructor; [|done]. rewrite list_elem_of_omap. intros ([id' o'] & Hin & E). simpl in *.
  apply Hni. apply list_elem_of_fmap. exists (id', o'). split; [|done].
  destruct (w_objs w !! o'); [|done]. destruct (alive opts _ t); by simplify_eq.
Qed.

Definition remove_ids (ids : list string) (w : World) : World :=
  set_sessions (fun m => foldl (fun m id => delete id m) m ids) w.

Lemma lookup_remove_ids ids w id :
  w_sessions (remove_ids ids w) !! id = if decide (id ∈ ids) then None else w_sessions w !! id.
Proof.
  unfold remove_ids; cbn. generalize (w_sessions w) as m. induction ids as [|x ids IH]; intros m.
  { by rewrite decide_False by set_solver. }
  simpl. rewrite IH. destruct (decide (id = x)) as [->|Hne].
  - rewrite lookup_delete_eq, (decide_True (P := x ∈ x :: ids)) by left. by case_decide.
  - rewrite lookup_delete_ne by done.
    destruct (decide (id ∈ ids)), (decide (id ∈ x :: ids)); set_solver.
Qed.

(** The live sessions named by [ids]. *)
Definition objs_of (ids : list string) (w : World) : list nat := omap (fun id => w_sessions w !! id) ids.

Lemma gc_batch_run k ids acc w :
  NoDup ids ->
  gc_batch k ids acc w =
    ((acc ++ objs_of (take k ids) w, drop k ids), remove_ids (take k ids) w).
Proof.
  revert ids acc w; induction k as [|k IH]; intros ids acc w Hnd.
  { simpl. rewrite app_nil_r. by destruct ids, w. }
  destruct ids as [|id ids]; simpl.
  { unfold objs_of; simpl. rewrite app_nil_r. by destruct w. }
  apply NoDup_cons in Hnd as [Hni Hnd]. unfold lookup_session, gets. rewrite bind_run.
  cbn [fst snd]. destruct (w_sessions w !! id) as [o|] eqn:Hid.
  - unfold modify. rewrite bind_run. cbn [fst snd]. rewrite IH by done.
    unfold objs_of; simpl. rewrite <- (assoc_L (++)). do 3 f_equal. simpl. f_equal.
    apply list_omap_ext. apply Forall_Forall2_diag, Forall_forall. intros x Hx%elem_of_take.
    destruct Hx as (i & Hx & _). cbn. rewrite lookup_delete_ne; [done|].
    intros ->. by apply Hni, list_elem_of_lookup_2 with i.
  - rewrite IH by done. unfold objs_of; simpl. f_equal.
    unfold remove_ids, set_sessions; cbn. by rewrite delete_id.
Qed.

Lemma elem_of_objs_of ids w o :
  o ∈ objs_of ids w <-> exists id, id ∈ ids /\ w_sessions w !! id = Some o.
Proof. unfold objs_of. by rewrite list_elem_of_omap. Qed.

(** One round of the sweep: a batch leaves the map, then is erased. *)
Lemma gc_round_evicted `{RangeOrder} ids w :
  wf_live w ->
  evicted (objs_of ids w) w (exec (mfor (objs_of ids w) Session_zero) (remove_ids ids w)).
Proof.
  intros Hw. destruct (zero_all_erased (objs_of ids w) (remove_ids ids w)) as [E S].
  { intros o (id & _ & Hid)%elem_of_objs_of. destruct (Hw _ _ Hid) as (s & Hs & _). by exists s. }
  split.
  - apply (erased_trans [] _ _ (remove_ids ids w)); [by apply erased_nil|done].
  - intros id o. rewrite S, lookup_remove_ids, elem_of_objs_of. case_decide as Hid.
    + split; [done|]. intros [Ho Hn]. destruct Hn. by exists id.
    + split; [|by intros [? _]]. intros Ho. split; [done|]. intros (id' & Hin & Hid').
      apply Hid. by rewrite (wf_live_inj w id id' o).
Qed.

Lemma gc_loop_evicted `{RangeOrder} fuel ids w :
  wf_live w -> NoDup ids -> (length ids <= fuel)%nat ->
  eval (gc_loop fuel ids) w = Some tt /\ evicted (objs_of ids w) w (exec (gc_loop fuel ids) w).
Proof.
  revert ids w; induction fuel as [|fuel IH]; intros [|id ids] w Hw Hnd Hlen;
    try (split; [done|apply evicted_nil]); [simpl in Hlen; lia|].
  unfold eval, exec in *. cbn [gc_loop]. set (all := id :: ids) in *.
  rewrite bind_run, gc_batch_run by done. cbn [fst snd app].
  pose proof (gc_round_evicted (take gcBatchSize all) w Hw) as E. unfold exec in E.
  rewrite bind_run. destruct (mfor _ Session_zero _) as [[] w1]. cbn [fst snd] in *.
  assert (Hdrop : objs_of (drop gcBatchSize all) w1 = objs_of (drop gcBatchSize all) w).
  { rewrite <- (take_drop gcBatchSize all) in Hnd. apply NoDup_app in Hnd as (_ & Hdisj & _).
    apply list_omap_ext, Forall_Forall2_diag, Forall_forall. intros x Hx. destruct E as [_ S].
    apply option_eq. intros o. rewrite S, elem_of_objs_of. split; [by intros [? _]|].
    intros Ho. split; [done|]. intros (y & Hy & Ho').
    rewrite (wf_live_inj w y x o) in Hy by done. by apply (Hdisj x). }
  destruct (IH (drop gcBatchSize all) w1) as [Hev E'].
  - by eapply wf_live_evicted.
  - eapply sublist_NoDup; [apply Hnd|apply sublist_drop].
  - rewrite length_drop. unfold all, gcBatchSize in *. simpl in *. lia.
  - split; [done|]. rewrite Hdrop in E'.
    replace (objs_of all w) with (objs_of (take gcBatchSize all) w ++ objs_of (drop gcBatchSize all) w)
      by (unfold objs_of; by rewrite <- omap_app, take_drop).
    by apply (evicted_trans _ _ _ w1).
Qed.

Lemma doGC_evicted `{RangeOrder} w :
  wf_live w ->
  let t := clock_Now (w_ticks w) in
  let w0 := exec now w in
  eval (doGC opts) w = Some tt /\
  evicted (objs_of (gc_expired opts t w) w) w0 (exec (doGC opts) w).
Proof.
  intros Hw t w0. unfold doGC, eval, exec. rewrite bind_run. cbn [fst snd now].
  unfold gets. rewrite bind_run. cbn [fst snd].
  apply (gc_loop_evicted _ (gc_expired opts t w0) w0); [done|apply NoDup_gc_expired|done].
Qed.
End Ops.
