(* ===== verification/SessionRefresh.v ===== *)
(** * What a credential refresh does to a [World]

    [maybeRefresh] either leaves the session alone, or calls the provider once; a failed call
    changes nothing of the session, a successful one replaces its credential by arrays of its own.
    The effect is summarised by [updated o s s1]: the session [o] went from [s] to [s1], no other
    session changed, and the only existing arrays written to are [s]'s. *)
From S2P Require Import Prelude.
From S2P Require Import Session.
From S2P Require Import SessionStore.
From S2P Require Import SessionFacts.
From S2P Require Import SessionOps.

Section Refresh.
Context `{P : Platform}.
Context (opts : Options).
Implicit Types (w : World) (s : Session) (o : nat) (id : string).

(** Only fresh arrays appear. *)
Record grown (w w' : World) : Prop := mkGrown {
  gr_objs : w_objs w' = w_objs w;
  gr_sessions : w_sessions w' = w_sessions w;
  gr_brk : (w_brk w <= w_brk w')%nat;
  gr_ticks : (w_ticks w <= w_ticks w')%nat;
  gr_mem : forall l, (l < w_brk w)%nat -> w_mem w' !! l = w_mem w !! l;
  gr_new : forall l, (w_brk w <= l)%nat -> w_mem w !! l = None ->
    w_mem w' !! l <> None -> (l < w_brk w')%nat;
}.

Lemma grown_refl w : grown w w.
Proof. by split. Qed.

Lemma grown_trans w w1 w2 : grown w w1 -> grown w1 w2 -> grown w w2.
Proof.
  intros [? ? ? ? M1 N1] [? ? ? ? M2 N2]. split; try congruence; try lia.
  - intros l Hl. rewrite M2 by lia. by apply M1.
  - intros l Hl Hn Hs. destruct (decide (l < w_brk w1)%nat); [lia|].
    apply N2; [lia| |done]. destruct (w_mem w1 !! l) eqn:E; [|done].
    assert (l < w_brk w1)%nat by (apply N1; [lia|done|by rewrite E]). lia.
Qed.

(** A slice made between [w] and [w']. *)
Definition fresh_slice (w w' : World) (b : slice) : Prop :=
  forall l, b = Some l -> (w_brk w <= l < w_brk w')%nat /\ is_Some (w_mem w' !! l).

Lemma fresh_slice_mono w w1 w2 w3 b :
  grown w w1 -> fresh_slice w1 w2 b -> grown w2 w3 -> fresh_slice w w3 b.
Proof.
  intros G1 F G2 l ->. destruct (F l eq_refl) as [? ?].
  pose proof (gr_brk _ _ G1). pose proof (gr_brk _ _ G2).
  split; [lia|]. rewrite (gr_mem _ _ G2); [done|lia].
Qed.

Lemma alloc_grown b w :
  grown w (exec (alloc b) w) /\ fresh_slice w (exec (alloc b) w) (eval (alloc b) w).
Proof.
  destruct b as [x|]; [|split; [apply grown_refl|done]].
  unfold exec, eval; cbn. split.
  - split; cbn; try done; try lia.
    + intros l Hl. rewrite lookup_insert_ne by lia. done.
    + intros l Hl Hn Hs. destruct (decide (l = w_brk w)); [lia|].
      by rewrite lookup_insert_ne in Hs by done.
  - intros l [= <-]; cbn. split; [lia|]. rewrite lookup_insert_eq. by eexists.
Qed.

Definition fresh_credential (w w' : World) (c : Credential) : Prop :=
  fresh_slice w w' (cr_Token c) /\ fresh_slice w w' (cr_CertPEM c) /\ fresh_slice w w' (cr_KeyPEM c).

Lemma alloc_credential_grown v w :
  let c := eval (alloc_credential v) w in
  let w' := exec (alloc_credential v) w in
  grown w w' /\ fresh_credential w w' c /\ cr_ExpiresAt c = cv_ExpiresAt v.
Proof.
  unfold eval, exec, alloc_credential.
  destruct (alloc_grown (cv_Token v) w) as [G1 F1]. unfold eval, exec in *. rewrite bind_run.
  destruct (alloc (cv_Token v) w) as [tok w1]; cbn [fst snd] in *.
  destruct (alloc_grown (cv_CertPEM v) w1) as [G2 F2]. unfold eval, exec in *. rewrite bind_run.
  destruct (alloc (cv_CertPEM v) w1) as [crt w2]; cbn [fst snd] in *.
  destruct (alloc_grown (cv_KeyPEM v) w2) as [G3 F3]. unfold eval, exec in *. rewrite bind_run.
  destruct (alloc (cv_KeyPEM v) w2) as [key w3]; cbn [fst snd] in *.
  pose proof (grown_trans _ _ _ G1 G2). pose proof (grown_trans _ _ _ G2 G3).
  split; [by eapply grown_trans|]. split; [|done]. split_and!; cbn.
  - by apply (fresh_slice_mono _ w w1); [apply grown_refl| |].
  - by apply (fresh_slice_mono _ w1 w2).
  - by apply (fresh_slice_mono _ w2 w3); [| |apply grown_refl].
Qed.

(** *** Installing a refreshed credential *)

Definition refreshed (s : Session) (c : Credential) (tok : slice) : Session :=
  s_set_expiresAt (effectiveExpiry (s_createdAt s) (MaxLifetime opts) (cr_ExpiresAt c))
    (s_upd_transports (fun _ => ∅)
      (s_set_refreshToken (match tok with Some _ => tok | None => s_refreshToken s end)
        (s_set_credential c s))).

(** The arrays [applyRefresh] erases. *)
Definition stale_locs (s : Session) (tok : slice) : list nat :=
  cred_locs (s_credential s) ++ match tok with Some _ => omap id [s_refreshToken s] | None => [] end.

Lemma applyRefresh_run `{RangeOrder} o c tok s w :
  w_objs w !! o = Some s ->
  applyRefresh opts o c tok w =
    (tt, with_obj o (refreshed s c tok) (cleanups (range_map (s_transports s)))
           (with_mem (zero_cells (stale_locs s tok) (w_mem w)) w)).
Proof.
  intros Hs. unfold applyRefresh. rewrite (deref_run _ _ _ s) by done.
  rewrite bind_run, Credential_Zero_run, bind_run, (upd_run _ _ s) by done.
  rewrite bind_run. unfold stale_locs. destruct tok as [l|].
  - rewrite bind_run, zeroBytes_run.
    erewrite upd_run by apply with_obj_lookup. rewrite bind_run.
    erewrite dropTransportsLocked_run by apply with_obj_lookup.
    erewrite upd_run by apply with_obj_lookup.
    rewrite zero_cells_app. unfold with_obj, with_mem; cbn [w_objs w_mem w_closed w_brk w_sessions w_ticks w_draws w_calls].
    by rewrite !insert_insert_eq, !app_nil_r.
  - unfold mret, ST_ret. rewrite bind_run.
    erewrite dropTransportsLocked_run by apply with_obj_lookup.
    erewrite upd_run by apply with_obj_lookup.
    rewrite app_nil_r. unfold with_obj, with_mem; cbn [w_objs w_mem w_closed w_brk w_sessions w_ticks w_draws w_calls].
    rewrite !insert_insert_eq, !app_nil_r. by destruct s.
Qed.

(** *** Contents of fresh arrays *)

Lemma alloc_bytes b w : slice_bytes (w_mem (exec (alloc b) w)) (eval (alloc b) w) = b.
Proof. destruct b as [x|]; [|done]. unfold exec, eval; cbn. by rewrite lookup_insert_eq. Qed.

Lemma slice_bytes_grown w w' b :
  grown w w' -> (forall l, b = Some l -> (l < w_brk w)%nat) ->
  slice_bytes (w_mem w') b = slice_bytes (w_mem w) b.
Proof. intros G Hb. destruct b as [l|]; [|done]. simpl. by rewrite (gr_mem _ _ G) by by apply Hb. Qed.

Lemma slice_bytes_zero ls m b :
  (forall l, b = Some l -> l ∉ ls) -> slice_bytes (zero_cells ls m) b = slice_bytes m b.
Proof.
  intros Hb. destruct b as [l|]; [|done]. simpl.
  by rewrite lookup_zero_cells, decide_False, option_fmap_id by by apply Hb.
Qed.

Lemma alloc_credential_val v w :
  credential_val (w_mem (exec (alloc_credential v) w)) (eval (alloc_credential v) w) = v.
Proof.
  unfold eval, exec, alloc_credential, credential_val.
  pose proof (alloc_bytes (cv_Token v) w) as B1.
  destruct (alloc_grown (cv_Token v) w) as [G1 F1]. unfold eval, exec in *. rewrite bind_run.
  destruct (alloc (cv_Token v) w) as [tok w1]; cbn [fst snd] in *.
  pose proof (alloc_bytes (cv_CertPEM v) w1) as B2.
  destruct (alloc_grown (cv_CertPEM v) w1) as [G2 F2]. unfold eval, exec in *. rewrite bind_run.
  destruct (alloc (cv_CertPEM v) w1) as [crt w2]; cbn [fst snd] in *.
  pose proof (alloc_bytes (cv_KeyPEM v) w2) as B3.
  destruct (alloc_grown (cv_KeyPEM v) w2) as [G3 F3]. unfold eval, exec in *. rewrite bind_run.
  destruct (alloc (cv_KeyPEM v) w2) as [key w3]; cbn in *.
  rewrite (slice_bytes_grown w1 w3 tok), (slice_bytes_grown w2 w3 crt), B1, B2, B3;
    [by destruct v|done| |by eapply grown_trans|]; intros l Hl.
  - apply (F2 l Hl).
  - apply (F1 l Hl).
Qed.

(** *** The effect on the session *)

(** The refresh token has an array of its own. *)
Definition self_ok (s : Session) : Prop :=
  forall l, s_refreshToken s = Some l -> l ∉ cred_locs (s_credential s).

Definition mem_wf (w : World) : Prop := forall l, is_Some (w_mem w !! l) -> (l < w_brk w)%nat.
Definition locs_ok (s : Session) (w : World) : Prop :=
  forall l, l ∈ session_locs s -> is_Some (w_mem w !! l).

Record updated (o : nat) (s s1 : Session) (w w1 : World) : Prop := mkUpdated {
  up_lookup : w_objs w !! o = Some s;
  up_objs : w_objs w1 = <[o := s1]> (w_objs w);
  up_sessions : w_sessions w1 = w_sessions w;
  up_brk : (w_brk w <= w_brk w1)%nat;
  up_ticks : (w_ticks w <= w_ticks w1)%nat;
  up_mem : forall l, (l < w_brk w)%nat -> l ∉ session_locs s -> w_mem w1 !! l = w_mem w !! l;
  up_dom : forall l, is_Some (w_mem w !! l) -> is_Some (w_mem w1 !! l);
  up_new : forall l, is_Some (w_mem w1 !! l) -> is_Some (w_mem w !! l) \/ (l < w_brk w1)%nat;
  up_locs : forall l, l ∈ session_locs s1 ->
    l ∈ session_locs s \/ (w_brk w <= l < w_brk w1)%nat /\ is_Some (w_mem w1 !! l);
  up_drop : forall l, l ∈ session_locs s -> l ∈ session_locs s1 \/
    forall b, w_mem w1 !! l = Some b -> all_zero b = true;
  up_self : self_ok s -> self_ok s1;
  up_id : s_id s1 = s_id s;
  up_mode : s_mode s1 = s_mode s;
  up_capKey : s_capKey s1 = s_capKey s;
  up_createdAt : s_createdAt s1 = s_createdAt s;
  up_username : s_username s1 = s_username s;
  up_refresher : s_refresher s1 = s_refresher s;
  up_expiry :
    s_expiresAt s = effectiveExpiry (s_createdAt s) (MaxLifetime opts) (cr_ExpiresAt (s_credential s)) ->
    s_expiresAt s1 = effectiveExpiry (s_createdAt s1) (MaxLifetime opts) (cr_ExpiresAt (s_credential s1));
}.

Lemma updated_refl o s w : w_objs w !! o = Some s -> updated o s s w w.
Proof. intros Hs. split; try done; auto. by rewrite insert_id. Qed.

(** A session whose own arrays are kept: only its other fields, or fresh arrays, change. *)
Lemma updated_grown o s w w1 : w_objs w !! o = Some s -> grown w w1 ->
  mem_wf w -> updated o s s w w1.
Proof.
  intros Hs [Go Gs Gb Gt Gm Gn] Hwf. split; try done; auto.
  - by rewrite Go, insert_id.
  - intros l Hl. rewrite Gm; [done|by apply Hwf].
  - intros l Hl. destruct (decide (l < w_brk w)%nat); [left; by rewrite <- Gm|right].
    apply Gn; [lia| |by apply not_eq_None_Some].
    apply eq_None_not_Some. intros ?%Hwf. lia.
Qed.

Lemma elem_of_cred_locs c l :
  l ∈ cred_locs c <-> cr_Token c = Some l \/ cr_CertPEM c = Some l \/ cr_KeyPEM c = Some l.
Proof. destruct c as [? [] [] [] ? ?]; cbn; set_solver. Qed.

Lemma elem_of_session_locs s l :
  l ∈ session_locs s <-> l ∈ cred_locs (s_credential s) \/ s_refreshToken s = Some l.
Proof. unfold session_locs. destruct (s_refreshToken s); cbn; set_solver. Qed.

Lemma stale_locs_subset s tok l : l ∈ stale_locs s tok -> l ∈ session_locs s.
Proof. unfold stale_locs, session_locs. destruct tok; set_solver. Qed.

Lemma applyRefresh_updated `{RangeOrder} o c tok s w w1 :
  w_objs w !! o = Some s -> grown w w1 ->
  mem_wf w ->
  fresh_credential w w1 c -> fresh_slice w w1 tok -> locs_ok s w ->
  (forall l, tok = Some l -> l ∉ cred_locs c) ->
  updated o s (refreshed s c tok) w (exec (applyRefresh opts o c tok) w1).
Proof.
  intros Hs G Hwf (F1 & F2 & F3) Ft Hlocs Hself. pose proof G as [Go Gs Gb Gt Gm Gn].
  pose proof (updated_grown o s w w1 Hs G Hwf) as U0.
  unfold exec. erewrite applyRefresh_run by by rewrite Go. unfold with_obj, with_mem.
  assert (Hz : forall l, is_Some (zero_cells (stale_locs s tok) (w_mem w1) !! l) <-> is_Some (w_mem w1 !! l))
    by (intros l; by rewrite lookup_zero_cells, fmap_is_Some).
  split; cbn [snd w_objs w_mem w_sessions w_brk w_ticks]; try done.
  - by rewrite Go.
  - intros l Hl Hn. rewrite lookup_zero_cells, decide_False, option_fmap_id
      by (intros ?%stale_locs_subset; done). by apply Gm.
  - intros l Hl. apply Hz, U0, Hl.
  - intros l Hl%Hz. by apply U0.
  - intros l Hl. apply elem_of_session_locs in Hl. rewrite elem_of_cred_locs in Hl. rewrite Hz.
    cbn in Hl. destruct Hl as [[Hc|[Hc|Hc]]|Hc];
      [right; by apply F1|right; by apply F2|right; by apply F3|].
    destruct tok as [l'|]; [right; by apply Ft|left].
    apply elem_of_session_locs. by right.
  - intros l Hl. destruct (decide (l ∈ stale_locs s tok)) as [Hst|Hst].
    + right. intros b. rewrite lookup_zero_cells, decide_True by done.
      destruct (w_mem w1 !! l); [|done]. intros [= <-]. apply zero_string_all_zero.
    + left. unfold stale_locs in Hst. apply elem_of_session_locs in Hl as [Hl|Hl]; [set_solver|].
      apply elem_of_session_locs. right. cbn. destruct tok; [|done]. rewrite Hl in Hst. set_solver.
  - intros _ l. cbn. destruct tok as [l'|]; [by apply Hself|]. intros Hl Hc.
    assert (l < w_brk w)%nat by (apply Hwf, Hlocs, elem_of_session_locs; by right).
    apply elem_of_cred_locs in Hc as [Hc|[Hc|Hc]];
      [destruct (F1 l Hc)|destruct (F2 l Hc)|destruct (F3 l Hc)]; lia.
Qed.

Lemma updated_zero_fresh o s s1 w w1 b :
  updated o s s1 w w1 -> (forall l, b = Some l -> (w_brk w <= l)%nat) ->
  updated o s s1 w (exec (zeroBytes b) w1).
Proof.
  intros U Hb. unfold exec. rewrite zeroBytes_run. unfold with_mem. destruct U.
  assert (Hz : forall l, is_Some (zero_cells (omap id [b]) (w_mem w1) !! l) <-> is_Some (w_mem w1 !! l))
    by (intros l; by rewrite lookup_zero_cells, fmap_is_Some).
  split; cbn [snd w_objs w_mem w_sessions w_brk w_ticks]; try done.
  - intros l Hl Hn. rewrite lookup_zero_cells, decide_False, option_fmap_id; [by apply up_mem0|].
    destruct b as [l'|]; cbn; [|set_solver]. rewrite list_elem_of_singleton. intros ->.
    specialize (Hb _ eq_refl). lia.
  - intros l Hl. by apply Hz, up_dom0.
  - intros l Hl%Hz. by apply up_new0.
  - intros l Hl. rewrite Hz. by apply up_locs0.
  - intros l Hl. destruct (up_drop0 l Hl) as [?|Hd]; [by left|right]. intros b'.
    rewrite lookup_zero_cells. destruct (w_mem w1 !! l) as [b0|]; [|done]. cbn. intros [= <-].
    specialize (Hd b0 eq_refl). case_decide; [apply zero_string_all_zero|done].
Qed.

Lemma grown_tick w : grown w (exec now w).
Proof. split; cbn; try done; lia. Qed.

Lemma callRefresher_spec r tok w :
  let b := slice_bytes (w_mem w) tok in
  let w' := exec (callRefresher r tok) w in
  grown w w' /\ (w_calls w' = S (w_calls w) /\ w_ticks w' = w_ticks w) /\
  match refresher_Refresh r (w_calls w) b, eval (callRefresher r tok) w with
  | Err e, Err e' => e' = e
  | Ok (v, nt), Ok (c, t) =>
      fresh_credential w w' c /\ fresh_slice w w' t /\
      credential_val (w_mem w') c = v /\ slice_bytes (w_mem w') t = nt /\
      (forall l, t = Some l -> l ∉ cred_locs c)
  | _, _ => False
  end.
Proof.
  cbn zeta. unfold callRefresher, exec, eval, gets, call_Refresh. rewrite bind_run.
  cbn [fst snd]. rewrite bind_run. set (w1 := mkWorld _ _ _ _ _ _ (S _) _).
  assert (G1 : grown w w1) by (split; cbn; try done; lia).
  destruct (refresher_Refresh r (w_calls w) (slice_bytes (w_mem w) tok)) as [[v nt]|e]; [|done].
  rewrite bind_run. destruct (alloc_credential_grown v w1) as (G2 & F2 & _).
  pose proof (alloc_credential_val v w1) as V.
  assert (w_calls (exec (alloc_credential v) w1) = S (w_calls w) /\
          w_ticks (exec (alloc_credential v) w1) = w_ticks w) as [C2 T2].
  { unfold exec, alloc_credential. destruct v as [? [] [] [] ? ?]; split; reflexivity. }
  unfold exec, eval in *. destruct (alloc_credential v w1) as [c w2]; cbn [fst snd] in *.
  rewrite bind_run. destruct (alloc_grown nt w2) as [G3 F3]. pose proof (alloc_bytes nt w2) as B.
  assert (w_calls (exec (alloc nt) w2) = w_calls w2 /\ w_ticks (exec (alloc nt) w2) = w_ticks w2)
    as [C3 T3] by by destruct nt.
  unfold exec, eval in *. destruct (alloc nt w2) as [t w3]; cbn [fst snd mret ST_ret] in *.
  pose proof (grown_trans _ _ _ G1 G2) as G12. split; [by eapply grown_trans|].
  split; [split; congruence|]. destruct F2 as (A & B' & C).
  assert (Hb : forall b, fresh_slice w1 w2 b -> slice_bytes (w_mem w3) b = slice_bytes (w_mem w2) b).
  { intros b Fb. apply slice_bytes_grown; [done|]. intros l Hl. by apply Fb. }
  split; [split; [|split]; by apply (fresh_slice_mono w w1 w2 w3)|].
  split; [apply (fresh_slice_mono w w2 w3 w3); [done|done|apply grown_refl]|].
  split; [rewrite <- V; unfold credential_val; by rewrite !Hb|]. split; [done|].
  intros l Hl. destruct (F3 l Hl) as [? _]. rewrite elem_of_cred_locs.
  intros [Hc|[Hc|Hc]]; [destruct (A l Hc)|destruct (B' l Hc)|destruct (C l Hc)]; lia.
Qed.

(** *** The whole refresh *)

(** The session and the arrays that existed are as before. *)
Definition kept (s s1 : Session) (w w' : World) : Prop :=
  s1 = s /\ forall l, (l < w_brk w)%nat -> w_mem w' !! l = w_mem w !! l.

(** What one call of the provider, on the refresh token's bytes, does to session [s]. *)
Definition refresh_effect (r : Refresher) (s s1 : Session) (w w' : World) (out : result string unit) : Prop :=
  w_calls w' = S (w_calls w) /\
  match refresher_Refresh r (w_calls w) (slice_bytes (w_mem w) (s_refreshToken s)) with
  | Err e => out = Err e /\ kept s s1 w w'
  | Ok (v, nt) =>
      out = Ok tt /\ exists c tok, s1 = refreshed s c tok /\
        credential_val (w_mem w') c = v /\ slice_bytes (w_mem w') tok = nt /\
        (tok = None -> self_ok s ->
         slice_bytes (w_mem w') (s_refreshToken s) = slice_bytes (w_mem w) (s_refreshToken s))
  end.

Definition refresh_result (s s1 : Session) (t : time) (w w' : World) (out : result string unit) : Prop :=
  w_ticks w' = S (w_ticks w) /\
  match s_refresher s with
  | Some r => if needsRefresh s t refreshWindow then refresh_effect r s s1 w w' out
              else out = Ok tt /\ kept s s1 w w' /\ w_calls w' = w_calls w
  | None => out = Ok tt /\ kept s s1 w w' /\ w_calls w' = w_calls w
  end.

Lemma fresh_not_stale w w1 w2 s b tok :
  mem_wf w -> locs_ok s w -> grown w w1 -> fresh_slice w1 w2 b ->
  forall l, b = Some l -> l ∉ stale_locs s tok.
Proof.
  intros Hm Hl G F l Hb Hin%stale_locs_subset%Hl%Hm. destruct (F l Hb) as [? _].
  pose proof (gr_brk _ _ G). lia.
Qed.

(** The end of [refreshLocked], from the provider's answer on. *)
Lemma refresh_install `{RangeOrder} o s w w1 w2 tok c nt out :
  w_objs w !! o = Some s -> mem_wf w -> locs_ok s w ->
  grown w w1 -> fresh_slice w w1 tok -> grown w1 w2 ->
  fresh_credential w1 w2 c -> fresh_slice w1 w2 nt ->
  (forall l, nt = Some l -> l ∉ cred_locs c) ->
  let m : ST World (result string unit) :=
    out ← (applyRefresh opts o c nt;; mret out); zeroBytes tok;; mret out in
  let w' := exec m w2 in
  updated o s (refreshed s c nt) w w' /\ eval m w2 = out /\
  (w_calls w' = w_calls w2 /\ w_ticks w' = w_ticks w2) /\
  credential_val (w_mem w') c = credential_val (w_mem w2) c /\
  slice_bytes (w_mem w') nt = slice_bytes (w_mem w2) nt /\
  (nt = None -> self_ok s ->
   slice_bytes (w_mem w') (s_refreshToken s) = slice_bytes (w_mem w) (s_refreshToken s)).
Proof.
  intros Hs Hm Hl G1 Ft G2 Fc Fn Hself m w'. pose proof (grown_trans _ _ _ G1 G2) as G.
  assert (Hm2 : forall b, fresh_slice w1 w2 b -> fresh_slice w w2 b).
  { intros b Fb. apply (fresh_slice_mono w w1 w2 w2); [done|done|apply grown_refl]. }
  destruct Fc as (F1 & F2 & F3).
  pose proof (applyRefresh_updated o c nt s w w2 Hs G Hm) as U.
  apply (updated_zero_fresh _ _ _ _ _ tok) in U;
    [|split; [|split]; by apply Hm2|by apply Hm2|done|done|intros l Hb; by apply Ft].
  assert (Hb : forall b, (forall l, b = Some l -> l ∉ stale_locs s nt /\ tok <> Some l) ->
                 slice_bytes (w_mem w') b = slice_bytes (w_mem w2) b).
  { intros b Fb. unfold w', m, exec. rewrite !bind_run.
    rewrite (applyRefresh_run _ _ _ s) by by rewrite (gr_objs _ _ G).
    unfold mret, ST_ret. rewrite bind_run, zeroBytes_run. cbn [snd w_mem with_mem with_obj].
    rewrite !slice_bytes_zero; [done| |].
    - intros l Hb. by apply Fb.
    - intros l Hb. destruct (Fb l Hb) as [_ ?]. destruct tok as [l'|]; cbn; [|set_solver].
      rewrite list_elem_of_singleton. congruence. }
  assert (Hnew : forall b, fresh_slice w1 w2 b -> slice_bytes (w_mem w') b = slice_bytes (w_mem w2) b).
  { intros b Fb. apply Hb. intros l Hl'. split; [by apply (fresh_not_stale w w1 w2 s b nt)|].
    intros Ht. destruct (Fb l Hl') as [? _], (Ft l Ht) as [? _]. lia. }
  assert (Hold : nt = None -> self_ok s ->
            slice_bytes (w_mem w') (s_refreshToken s) = slice_bytes (w_mem w) (s_refreshToken s)).
  { intros -> Hso. assert (Hlt : forall l, s_refreshToken s = Some l -> (l < w_brk w)%nat)
      by (intros l Hl'; apply Hm, Hl, elem_of_session_locs; by right).
    rewrite Hb; [by apply slice_bytes_grown|]. intros l Hl'. split.
    - unfold stale_locs. rewrite app_nil_r. by apply Hso.
    - intros Ht. destruct (Ft l Ht) as [? _]. specialize (Hlt l Hl'). lia. }
  clear Hb. revert U Hnew Hold. unfold w', m, exec, eval. rewrite !bind_run.
  rewrite (applyRefresh_run _ _ _ s) by by rewrite (gr_objs _ _ G).
  unfold mret, ST_ret. rewrite !bind_run, !zeroBytes_run. cbn [fst snd]. intros U Hb Hold.
  split; [done|]. split; [done|]. split; [split; done|].
  split; [unfold credential_val; by rewrite !Hb|]. split; [by apply Hb|done].
Qed.

Lemma refreshLocked_spec `{RangeOrder} o s w :
  w_objs w !! o = Some s -> mem_wf w -> locs_ok s w ->
  exists s1, updated o s s1 w (exec (refreshLocked opts o) w) /\
    refresh_result s s1 (clock_Now (w_ticks w)) w (exec (refreshLocked opts o) w)
      (eval (refreshLocked opts o) w).
Proof.
  intros Hs Hm Hl. unfold refreshLocked, exec, eval. rewrite bind_run.
  pose proof (grown_tick w) as G0. unfold exec in G0. destruct (now w) as [t w0] eqn:Ew.
  injection Ew as <- Ew. cbn [snd] in G0. unfold refresh_result.
  rewrite (deref_run _ _ _ s) by by rewrite (gr_objs _ _ G0).
  assert (Hno : exists s1, updated o s s1 w w0 /\ w_ticks w0 = S (w_ticks w) /\ kept s s1 w w0 /\
            w_calls w0 = w_calls w).
  { exists s. split; [by apply updated_grown|]. by rewrite <- Ew. }
  destruct (needsRefresh s _ refreshWindow) eqn:Hn; cbn [negb].
  2:{ destruct Hno as (s1 & ? & ? & ? & ?). exists s1. split; [done|]. split; [done|].
      by destruct (s_refresher s). }
  destruct (s_refresher s) as [r|] eqn:Hr; [|by destruct Hno as (s1 & ? & ? & ? & ?); exists s1].
  rewrite bind_run. unfold refreshTokenCopy, gets. rewrite bind_run. cbn [fst snd].
  set (b := slice_bytes (w_mem w0) (s_refreshToken s)).
  destruct (alloc_grown b w0) as [G1 F1]. pose proof (alloc_bytes b w0) as B1.
  assert (w_calls (exec (alloc b) w0) = w_calls w /\ w_ticks (exec (alloc b) w0) = S (w_ticks w))
    as [C1 T1] by (rewrite <- Ew; by destruct b).
  unfold exec, eval in G1, F1, B1, C1, T1. destruct (alloc b w0) as [tok w1]; cbn [fst snd] in *.
  destruct (callRefresher_spec r tok w1) as (G2 & [C2 T2] & R). rewrite B1, C1 in R.
  assert (Hb : b = slice_bytes (w_mem w) (s_refreshToken s)) by (unfold b; by rewrite <- Ew).
  unfold refresh_effect. rewrite Hb in R. unfold exec, eval in *. rewrite bind_run.
  destruct (callRefresher r tok w1) as [res w2]; cbn [fst snd] in *.
  pose proof (grown_trans _ _ _ G0 G1) as G01.
  assert (Ft : fresh_slice w w1 tok).
  { apply (fresh_slice_mono w w0 w1 w1); [done|done|apply grown_refl]. }
  destruct (refresher_Refresh r _ _) as [[v nt]|e], res as [[c t]|e']; try done.
  - destruct R as (Fc & Fn & V & B & Hself). exists (refreshed s c t).
    destruct (refresh_install o s w w1 w2 tok c t (Ok tt) Hs Hm Hl G01 Ft G2 Fc Fn Hself)
      as (U & E & [C T] & V' & B' & Hold).
    unfold exec, eval in *. split; [done|]. split; [congruence|]. split; [congruence|]. split; [done|].
    exists c, t. split; [done|]. split; [congruence|]. split; [congruence|done].
  - subst e'. exists s. rewrite bind_run. unfold mret, ST_ret.
    rewrite bind_run, zeroBytes_run. cbn [fst snd w_calls w_ticks with_mem].
    split; [|split; [congruence|split; [congruence|split; [done|split; [done|]]]]].
    2:{ intros l Hlt. cbn [w_mem with_mem]. rewrite lookup_zero_cells, decide_False, option_fmap_id.
        - apply (gr_mem _ _ (grown_trans _ _ _ G01 G2)), Hlt.
        - destruct tok as [l'|]; cbn; [|set_solver]. rewrite list_elem_of_singleton. intros ->.
          destruct (Ft l' eq_refl) as [? _]. lia. }
    pose proof (updated_zero_fresh o s s w w2 tok) as U. unfold exec in U.
    rewrite zeroBytes_run in U. apply U; [|intros l Hb'; by apply Ft].
    apply updated_grown; [done|by eapply grown_trans|done].
Qed.

Lemma maybeRefresh_spec `{RangeOrder} o s t w :
  w_objs w !! o = Some s -> mem_wf w -> locs_ok s w ->
  exists s1, updated o s s1 w (exec (maybeRefresh opts o t) w) /\
    if needsRefresh s t refreshWindow
    then refresh_result s s1 (clock_Now (w_ticks w)) w (exec (maybeRefresh opts o t) w)
           (eval (maybeRefresh opts o t) w)
    else s1 = s /\ exec (maybeRefresh opts o t) w = w /\ eval (maybeRefresh opts o t) w = Ok tt.
Proof.
  intros Hs Hm Hl. unfold maybeRefresh, exec, eval. rewrite (deref_run _ _ _ s) by done.
  destruct (needsRefresh s t refreshWindow) eqn:Hn; cbn [negb].
  - by apply refreshLocked_spec.
  - exists s. split; [by apply updated_refl|done].
Qed.
End Refresh.
