(* ===== verification/SessionInv.v ===== *)
(** * The invariant of the session store

    [Inv] is what every reachable world satisfies when the store's operations run one at a time:
    the map is consistent with the objects, no two sessions share an array, an evicted session
    holds no secret, the size and the per-user bounds hold, and [expiresAt] is what
    [effectiveExpiry] says. The file shows that every operation preserves it. *)
From S2P Require Import Prelude.
From S2P Require Import Session.
From S2P Require Import SessionStore.
From S2P Require Import SessionFacts.
From S2P Require Import SessionOps.
From S2P Require Import SessionRefresh.

(** What [setDefaults] guarantees. *)
Record opts_ok (o : Options) : Prop := mkOptsOk {
  ok_idle : 0 < IdleTimeout o;
  ok_life : 0 < MaxLifetime o;
  ok_max : 0 < MaxSessions o;
  ok_per : 0 < MaxSessionsPerUser o <= MaxSessions o;
}.

Lemma setDefaults_ok o : opts_ok (setDefaults o).
Proof.
  unfold setDefaults, DefaultIdleTimeout, DefaultMaxLifetime, DefaultMaxSessions,
    DefaultMaxSessionsPerUser, Minute, Hour, Minute, Second.
  split; cbn; repeat (match goal with |- context [if ?b then _ else _] => destruct b eqn:? end); lia.
Qed.

Section Inv.
Context `{P : Platform}.
Context (opts : Options).
Implicit Types (w : World) (s : Session) (o : nat) (id : string).

Definition live_obj (w : World) (o : nat) : Prop := exists id, w_sessions w !! id = Some o.

(** How many live sessions are grouped under [capKey]. *)
Definition live_count (capKey : string) (w : World) : nat :=
  length (owned_by (H := range_default) capKey w).

Lemma owned_by_count `{RangeOrder} capKey w : length (owned_by capKey w) = live_count capKey w.
Proof.
  unfold live_count, owned_by. apply Permutation_length. apply omap_Permutation.
  by rewrite !range_perm.
Qed.

Record Inv (w : World) : Prop := mkInv {
  i_live : wf_live w;
  i_mem : mem_wf w;
  i_objs : forall o s, w_objs w !! o = Some s -> (o < w_brk w)%nat;
  i_locs : forall o s, w_objs w !! o = Some s -> locs_ok s w;
  i_disj : forall o1 o2 s1 s2 l, w_objs w !! o1 = Some s1 -> w_objs w !! o2 = Some s2 ->
    l ∈ session_locs s1 -> l ∈ session_locs s2 -> o1 = o2;
  i_self : forall o s, w_objs w !! o = Some s -> self_ok s;
  i_dead : forall o s, w_objs w !! o = Some s -> ~ live_obj w o -> session_locs s = [];
  i_size : Z.of_nat (size (w_sessions w)) <= MaxSessions opts;
  i_cap : forall capKey, capKey <> "" -> Z.of_nat (live_count capKey w) <= MaxSessionsPerUser opts;
  i_exp : forall o s, w_objs w !! o = Some s ->
    s_expiresAt s = effectiveExpiry (s_createdAt s) (MaxLifetime opts) (cr_ExpiresAt (s_credential s));
}.

Lemma Inv_world0 : opts_ok opts -> Inv world0.
Proof.
  intros [? ? ? ?]. split; try (intros *; cbn; rewrite ?lookup_empty; done).
  - intros l [x Hx]. cbn in Hx. by rewrite lookup_empty in Hx.
  - change (w_sessions world0) with (∅ : gmap string nat). rewrite map_size_empty. lia.
  - intros. unfold live_count, owned_by. cbn. rewrite map_to_list_empty. cbn. lia.
Qed.

Lemma Inv_ext w w' :
  w_objs w' = w_objs w -> w_mem w' = w_mem w -> w_brk w' = w_brk w ->
  w_sessions w' = w_sessions w -> Inv w -> Inv w'.
Proof.
  intros Eo Em Eb Es [I1 I2 I3 I4 I5 IS I6 I7 I8 I9].
  unfold wf_live, mem_wf, locs_ok, live_obj, live_count, owned_by in *.
  split; unfold wf_live, mem_wf, locs_ok, live_obj, live_count, owned_by;
    rewrite ?Eo, ?Em, ?Eb, ?Es; done.
Qed.

(** Only fresh arrays appeared. *)
Lemma Inv_grown w w' : grown w w' -> mem_wf w' -> Inv w -> Inv w'.
Proof.
  intros [Eo Es Eb Et Em En] Hm [I1 I2 I3 I4 I5 IS I6 I7 I8 I9].
  unfold wf_live, live_obj, live_count, owned_by in *.
  split; unfold wf_live, live_obj, live_count, owned_by; rewrite ?Eo, ?Es; try done.
  - intros o s Hs. pose proof (I3 o s Hs). lia.
  - intros o s Hs l Hl. pose proof (I4 o s Hs l Hl) as Hin. rewrite Em; [done|by apply I2].
Qed.

Lemma mem_wf_grown w w' : grown w w' -> mem_wf w -> mem_wf w'.
Proof.
  intros [Eo Es Eb Et Em En] Hm l Hl. destruct (decide (l < w_brk w)%nat); [lia|].
  apply En; [lia| |by apply not_eq_None_Some]. apply eq_None_not_Some. intros ?%Hm. lia.
Qed.

Lemma Inv_now w : Inv w -> Inv (exec now w).
Proof. by apply Inv_ext. Qed.

(** Fewer live sessions, the same identities: no group grows. *)
Lemma live_count_mono capKey w w' :
  wf_live w -> wf_live w' ->
  (forall id o, w_sessions w' !! id = Some o -> w_sessions w !! id = Some o) ->
  (forall o, s_capKey <$> w_objs w' !! o = s_capKey <$> w_objs w !! o) ->
  forall D : list nat, NoDup D ->
  (forall o, o ∈ D -> o ∈ (owned_by (H := range_default) capKey w).*1 /\ ~ live_obj w' o) ->
  (live_count capKey w' + length D <= live_count capKey w)%nat.
Proof.
  intros Hw Hw' Hs Hk D HD Hlive. unfold live_count.
  rewrite <- (length_map fst (owned_by capKey w')), <- (length_map fst (owned_by capKey w)).
  rewrite <- length_app. apply submseteq_length, NoDup_submseteq.
  - apply NoDup_app. split; [by apply NoDup_owned|]. split; [|done].
    intros o ([o' s] & -> & (id & Hid & _)%elem_of_owned)%list_elem_of_fmap Hin.
    destruct (Hlive o' Hin) as [_ Hn]. apply Hn. by exists id.
  - intros o [([o' s] & -> & (id & Hid & Ho & <-)%elem_of_owned)%list_elem_of_fmap|Hin]%elem_of_app.
    2: by apply Hlive.
    specialize (Hk o'). rewrite Ho in Hk. destruct (w_objs w !! o') as [s0|] eqn:E; [|done].
    injection Hk as Hk. apply list_elem_of_fmap. exists (o', s0). split; [done|].
    apply elem_of_owned. exists id. split_and!; auto.
Qed.

(** Any change that forgets arrays, but never moves one to another session. *)
Lemma Inv_evicted D w w' : evicted D w w' -> Inv w -> Inv w'.
Proof.
  intros Ev Hi. destruct Hi as [I1 I2 I3 I4 I5 IS I6 I7 I8 I9].
  pose proof (wf_live_evicted _ _ _ Ev I1) as I1'. destruct Ev as [E S].
  assert (Hobj : forall o s', w_objs w' !! o = Some s' -> exists s, w_objs w !! o = Some s /\
            s' = (if decide (o ∈ D) then zeroed s else s)).
  { intros o s' Hs'. rewrite (er_objs _ _ _ E) in Hs'. destruct (w_objs w !! o) as [s|]; [|done].
    exists s. split; [done|]. by case_decide; simplify_eq/=. }
  assert (Hloc : forall o s' l, w_objs w' !! o = Some s' -> l ∈ session_locs s' ->
            exists s, w_objs w !! o = Some s /\ l ∈ session_locs s).
  { intros o s' l Hs' Hl. destruct (Hobj o s' Hs') as (s & Hs & ->). exists s. split; [done|].
    case_decide; [|done]. rewrite session_locs_zeroed in Hl. set_solver. }
  assert (Hdom : forall l, is_Some (w_mem w' !! l) <-> is_Some (w_mem w !! l))
    by (intros l; by rewrite (er_mem _ _ _ E), fmap_is_Some).
  split; try done.
  - intros l Hl%Hdom%I2. by rewrite (er_brk _ _ _ E).
  - intros o s' Hs'. destruct (Hobj o s' Hs') as (s & Hs & _). rewrite (er_brk _ _ _ E). by eapply I3.
  - intros o s' Hs' l Hl. apply Hdom. destruct (Hloc o s' l Hs' Hl) as (s & Hs & Hl').
    by eapply I4.
  - intros o1 o2 s1 s2 l H1 H2 L1 L2.
    destruct (Hloc o1 s1 l H1 L1) as (t1 & ? & ?), (Hloc o2 s2 l H2 L2) as (t2 & ? & ?).
    by eapply I5.
  - intros o s' Hs'. destruct (Hobj o s' Hs') as (s & Hs & ->). case_decide; [done|by eapply IS].
  - intros o s' Hs' Hn. destruct (Hobj o s' Hs') as (s & Hs & ->). case_decide as HD; [done|].
    apply (I6 o s Hs). intros [id Hid]. apply Hn. exists id. by apply S.
  - assert (size (w_sessions w') <= size (w_sessions w))%nat; [|lia].
    apply map_subseteq_size, map_subseteq_spec. intros id o Ho. by apply S.
  - intros capKey Hk. pose proof (live_count_mono capKey w w' I1 I1') as Hc.
    specialize (Hc ltac:(intros ??; by rewrite S; intros [? _])).
    specialize (Hc ltac:(intros o; rewrite (er_objs _ _ _ E), <- option_fmap_compose;
      destruct (w_objs w !! o); [|done]; simpl; by case_decide) []
      ltac:(constructor) ltac:(set_solver)). simpl in Hc.
    specialize (I8 capKey Hk). lia.
  - intros o s' Hs'. destruct (Hobj o s' Hs') as (s & Hs & ->). case_decide; [|by eapply I9].
    by apply (I9 o s).
Qed.

(** A session was updated in place: a live one, or one that gets no new array. *)
Lemma Inv_updated o s s1 w w1 :
  updated opts o s s1 w w1 -> live_obj w o \/ session_locs s1 = session_locs s -> Inv w -> Inv w1.
Proof.
  intros U Hlive [I1 I2 I3 I4 I5 IS I6 I7 I8 I9]. destruct U.
  assert (Hobj : forall o' s', w_objs w1 !! o' = Some s' ->
            (o' = o /\ s' = s1) \/ (o' <> o /\ w_objs w !! o' = Some s')).
  { intros o' s' Hs'. rewrite up_objs in Hs'. apply lookup_insert_Some in Hs'. naive_solver. }
  assert (Hold : forall l, is_Some (w_mem w !! l) -> (l < w_brk w)%nat) by done.
  assert (Hsep : forall o' s' l, w_objs w !! o' = Some s' -> o' <> o -> l ∈ session_locs s' ->
            l ∉ session_locs s1).
  { intros o' s' l Hs' Hne Hl Hl1. destruct (up_locs l Hl1) as [Hl0|[Hl0 _]].
    - by apply Hne, (I5 o' o s' s l).
    - specialize (Hold l (I4 o' s' Hs' l Hl)). lia. }
  assert (I1' : wf_live w1).
  { intros id o' Hid. rewrite up_sessions in Hid. destruct (I1 id o' Hid) as (s' & Hs' & <-).
    destruct (decide (o' = o)) as [->|].
    - simplify_eq. exists s1. by rewrite up_objs, lookup_insert_eq.
    - exists s'. by rewrite up_objs, lookup_insert_ne. }
  split; try done.
  - intros l [Hl%Hold|Hl]%up_new; lia.
  - intros o' s' [[-> _]|[_ Hs']]%Hobj; [pose proof (I3 _ _ up_lookup)|pose proof (I3 _ _ Hs')]; lia.
  - intros o' s' [[-> ->]|[Hne Hs']]%Hobj l Hl.
    + destruct (up_locs l Hl) as [Hl0|[_ ?]]; [|done]. apply up_dom. by eapply I4.
    + apply up_dom. by eapply I4.
  - intros o1 o2 t1 t2 l [[-> ->]|[? H1]]%Hobj [[-> ->]|[? H2]]%Hobj L1 L2; [done| | |by eapply I5].
    + destruct (Hsep o2 t2 l); done.
    + destruct (Hsep o1 t1 l); done.
  - intros o' s' [[-> ->]|[Hne Hs']]%Hobj; [by apply up_self, (IS o)|by eapply IS].
  - intros o' s' [[-> ->]|[Hne Hs']]%Hobj Hn.
    + destruct Hlive as [Hlive|Hlive].
      * destruct Hn. unfold live_obj in *. by rewrite up_sessions.
      * rewrite Hlive. apply (I6 o s up_lookup). unfold live_obj in *. by rewrite <- up_sessions.
    + apply (I6 o' s' Hs'). unfold live_obj in *. by rewrite <- up_sessions.
  - by rewrite up_sessions.
  - intros capKey Hk. pose proof (live_count_mono capKey w w1 I1 I1') as Hc.
    rewrite up_sessions in Hc. specialize (Hc ltac:(done)).
    specialize (Hc ltac:(intros o'; rewrite up_objs; destruct (decide (o' = o)) as [->|];
      [by rewrite lookup_insert_eq, up_lookup; simpl; f_equal|by rewrite lookup_insert_ne]) []
      ltac:(constructor) ltac:(set_solver)). simpl in Hc. specialize (I8 capKey Hk). lia.
  - intros o' s' [[-> ->]|[Hne Hs']]%Hobj; [|by eapply I9]. apply up_expiry. by apply (I9 o s).
Qed.

(** *** Create *)

Definition spec_locs (sp : Spec) : list nat :=
  cred_locs (sp_Credential sp) ++ omap id [sp_RefreshToken sp].

(** The caller hands over arrays of its own. *)
Record spec_fresh (sp : Spec) (w : World) : Prop := mkSpecFresh {
  sf_alloc : forall l, l ∈ spec_locs sp -> is_Some (w_mem w !! l);
  sf_self : forall l, sp_RefreshToken sp = Some l -> l ∉ cred_locs (sp_Credential sp);
  sf_sep : forall o s l, w_objs w !! o = Some s -> l ∈ session_locs s -> l ∉ spec_locs sp;
}.

Lemma spec_fresh_evicted D sp w w' : evicted D w w' -> spec_fresh sp w -> spec_fresh sp w'.
Proof.
  intros [E S] [A Sf F]. split; [|done|].
  - intros l Hl. rewrite (er_mem _ _ _ E). by apply fmap_is_Some, A.
  - intros o s' l Hs' Hl. rewrite (er_objs _ _ _ E) in Hs'.
    destruct (w_objs w !! o) as [s|] eqn:Hs; [|done]. apply (F o s l Hs).
    case_decide; simplify_eq/=; set_solver.
Qed.

Lemma spec_fresh_mem D sp w w' l :
  evicted D w w' -> spec_fresh sp w -> l ∈ spec_locs sp -> w_mem w' !! l = w_mem w !! l.
Proof.
  intros [E _] [_ _ F] Hl. rewrite (er_mem _ _ _ E), decide_False, option_fmap_id; [done|].
  intros (o & s & _ & Hs & Hl')%elem_of_locs_of. by apply (F o s l Hs Hl').
Qed.

(** The world with a new session put in the map. *)
Definition publish (id : string) (s : Session) (w : World) : World :=
  mkWorld (w_mem w) (<[w_brk w := s]> (w_objs w)) (S (w_brk w)) (<[id := w_brk w]> (w_sessions w))
    (w_ticks w) (w_draws w) (w_calls w) (w_closed w).

Lemma live_count_publish capKey id s w :
  Inv w -> w_sessions w !! id = None ->
  live_count capKey (publish id s w) =
    (live_count capKey w + if decide (s_capKey s = capKey) then 1 else 0)%nat.
Proof.
  intros Hi Hid. unfold live_count, owned_by, publish. cbn [w_sessions w_objs range_map range_default].
  rewrite (Permutation_length (omap_Permutation _ _ _ (map_to_list_insert _ _ _ Hid))). cbn [omap list_omap].
  rewrite lookup_insert_eq.
  assert (omap (fun e : string * nat => match <[w_brk w:=s]> (w_objs w) !! e.2 with
            | Some s0 => if decide (s_capKey s0 = capKey) then Some (e.2, s0) else None
            | None => None end) (map_to_list (w_sessions w)) =
          omap (fun e : string * nat => match w_objs w !! e.2 with
            | Some s0 => if decide (s_capKey s0 = capKey) then Some (e.2, s0) else None
            | None => None end) (map_to_list (w_sessions w))) as E.
  { apply list_omap_ext, Forall_Forall2_diag, Forall_forall. intros [k o] Hko%elem_of_map_to_list.
    cbn. destruct (i_live _ Hi k o Hko) as (s' & Hs' & _). pose proof (i_objs _ Hi o s' Hs').
    by rewrite lookup_insert_ne by lia. }
  unfold omap in E. unfold omap. rewrite E. case_decide; cbn [length]; lia.
Qed.

Lemma Inv_publish id t sp w :
  Inv w -> spec_fresh sp w -> w_sessions w !! id = None ->
  Z.of_nat (size (w_sessions w)) < MaxSessions opts ->
  (perUserCapKey sp <> "" ->
   Z.of_nat (live_count (perUserCapKey sp) w) < MaxSessionsPerUser opts) ->
  Inv (publish id (new_session opts id t sp) w).
Proof.
  intros Hi [A Sf F] Hid Hsz Hcap. pose proof Hi as [I1 I2 I3 I4 I5 IS I6 I7 I8 I9].
  set (s := new_session opts id t sp).
  assert (Hobj : forall o' s', <[w_brk w := s]> (w_objs w) !! o' = Some s' ->
            (o' = w_brk w /\ s' = s) \/ (o' <> w_brk w /\ w_objs w !! o' = Some s')).
  { intros o' s' Hs'. apply lookup_insert_Some in Hs'. naive_solver. }
  split; unfold wf_live, mem_wf, locs_ok, live_obj; cbn [publish w_objs w_mem w_brk w_sessions].
  - intros id' o'. rewrite lookup_insert_Some. intros [[<- <-]|[Hne Ho']].
    + exists s. by rewrite lookup_insert_eq.
    + destruct (I1 _ _ Ho') as (s' & Hs' & <-). exists s'. pose proof (I3 _ _ Hs').
      by rewrite lookup_insert_ne by lia.
  - intros l Hl%I2. lia.
  - intros o' s' [[-> _]|[_ ?%I3]]%Hobj; lia.
  - intros o' s' [[-> ->]|[_ Hs']]%Hobj l Hl; [by apply A|by eapply I4].
  - intros o1 o2 s1 s2 l [[-> ->]|[? H1]]%Hobj [[-> ->]|[? H2]]%Hobj L1 L2; [done| | |by eapply I5].
    + by destruct (F _ _ _ H2 L2).
    + by destruct (F _ _ _ H1 L1).
  - intros o' s' [[-> ->]|[_ Hs']]%Hobj; [done|by eapply IS].
  - intros o' s' [[-> ->]|[_ Hs']]%Hobj Hn.
    + destruct Hn. exists id. by rewrite lookup_insert_eq.
    + apply (I6 _ _ Hs'). intros [id' Hid']. apply Hn. exists id'.
      rewrite lookup_insert_ne; [done|]. intros ->. congruence.
  - rewrite map_size_insert_None by done. lia.
  - intros capKey Hk. pose proof (live_count_publish capKey id s w Hi Hid) as E.
    fold s. rewrite E. specialize (I8 capKey Hk). case_decide as Hd; [|lia].
    cbn in Hd. subst capKey. specialize (Hcap Hk). lia.
  - intros o' s' [[-> ->]|[_ Hs']]%Hobj; [done|by eapply I9].
Qed.

(** After the per-user limit was enforced there is room for one more session of that identity. *)
Lemma enforce_room `{RangeOrder} capKey w w' :
  opts_ok opts -> Inv w -> evicted (limit_victims opts capKey w).*1 w w' -> capKey <> "" ->
  Z.of_nat (live_count capKey w') < MaxSessionsPerUser opts.
Proof.
  intros Hok Hi Ev Hk. pose proof (i_live _ Hi) as Hw. pose proof (wf_live_evicted _ _ _ Ev Hw) as Hw'.
  destruct Ev as [E S]. pose proof (limit_victims_length opts capKey w Hk ltac:(destruct Hok; lia)) as L.
  rewrite owned_by_count in L.
  assert (Hnd : NoDup (limit_victims opts capKey w).*1).
  { unfold limit_victims. case_decide; [constructor|]. case_match; [constructor|].
    rewrite fmap_take. apply sublist_NoDup with (merge_sort older (owned_by capKey w)).*1;
      [|apply sublist_take]. rewrite merge_sort_Permutation. by apply NoDup_owned. }
  pose proof (live_count_mono capKey w w' Hw Hw') as Hc.
  specialize (Hc ltac:(intros ??; by rewrite S; intros [? _])).
  specialize (Hc ltac:(intros o; rewrite (er_objs _ _ _ E), <- option_fmap_compose;
    destruct (w_objs w !! o); [|done]; simpl; by case_decide) _ Hnd).
  rewrite length_map in Hc. enough (live_count capKey w' + length (limit_victims opts capKey w)
    <= live_count capKey w)%nat by lia. apply Hc. intros o Hin. split.
  - apply list_elem_of_fmap in Hin as ([o' s] & -> & Hin). apply limit_victims_owned in Hin as [Hin _].
    apply list_elem_of_fmap. exists (o', s). split; [done|].
    apply elem_of_owned in Hin. by apply elem_of_owned.
  - intros [id Hid]. apply S in Hid as [_ Hn]. done.
Qed.

(** [Create] on each of its branches. [w0] is the world once the id is drawn and the clock read,
    [w1] once the per-user limit was enforced, [w2] once room was made in a full store. *)
Definition create_made_room (t : time) (w1 w2 : World) (D : list nat) : Prop :=
  evicted D w1 w2 /\
  ((D = [] /\ Z.of_nat (size (w_sessions w1)) < MaxSessions opts) \/
   exists o id, D = [o] /\ w_sessions w1 !! id = Some o /\ dead_at opts t w1 o).

Lemma Create_spec `{RangeOrder} sp w :
  Inv w ->
  let w0 := exec now (exec (draw sessionIDBytes) w) in
  let t := clock_Now (w_ticks w) in
  let V := limit_victims opts (perUserCapKey sp) w in
  match rand_Read (w_draws w) sessionIDBytes with
  | Err e =>
      eval (Create opts sp) w = Err (ErrRandom ("error when generating random data: " +:+ e)) /\
      exec (Create opts sp) w = exec (draw sessionIDBytes) w
  | Ok b =>
      exists w1, evicted V.*1 w0 w1 /\
      match eval (Create opts sp) w with
      | Ok o => exists w2 D, create_made_room t w1 w2 D /\ o = w_brk w2 /\
          exec (Create opts sp) w =
            publish (hex_EncodeToString b) (new_session opts (hex_EncodeToString b) t sp) w2
      | Err e => e = ErrTooManySessions /\ evicted [] w1 (exec (Create opts sp) w) /\
          MaxSessions opts <= Z.of_nat (size (w_sessions w1)) /\
          forall id o, w_sessions w1 !! id = Some o -> ~ dead_at opts t w1 o
      end
  end.
Proof.
  intros Hi w0 t V. unfold Create, random_HexString, random_Bytes, exec, eval.
  unfold draw. repeat (rewrite bind_run; cbn [fst snd]).
  destruct (rand_Read (w_draws w) sessionIDBytes) as [b|]; [|done].
  unfold mret, ST_ret. repeat (rewrite bind_run; cbn [fst snd now]).
  pose proof (enforce_evicted opts (perUserCapKey sp) w0 (i_live _ Hi)) as E.
  unfold exec in E, w0. cbn [draw now snd w_mem w_objs w_brk w_sessions w_ticks w_draws w_calls w_closed] in *.
  fold w0 t.
  destruct (enforcePerUserLimitLocked opts (perUserCapKey sp) w0) as [[] w1]. cbn [snd] in E.
  exists w1. split; [exact E|]. unfold gets. rewrite bind_run. cbn [fst snd]. rewrite bind_run.
  destruct (Z.leb_spec (MaxSessions opts) (Z.of_nat (size (w_sessions w1)))) as [Hfull|Hroom].
  - pose proof (wf_live_evicted _ _ _ E (i_live _ Hi)) as Hw1.
    destruct (evictOne_spec opts t w1 Hw1) as (D & ED & HD). unfold exec, eval in ED, HD.
    destruct (evictOneExpiredLocked opts t w1) as [[] w2]; cbn [fst snd] in *.
    + destruct HD as (o & id & -> & Hid & Hd). unfold alloc_session. rewrite !bind_run.
      cbn [fst snd]. exists w2, [o]. split; [|done]. split; [done|]. right. by exists o, id.
    + destruct HD as [-> HD]. done.
  - cbn [fst snd]. unfold alloc_session. rewrite !bind_run. cbn [fst snd].
    exists w1, []. split; [|done]. split; [apply evicted_nil|]. by left.
Qed.

(** What a [Create] that succeeds leaves: the session is in the map under the id drawn, and the
    arrays the caller handed over read as before. *)
Lemma Create_made `{RangeOrder} sp w o :
  let w' := exec (Create opts sp) w in
  Inv w -> spec_fresh sp w -> eval (Create opts sp) w = Ok o ->
  exists b, rand_Read (w_draws w) sessionIDBytes = Ok b /\
    let id := hex_EncodeToString b in
    w_sessions w' !! id = Some o /\
    w_objs w' !! o = Some (new_session opts id (clock_Now (w_ticks w)) sp) /\
    (forall l, l ∈ spec_locs sp -> w_mem w' !! l = w_mem w !! l).
Proof.
  intros w' Hi Hf Hok. pose proof (Create_spec sp w Hi) as C. cbn zeta in C. rewrite Hok in C. fold w' in C.
  destruct (rand_Read (w_draws w) sessionIDBytes) as [b|]; [|by destruct C].
  destruct C as (w1 & E1 & w2 & D & (E2 & _) & -> & ->). exists b. split; [done|].
  cbn [publish w_sessions w_objs w_mem]. rewrite !lookup_insert_eq. split_and!; try done.
  intros l Hl. assert (Hf0 : spec_fresh sp (exec now (exec (draw sessionIDBytes) w))) by (by destruct Hf).
  rewrite (spec_fresh_mem _ _ _ _ _ E2 (spec_fresh_evicted _ _ _ _ E1 Hf0) Hl).
  by rewrite (spec_fresh_mem _ _ _ _ _ E1 Hf0 Hl).
Qed.

(** Under this premise the id drawn for a new session is not in use. *)
Definition id_unused (w : World) : Prop :=
  forall b, rand_Read (w_draws w) sessionIDBytes = Ok b ->
    w_sessions w !! hex_EncodeToString b = None.

Lemma evicted_lookup_None D w w' id :
  evicted D w w' -> w_sessions w !! id = None -> w_sessions w' !! id = None.
Proof.
  intros [_ S] Hn. destruct (w_sessions w' !! id) as [o|] eqn:E; [|done].
  apply S in E as [E _]. congruence.
Qed.

Lemma evicted_size o id w w' :
  evicted [o] w w' -> w_sessions w !! id = Some o -> (size (w_sessions w') < size (w_sessions w))%nat.
Proof.
  intros [_ S] Hid.
  assert (w_sessions w' ⊆ delete id (w_sessions w)) as Hsub.
  { apply map_subseteq_spec. intros id' o' [Ho' Hn]%S. rewrite lookup_delete_ne; [done|].
    intros ->. simplify_eq. set_solver. }
  apply map_subseteq_size in Hsub. rewrite map_size_delete, Hid in Hsub.
  assert (size (w_sessions w) <> 0%nat) by (apply (map_size_ne_0_lookup_2 _ id); by exists o). lia.
Qed.

Lemma Inv_Create `{RangeOrder} sp w :
  opts_ok opts -> Inv w -> spec_fresh sp w -> id_unused w -> Inv (exec (Create opts sp) w).
Proof.
  intros Hok Hi Hf Hu. pose proof (Create_spec sp w Hi) as C. cbn zeta in C.
  unfold id_unused in Hu. set (w0 := exec now _) in *. assert (Hi0 : Inv w0) by by apply (Inv_ext w).
  destruct (rand_Read (w_draws w) sessionIDBytes) as [b|].
  2:{ destruct C as [_ ->]. by apply (Inv_ext w). }
  specialize (Hu b eq_refl). destruct C as (w1 & E1 & C).
  pose proof (Inv_evicted _ _ _ E1 Hi0) as Hi1.
  assert (Hf1 : spec_fresh sp w1).
  { apply (spec_fresh_evicted _ _ _ _ E1). destruct Hf as [A Sf F]. by split. }
  destruct (eval (Create opts sp) w) as [o|e].
  2:{ destruct C as (_ & E & _). by apply (Inv_evicted _ _ _ E). }
  destruct C as (w2 & D & (E2 & Hroom) & -> & ->).
  pose proof (Inv_evicted _ _ _ E2 Hi1) as Hi2. apply Inv_publish; [done| | | |].
  - by apply (spec_fresh_evicted _ _ _ _ E2).
  - apply (evicted_lookup_None _ _ _ _ E2), (evicted_lookup_None _ _ _ _ E1). done.
  - destruct Hroom as [[-> Hlt]|(o & id & -> & Hid & _)].
    + assert (size (w_sessions w2) <= size (w_sessions w1))%nat; [|lia].
      destruct E2 as [_ S]. apply map_subseteq_size, map_subseteq_spec. intros ???%S. tauto.
    + pose proof (evicted_size _ _ _ _ E2 Hid). pose proof (i_size _ Hi1). lia.
  - intros Hk. pose proof (enforce_room (perUserCapKey sp) w0 w1 Hok Hi0 E1 Hk).
    assert (live_count (perUserCapKey sp) w2 + 0 <= live_count (perUserCapKey sp) w1)%nat; [|lia].
    apply (live_count_mono _ w1 w2 (i_live _ Hi1) (i_live _ Hi2)) with (D := []);
      [| |constructor|set_solver]; destruct E2 as [E2 S2].
    + intros ???%S2. tauto.
    + intros o. rewrite (er_objs _ _ _ E2), <- option_fmap_compose.
      destruct (w_objs w1 !! o); [|done]. simpl. by case_decide.
Qed.

(** *** Get *)

(** What [maybeRefresh], called at [t], did to session [s]. *)
Definition maybe_result (s s1 : Session) (t : time) (w w1 : World) : Prop :=
  if needsRefresh s t refreshWindow
  then exists out, refresh_result opts s s1 (clock_Now (w_ticks w)) w w1 out
  else s1 = s /\ w1 = w.

(** The branches of [Get]. *)
Inductive get_case (id : string) (w : World) : result store_error nat -> World -> Prop :=
| get_missing :
    w_sessions w !! id = None -> get_case id w (Err ErrNotFound) w
| get_dead o s w' :
    w_sessions w !! id = Some o -> w_objs w !! o = Some s ->
    alive opts s (clock_Now (w_ticks w)) = false ->
    evicted [o] (exec now w) w' -> get_case id w (Err ErrExpired) w'
| get_expired o s s1 w1 w' :
    w_sessions w !! id = Some o -> w_objs w !! o = Some s ->
    alive opts s (clock_Now (w_ticks w)) = true ->
    updated opts o s s1 (exec now w) w1 ->
    maybe_result s s1 (clock_Now (w_ticks w)) (exec now w) w1 ->
    credentialExpired s1 (clock_Now (w_ticks w1)) = true ->
    evicted [o] (exec now w1) w' -> get_case id w (Err ErrExpired) w'
| get_served o s s1 w1 :
    w_sessions w !! id = Some o -> w_objs w !! o = Some s ->
    alive opts s (clock_Now (w_ticks w)) = true ->
    updated opts o s s1 (exec now w) w1 ->
    maybe_result s s1 (clock_Now (w_ticks w)) (exec now w) w1 ->
    credentialExpired s1 (clock_Now (w_ticks w1)) = false ->
    get_case id w (Ok o)
      (with_obj o (s_set_lastSeen (clock_Now (S (w_ticks w1))) s1) [] (exec now (exec now w1))).

Lemma Delete_live_evicted `{RangeOrder} id o w :
  wf_live w -> w_sessions w !! id = Some o -> evicted [o] w (exec (Delete id) w).
Proof. intros Hw Hid. pose proof (Delete_evicted id w Hw) as E. by rewrite Hid in E. Qed.

Lemma Get_cases `{RangeOrder} id w :
  Inv w -> get_case id w (eval (Get opts id) w) (exec (Get opts id) w).
Proof.
  intros Hi. pose proof (i_live _ Hi) as Hw.
  unfold Get, eval, exec, lookup_session, gets. rewrite bind_run. cbn [fst snd].
  destruct (w_sessions w !! id) as [o|] eqn:Hid; [|by apply get_missing].
  destruct (Hw id o Hid) as (s & Hs & Eid). rewrite bind_run.
  pose proof (Inv_now w Hi) as Hi0. unfold exec in Hi0.
  set (t := clock_Now (w_ticks w)) in *. set (w0 := snd (now w)) in *.
  change (now w) with (t, w0). cbn beta iota.
  rewrite (deref_run _ _ _ s) by done. destruct (alive opts s t) eqn:Ha; cbn [negb].
  2:{ rewrite bind_run. pose proof (Delete_live_evicted id o w0 (i_live _ Hi0) Hid) as E.
      unfold exec in E. destruct (Delete id w0) as [[] w']. by apply (get_dead id w o s w'). }
  rewrite bind_run.
  destruct (maybeRefresh_spec opts o s t w0 Hs (i_mem _ Hi0) (i_locs _ Hi0 o s Hs)) as (s1 & U & R).
  assert (M : maybe_result s s1 t w0 (exec (maybeRefresh opts o t) w0)).
  { unfold maybe_result. destruct (needsRefresh s t refreshWindow); [by eexists|tauto]. }
  clear R. unfold exec in U, M. destruct (maybeRefresh opts o t w0) as [out w1]. cbn [snd] in *.
  unfold get_tail. rewrite bind_run.
  assert (Hi1 : Inv w1) by (apply (Inv_updated _ _ _ _ _ U); [left; by exists id|done]).
  pose proof (Inv_now w1 Hi1) as Hi2. unfold exec in Hi2.
  set (w2 := snd (now w1)) in *. change (now w1) with (clock_Now (w_ticks w1), w2). cbn beta iota.
  assert (Hs1 : w_objs w2 !! o = Some s1) by (unfold w2; cbn; by rewrite (up_objs _ _ _ _ _ _ U), lookup_insert_eq).
  assert (Hid2 : w_sessions w2 !! id = Some o) by (unfold w2; cbn; by rewrite (up_sessions _ _ _ _ _ _ U)).
  rewrite (deref_run _ _ _ s1) by done. destruct (credentialExpired s1 _) eqn:Hc.
  - rewrite bind_run. pose proof (Delete_live_evicted id o w2 (i_live _ Hi2) Hid2) as E.
    unfold exec in E. destruct (Delete id w2) as [[] w']. by apply (get_expired id w o s s1 w1 w').
  - rewrite bind_run. change (now w2) with (clock_Now (S (w_ticks w1)), exec now w2). cbn beta iota.
    rewrite bind_run, (upd_run _ _ s1) by done. cbn [fst snd].
    by apply (get_served id w o s s1 w1).
Qed.

Lemma updated_lastSeen o s t w :
  w_objs w !! o = Some s -> (forall l, is_Some (w_mem w !! l) -> (l < w_brk w)%nat) ->
  updated opts o s (s_set_lastSeen t s) w (with_obj o (s_set_lastSeen t s) [] w).
Proof. intros Hs Hm. split; try done; auto. Qed.

Lemma Inv_Get `{RangeOrder} id w : Inv w -> Inv (exec (Get opts id) w).
Proof.
  intros Hi. pose proof (Inv_now _ Hi) as Hi0.
  destruct (Get_cases id w Hi) as [?|o s w' Hid Hs Ha E|o s s1 w1 w' Hid Hs Ha U M Hc E
    |o s s1 w1 Hid Hs Ha U M Hc]; [done|by apply (Inv_evicted _ _ _ E)| |].
  - assert (Hi1 : Inv w1) by (apply (Inv_updated _ _ _ _ _ U); [left; by exists id|done]).
    apply (Inv_evicted _ _ _ E). by apply Inv_now.
  - assert (Hi1 : Inv w1) by (apply (Inv_updated _ _ _ _ _ U); [left; by exists id|done]).
    pose proof (Inv_now _ (Inv_now _ Hi1)) as Hi2.
    apply (Inv_updated o s1 (s_set_lastSeen (clock_Now (S (w_ticks w1))) s1) _ _
             (updated_lastSeen o s1 _ (exec now (exec now w1))
                ltac:(cbn; by rewrite (up_objs _ _ _ _ _ _ U), lookup_insert_eq) (i_mem _ Hi2)));
      [|done]. left. exists id. cbn. by rewrite (up_sessions _ _ _ _ _ _ U).
Qed.

(** *** The other operations *)

Lemma Inv_Delete `{RangeOrder} id w : Inv w -> Inv (exec (Delete id) w).
Proof. intros Hi. apply (Inv_evicted _ _ _ (Delete_evicted id w (i_live _ Hi))), Hi. Qed.

Lemma Inv_doGC `{RangeOrder} w : Inv w -> Inv (exec (doGC opts) w).
Proof.
  intros Hi. destruct (doGC_evicted opts w (i_live _ Hi)) as [_ E].
  apply (Inv_evicted _ _ _ E), Inv_now, Hi.
Qed.

Lemma mfor_when {S A} (p : A -> bool) (l : list A) (f : A -> ST S unit) (x : S) :
  mfor l (fun a => when (p a) (f a)) x = mfor (filter (fun a => p a = true) l) f x.
Proof.
  revert x; induction l as [|a l IH]; intros x; [done|]. cbn [mfor]. rewrite bind_run.
  destruct (p a) eqn:Hp; unfold when.
  - rewrite filter_cons_True by done. cbn [mfor]. rewrite bind_run.
    destruct (f a x) as [[] x']. apply IH.
  - rewrite filter_cons_False by congruence. cbn. apply IH.
Qed.

(** The cached transports that [key] supersedes. *)
Definition superseded `{RangeOrder} (key : string) (s : Session) : list (string * cachedTransport) :=
  if (transportUpstream key).2
  then filter (fun e => superseded_by key e.1 = true) (range_map (s_transports s))
  else [].

Lemma dropSuperseded_run `{RangeOrder} o key s w :
  w_objs w !! o = Some s ->
  dropSupersededTransportsLocked o key w =
    (tt, with_obj o (s_upd_transports (delete_keys (superseded key s)) s)
           (cleanups (superseded key s)) w).
Proof.
  intros Hs. unfold dropSupersededTransportsLocked, superseded.
  destruct (transportUpstream key) as [u []] eqn:Ek; cbn [snd].
  - rewrite (deref_run _ _ _ s) by done. rewrite (mfor_when (fun e => superseded_by key e.1)).
    by apply discard_loop.
  - change (delete_keys []) with (@id (gmap string cachedTransport)).
    change (cleanups []) with (@nil Cleanup). by rewrite s_upd_transports_id, with_obj_id.
Qed.

(** [transportFor] on each of its branches. *)
Lemma transportFor_run `{RangeOrder} o key build s w :
  w_objs w !! o = Some s ->
  transportFor o key build w =
    match s_transports s !! key with
    | Some c => (Ok (ct_rt c), w)
    | None =>
        let kept := delete_keys (superseded key s) in
        let closed := cleanups (superseded key s) in
        match build (credential_val (w_mem w) (s_credential s)) with
        | Err e => (Err e, with_obj o (s_upd_transports kept s) closed w)
        | Ok (rt, cleanup) =>
            (Ok rt, with_obj o (s_upd_transports (fun m => <[key := mkTransport rt cleanup]> (kept m)) s)
                      closed w)
        end
    end.
Proof.
  intros Hs. unfold transportFor. rewrite (deref_run _ _ _ s) by done.
  destruct (s_transports s !! key) as [c|] eqn:Hk; [done|].
  unfold transportForLocked. rewrite (deref_run _ _ _ s), Hk by done.
  rewrite bind_run, (dropSuperseded_run _ _ s) by done. unfold gets. rewrite bind_run. cbn [fst snd w_mem with_obj].
  destruct (build _) as [[rt cl]|e]; [|done].
  rewrite bind_run, (upd_run _ _ (s_upd_transports (delete_keys (superseded key s)) s))
    by apply with_obj_lookup. by rewrite with_obj_idemp, app_nil_r.
Qed.

(** *** Versioned transports *)

Definition no_slash (u : string) : bool := string_forallb (fun c => negb (bool_decide (c = "/"%char))) u.

Lemma Cut_upstream u x : no_slash u = true -> strings_Cut (u +:+ "/" +:+ x)%string "/" = (u, x, true).
Proof.
  unfold no_slash. intros Hu. induction u as [|c u' IH]; [done|].
  cbn [string_forallb] in Hu. change (String c u' +:+ "/" +:+ x)%string with (String c (u' +:+ "/" +:+ x)).
  cbn [strings_Cut]. apply andb_true_iff in Hu as [Hc Hu]. rewrite decide_False by (intros ->; done).
  by rewrite (IH Hu).
Qed.

Lemma superseded_version u v v2 :
  no_slash u = true -> v2 <> v -> superseded_by (u +:+ "/" +:+ v)%string (u +:+ "/" +:+ v2)%string = true.
Proof.
  intros Hu Hne. unfold superseded_by, transportUpstream. rewrite !Cut_upstream by done.
  rewrite decide_False; [by rewrite bool_decide_true|]. intros E. apply Hne.
  apply (inj (String.append u)) in E. by injection E.
Qed.

Lemma elem_of_superseded `{RangeOrder} u v s k c :
  no_slash u = true ->
  (k, c) ∈ superseded (u +:+ "/" +:+ v)%string s <->
  s_transports s !! k = Some c /\ superseded_by (u +:+ "/" +:+ v)%string k = true.
Proof.
  intros Hu. unfold superseded. unfold transportUpstream at 1. rewrite Cut_upstream by done. cbn [snd].
  rewrite list_elem_of_filter, elem_of_range. tauto.
Qed.

(** Building a version's transport leaves no other version of the upstream cached. *)
Lemma transportFor_supersedes `{RangeOrder} o u v build s w rt v2 s' :
  let key := (u +:+ "/" +:+ v)%string in
  let w' := exec (transportFor o key build) w in
  no_slash u = true -> w_objs w !! o = Some s -> eval (transportFor o key build) w = Ok rt ->
  s_transports s !! key = None -> v2 <> v -> w_objs w' !! o = Some s' ->
  s_transports s' !! (u +:+ "/" +:+ v2)%string = None /\
  forall c f, s_transports s !! (u +:+ "/" +:+ v2)%string = Some c -> ct_cleanup c = Some f -> f ∈ w_closed w'.
Proof.
  intros key w' Hu Hs Hok Hk Hne Hs'. unfold w', exec, eval in *.
  rewrite (transportFor_run o key build s), Hk in * by done.
  destruct (build _) as [[rt' cl]|e]; [|done]. cbn [fst snd] in *.
  rewrite with_obj_lookup in Hs'. injection Hs' as <-. cbn.
  pose proof (superseded_version u v v2 Hu Hne) as Hver. fold key in Hver. split.
  - rewrite lookup_insert_ne.
    2:{ intros E. rewrite <- E in Hver. unfold superseded_by in Hver.
        destruct (transportUpstream key). by rewrite decide_True in Hver. }
    rewrite delete_keys_lookup. case_decide as Hin; [done|].
    destruct (s_transports s !! (u +:+ "/" +:+ v2)%string) as [c|] eqn:Hc; [|done].
    destruct Hin. apply list_elem_of_fmap. exists ((u +:+ "/" +:+ v2)%string, c).
    split; [done|]. by apply elem_of_superseded.
  - intros c f Hc Hf. apply elem_of_app. right. unfold cleanups. apply list_elem_of_omap.
    exists ((u +:+ "/" +:+ v2)%string, c). split; [by apply elem_of_superseded|done].
Qed.

Lemma Inv_transports o s f c w :
  w_objs w !! o = Some s -> Inv w -> Inv (with_obj o (s_upd_transports f s) c w).
Proof.
  intros Hs Hi. apply (Inv_updated o s (s_upd_transports f s) w); [|by right|done].
  pose proof (i_mem _ Hi). split; try done; auto.
Qed.

Lemma Inv_transportFor `{RangeOrder} o key build w : Inv w -> Inv (exec (transportFor o key build) w).
Proof.
  intros Hi. unfold exec. destruct (w_objs w !! o) as [s|] eqn:Hs.
  - rewrite (transportFor_run _ _ _ s) by done. destruct (s_transports s !! key); [done|].
    destruct (build _) as [[rt cl]|e]; by apply Inv_transports.
  - unfold transportFor. by rewrite deref_none.
Qed.

(** *** Reachable worlds *)

Inductive step : World -> World -> Prop :=
(* code outside the package makes, or overwrites, an array that no session holds *)
| step_alloc b w : step w (exec (alloc b) w)
| step_write l f w :
    (forall o s, w_objs w !! o = Some s -> l ∉ session_locs s) -> step w (set_mem (alter f l) w)
(* a call of the store, or of [Session.TransportFor] *)
| step_Create (R : RangeOrder) sp w :
    spec_fresh sp w -> id_unused w -> step w (exec (Create opts sp) w)
| step_Get (R : RangeOrder) id w : step w (exec (Get opts id) w)
| step_Delete (R : RangeOrder) id w : step w (exec (Delete id) w)
| step_doGC (R : RangeOrder) w : step w (exec (doGC opts) w)
| step_transportFor (R : RangeOrder) o key build w : step w (exec (transportFor o key build) w).

Definition reachable (w : World) : Prop := rtc step world0 w.

Lemma Inv_step w w' : opts_ok opts -> step w w' -> Inv w -> Inv w'.
Proof.
  intros Hok [b w1|l f w1 Hl|R sp w1 Hf Hu|R id w1|R id w1|R w1|R o key build w1] Hi.
  - destruct (alloc_grown b w1) as [G _]. apply (Inv_grown w1); [done| |done].
    apply (mem_wf_grown w1); [done|apply Hi].
  - assert (Hdom : forall l', is_Some (alter f l (w_mem w1) !! l') <-> is_Some (w_mem w1 !! l')).
    { intros l'. destruct (decide (l' = l)) as [->|].
      - by rewrite lookup_alter_eq, fmap_is_Some.
      - by rewrite lookup_alter_ne. }
    destruct Hi as [I1 I2 I3 I4 I5 IS I6 I7 I8 I9].
    split; try done; cbn [set_mem w_mem w_brk].
    + intros l' Hl'. cbn in *. apply I2. by apply Hdom.
    + intros o s Hs l' Hl'. apply Hdom. by eapply I4.
  - by apply Inv_Create.
  - by apply Inv_Get.
  - by apply Inv_Delete.
  - by apply Inv_doGC.
  - by apply Inv_transportFor.
Qed.

Lemma Inv_reachable w : opts_ok opts -> reachable w -> Inv w.
Proof.
  intros Hok Hr. assert (Hi : Inv world0) by by apply Inv_world0. revert Hi.
  induction Hr as [|x y z Hxy _ IH]; [done|]. intros Hi. by apply IH, (Inv_step x).
Qed.
End Inv.
