(* ===== verification/SessionSpec.v ===== *)
(** * An abstract session store, and the refinement of the code to it

    The specification has no pointers: a store is a map from ids to sessions that hold the bytes
    of their credential. [abs] reads such a store out of a [World]; the lemmas of this file say
    that [Get], [Delete] and [doGC] of the code act on it as [aGet], [aDelete] and [aGC] do, so
    nothing the code does with shared arrays (copying, overwriting, zeroing) shows. *)
From S2P Require Import Prelude.
From S2P Require Import Session.
From S2P Require Import SessionStore.
From S2P Require Import SessionFacts.
From S2P Require Import SessionOps.
From S2P Require Import SessionRefresh.
From S2P Require Import SessionInv.

Section Spec.
Context `{P : Platform}.
Context (opts : Options).

Record ASession := mkASession {
  a_id : string;
  a_mode : string;
  a_createdAt : time;
  a_username : string;
  a_capKey : string;
  a_refresher : option Refresher;
  a_cred : CredVal;
  a_token : option string;
  a_lastSeen : time;
  a_expiresAt : time;
}.

Record AStore := mkAStore {
  a_sessions : gmap string ASession;
  a_ticks : nat;
  a_calls : nat;
}.

Definition a_set_sessions (f : gmap string ASession -> gmap string ASession) (st : AStore) : AStore :=
  mkAStore (f (a_sessions st)) (a_ticks st) (a_calls st).

Definition a_now : ST AStore time := fun st =>
  (clock_Now (a_ticks st), mkAStore (a_sessions st) (S (a_ticks st)) (a_calls st)).

Definition a_call (r : Refresher) (tok : option string)
    : ST AStore (result string (CredVal * option string)) := fun st =>
  (refresher_Refresh r (a_calls st) tok, mkAStore (a_sessions st) (a_ticks st) (S (a_calls st))).

(** Usable at [t]: neither too old, nor idle for too long, nor holding a dead credential that
    nothing can renew. *)
Definition a_alive (a : ASession) (t : time) : bool :=
  bool_decide (t <= a_createdAt a + MaxLifetime opts)
  && (match a_refresher a with
      | Some _ => true
      | None => (cv_ExpiresAt (a_cred a) =? 0) || bool_decide (t <= cv_ExpiresAt (a_cred a))
      end)
  && (time_Sub t (a_lastSeen a) <=? IdleTimeout opts).

Definition a_expired (a : ASession) (t : time) : bool :=
  negb (cv_ExpiresAt (a_cred a) =? 0) && (cv_ExpiresAt (a_cred a) <? t).

Definition a_needsRefresh (a : ASession) (t : time) : bool :=
  match a_refresher a with
  | Some _ => negb (cv_ExpiresAt (a_cred a) =? 0) && (cv_ExpiresAt (a_cred a) <=? t + refreshWindow)
  | None => false
  end.

(** A renewed credential; the refresh token is kept unless the provider rotated it. *)
Definition a_renew (a : ASession) (v : CredVal) (tok : option string) : ASession :=
  mkASession (a_id a) (a_mode a) (a_createdAt a) (a_username a) (a_capKey a) (a_refresher a) v
    (match tok with Some _ => tok | None => a_token a end) (a_lastSeen a)
    (effectiveExpiry (a_createdAt a) (MaxLifetime opts) (cv_ExpiresAt v)).

Definition a_touch (a : ASession) (t : time) : ASession :=
  mkASession (a_id a) (a_mode a) (a_createdAt a) (a_username a) (a_capKey a) (a_refresher a)
    (a_cred a) (a_token a) t (a_expiresAt a).

Definition a_refresh (a : ASession) : ST AStore ASession :=
  match a_refresher a with
  | None => mret a
  | Some r =>
      res ← a_call r (a_token a);
      match res with
      | Err _ => mret a
      | Ok (v, tok) => mret (a_renew a v tok)
      end
  end.

(** The refresh is attempted when it is due at [t] and still due when the lock is held. *)
Definition a_maybeRefresh (a : ASession) (t : time) : ST AStore ASession :=
  if a_needsRefresh a t then
    t' ← a_now;
    if a_needsRefresh a t' then a_refresh a else mret a
  else mret a.

Definition aDelete (id : string) : ST AStore unit := modify (a_set_sessions (delete id)).

Definition aGet (id : string) : ST AStore (result store_error ASession) :=
  found ← gets (fun st => a_sessions st !! id);
  match found with
  | None => mret (Err ErrNotFound)
  | Some a =>
      t ← a_now;
      if negb (a_alive a t) then aDelete id;; mret (Err ErrExpired)
      else
        a1 ← a_maybeRefresh a t;
        t2 ← a_now;
        if a_expired a1 t2 then aDelete id;; mret (Err ErrExpired)
        else
          t3 ← a_now;
          modify (a_set_sessions <[id := a_touch a1 t3]>);;
          mret (Ok (a_touch a1 t3))
  end.

Definition aGC : ST AStore unit :=
  t ← a_now;
  modify (a_set_sessions (filter (fun e => a_alive e.2 t = true))).

(** *** The abstraction *)

Definition abs_session (m : gmap nat string) (s : Session) : ASession :=
  mkASession (s_id s) (s_mode s) (s_createdAt s) (s_username s) (s_capKey s) (s_refresher s)
    (credential_val m (s_credential s)) (slice_bytes m (s_refreshToken s)) (s_lastSeen s)
    (s_expiresAt s).

Definition abs_sessions (w : World) : gmap string ASession :=
  omap (fun o => abs_session (w_mem w) <$> w_objs w !! o) (w_sessions w).

Definition abs (w : World) : AStore := mkAStore (abs_sessions w) (w_ticks w) (w_calls w).

Definition abs_result (w : World) (r : result store_error nat) : option (result store_error ASession) :=
  match r with
  | Err e => Some (Err e)
  | Ok o => Ok <$> (abs_session (w_mem w) <$> w_objs w !! o)
  end.

Implicit Types (w : World) (s : Session) (o : nat) (id : string) (a : ASession).

Lemma abs_lookup w id :
  abs_sessions w !! id = w_sessions w !! id ≫= fun o => abs_session (w_mem w) <$> w_objs w !! o.
Proof. apply lookup_omap. Qed.

Lemma abs_alive m s t : a_alive (abs_session m s) t = alive opts s t.
Proof.
  unfold a_alive, alive, time_After, time_Add, time_IsZero, abs_session; cbn.
  destruct (Z.ltb_spec (s_createdAt s + MaxLifetime opts) t);
    [rewrite bool_decide_false by lia; done|rewrite bool_decide_true by lia].
  destruct (s_refresher s); cbn [andb]; [done|].
  destruct (cr_ExpiresAt (s_credential s) =? 0); cbn [negb orb andb]; [done|].
  destruct (Z.ltb_spec (cr_ExpiresAt (s_credential s)) t);
    [rewrite bool_decide_false by lia|rewrite bool_decide_true by lia]; done.
Qed.

Lemma abs_expired m s t : a_expired (abs_session m s) t = credentialExpired s t.
Proof. done. Qed.

Lemma abs_needsRefresh m s t : a_needsRefresh (abs_session m s) t = needsRefresh s t refreshWindow.
Proof.
  unfold a_needsRefresh, needsRefresh, abs_session, time_IsZero, time_Before, time_Add; cbn.
  destruct (s_refresher s); [|done]. destruct (_ =? 0); [done|]. cbn. by rewrite <- Z.leb_antisym.
Qed.

(** Sessions whose arrays were left alone look the same. *)
Lemma abs_session_ext (m m' : gmap nat string) s :
  (forall l, l ∈ session_locs s -> m' !! l = m !! l) -> abs_session m' s = abs_session m s.
Proof.
  intros Hm. assert (Hb : forall b, (forall l, b = Some l -> l ∈ session_locs s) ->
                       slice_bytes m' b = slice_bytes m b).
  { intros [l|] Hl; [|done]. cbn. by rewrite Hm by by apply Hl. }
  unfold abs_session, credential_val.
  rewrite !Hb; [done|..]; intros l Hl; rewrite elem_of_session_locs, elem_of_cred_locs; tauto.
Qed.

Lemma abs_evicted D w w' id :
  Inv opts w -> evicted D w w' ->
  abs_sessions w' !! id =
    w_sessions w !! id ≫= fun o => if decide (o ∈ D) then None else abs_sessions w !! id.
Proof.
  intros Hi [E S]. rewrite !abs_lookup. destruct (w_sessions w !! id) as [o|] eqn:Hid; simpl.
  - case_decide as HD.
    + destruct (w_sessions w' !! id) as [o'|] eqn:Hid'; [|done].
      apply S in Hid' as [? Hn]. by simplify_eq.
    + assert (w_sessions w' !! id = Some o) as -> by by apply S. simpl.
      rewrite (er_objs _ _ _ E), decide_False, option_fmap_id by done.
      destruct (w_objs w !! o) as [s|] eqn:Hs; [|done]. simpl. f_equal.
      apply abs_session_ext. intros l Hl. rewrite (er_mem _ _ _ E), decide_False, option_fmap_id; [done|].
      intros (o' & s' & Ho' & Hs' & Hl')%elem_of_locs_of.
      by rewrite (i_disj _ _ Hi o o' s s' l) in HD.
  - destruct (w_sessions w' !! id) as [o'|] eqn:Hid'; [|done]. apply S in Hid' as [? _]. congruence.
Qed.

Lemma abs_evict_one id o w w' :
  Inv opts w -> w_sessions w !! id = Some o -> evicted [o] w w' ->
  abs_sessions w' = delete id (abs_sessions w).
Proof.
  intros Hi Hid E. apply map_eq; intros id'. rewrite (abs_evicted [o] w) by done.
  destruct (decide (id' = id)) as [->|Hne].
  - rewrite lookup_delete_eq, Hid. simpl. by rewrite decide_True by left.
  - rewrite lookup_delete_ne by done. destruct (w_sessions w !! id') as [o'|] eqn:Hid'.
    + simpl. rewrite decide_False; [done|]. rewrite list_elem_of_singleton. intros ->.
      by apply Hne, (wf_live_inj w _ _ o (i_live _ _ Hi)).
    + by rewrite abs_lookup, Hid'.
Qed.

Lemma abs_updated id o s s1 w w1 :
  Inv opts w -> w_sessions w !! id = Some o -> updated opts o s s1 w w1 ->
  abs_sessions w1 = <[id := abs_session (w_mem w1) s1]> (abs_sessions w).
Proof.
  intros Hi Hid U. apply map_eq; intros id'. rewrite !abs_lookup, (up_sessions _ _ _ _ _ _ U).
  rewrite (up_objs _ _ _ _ _ _ U). destruct (decide (id' = id)) as [->|Hne].
  - rewrite lookup_insert_eq, Hid. simpl. by rewrite lookup_insert_eq.
  - rewrite lookup_insert_ne, abs_lookup by done. destruct (w_sessions w !! id') as [o'|] eqn:Hid'; [|done].
    simpl. assert (o' <> o) by (intros ->; by apply Hne, (wf_live_inj w _ _ o (i_live _ _ Hi))).
    rewrite lookup_insert_ne by done. destruct (w_objs w !! o') as [s'|] eqn:Hs'; [|done].
    simpl. f_equal. apply abs_session_ext. intros l Hl.
    apply (up_mem _ _ _ _ _ _ U); [by apply (i_mem _ _ Hi), (i_locs _ _ Hi o' s')|].
    intros Hl'. by destruct (i_disj _ _ Hi o' o s' s l Hs' (up_lookup _ _ _ _ _ _ U) Hl Hl').
Qed.

Lemma abs_refreshed m m' s c tok v nt :
  credential_val m' c = v -> slice_bytes m' tok = nt ->
  (tok = None -> slice_bytes m' (s_refreshToken s) = slice_bytes m (s_refreshToken s)) ->
  abs_session m' (refreshed opts s c tok) = a_renew (abs_session m s) v nt.
Proof.
  intros <- <- Hk. unfold abs_session, a_renew, refreshed; cbn.
  destruct tok as [l|]; [done|]. cbn. by rewrite Hk.
Qed.

(** *** The operations refine their specification *)

Lemma abs_evicted_none w w' : Inv opts w -> evicted [] w w' -> abs_sessions w' = abs_sessions w.
Proof.
  intros Hi E. apply map_eq; intros id. rewrite (abs_evicted [] w _ id Hi E).
  destruct (w_sessions w !! id) as [o|] eqn:Hid; cbn [mbind option_bind];
    [by rewrite decide_False by set_solver|].
  by rewrite abs_lookup, Hid.
Qed.

Lemma abs_Delete `{RangeOrder} id w :
  Inv opts w -> abs (exec (Delete id) w) = exec (aDelete id) (abs w).
Proof.
  intros Hi. pose proof (Delete_evicted id w (i_live _ _ Hi)) as E. unfold abs.
  rewrite (er_ticks _ _ _ (proj1 E)), (er_calls _ _ _ (proj1 E)).
  change (exec (aDelete id) _) with (mkAStore (delete id (abs_sessions w)) (w_ticks w) (w_calls w)).
  destruct (w_sessions w !! id) as [o|] eqn:Hid; simpl in E.
  - by rewrite (abs_evict_one id o w _ Hi Hid E).
  - rewrite (abs_evicted_none w _ Hi E), delete_id; [done|]. by rewrite abs_lookup, Hid.
Qed.

Lemma abs_session_kept o s s1 w w1 :
  Inv opts w -> w_objs w !! o = Some s -> kept s s1 w w1 ->
  abs_session (w_mem w1) s1 = abs_session (w_mem w) s.
Proof.
  intros Hi Hs [-> Hm]. apply abs_session_ext. intros l Hl. apply Hm, (i_mem _ _ Hi), (i_locs _ _ Hi o s Hs l Hl).
Qed.

(** [maybeRefresh] acts on the session as [a_maybeRefresh]. *)
Lemma abs_maybeRefresh o s s1 t w w1 :
  Inv opts w -> updated opts o s s1 w w1 -> maybe_result opts s s1 t w w1 ->
  a_maybeRefresh (abs_session (w_mem w) s) t (abs w) =
    (abs_session (w_mem w1) s1, mkAStore (abs_sessions w) (w_ticks w1) (w_calls w1)).
Proof.
  intros Hi U M. unfold a_maybeRefresh. rewrite abs_needsRefresh. unfold maybe_result in M.
  destruct (needsRefresh s t refreshWindow) eqn:Hn; [|by destruct M as [-> ->]].
  destruct M as (out & Ht & M). pose proof (up_lookup _ _ _ _ _ _ U) as Hs.
  rewrite bind_run. change (a_now (abs w)) with (clock_Now (w_ticks w),
    mkAStore (abs_sessions w) (S (w_ticks w)) (w_calls w)). cbn beta iota.
  rewrite abs_needsRefresh, Ht.
  destruct (s_refresher s) as [r|] eqn:Hr.
  2:{ unfold needsRefresh in Hn. by rewrite Hr in Hn. }
  destruct (needsRefresh s (clock_Now (w_ticks w)) refreshWindow).
  2:{ destruct M as (_ & K & ->). by rewrite (abs_session_kept o s s1 w w1). }
  unfold a_refresh. cbn [abs_session a_refresher a_token]. rewrite Hr, bind_run. unfold a_call; cbn [a_calls a_sessions a_ticks].
  destruct M as [-> M]. destruct (refresher_Refresh r _ _) as [[v nt]|e].
  - destruct M as (_ & c & tok & -> & V & B & Hk). cbn. f_equal. symmetry.
    apply abs_refreshed; [done|done|]. intros Hn'. apply Hk; [done|]. by apply (i_self _ _ Hi o).
  - destruct M as [_ K]. cbn. f_equal. symmetry. by apply (abs_session_kept o).
Qed.

Lemma abs_sessions_now w : abs_sessions (exec now w) = abs_sessions w.
Proof. done. Qed.

Lemma aDelete_run {A} id (r : A) st :
  (aDelete id;; mret r) st = (r, mkAStore (delete id (a_sessions st)) (a_ticks st) (a_calls st)).
Proof. done. Qed.

Lemma abs_now w : abs (exec now w) = exec a_now (abs w).
Proof. done. Qed.

Lemma abs_Get `{RangeOrder} id w :
  Inv opts w ->
  abs (exec (Get opts id) w) = exec (aGet id) (abs w) /\
  abs_result (exec (Get opts id) w) (eval (Get opts id) w) = Some (eval (aGet id) (abs w)).
Proof.
  intros Hi. pose proof (Inv_now _ _ Hi) as Hi0. unfold aGet, exec at 2, eval at 2.
  unfold gets. rewrite !bind_run. cbn [fst snd].
  replace (a_sessions (abs w) !! id) with (abs_sessions w !! id) by done. rewrite abs_lookup.
  destruct (Get_cases opts id w Hi) as [Hn|o s w' Hid Hs Ha E|o s s1 w1 w' Hid Hs Ha U M Hc E
    |o s s1 w1 Hid Hs Ha U M Hc]; [by rewrite Hn| | |].
  all: rewrite Hid; cbn [mbind option_bind]; rewrite Hs; cbn [fmap option_fmap option_map].
  all: rewrite !bind_run; change (a_now (abs w)) with (clock_Now (w_ticks w), abs (exec now w)).
  all: cbn beta iota; rewrite abs_alive, Ha; cbn [negb].
  - cbn [fst snd]. split; [|done]. unfold abs. rewrite (abs_evict_one id o (exec now w) w'
      Hi0 Hid E), (er_ticks _ _ _ (proj1 E)), (er_calls _ _ _ (proj1 E)). done.
  - assert (Hi1 : Inv opts w1) by (apply (Inv_updated _ _ _ _ _ _ U); [left; by exists id|done]).
    rewrite !bind_run. pose proof (abs_maybeRefresh o s s1 _ _ w1 Hi0 U M) as R.
    change (w_mem (exec now w)) with (w_mem w) in R. rewrite R. cbn beta iota.
    rewrite !bind_run. unfold a_now; cbn [a_ticks a_sessions a_calls fst snd].
    rewrite abs_expired, Hc, aDelete_run. split; [|done].
    cbn [fst snd a_ticks a_sessions a_calls]. unfold abs.
    assert (Hid1 : w_sessions (exec now w1) !! id = Some o) by (cbn; by rewrite (up_sessions _ _ _ _ _ _ U)).
    rewrite (abs_evict_one id o (exec now w1) w' (Inv_now _ _ Hi1) Hid1 E).
    rewrite (er_ticks _ _ _ (proj1 E)), (er_calls _ _ _ (proj1 E)), abs_sessions_now.
    rewrite (abs_updated id o s s1 (exec now w) w1 Hi0 Hid U), abs_sessions_now. by rewrite delete_insert_eq.
  - assert (Hi1 : Inv opts w1) by (apply (Inv_updated _ _ _ _ _ _ U); [left; by exists id|done]).
    rewrite !bind_run. pose proof (abs_maybeRefresh o s s1 _ _ w1 Hi0 U M) as R.
    change (w_mem (exec now w)) with (w_mem w) in R. rewrite R. cbn beta iota.
    rewrite !bind_run. unfold a_now; cbn [a_ticks a_sessions a_calls fst snd].
    rewrite abs_expired, Hc. cbn [a_ticks a_sessions a_calls fst snd].
    split; [|cbn; by rewrite lookup_insert_eq].
    pose proof (Inv_now _ _ (Inv_now _ _ Hi1)) as Hi2.
    assert (Hs1 : w_objs (exec now (exec now w1)) !! o = Some s1)
      by (cbn; by rewrite (up_objs _ _ _ _ _ _ U), lookup_insert_eq).
    pose proof (updated_lastSeen opts o s1 (clock_Now (S (w_ticks w1))) _ Hs1 (i_mem _ _ Hi2)) as U2.
    unfold abs. rewrite (abs_updated id o s1 _ _ _ Hi2) with (2 := U2).
    2:{ cbn. by rewrite (up_sessions _ _ _ _ _ _ U). }
    rewrite !abs_sessions_now.
    rewrite (abs_updated id o s s1 (exec now w) w1 Hi0 Hid U), abs_sessions_now. by rewrite insert_insert_eq.
Qed.

Lemma abs_doGC `{RangeOrder} w :
  Inv opts w -> eval (doGC opts) w = Some tt /\ abs (exec (doGC opts) w) = exec aGC (abs w).
Proof.
  intros Hi. pose proof (Inv_now _ _ Hi) as Hi0.
  destruct (doGC_evicted opts w (i_live _ _ Hi)) as [Ev E]. split; [done|]. unfold abs.
  rewrite (er_ticks _ _ _ (proj1 E)), (er_calls _ _ _ (proj1 E)).
  change (exec aGC _) with (mkAStore
    (filter (fun e => a_alive e.2 (clock_Now (w_ticks w)) = true) (abs_sessions w))
    (S (w_ticks w)) (w_calls w)). cbn [exec now snd w_ticks w_calls]. f_equal. apply map_eq; intros id. rewrite (abs_evicted _ (exec now w)) by done.
  change (w_sessions (exec now w)) with (w_sessions w).
  change (abs_sessions (exec now w)) with (abs_sessions w).
  rewrite map_lookup_filter, abs_lookup. set (t := clock_Now (w_ticks w)) in *.
  destruct (w_sessions w !! id) as [o|] eqn:Hid; [|done]. cbn [mbind option_bind].
  destruct (i_live _ _ Hi id o Hid) as (s & Hs & _). rewrite Hs. cbn [fmap option_fmap option_map mbind option_bind].
  destruct (decide (o ∈ _)) as [Hin|Hni].
  - apply elem_of_objs_of in Hin as (id' & Hin & Hid'). apply elem_of_gc_expired in Hin; [|apply (i_live _ _ Hi)].
    destruct Hin as (o' & Ho' & s' & Hs' & Ha). simplify_eq.
    rewrite option_guard_False; [done|]. cbn. rewrite abs_alive. congruence.
  - rewrite option_guard_True; [done|]. cbn. rewrite abs_alive. destruct (alive opts s t) eqn:Ha; [done|].
    destruct Hni. apply elem_of_objs_of. exists id. split; [|done].
    apply elem_of_gc_expired; [apply (i_live _ _ Hi)|]. exists o. split; [done|]. by exists s.
Qed.
End Spec.
