(* ===== verification/SessionProps.v ===== *)
(** * Properties of the session store

    The properties are stated on the worlds that sequences of calls reach ([reachable]) and on the
    operations themselves; their proofs apply the lemmas of [SessionInv] and [SessionSpec]. Module
    [Demo] has a concrete platform, on which each is instantiated. *)
From S2P Require Import Prelude.
From S2P Require Import Session.
From S2P Require Import SessionStore.
From S2P Require Import SessionFacts.
From S2P Require Import SessionOps.
From S2P Require Import SessionRefresh.
From S2P Require Import SessionInv.
From S2P Require Import SessionSpec.

(** *** A concrete platform *)

Module Demo.

(** The clock ticks once a second from 2023 on, the random source returns one repeated byte, and
    provider [r] renews a bearer token for an hour, or fails when [r] is 0. *)
Definition demo_now (i : nat) : time := (63800000000 + Z.of_nat i) * Second.

Fixpoint repeat_byte (n : nat) (c : ascii) : string :=
  match n with O => EmptyString | S n' => String c (repeat_byte n' c) end.

#[export] Instance demo_platform : Platform := {|
  RoundTripper := nat;
  Cleanup := nat;
  Refresher := nat;
  clock_Now := demo_now;
  rand_Read i n := Ok (repeat_byte n (ascii_of_nat (i + 1)));
  refresher_Refresh r i tok :=
    match r with
    | O => Err "provider unavailable"
    | S _ => Ok (mkCredVal KindBearer (Some "new-token") None None "" (demo_now i + Hour), None)
    end;
|}.

#[export] Instance demo_order : RangeOrder := range_default.

Definition demo_opts : Options := setDefaults (mkOptions 0 0 2 1).

(** A bearer session for [user], whose arrays are allocated by the caller. *)
Definition mk_spec (user : string) (r : option nat) (expiry : time) : ST World Spec :=
  tok ← alloc (Some "secret-token");
  rt ← alloc (Some "refresh-me");
  mret (mkSpec ModeOIDC (mkCredential KindBearer tok None None "" expiry) rt user r).

Definition login (user : string) (r : option nat) (expiry : time) : ST World (result store_error nat) :=
  sp ← mk_spec user r expiry;
  Create demo_opts sp.

(** Decides the freshness of a spec. *)
Definition spec_freshb (sp : Spec) (w : World) : bool :=
  bool_decide (Forall (fun l => is_Some (w_mem w !! l)) (spec_locs sp)) &&
  (match sp_RefreshToken sp with
   | Some l => bool_decide (l ∉ cred_locs (sp_Credential sp))
   | None => true
   end) &&
  bool_decide (map_Forall (fun _ s => Forall (fun l => l ∉ spec_locs sp) (session_locs s)) (w_objs w)).

Lemma spec_freshb_sound sp w : spec_freshb sp w = true -> spec_fresh sp w.
Proof.
  unfold spec_freshb. rewrite !andb_true_iff, !bool_decide_eq_true.
  intros [[HA HS] HF]. rewrite Forall_forall in HA. split; [done| |].
  - intros l Hl. rewrite Hl in HS. by apply bool_decide_eq_true in HS.
  - intros o s l Hs Hl. specialize (HF o s Hs). rewrite Forall_forall in HF. by apply HF.
Qed.

Definition id_unusedb (w : World) : bool :=
  match rand_Read (w_draws w) sessionIDBytes with
  | Ok b => bool_decide (w_sessions w !! hex_EncodeToString b = None)
  | Err _ => true
  end.

Lemma id_unusedb_sound w : id_unusedb w = true -> id_unused w.
Proof.
  unfold id_unusedb, id_unused. intros H b E. rewrite E in H. by apply bool_decide_eq_true in H.
Qed.

Lemma login_run user r expiry w :
  exec (login user r expiry) w =
    exec (Create demo_opts (eval (mk_spec user r expiry) w)) (exec (mk_spec user r expiry) w).
Proof. unfold login, exec, eval. rewrite bind_run. by destruct (mk_spec user r expiry w). Qed.

Lemma mk_spec_run user r expiry w :
  exec (mk_spec user r expiry) w =
    exec (alloc (Some "refresh-me")) (exec (alloc (Some "secret-token")) w).
Proof. reflexivity. Qed.

Lemma reachable_login user r expiry w :
  reachable demo_opts w ->
  spec_freshb (eval (mk_spec user r expiry) w) (exec (mk_spec user r expiry) w) = true ->
  id_unusedb (exec (mk_spec user r expiry) w) = true ->
  reachable demo_opts (exec (login user r expiry) w).
Proof.
  intros Hr Hf%spec_freshb_sound Hu%id_unusedb_sound. unfold reachable in *. rewrite login_run.
  eapply rtc_r; [|by apply (step_Create demo_opts demo_order)]. rewrite mk_spec_run.
  eapply rtc_r; [|apply step_alloc]. eapply rtc_r; [done|apply step_alloc].
Qed.

Definition w_alice : World := exec (login "alice" (Some 1%nat) (demo_now 40)) world0.
Definition id_alice : string := hex_EncodeToString (repeat_byte 32 "001").
Definition w_both : World := exec (login "bob" None 0) w_alice.
Definition id_bob : string := hex_EncodeToString (repeat_byte 32 "002").

Lemma reachable_alice : reachable demo_opts w_alice.
Proof. apply reachable_login; [apply rtc_refl|vm_compute; reflexivity..]. Qed.

Lemma reachable_both : reachable demo_opts w_both.
Proof. apply reachable_login; [apply reachable_alice|vm_compute; reflexivity..]. Qed.

Example alice_logged_in : is_Some (w_sessions w_both !! id_alice).
Proof. vm_compute. by eexists. Qed.

End Demo.

(** *** Properties *)

Section Props.
Context `{P : Platform}.

(** C2. Every sequence of store operations, on a store whose options went through [setDefaults],
    keeps the store well formed: the map agrees with the session objects, no two sessions share an
    array, sessions out of the map hold no secret, neither bound is exceeded, and every session's
    expiry is the effective one. *)
Theorem store_invariant (o : Options) (w : World) :
  reachable (setDefaults o) w -> Inv (setDefaults o) w.
Proof. apply Inv_reachable, setDefaults_ok. Qed.

(** C1. In a reachable store, [Get], [Delete] and the sweep act as the pointer-free specification
    does, on the sessions, the answer, the clock and the calls to the identity provider; the sweep
    terminates. *)
Theorem store_refines (o : Options) (w : World) (R : RangeOrder) (id : string) :
  let opts := setDefaults o in
  reachable opts w ->
  (abs (exec (Get opts id) w) = exec (aGet opts id) (abs w) /\
   abs_result (exec (Get opts id) w) (eval (Get opts id) w) = Some (eval (aGet opts id) (abs w))) /\
  abs (exec (Delete id) w) = exec (aDelete id) (abs w) /\
  eval (doGC opts) w = Some tt /\ abs (exec (doGC opts) w) = exec (aGC opts) (abs w).
Proof.
  intros opts Hr. pose proof (Inv_reachable opts w (setDefaults_ok o) Hr) as Hi.
  split; [by apply abs_Get|]. split; [by eapply abs_Delete|by apply abs_doGC].
Qed.

(** C4. [Delete] ends a session for good: its id is no longer known, every byte of its credential
    and refresh token is overwritten with zeros, the cleanup of every cached transport has run, and
    every other session is left with the contents it had. *)
Theorem Delete_erases (o : Options) (w : World) (R : RangeOrder) (id : string) (p : nat) (s : Session) :
  let opts := setDefaults o in
  let w' := exec (Delete id) w in
  reachable opts w -> w_sessions w !! id = Some p -> w_objs w !! p = Some s ->
  eval (Peek id) w' = None /\
  (forall l, l ∈ session_locs s -> exists b, w_mem w' !! l = Some b /\ all_zero b = true) /\
  (forall k c f, s_transports s !! k = Some c -> ct_cleanup c = Some f -> f ∈ w_closed w') /\
  (forall id', id' <> id -> abs_sessions w' !! id' = abs_sessions w !! id').
Proof.
  intros opts w' Hr Hid Hs. pose proof (Inv_reachable opts w (setDefaults_ok o) Hr) as Hi.
  pose proof (Delete_live_evicted id p w (i_live _ _ Hi) Hid) as E. fold w' in E.
  pose proof (abs_evict_one opts id p w w' Hi Hid E) as Ab. destruct E as [E S]. split_and!.
  - unfold Peek, lookup_session, gets, eval. cbn.
    destruct (w_sessions w' !! id) as [p'|] eqn:Hp; [|done]. apply S in Hp as [Hp Hn]. simplify_eq.
    by destruct Hn; left.
  - intros l Hl. destruct (i_locs _ _ Hi p s Hs l Hl) as [b Hb]. exists (zero_string b).
    rewrite (er_mem _ _ _ E), Hb, decide_True; [split; [done|apply zero_string_all_zero]|].
    apply elem_of_locs_of. exists p, s. set_solver.
  - intros k c f Hk Hf. apply (er_closed _ _ _ E). right. exists p, s, k, c. set_solver.
  - intros id' Hne. by rewrite Ab, lookup_delete_ne.
Qed.

(** C5. [Get] fails closed: a session it returns was live, within its lifetime cap and its idle
    timeout when the request came, holds a credential that was not expired once a refresh had its
    chance, and has its last-seen time set to a clock reading taken by this very call. *)
Theorem Get_fails_closed (o : Options) (w : World) (R : RangeOrder) (id : string) (p : nat) :
  let opts := setDefaults o in
  let w' := exec (Get opts id) w in
  reachable opts w -> eval (Get opts id) w = Ok p ->
  exists s s' n, w_sessions w !! id = Some p /\ w_sessions w' !! id = Some p /\
    w_objs w !! p = Some s /\ w_objs w' !! p = Some s' /\
    clock_Now (w_ticks w) <= s_createdAt s + MaxLifetime opts /\
    time_Sub (clock_Now (w_ticks w)) (s_lastSeen s) <= IdleTimeout opts /\
    (w_ticks w < n < w_ticks w')%nat /\ credentialExpired s' (clock_Now n) = false /\
    s_lastSeen s' = clock_Now (S n) /\ w_ticks w' = S (S n).
Proof.
  intros opts w' Hr Hget. pose proof (Inv_reachable opts w (setDefaults_ok o) Hr) as Hi.
  pose proof (Get_cases opts id w Hi) as C. unfold w'. rewrite Hget in C.
  inversion C as [| | |p' s s1 w1 Hid Hs Ha U M Hc Ep Ew]; subst.
  exists s, (s_set_lastSeen (clock_Now (S (w_ticks w1))) s1), (w_ticks w1).
  pose proof (up_ticks _ _ _ _ _ _ U) as Ht. cbn in Ht. unfold alive in Ha.
  split_and!; try done; cbn.
  - by rewrite (up_sessions _ _ _ _ _ _ U).
  - by rewrite lookup_insert_eq.
  - destruct (time_After _ _) eqn:E; [done|]. by apply Z.ltb_ge in E.
  - destruct (time_After _ _); [done|]. destruct (_ && _); [done|]. by apply Z.leb_le.
  - lia.
Qed.

(** When [Get] answers that a session expired, the session is out of the store and neither its
    object nor its arrays hold any of its secrets. *)
Theorem Get_expired_erases (o : Options) (w : World) (R : RangeOrder) (id : string) :
  let opts := setDefaults o in
  let w' := exec (Get opts id) w in
  reachable opts w -> eval (Get opts id) w = Err ErrExpired ->
  exists p s', w_sessions w !! id = Some p /\ w_sessions w' !! id = None /\
    w_objs w' !! p = Some s' /\ session_locs s' = [] /\
    (forall l s, w_objs w !! p = Some s -> l ∈ session_locs s ->
       exists b, w_mem w' !! l = Some b /\ all_zero b = true).
Proof.
  intros opts w' Hr Hget. pose proof (Inv_reachable opts w (setDefaults_ok o) Hr) as Hi.
  pose proof (Inv_now _ _ Hi) as Hi0.
  pose proof (Get_cases opts id w Hi) as C. pose proof (Inv_Get opts id w Hi) as Hi'. fold w' in C, Hi'.
  rewrite Hget in C.
  assert (Hz : forall w0 s0 p, Inv opts w0 -> w_objs w0 !! p = Some s0 -> w_sessions w0 !! id = Some p ->
    evicted [p] w0 w' ->
    w_sessions w' !! id = None /\ w_objs w' !! p = Some (zeroed s0) /\
    (forall l, l ∈ session_locs s0 -> exists b, w_mem w' !! l = Some b /\ all_zero b = true) /\
    (forall l b, w_mem w0 !! l = Some b -> all_zero b = true ->
       exists b', w_mem w' !! l = Some b' /\ all_zero b' = true)).
  { intros w0 s0 p I0 Hs0 Hp [E S]. split_and!.
    - destruct (w_sessions w' !! id) as [p'|] eqn:Hp'; [|done]. apply S in Hp' as [? Hn].
      simplify_eq. by destruct Hn; left.
    - by rewrite (er_objs _ _ _ E), Hs0, decide_True by left.
    - intros l Hl. destruct (i_locs _ _ I0 p s0 Hs0 l Hl) as [b Hb]. exists (zero_string b).
      rewrite (er_mem _ _ _ E), Hb, decide_True; [split; [done|apply zero_string_all_zero]|].
      apply elem_of_locs_of. exists p, s0. set_solver.
    - intros l b Hb Hb0. rewrite (er_mem _ _ _ E), Hb. case_decide; cbn; eexists; split; try done.
      apply zero_string_all_zero. }
  inversion C as [|p s w2 Hid Hs Ha E Er Ew|p s s1 w1 w2 Hid Hs Ha U M Hc E Er Ew|]; subst.
  - destruct (Hz _ s p Hi0 Hs Hid E) as (H1 & H2 & H3 & _).
    exists p, (zeroed s). split_and!; try done. intros l s' Hs' Hl. simplify_eq. by apply H3.
  - assert (Hi1 : Inv opts w1) by (apply (Inv_updated _ _ _ _ _ _ U); [left; by exists id|done]).
    assert (Hs1 : w_objs (exec now w1) !! p = Some s1)
      by (cbn; by rewrite (up_objs _ _ _ _ _ _ U), lookup_insert_eq).
    assert (Hid1 : w_sessions (exec now w1) !! id = Some p)
      by (cbn; by rewrite (up_sessions _ _ _ _ _ _ U)).
    destruct (Hz _ s1 p (Inv_now _ _ Hi1) Hs1 Hid1 E) as (H1 & H2 & H3 & H4).
    exists p, (zeroed s1). split_and!; try done. intros l s' Hs' Hl. simplify_eq.
    destruct (up_drop _ _ _ _ _ _ U l Hl) as [Hl1|Hd]; [by apply H3|].
    destruct (up_dom _ _ _ _ _ _ U l (i_locs _ _ Hi p s Hs l Hl)) as [b Hb].
    by apply (H4 l b); [|apply Hd].
Qed.

(** A failed refresh does not end a session whose credential still works: [Get] serves it with
    its credential and tokens as they were, after exactly one call to the provider. *)
Theorem Get_survives_failed_refresh (o : Options) (w : World) (R : RangeOrder) (id : string)
    (a : ASession) (r : Refresher) (e : string) :
  let opts := setDefaults o in
  let t := clock_Now (w_ticks w) in
  reachable opts w ->
  abs_sessions w !! id = Some a -> a_alive opts a t = true ->
  a_refresher a = Some r ->
  a_needsRefresh a t = true -> a_needsRefresh a (clock_Now (S (w_ticks w))) = true ->
  refresher_Refresh r (w_calls w) (a_token a) = Err e ->
  a_expired a (clock_Now (S (S (w_ticks w)))) = false ->
  let w' := exec (Get opts id) w in
  (exists p, eval (Get opts id) w = Ok p) /\ w_calls w' = S (w_calls w) /\
  abs_sessions w' = <[id := a_touch a (clock_Now (S (S (S (w_ticks w)))))]> (abs_sessions w).
Proof.
  intros opts t Hr Ha Hal Hrf Hn1 Hn2 He Hx w'.
  pose proof (Inv_reachable opts w (setDefaults_ok o) Hr) as Hi.
  destruct (abs_Get opts id w Hi) as [Ew Er]. fold w' in Ew, Er.
  assert (G : aGet opts id (abs w) =
    (Ok (a_touch a (clock_Now (S (S (S (w_ticks w)))))),
     mkAStore (<[id := a_touch a (clock_Now (S (S (S (w_ticks w)))))]> (abs_sessions w))
       (S (S (S (S (w_ticks w))))) (S (w_calls w)))).
  { unfold aGet, gets. rewrite bind_run. cbn [fst snd]. change (a_sessions (abs w)) with (abs_sessions w).
    rewrite Ha. rewrite bind_run. unfold a_now at 1. cbn [abs a_ticks a_sessions a_calls].
    fold t. rewrite Hal. cbn [negb]. rewrite bind_run.
    unfold a_maybeRefresh. rewrite Hn1, bind_run. unfold a_now at 1. cbn [a_ticks a_sessions a_calls].
    rewrite Hn2. unfold a_refresh. rewrite Hrf, bind_run. unfold a_call. cbn [a_ticks a_sessions a_calls].
    rewrite He. unfold mret at 1, ST_ret at 1. rewrite bind_run. unfold a_now at 1.
    cbn [a_ticks a_sessions a_calls]. by rewrite Hx. }
  change (exec (aGet opts id) (abs w)) with (snd (aGet opts id (abs w))) in Ew.
  change (eval (aGet opts id) (abs w)) with (fst (aGet opts id (abs w))) in Er. rewrite G in Ew, Er. cbn [fst snd] in Ew, Er.
  injection Ew as E1 E2 E3. split; [|done].
  destruct (eval (Get opts id) w) as [p|e']; [by exists p|done].
Qed.

(** The per-user cap falls on the identity that trips it: a session that a [Create] drops
    either belongs to that same identity, and then no session of that identity which is kept is
    staler, or was no longer alive. An admin login (an empty cap key) drops no live session. *)
Theorem Create_evicts_own_or_dead (o : Options) (w : World) (R : RangeOrder) (sp : Spec)
    (id : string) (p : nat) (s : Session) :
  let opts := setDefaults o in
  let w' := exec (Create opts sp) w in
  reachable opts w -> spec_fresh sp w -> id_unused w ->
  w_sessions w !! id = Some p -> w_objs w !! p = Some s -> w_sessions w' !! id = None ->
  alive opts s (clock_Now (w_ticks w)) = false \/
  (s_capKey s = perUserCapKey sp /\ perUserCapKey sp <> "" /\
   forall id2 p2 s2, w_sessions w !! id2 = Some p2 -> w_objs w !! p2 = Some s2 ->
     s_capKey s2 = s_capKey s -> w_sessions w' !! id2 = Some p2 -> older (p, s) (p2, s2)).
Proof.
  intros opts w' Hr Hf Hu Hid Hs Hgone.
  pose proof (Inv_reachable opts w (setDefaults_ok o) Hr) as Hi.
  pose proof (Create_spec opts sp w Hi) as C. cbn zeta in C. fold w' in C.
  set (w0 := exec now _) in *. set (V := limit_victims opts _ w) in *.
  destruct (rand_Read (w_draws w) sessionIDBytes) as [b|] eqn:Hb.
  2:{ destruct C as [_ C]. rewrite C in Hgone. cbn in Hgone. congruence. }
  destruct C as (w1 & E1 & C). destruct E1 as [E1 S1].
  (* the world after the limit: the session is a victim, or still live *)
  destruct (decide (p ∈ V.*1)) as [HV|HV].
  - right. apply list_elem_of_fmap in HV as ([p' s'] & -> & HV). cbn in *.
    destruct (limit_victims_owned _ _ _ _ HV) as [Hown Hk].
    apply elem_of_owned in Hown as (id' & _ & Hs' & Hcap). simplify_eq.
    split; [done|]. split; [done|]. intros id2 p2 s2 Hid2 Hs2 Hcap2 Hlive.
    apply (limit_victims_oldest opts (perUserCapKey sp) w); [done| |].
    + apply elem_of_owned. exists id2. by rewrite Hcap2.
    + intros HV2. assert (Hn1 : w_sessions w1 !! id2 = None).
      { destruct (w_sessions w1 !! id2) as [q|] eqn:Hq; [|done]. apply S1 in Hq as [Hq Hn]. cbn in Hq.
        simplify_eq. destruct Hn. apply list_elem_of_fmap. by exists (p2, s2). }
      destruct (eval (Create opts sp) w) as [q|e].
      * destruct C as (w2 & D & (E2 & _) & -> & Ew). rewrite Ew in Hlive. cbn in Hlive.
        apply lookup_insert_Some in Hlive as [[Heq _]|[_ Hlive]].
        -- specialize (Hu b Hb). congruence.
        -- by rewrite (evicted_lookup_None _ _ _ _ E2 Hn1) in Hlive.
      * destruct C as (_ & E & _). by rewrite (evicted_lookup_None _ _ _ _ E Hn1) in Hlive.
  - left. assert (Hid1 : w_sessions w1 !! id = Some p) by by apply S1.
    assert (Hs1 : w_objs w1 !! p = Some s)
      by (rewrite (er_objs _ _ _ E1), decide_False by done; cbn; by rewrite Hs).
    assert (Hi1 : wf_live w1).
    { apply (wf_live_evicted V.*1 w0); [by split|]. apply (i_live _ _ Hi). }
    destruct (eval (Create opts sp) w) as [q|e].
    + destruct C as (w2 & D & (E2 & HD) & -> & Ew). rewrite Ew in Hgone. cbn in Hgone.
      apply lookup_insert_None in Hgone as [Hgone _].
      assert (HpD : p ∈ D).
      { destruct (decide (p ∈ D)); [done|]. destruct E2 as [_ S2].
        assert (w_sessions w2 !! id = Some p) by by apply S2. congruence. }
      destruct HD as [[-> _]|(q & idq & -> & Hq & s' & Hs' & Ha)]; [set_solver|].
      apply list_elem_of_singleton in HpD as ->. congruence.
    + destruct C as (_ & [_ S2] & _).
      assert (w_sessions w' !! id = Some p) by (apply S2; set_solver). congruence.
Qed.

(** [Create] succeeds unless the random source fails or the store stays full: then, and only
    then, it answers [ErrTooManySessions], every session left is alive, and the store is at its
    bound. A created session is found under a 64-character id, holds the caller's credential, is
    stamped with the time of the call, and the identity it belongs to is within its cap. *)
Theorem Create_outcome (o : Options) (w : World) (R : RangeOrder) (sp : Spec) :
  let opts := setDefaults o in
  let t := clock_Now (w_ticks w) in
  let w' := exec (Create opts sp) w in
  reachable opts w -> spec_fresh sp w -> id_unused w ->
  match rand_Read (w_draws w) sessionIDBytes, eval (Create opts sp) w with
  | Err e, r => r = Err (ErrRandom ("error when generating random data: " +:+ e)) /\
      abs_sessions w' = abs_sessions w
  | Ok b, Ok p => exists a, abs_sessions w' !! hex_EncodeToString b = Some a /\
      a_createdAt a = t /\ a_lastSeen a = t /\ a_username a = sp_Username sp /\
      a_cred a = credential_val (w_mem w) (sp_Credential sp) /\
      a_token a = slice_bytes (w_mem w) (sp_RefreshToken sp) /\
      (a_capKey a <> "" -> Z.of_nat (live_count (a_capKey a) w') <= MaxSessionsPerUser opts)
  | Ok _, Err e => e = ErrTooManySessions /\
      Z.of_nat (size (w_sessions w')) = MaxSessions opts /\
      (forall id p s, w_sessions w' !! id = Some p -> w_objs w' !! p = Some s -> alive opts s t = true)
  end.
Proof.
  intros opts t w' Hr Hf Hu. pose proof (setDefaults_ok o) as Hok. fold opts in Hok.
  pose proof (Inv_reachable opts w Hok Hr) as Hi.
  pose proof (Inv_Create opts sp w Hok Hi Hf Hu) as Hi'. fold w' in Hi'.
  pose proof (Create_spec opts sp w Hi) as C. cbn zeta in C. fold w' t in C.
  set (w0 := exec now _) in *. destruct (rand_Read (w_draws w) sessionIDBytes) as [b|] eqn:Hb.
  2:{ destruct C as [-> ->]. done. }
  destruct C as (w1 & E1 & C). destruct (eval (Create opts sp) w) as [p|e] eqn:Hu0.
  - clear C E1. destruct (Create_made opts sp w p Hi Hf Hu0) as (b' & Hb2 & Hid & Hs & Hmem).
    fold w' t in Hid, Hs, Hmem. rewrite Hb in Hb2. injection Hb2 as <-. set (id := hex_EncodeToString b) in *.
    set (s := new_session opts id t sp) in *. exists (abs_session (w_mem w') s).
    assert (Hb' : forall x, (forall l, x = Some l -> l ∈ spec_locs sp) ->
              slice_bytes (w_mem w') x = slice_bytes (w_mem w) x).
    { intros [l|] Hx; [|done]. cbn. by rewrite Hmem by by apply Hx. }
    split_and!; try done.
    + by rewrite abs_lookup, Hid; cbn; rewrite Hs.
    + cbn. unfold credential_val.
      rewrite !Hb'; [done|..]; intros l Hl; change (l ∈ session_locs s); apply elem_of_session_locs; left;
        apply elem_of_cred_locs; cbn; tauto.
    + cbn. apply Hb'. intros l Hl. change (l ∈ session_locs s). apply elem_of_session_locs. by right.
    + intros Hk. by apply (i_cap _ _ Hi').
  - destruct C as (-> & E & Hfull & Hall). pose proof (i_size _ _ Hi') as Hsz.
    assert (Hsame : w_sessions w' = w_sessions w1).
    { apply map_eq; intros id. apply option_eq; intros p. destruct E as [_ S]. rewrite S. set_solver. }
    split; [done|]. split; [rewrite Hsame in *; lia|].
    intros id p s Hid Hs. destruct (alive opts s t) eqn:Ha; [done|]. rewrite Hsame in Hid.
    destruct (Hall id p Hid). exists s. split; [|done]. destruct E as [E _].
    rewrite (er_objs _ _ _ E), decide_False, option_fmap_id in Hs by set_solver. done.
Qed.

(** Every session object ever made expires no later than its lifetime cap allows, and no later
    than its credential when that has an expiry; a refresh may move it but never past the cap. *)
Theorem expiry_within_cap (o : Options) (w : World) (p : nat) (s : Session) :
  let opts := setDefaults o in
  reachable opts w -> w_objs w !! p = Some s ->
  s_expiresAt s <= s_createdAt s + MaxLifetime opts /\
  (cr_ExpiresAt (s_credential s) <> 0 -> s_expiresAt s <= cr_ExpiresAt (s_credential s)).
Proof.
  intros opts Hr Hs. pose proof (Inv_reachable opts w (setDefaults_ok o) Hr) as Hi.
  rewrite (i_exp _ _ Hi p s Hs). unfold effectiveExpiry, time_IsZero, time_After, time_Add.
  destruct (Z.eqb_spec (cr_ExpiresAt (s_credential s)) 0), (Z.ltb_spec
    (s_createdAt s + MaxLifetime opts) (cr_ExpiresAt (s_credential s))); cbn; subst opts; cbn in *; lia.
Qed.

(** Once [TransportFor] succeeded for a key, the same transport is served from the cache
    without running the builder again, and no transport of the same upstream is left under another
    version: the cleanup of each one dropped has run. *)
Theorem transportFor_caches (w : World) (R : RangeOrder) (p : nat) (s : Session)
    (u v : string) (build build' : TransportBuilder) (rt : RoundTripper) :
  let key := (u +:+ "/" +:+ v)%string in
  let w' := exec (transportFor p key build) w in
  no_slash u = true ->
  w_objs w !! p = Some s -> eval (transportFor p key build) w = Ok rt ->
  transportFor p key build' w' = (Ok rt, w') /\
  (s_transports s !! key = None ->
   forall v2, v2 <> v -> forall s', w_objs w' !! p = Some s' ->
     s_transports s' !! (u +:+ "/" +:+ v2)%string = None /\
     forall c f, s_transports s !! (u +:+ "/" +:+ v2)%string = Some c ->
       ct_cleanup c = Some f -> f ∈ w_closed w').
Proof.
  intros key w' Hu Hs Hok. split.
  - unfold w', exec, eval in *. rewrite (transportFor_run p key build s) in * by done.
    destruct (s_transports s !! key) as [c0|] eqn:Hk; cbn [fst snd] in *.
    { rewrite (transportFor_run p key build' s), Hk by done. by simplify_eq. }
    destruct (build _) as [[rt' cl]|e]; [|done]. cbn [fst snd] in *. injection Hok as ->.
    erewrite transportFor_run by apply with_obj_lookup. cbn. by rewrite lookup_insert_eq.
  - intros Hk v2 Hne s' Hs'. by apply (transportFor_supersedes p u v build s w rt).
Qed.
End Props.

(** *** The properties at work *)

Import Demo.

Lemma store_invariant_witness : Inv demo_opts w_both.
Proof. apply (store_invariant (mkOptions 0 0 2 1)). apply reachable_both. Defined.

Lemma store_refines_witness :
  abs (exec (Get demo_opts id_alice) w_both) = exec (aGet demo_opts id_alice) (abs w_both) /\
  abs (exec (doGC demo_opts) w_both) = exec (aGC demo_opts) (abs w_both).
Proof.
  destruct (store_refines (mkOptions 0 0 2 1) w_both demo_order id_alice reachable_both)
    as ([? _] & _ & _ & ?).
  split; assumption.
Defined.

Definition alice_obj : nat := 2.
Definition alice_session : Session :=
  default (new_session demo_opts "" 0 (mkSpec "" Credential_zero_value None "" None)) (w_objs w_both !! alice_obj).

Lemma alice_lookup : w_sessions w_both !! id_alice = Some alice_obj /\
  w_objs w_both !! alice_obj = Some alice_session.
Proof.
  split; [vm_compute; reflexivity|].
  assert (H : bool_decide (is_Some (w_objs w_both !! alice_obj)) = true) by (vm_compute; reflexivity).
  unfold alice_session. by destruct (w_objs w_both !! alice_obj).
Qed.

Lemma Delete_erases_witness :
  eval (Peek id_alice) (exec (Delete id_alice) w_both) = None /\
  session_locs alice_session = [0%nat; 1%nat] /\
  (exists b, w_mem (exec (Delete id_alice) w_both) !! 0%nat = Some b /\ all_zero b = true).
Proof.
  destruct alice_lookup as [H1 H2].
  destruct (Delete_erases (mkOptions 0 0 2 1) w_both demo_order id_alice alice_obj alice_session
    reachable_both H1 H2) as (A & B & _).
  split; [exact A|]. split; [vm_compute; reflexivity|].
  apply B. vm_compute. left.
Defined.

Lemma Get_fails_closed_witness :
  exists s', w_objs (exec (Get demo_opts id_alice) w_both) !! alice_obj = Some s' /\
    credentialExpired s' (demo_now 4) = false.
Proof.
  assert (H : eval (Get demo_opts id_alice) w_both = Ok alice_obj) by (vm_compute; reflexivity).
  destruct (Get_fails_closed (mkOptions 0 0 2 1) w_both demo_order id_alice alice_obj
    reachable_both H) as (s & s' & n & _ & _ & _ & Hs' & _ & _ & Hn & Hc & _ & Ht).
  exists s'. split; [exact Hs'|].
  assert (En : w_ticks (exec (Get demo_opts id_alice) w_both) = 6%nat) by (vm_compute; reflexivity).
  replace 4%nat with n; [exact Hc|]. clear -Ht En. unfold demo_opts in En. rewrite Ht in En. lia.
Defined.

(** Bob's credential, which nothing renews, is already past its expiry when he first comes back. *)
Definition w_late : World := exec (login "bob" None (demo_now 0)) world0.

Lemma reachable_late : reachable demo_opts w_late.
Proof. apply reachable_login; [apply rtc_refl|vm_compute; reflexivity..]. Qed.

Lemma Get_expired_erases_witness :
  exists p s', w_objs (exec (Get demo_opts id_alice) w_late) !! p = Some s' /\ session_locs s' = [].
Proof.
  assert (H : eval (Get demo_opts id_alice) w_late = Err ErrExpired) by (vm_compute; reflexivity).
  destruct (Get_expired_erases (mkOptions 0 0 2 1) w_late demo_order id_alice reachable_late H)
    as (p & s' & _ & _ & Hs' & Hl & _).
  exists p, s'. split; assumption.
Defined.

(** Carol's provider is unavailable; her credential is due for a refresh but still works. *)
Definition w_carol : World := exec (login "carol" (Some 0%nat) (demo_now 40)) world0.

Lemma reachable_carol : reachable demo_opts w_carol.
Proof. apply reachable_login; [apply rtc_refl|vm_compute; reflexivity..]. Qed.

Lemma Get_survives_failed_refresh_witness :
  w_calls (exec (Get demo_opts id_alice) w_carol) = 1%nat.
Proof.
  assert (H : match abs_sessions w_carol !! id_alice with
    | Some a => a_alive demo_opts a (demo_now 1) && bool_decide (a_refresher a = Some 0%nat) &&
        a_needsRefresh a (demo_now 1) && a_needsRefresh a (demo_now 2) && negb (a_expired a (demo_now 3))
    | None => false end = true) by (vm_compute; reflexivity).
  destruct (abs_sessions w_carol !! id_alice) as [a|] eqn:Ha; [|discriminate H].
  apply andb_true_iff in H as [H H5%negb_true_iff]. apply andb_true_iff in H as [H H4].
  apply andb_true_iff in H as [H H3]. apply andb_true_iff in H as [H1 H2%bool_decide_eq_true].
  destruct (Get_survives_failed_refresh (mkOptions 0 0 2 1) w_carol demo_order id_alice a 0%nat
    "provider unavailable" reachable_carol Ha H1 H2 H3 H4 eq_refl H5) as (_ & Hc & _).
  exact Hc.
Defined.

(** A second login of Alice, with one session per user allowed, drops her first. *)
Definition again : World := exec (mk_spec "alice" None 0) w_both.
Definition again_spec : Spec := eval (mk_spec "alice" None 0) w_both.

Lemma reachable_again : reachable demo_opts again.
Proof.
  unfold reachable, again. rewrite mk_spec_run.
  eapply rtc_r; [|apply step_alloc]. eapply rtc_r; [apply reachable_both|apply step_alloc].
Qed.

Lemma again_fresh : spec_fresh again_spec again /\ id_unused again.
Proof. split; [apply spec_freshb_sound|apply id_unusedb_sound]; vm_compute; reflexivity. Qed.

Lemma again_lookup : w_sessions again !! id_alice = Some alice_obj /\
  w_objs again !! alice_obj = Some alice_session /\
  w_sessions (exec (Create demo_opts again_spec) again) !! id_alice = None.
Proof.
  split; [vm_compute; reflexivity|]. split; [|vm_compute; reflexivity].
  change (w_objs again) with (w_objs w_both). apply alice_lookup.
Qed.

Lemma Create_evicts_own_or_dead_witness :
  alive demo_opts alice_session (clock_Now (w_ticks again)) = false \/ s_capKey alice_session = "alice".
Proof.
  destruct again_fresh as [Hf Hu], again_lookup as (H1 & H2 & H3).
  destruct (Create_evicts_own_or_dead (mkOptions 0 0 2 1) again demo_order again_spec id_alice
    alice_obj alice_session reachable_again Hf Hu H1 H2 H3) as [H|[H _]]; [left|right]; exact H.
Defined.

Lemma Create_outcome_witness :
  exists a, abs_sessions (exec (Create demo_opts again_spec) again) !!
      hex_EncodeToString (repeat_byte 32 "003") = Some a /\ a_username a = "alice".
Proof.
  destruct again_fresh as [Hf Hu].
  pose proof (Create_outcome (mkOptions 0 0 2 1) again demo_order again_spec reachable_again Hf Hu) as H.
  cbv zeta in H. change (setDefaults (mkOptions 0 0 2 1)) with demo_opts in H.
  assert (Hb : rand_Read (w_draws again) sessionIDBytes = Ok (repeat_byte 32 "003")) by reflexivity.
  assert (Hok : exists p, eval (Create demo_opts again_spec) again = Ok p) by (vm_compute; eexists; reflexivity).
  destruct Hok as [p Hp]. rewrite Hb, Hp in H. destruct H as (a & Ha & _ & _ & Hn & _).
  exists a. split; [exact Ha|exact Hn].
Defined.

Lemma expiry_within_cap_witness : s_expiresAt alice_session <= s_createdAt alice_session + 12 * Hour.
Proof.
  destruct alice_lookup as [_ H].
  apply (expiry_within_cap (mkOptions 0 0 2 1) w_both alice_obj alice_session reachable_both H).
Defined.

Definition demo_build : TransportBuilder := fun v => Ok (7%nat, Some 9%nat).

Lemma transportFor_caches_witness :
  transportFor alice_obj "k8s/2" demo_build (exec (transportFor alice_obj "k8s/2" demo_build) w_both) =
    (Ok 7%nat, exec (transportFor alice_obj "k8s/2" demo_build) w_both).
Proof.
  apply (transportFor_caches w_both demo_order alice_obj alice_session "k8s" "2" demo_build demo_build 7%nat).
  - vm_compute. reflexivity.
  - apply alice_lookup.
  - vm_compute. reflexivity.
Defined.
