(* ===== verification/SessionSweep.v ===== *)
(** * The background sweep ([store.Run] in [pkg/auth/session/store.go])

    [Run] hands [doGC] to [wait.BackoffUntil], which calls it at once and then again [gcPeriod]
    after each call returns. A run of the store alternates its operations with such sweeps; next to
    the world it records the clock reading of the last sweep. What the schedule buys is a bound on
    how long the process holds a credential that nothing uses, or that has died. *)
From S2P Require Import Prelude.
From S2P Require Import Session.
From S2P Require Import SessionStore.
From S2P Require Import SessionFacts.
From S2P Require Import SessionOps.
From S2P Require Import SessionRefresh.
From S2P Require Import SessionInv.
From S2P Require Import SessionProps.

Definition gcPeriod : duration := 1 * Minute.

Section Sweep.
Context `{P : Platform}.
Context (opts : Options).
Implicit Types (w : World) (s : Session) (o : nat) (id : string) (last : time).

(** The next reading of the clock. *)
Definition reading (w : World) : time := clock_Now (w_ticks w).

(** The readings of Go's clock that are compared with one another are monotonic. *)
Definition clock_monotonic : Prop :=
  forall i j, (i <= j)%nat -> clock_Now i <= clock_Now j.

(** One call of the store, or of a session, between two sweeps; or one sweep of [Run]. *)
Inductive run_step : World * time -> World * time -> Prop :=
| run_call w w' last : step opts w w' -> run_step (w, last) (w', last)
| run_sweep (R : RangeOrder) w last : run_step (w, last) (exec (doGC opts) w, reading w).

(** [BackoffUntil] keeps to its period when the next reading comes no later than the period plus
    what a sweep itself and the scheduling of the goroutine take ([slack]). *)
Definition on_schedule (slack : duration) (w : World) (last : time) : Prop :=
  reading w <= time_Add last (gcPeriod + slack).

(** *** What one call does to the sessions in the map *)

(** [s1] is [s] some calls later: only [Get] moves [lastSeen], and only to a later reading; a
    session without a refresher keeps its credential's expiry. *)
Record aged (t : time) (s s1 : Session) : Prop := mkAged {
  ag_created : s_createdAt s1 = s_createdAt s;
  ag_refresher : s_refresher s1 = s_refresher s;
  ag_seen : s_lastSeen s1 = s_lastSeen s \/ t <= s_lastSeen s1;
  ag_static : s_refresher s = None ->
    cr_ExpiresAt (s_credential s1) = cr_ExpiresAt (s_credential s);
}.

(** Each session in the map of [w'] was in the map of [w], or was created since. *)
Definition carried (w w' : World) : Prop :=
  forall id o s1, w_sessions w' !! id = Some o -> w_objs w' !! o = Some s1 ->
    (exists s, w_sessions w !! id = Some o /\ w_objs w !! o = Some s /\ aged (reading w) s s1)
    \/ (reading w <= s_createdAt s1 /\ s_lastSeen s1 = s_createdAt s1).

Lemma aged_refl t s : aged t s s.
Proof. split; auto. Qed.

Lemma carried_ext w w' : w_sessions w' = w_sessions w -> w_objs w' = w_objs w -> carried w w'.
Proof.
  intros Es Eo id o s1 Hid Hs. rewrite Es in Hid. rewrite Eo in Hs.
  left. exists s1. auto using aged_refl.
Qed.

Lemma evicted_lookup D w w' id o s1 :
  evicted D w w' -> w_sessions w' !! id = Some o -> w_objs w' !! o = Some s1 ->
  w_sessions w !! id = Some o /\ w_objs w !! o = Some s1 /\ o ∉ D.
Proof.
  intros [E S] [Hid HD]%S Hs. rewrite (er_objs _ _ _ E), decide_False, option_fmap_id in Hs by done.
  auto.
Qed.

Lemma carried_evicted D w w0 w' :
  w_sessions w0 = w_sessions w -> w_objs w0 = w_objs w -> evicted D w0 w' -> carried w w'.
Proof.
  intros Es Eo Ev id o s1 Hid Hs. destruct (evicted_lookup D w0 w' id o s1) as (H1 & H2 & _); [done..|].
  rewrite Es in H1. rewrite Eo in H2. left. exists s1. auto using aged_refl.
Qed.

(** [Create] keeps the sessions it does not evict, and its new one is as young as its reading. *)
Lemma carried_Create `{RangeOrder} sp w :
  Inv opts w -> carried w (exec (Create opts sp) w).
Proof.
  intros Hi. pose proof (Create_spec opts sp w Hi) as C. cbn zeta in C.
  destruct (rand_Read (w_draws w) sessionIDBytes) as [b|e].
  2:{ destruct C as [_ ->]. by apply carried_ext. }
  set (w0 := exec now _) in *. destruct C as (w1 & E1 & C).
  assert (H1 : forall w2 D, evicted D w1 w2 -> carried w w2).
  { intros w2 D E2. apply (carried_evicted (((limit_victims opts (perUserCapKey sp) w).*1) ++ D) w w0);
      [done..|]. by eapply evicted_trans. }
  destruct (eval (Create opts sp) w) as [o|e]; [|by destruct C as (_ & E & _); apply (H1 _ [])].
  destruct C as (w2 & D & (E2 & _) & -> & ->). intros id o s1 Hid Hs.
  cbn [publish w_sessions w_objs] in Hid, Hs.
  apply lookup_insert_Some in Hs as [[<- <-]|[Hne Hs]]; [by right|].
  apply lookup_insert_Some in Hid as [[_ <-]|[_ Hid]]; [done|]. by apply (H1 w2 D E2 id o s1).
Qed.

Lemma maybe_static s s1 t w w1 :
  maybe_result opts s s1 t w w1 -> s_refresher s = None -> s1 = s.
Proof.
  unfold maybe_result, needsRefresh. intros M Hr. rewrite Hr in M. by destruct M.
Qed.

Lemma refresh_lastSeen o s s1 t w w1 out :
  updated opts o s s1 w w1 -> refresh_result opts s s1 t w w1 out -> s_lastSeen s1 = s_lastSeen s.
Proof.
  intros _ [_ R]. destruct (s_refresher s) as [r|]; [|by destruct R as (_ & [-> _] & _)].
  destruct (needsRefresh _ _ _); [|by destruct R as (_ & [-> _] & _)].
  destruct R as [_ R]. destruct (refresher_Refresh _ _ _) as [[v nt]|e].
  - by destruct R as (_ & c & tok & -> & _).
  - by destruct R as [_ [-> _]].
Qed.

(** [maybeRefresh] renews the credential of a session that can be renewed, and nothing else. *)
Lemma aged_maybe o s s1 t t' w w1 :
  updated opts o s s1 w w1 -> maybe_result opts s s1 t' w w1 -> aged t s s1.
Proof.
  intros U M. split.
  - apply U.
  - apply U.
  - left. unfold maybe_result in M. destruct (needsRefresh _ _ _); [|by destruct M as [-> _]].
    destruct M as (out & M). by eapply refresh_lastSeen.
  - intros Hr. by rewrite (maybe_static _ _ _ _ _ M Hr).
Qed.

Lemma carried_Get `{RangeOrder} id w :
  clock_monotonic -> Inv opts w -> carried w (exec (Get opts id) w).
Proof.
  intros Hc Hi. destruct (Get_cases opts id w Hi) as [?|o s w' Hid Hs Ha E
    |o s s1 w1 w' Hid Hs Ha U M He E|o s s1 w1 Hid Hs Ha U M He].
  - by apply carried_ext.
  - by apply (carried_evicted [o] w (exec now w)).
  - intros id' o' s' Hid' Hs'.
    destruct (evicted_lookup [o] (exec now w1) w' id' o' s' E Hid' Hs') as (H1 & H2 & Hne).
    cbn in H1, H2. rewrite (up_sessions _ _ _ _ _ _ U) in H1. rewrite (up_objs _ _ _ _ _ _ U) in H2.
    rewrite lookup_insert_ne in H2 by set_solver. left. exists s'. auto using aged_refl.
  - intros id' o' s' Hid' Hs'. cbn in Hid', Hs'.
    rewrite (up_sessions _ _ _ _ _ _ U) in Hid'. cbn in Hid'. left.
    rewrite (up_objs _ _ _ _ _ _ U) in Hs'. destruct (decide (o' = o)) as [->|Hne].
    + rewrite lookup_insert_eq in Hs'. injection Hs' as <-. exists s. split_and!; [done..|].
      destruct (aged_maybe o s s1 (reading w) _ _ _ U M) as [A1 A2 A3 A4]. split; [done..| |done].
      right. cbn. apply Hc. pose proof (up_ticks _ _ _ _ _ _ U). cbn in *. lia.
    + rewrite !lookup_insert_ne in Hs' by done. exists s'. auto using aged_refl.
Qed.

Lemma carried_transportFor `{RangeOrder} p key build w : carried w (exec (transportFor p key build) w).
Proof.
  unfold exec. destruct (w_objs w !! p) as [s|] eqn:Hs.
  2:{ unfold transportFor. rewrite deref_none by done. by apply carried_ext. }
  assert (Hw : forall f c, carried w (with_obj p (s_upd_transports f s) c w)).
  { intros f c id o s1 Hid Hs1. left. cbn in Hid, Hs1. destruct (decide (o = p)) as [->|Hne].
    - rewrite lookup_insert_eq in Hs1. injection Hs1 as <-. exists s. split_and!; [done..|]. split; auto.
    - rewrite lookup_insert_ne in Hs1 by done. exists s1. auto using aged_refl. }
  rewrite (transportFor_run _ _ _ s) by done. destruct (s_transports s !! key); [by apply carried_ext|].
  destruct (build _) as [[rt cl]|e]; apply Hw.
Qed.

Lemma carried_step w w' :
  clock_monotonic -> step opts w w' -> Inv opts w -> carried w w'.
Proof.
  intros Hc [b w1|l f w1 Hl|R sp w1 Hf Hu|R id w1|R id w1|R w1|R o key build w1] Hi.
  - destruct (alloc_grown b w1) as [[Eo Es _ _ _ _] _]. by apply carried_ext.
  - by apply carried_ext.
  - by apply carried_Create.
  - by apply carried_Get.
  - by eapply carried_evicted, Delete_evicted, i_live.
  - destruct (doGC_evicted opts w1 (i_live _ _ Hi)) as [_ E].
    by apply (carried_evicted _ w1 (exec now w1) _ eq_refl eq_refl E).
  - apply carried_transportFor.
Qed.

Lemma Create_ticks `{RangeOrder} sp w : Inv opts w -> (w_ticks w <= w_ticks (exec (Create opts sp) w))%nat.
Proof.
  intros Hi. pose proof (Create_spec opts sp w Hi) as C. cbn zeta in C.
  destruct (rand_Read (w_draws w) sessionIDBytes) as [b|e]; [|by destruct C as [_ ->]].
  destruct C as (w1 & [E1 _] & C). pose proof (er_ticks _ _ _ E1) as T1. cbn in T1.
  destruct (eval (Create opts sp) w) as [o|e].
  - destruct C as (w2 & D & ([E2 _] & _) & _ & ->). pose proof (er_ticks _ _ _ E2). cbn. lia.
  - destruct C as (_ & [E2 _] & _). pose proof (er_ticks _ _ _ E2). lia.
Qed.

Lemma step_ticks w w' : step opts w w' -> Inv opts w -> (w_ticks w <= w_ticks w')%nat.
Proof.
  intros [b w1|l f w1 Hl|R sp w1 Hf Hu|R id w1|R id w1|R w1|R o key build w1] Hi; [|done| | | | |].
  - destruct (alloc_grown b w1) as [[_ _ _ -> _ _] _]. done.
  - by apply Create_ticks.
  - destruct (Get_cases opts id w1 Hi) as [?|o s w3 Hid Hs Ha E|o s s1 w2 w3 Hid Hs Ha U M He E
      |o s s1 w2 Hid Hs Ha U M He]; [done| | |];
      try (pose proof (er_ticks _ _ _ (proj1 E)) as T);
      try (pose proof (up_ticks _ _ _ _ _ _ U) as T'); cbn in *; lia.
  - by rewrite (er_ticks _ _ _ (proj1 (Delete_evicted id w1 (i_live _ _ Hi)))).
  - destruct (doGC_evicted opts w1 (i_live _ _ Hi)) as [_ [E _]]. rewrite (er_ticks _ _ _ E). cbn. lia.
  - unfold exec. destruct (w_objs w1 !! o) as [s|] eqn:Hs.
    + rewrite (transportFor_run _ _ _ s) by done. destruct (s_transports s !! key); [done|].
      by destruct (build _) as [[rt cl]|e].
    + unfold transportFor. by rewrite deref_none.
Qed.

(** *** What the schedule keeps true *)

(** At the last sweep the session passed [alive], or it was not there yet. *)
Record swept (last : time) (s : Session) : Prop := mkSwept {
  sw_idle : last - s_lastSeen s <= IdleTimeout opts;
  sw_life : last - s_createdAt s <= MaxLifetime opts;
  sw_static : s_refresher s = None -> cr_ExpiresAt (s_credential s) <> 0 ->
    last <= Z.max (cr_ExpiresAt (s_credential s)) (s_createdAt s);
}.

Record run_inv (w : World) (last : time) : Prop := mkRunInv {
  ri_inv : Inv opts w;
  ri_last : last <= reading w;
  ri_swept : forall id o s, w_sessions w !! id = Some o -> w_objs w !! o = Some s -> swept last s;
}.

Lemma alive_swept s t :
  opts_ok opts -> IdleTimeout opts < int64_max -> alive opts s t = true -> swept t s.
Proof.
  intros [? ? ? ?] Hidle. unfold alive, time_After, time_Add, time_IsZero.
  destruct (Z.ltb_spec (s_createdAt s + MaxLifetime opts) t); [done|].
  destruct (_ && _ && _) eqn:E; [done|]. intros Hd%Z.leb_le%time_Sub_le; [|lia].
  split; [lia..|]. intros Hr Hz. rewrite Hr in E. cbn in E.
  destruct (Z.eqb_spec (cr_ExpiresAt (s_credential s)) 0); [done|]. cbn in E. lia.
Qed.

Lemma aged_swept last t s s1 :
  opts_ok opts -> last <= t -> aged t s s1 -> swept last s -> swept last s1.
Proof.
  intros [Hidle _ _ _] Hl [A1 A2 A3 A4] [S1 S2 S3]. split.
  - destruct A3 as [->|]; lia.
  - by rewrite A1.
  - rewrite A1, A2. intros Hr. rewrite (A4 Hr). by apply S3.
Qed.

(** Whether an object is in the map is decided by the map. *)
#[export] Instance live_obj_dec w o : Decision (live_obj w o).
Proof.
  destruct (decide (map_Exists (fun _ o' => o' = o) (w_sessions w))) as [H|H]; [left|right].
  - destruct H as (id & o' & Hid & ->). by exists id.
  - intros [id Hid]. apply H. by exists id, o.
Defined.

Lemma run_inv_call w w' last :
  opts_ok opts -> clock_monotonic -> step opts w w' -> run_inv w last -> run_inv w' last.
Proof.
  intros Hok Hc Hst [Hi Hl Hs]. split; [by apply (Inv_step opts w)| |].
  - etrans; [done|]. by apply Hc, step_ticks.
  - intros id o s1 Hid Ho. destruct (carried_step w w' Hc Hst Hi id o s1 Hid Ho)
      as [(s & H1 & H2 & A)|[Hy He]].
    + apply (aged_swept last (reading w) s); [done..|]. by apply (Hs id o).
    + destruct Hok. split; lia.
Qed.

Lemma run_inv_sweep `{RangeOrder} w last :
  opts_ok opts -> IdleTimeout opts < int64_max -> clock_monotonic ->
  run_inv w last -> run_inv (exec (doGC opts) w) (reading w).
Proof.
  intros Hok Hidle Hc [Hi Hl _]. split; [by apply Inv_doGC| |].
  - apply Hc, (step_ticks w); [by econstructor|done].
  - destruct (doGC_evicted opts w (i_live _ _ Hi)) as [_ E]. intros id o s Hid Ho.
    destruct (evicted_lookup _ _ _ id o s E Hid Ho) as (H1 & H2 & Hn). cbn in H1, H2.
    apply alive_swept; [done..|]. destruct (alive opts s (reading w)) eqn:Ha; [done|]. destruct Hn.
    apply elem_of_objs_of. exists id. split; [|done].
    apply elem_of_gc_expired; [apply Hi|]. exists o. split; [done|]. by exists s.
Qed.

Lemma run_inv_reachable t0 w last :
  opts_ok opts -> IdleTimeout opts < int64_max -> clock_monotonic -> t0 <= reading world0 ->
  rtc run_step (world0, t0) (w, last) -> run_inv w last.
Proof.
  intros Hok Hidle Hc Ht Hr.
  assert (H0 : run_inv (world0, t0).1 (world0, t0).2).
  { split; [by apply Inv_world0|done|]. intros id o s Hid. cbn in Hid. by rewrite lookup_empty in Hid. }
  change (run_inv (w, last).1 (w, last).2). revert H0.
  induction Hr as [|x y z Hxy _ IH]; [done|]. intros Hx. apply IH. clear IH.
  destruct Hxy as [w1 w2 l1 Hst|R w1 l1]; cbn in *; [by apply (run_inv_call w1)|by eapply run_inv_sweep].
Qed.
End Sweep.

(** *** The property *)

(** C3. While the store's operations run one after another, the clock never goes back and the sweep
    keeps to its schedule (and the idle timeout is below Go's longest duration), no credential
    material outlives its use for long: a session object that still holds an array is in the map,
    some request used it within the idle timeout plus one period of the sweep (and what the sweep
    itself takes), it is younger than the lifetime cap plus as much, and if nothing can renew its
    credential, that credential expired at most so long ago. No request is needed for this: an
    abandoned session is erased by the sweep. A [Delete] that overlaps a refresh is outside it:
    [SessionConc] shows that one leaving a token behind. *)
Theorem sweep_bounds_retention `{P : Platform} (o : Options) (slack : duration) (t0 last : time)
    (w : World) (p : nat) (s : Session) :
  let opts := setDefaults o in
  clock_monotonic -> t0 <= reading world0 -> IdleTimeout opts < int64_max ->
  rtc (run_step opts) (world0, t0) (w, last) -> on_schedule slack w last ->
  w_objs w !! p = Some s -> session_locs s <> [] ->
  live_obj w p /\
  reading w - s_lastSeen s <= IdleTimeout opts + (gcPeriod + slack) /\
  reading w - s_createdAt s <= MaxLifetime opts + (gcPeriod + slack) /\
  (s_refresher s = None -> cr_ExpiresAt (s_credential s) <> 0 ->
   reading w <= Z.max (cr_ExpiresAt (s_credential s)) (s_createdAt s) + (gcPeriod + slack)).
Proof.
  intros opts Hc Ht Hidle Hr Hon Hp Hlocs.
  destruct (run_inv_reachable opts t0 w last (setDefaults_ok o) Hidle Hc Ht Hr) as [Hi Hl Hs].
  destruct (decide (live_obj w p)) as [Hlive|Hn].
  - split; [done|]. destruct Hlive as [id Hid]. destruct (Hs id p s Hid Hp) as [S1 S2 S3].
    unfold on_schedule, time_Add in Hon. split_and!; [lia..|]. intros Hr' Hz. specialize (S3 Hr' Hz). lia.
  - by destruct Hlocs, (i_dead _ _ Hi p s Hp).
Qed.

Import Demo.

Lemma run_calls `{P : Platform} opts w w' last :
  rtc (step opts) w w' -> rtc (run_step opts) (w, last) (w', last).
Proof. apply (rtc_congruence (fun w => (w, last))). intros. by apply run_call. Qed.

Lemma demo_monotonic : clock_monotonic.
Proof. intros i j Hij. cbn. unfold demo_now, Second. lia. Qed.

(** Alice's session after a sweep that finds it alive. *)
Definition w_swept : World := exec (doGC demo_opts) w_alice.

Lemma sweep_bounds_retention_witness :
  exists s, w_objs w_swept !! 2%nat = Some s /\ session_locs s = [0%nat; 1%nat] /\
    live_obj w_swept 2 /\ reading w_swept - s_lastSeen s <= 31 * Minute.
Proof.
  assert (Hb : match w_objs w_swept !! 2%nat with
               | Some s => bool_decide (session_locs s = [0%nat; 1%nat])
               | None => false end = true) by (vm_compute; reflexivity).
  destruct (w_objs w_swept !! 2%nat) as [s|] eqn:Hs; [|done].
  apply bool_decide_eq_true in Hb. exists s. split; [done|]. split; [done|].
  assert (Ht : w_ticks w_alice = 1%nat /\ w_ticks w_swept = 2%nat) by (split; vm_compute; reflexivity).
  destruct Ht as [T1 T2].
  destruct (sweep_bounds_retention (mkOptions 0 0 2 1) 0 (demo_now 0) (reading w_alice) w_swept 2 s)
    as (Hlive & Hseen & _); [apply demo_monotonic|done|done| | |exact Hs|by rewrite Hb|].
  - eapply rtc_r; [apply run_calls, reachable_alice|]. apply run_sweep.
  - unfold on_schedule, reading. rewrite T1, T2. by vm_compute.
  - split; [done|]. etrans; [exact Hseen|]. by vm_compute.
Defined.
