(* ===== verification/SessionUse.v ===== *)
(** * What the calls of others do to one session

    The store serves many sessions; here one session is followed through any sequence of calls on
    it and on the others: the calls that leave its transports alone ([call]), the transports that
    are built for it ([fstep]), and what stays true of a session that nothing can renew, for as long
    as it is in the map ([kept]). *)
From S2P Require Import Prelude.
From S2P Require Import Session.
From S2P Require Import SessionStore.
From S2P Require Import SessionFacts.
From S2P Require Import SessionOps.
From S2P Require Import SessionRefresh.
From S2P Require Import SessionInv.
From S2P Require Import SessionSweep.

Section Use.
Context `{P : Platform}.
Context (opts : Options).
Implicit Types (w : World) (s : Session) (o : nat) (id : string).

(** ** Calls that build no transport *)

Inductive call : World -> World -> Prop :=
| call_alloc b w : call w (exec (alloc b) w)
| call_write l f w :
    (forall o s, w_objs w !! o = Some s -> l ∉ session_locs s) -> call w (set_mem (alter f l) w)
| call_Create (R : RangeOrder) sp w :
    spec_fresh sp w -> id_unused w -> call w (exec (Create opts sp) w)
| call_Get (R : RangeOrder) id w : call w (exec (Get opts id) w)
| call_Delete (R : RangeOrder) id w : call w (exec (Delete id) w)
| call_doGC (R : RangeOrder) w : call w (exec (doGC opts) w).

Lemma call_step w w' : call w w' -> step opts w w'.
Proof. destruct 1; by econstructor. Qed.

(** Every operation that is not a [TransportFor] evicts sessions, publishes one, or updates one. *)
Inductive call_case (w w' : World) : Prop :=
| cc_same : w_objs w' = w_objs w -> w_sessions w' = w_sessions w ->
    (forall o s l, w_objs w !! o = Some s -> l ∈ session_locs s -> w_mem w' !! l = w_mem w !! l) ->
    call_case w w'
| cc_evicted D w0 : w_objs w0 = w_objs w -> w_sessions w0 = w_sessions w -> w_mem w0 = w_mem w ->
    evicted D w0 w' -> call_case w w'
| cc_created D w0 w1 id t sp : w_objs w0 = w_objs w -> w_sessions w0 = w_sessions w -> w_mem w0 = w_mem w ->
    w_brk w0 = w_brk w -> evicted D w0 w1 -> w' = publish id (new_session opts id t sp) w1 -> call_case w w'
| cc_served id o s s1 w1 : w_sessions w !! id = Some o -> w_objs w !! o = Some s ->
    updated opts o s s1 (exec now w) w1 -> maybe_result opts s s1 (clock_Now (w_ticks w)) (exec now w) w1 ->
    w' = with_obj o (s_set_lastSeen (clock_Now (S (w_ticks w1))) s1) [] (exec now (exec now w1)) -> call_case w w'
| cc_expired id o s s1 w1 : w_sessions w !! id = Some o -> w_objs w !! o = Some s ->
    updated opts o s s1 (exec now w) w1 -> evicted [o] (exec now w1) w' -> call_case w w'.

Lemma call_cases w w' : Inv opts w -> call w w' -> call_case w w'.
Proof.
  intros Hi Hc. revert Hi. destruct Hc as [b w1|l f w1 Hl|R sp w1 Hf Hu|R id w1|R id w1|R w1]; intros Hi.
  - destruct (alloc_grown b w1) as [[Eo Es _ _ Em _] _]. apply cc_same; [done..|].
    intros o s l Hs Hl. apply Em, (i_mem _ _ Hi l), (i_locs _ _ Hi o s Hs l Hl).
  - apply cc_same; [done..|]. intros o s l' Hs Hl'. cbn. apply lookup_alter_ne. intros ->. by apply (Hl o s).
  - pose proof (Create_spec opts sp w1 Hi) as C. cbn zeta in C. set (w0 := exec now _) in C.
    destruct (rand_Read (w_draws w1) sessionIDBytes) as [b|e]; [|destruct C as [_ ->]; by apply cc_same].
    destruct C as (w2 & E1 & C). destruct (eval (Create opts sp) w1) as [o|e].
    + destruct C as (w3 & D & (E2 & _) & _ & ->). eapply (cc_created _ _ _ w0 w3); [done..| |done].
      by eapply evicted_trans.
    + destruct C as (_ & E2 & _). eapply (cc_evicted _ _ _ w0); [done..|]. by eapply evicted_trans.
  - destruct (Get_cases opts id w1 Hi) as [?|o s w' Hid Hs Ha E|o s s1 w2 w' Hid Hs Ha U M He E
      |o s s1 w2 Hid Hs Ha U M He].
    + by apply cc_same.
    + by eapply (cc_evicted _ _ [o] (exec now w1)).
    + by eapply (cc_expired _ _ id o s s1 w2).
    + by eapply (cc_served _ _ id o s s1 w2).
  - eapply (cc_evicted _ _ _ w1); [done..|]. eapply Delete_evicted, i_live, Hi.
  - destruct (doGC_evicted opts w1 (i_live _ _ Hi)) as [_ E]. by eapply (cc_evicted _ _ _ (exec now w1)).
Qed.

(** What a renewal leaves of the cached transports: all of them, or none. *)
Lemma maybe_transports o s s1 t w w1 :
  updated opts o s s1 w w1 -> maybe_result opts s s1 t w w1 ->
  s_transports s1 = s_transports s \/ s_transports s1 = ∅.
Proof.
  intros U. unfold maybe_result. destruct (needsRefresh _ _ _); [|intros [-> _]; by left].
  intros (out & _ & R). destruct (s_refresher s) as [r|]; [|destruct R as (_ & [-> _] & _); by left].
  destruct (needsRefresh _ _ _); [|destruct R as (_ & [-> _] & _); by left].
  destruct R as [_ R]. destruct (refresher_Refresh _ _ _) as [[v nt]|e].
  - destruct R as (_ & c & tok & -> & _). by right.
  - destruct R as [_ [-> _]]. by left.
Qed.

(** A call caches no transport. *)
Lemma call_transports w w' o s' k c :
  Inv opts w -> call w w' -> w_objs w' !! o = Some s' -> s_transports s' !! k = Some c ->
  exists s, w_objs w !! o = Some s /\ s_transports s !! k = Some c.
Proof.
  intros Hi Hc Hs' Hk.
  assert (Hev : forall D u u' s2, evicted D u u' -> w_objs u' !! o = Some s2 -> s_transports s2 !! k = Some c ->
            exists s, w_objs u !! o = Some s /\ s_transports s !! k = Some c).
  { intros D u u' s2 [E _] Hs2 Hk2. rewrite (er_objs _ _ _ E) in Hs2. destruct (w_objs u !! o) as [s|]; [|done].
    exists s. split; [done|]. case_decide; simplify_eq/=; done. }
  destruct (call_cases w w' Hi Hc) as [Eo _ _|D w0 Eo _ _ E|D w0 w1 id t sp Eo _ _ Eb E ->
    |id o' s s1 w1 Hid Hs U M ->|id o' s s1 w1 Hid Hs U E].
  - rewrite Eo in Hs'. by exists s'.
  - rewrite <- Eo. by eapply Hev.
  - cbn [publish w_objs] in Hs'. apply lookup_insert_Some in Hs' as [[_ <-]|[_ Hs']]; [done|].
    rewrite <- Eo. by eapply Hev.
  - cbn in Hs'. rewrite (up_objs _ _ _ _ _ _ U) in Hs'. cbn in Hs'. destruct (decide (o = o')) as [->|Hne].
    + rewrite lookup_insert_eq in Hs'. injection Hs' as <-. exists s. split; [done|]. cbn in Hk.
      destruct (maybe_transports _ _ _ _ _ _ U M) as [<-|E]; [done|by rewrite E in Hk].
    + rewrite !lookup_insert_ne in Hs' by done. by exists s'.
  - destruct (Hev _ _ _ _ E Hs' Hk) as (s2 & Hs2 & Hk2). cbn in Hs2.
    rewrite (up_objs _ _ _ _ _ _ U) in Hs2. cbn in Hs2. destruct (decide (o = o')) as [->|Hne].
    + destruct E as [E _]. rewrite (er_objs _ _ _ E), decide_True in Hs' by by left.
      cbn in Hs'. rewrite (up_objs _ _ _ _ _ _ U) in Hs'. rewrite lookup_insert_eq in Hs'. by simplify_eq/=.
    + rewrite lookup_insert_ne in Hs2 by done. by exists s2.
Qed.

(** Nor does building one for one key cache one for another. *)
Lemma transportFor_transports `{RangeOrder} o' key build w o s' k c :
  w_objs (exec (transportFor o' key build) w) !! o = Some s' -> s_transports s' !! k = Some c ->
  exists s, w_objs w !! o = Some s /\
    (s_transports s !! k = Some c \/
     k = key /\ o = o' /\ exists cl, build (credential_val (w_mem w) (s_credential s)) = Ok (ct_rt c, cl)).
Proof.
  unfold exec. intros Hs' Hk. destruct (w_objs w !! o') as [s|] eqn:Hs.
  2:{ unfold transportFor in Hs'. rewrite deref_none in Hs' by done. eauto. }
  rewrite (transportFor_run _ _ _ s) in Hs' by done.
  assert (Hdel : forall k l m, delete_keys l m !! k = Some c -> (m : gmap string cachedTransport) !! k = Some c).
  { intros k' l m. rewrite delete_keys_lookup. by case_decide. }
  destruct (s_transports s !! key) eqn:Hkey; [eauto|].
  destruct (build _) as [[rt cl]|e] eqn:Hb; cbn [snd with_obj w_objs] in Hs';
    (apply lookup_insert_Some in Hs' as [[<- <-]|[Hne Hs']]; [|eauto]); exists s; (split; [done|]); cbn in Hk.
  - apply lookup_insert_Some in Hk as [[<- <-]|[_ Hk]]; [|left; by eapply Hdel]. right. split_and!; eauto.
  - left. by eapply Hdel.
Qed.

(** ** One session that nothing can renew *)

Lemma credential_val_ext (m m' : gmap nat string) c :
  (forall l, l ∈ cred_locs c -> m' !! l = m !! l) -> credential_val m' c = credential_val m c.
Proof.
  intros Hm. assert (Hb : forall b, (forall l, b = Some l -> l ∈ cred_locs c) -> slice_bytes m' b = slice_bytes m b).
  { intros [l|] Hl; [|done]. cbn. by rewrite Hm by by apply Hl. }
  unfold credential_val. rewrite !Hb; [done|..]; intros l Hl; rewrite elem_of_cred_locs; tauto.
Qed.

(** The calls of a server in which the transports under [key] are built by [build]. *)
Inductive fstep (key : string) (build : CredVal -> result string (RoundTripper * option Cleanup)) : World -> World -> Prop :=
| fs_call w w' : call w w' -> fstep key build w w'
| fs_transport (R : RangeOrder) o key' build' w :
    (key' = key -> build' = build) -> fstep key build w (exec (transportFor o key' build') w).

Lemma fstep_step key build w w' : fstep key build w w' -> step opts w w'.
Proof. intros [? ? Hc|R o key' build' w1 _]; [by apply call_step|by econstructor]. Qed.

Section One.
Context (id : string) (o : nat) (s0 : Session) (v : CredVal) (n0 : nat).
Context (key : string) (build : CredVal -> result string (RoundTripper * option Cleanup)).
Context (Hok : opts_ok opts) (Hstatic : s_refresher s0 = None).

(** [s] is the session [s0], seen again perhaps, with a transport built from [v] if it has one. *)
Record follows (w : World) (s : Session) : Prop := mkFollows {
  fo_shape : s = s_set_lastSeen (s_lastSeen s) (s_upd_transports (fun _ => s_transports s) s0);
  fo_val : credential_val (w_mem w) (s_credential s0) = v;
  fo_built : forall c, s_transports s !! key = Some c -> exists cl, build v = Ok (ct_rt c, cl);
  fo_seen : s_lastSeen s = s_lastSeen s0 \/ exists i, (n0 <= i < w_ticks w)%nat /\ s_lastSeen s = clock_Now i;
}.

Record followed (w : World) : Prop := mkFollowed {
  fd_inv : Inv opts w;
  fd_ticks : (n0 <= w_ticks w)%nat;
  fd_obj : is_Some (w_objs w !! o);
  fd_live : w_sessions w !! id = Some o -> exists s, w_objs w !! o = Some s /\ follows w s;
}.

Lemma follows_credential w s : follows w s -> s_credential s = s_credential s0.
Proof. intros F. by rewrite (fo_shape _ _ F). Qed.

Lemma follows_createdAt w s : follows w s -> s_createdAt s = s_createdAt s0.
Proof. intros F. by rewrite (fo_shape _ _ F). Qed.

Lemma follows_refresher w s : follows w s -> s_refresher s = None.
Proof. intros F. by rewrite (fo_shape _ _ F). Qed.

Lemma follows_frame w w' s :
  (w_ticks w <= w_ticks w')%nat -> (forall l, l ∈ session_locs s -> w_mem w' !! l = w_mem w !! l) ->
  follows w s -> follows w' s.
Proof.
  intros Ht Hm F. pose proof (follows_credential w s F) as Ec. destruct F as [F1 F2 F3 F4]. split; try done.
  - rewrite <- F2. apply credential_val_ext. intros l Hl. apply Hm, elem_of_session_locs. left. by rewrite Ec.
  - destruct F4 as [?|(i & ? & ?)]; [by left|right]. exists i. split; [lia|done].
Qed.

Lemma evicted_frame D w w0 w' s :
  Inv opts w -> w_objs w0 = w_objs w -> w_sessions w0 = w_sessions w -> w_mem w0 = w_mem w -> evicted D w0 w' ->
  w_sessions w' !! id = Some o -> w_objs w !! o = Some s ->
  w_sessions w !! id = Some o /\ w_objs w' !! o = Some s /\
  (forall l, l ∈ session_locs s -> w_mem w' !! l = w_mem w !! l).
Proof.
  intros Hi Eo Es Em [E S] [Hid HD]%S Hs. rewrite Es in Hid. split; [done|].
  split; [by rewrite (er_objs _ _ _ E), Eo, decide_False, option_fmap_id|].
  intros l Hl. rewrite (er_mem _ _ _ E), Em, decide_False, option_fmap_id; [done|].
  intros (o' & s' & HD' & Hs' & Hl')%elem_of_locs_of. rewrite Eo in Hs'.
  by rewrite (i_disj _ _ Hi o o' s s' l Hs Hs' Hl Hl') in HD.
Qed.

Lemma evicted_obj D w0 w' : evicted D w0 w' -> is_Some (w_objs w0 !! o) -> is_Some (w_objs w' !! o).
Proof. intros [E _] H. by rewrite (er_objs _ _ _ E), fmap_is_Some. Qed.

(** An object is never freed. *)
Lemma call_obj w w' : Inv opts w -> call w w' -> is_Some (w_objs w !! o) -> is_Some (w_objs w' !! o).
Proof.
  intros Hi Hc [s Hs]. destruct (call_cases w w' Hi Hc) as [Eo _ _|D w0 Eo _ _ E|D w0 w1 id' t sp Eo _ _ Eb E ->
    |id' o' s' s1 w1 Hid Hs' U M ->|id' o' s' s1 w1 Hid Hs' U E].
  - rewrite Eo. by exists s.
  - eapply evicted_obj; [done|]. rewrite Eo. by exists s.
  - cbn [publish w_objs]. apply lookup_insert_is_Some. destruct (decide (w_brk w1 = o)); [by left|right].
    split; [done|]. eapply evicted_obj; [done|]. rewrite Eo. by exists s.
  - cbn. rewrite (up_objs _ _ _ _ _ _ U). cbn. rewrite !lookup_insert_is_Some. destruct (decide (o' = o)); eauto.
  - eapply evicted_obj; [done|]. cbn. rewrite (up_objs _ _ _ _ _ _ U). cbn. rewrite lookup_insert_is_Some.
    destruct (decide (o' = o)); eauto.
Qed.

(** A session is not touched by what a [Get] does to another one. *)
Lemma updated_frame o' s s' s1 w w1 :
  Inv opts w -> updated opts o' s' s1 (exec now w) w1 -> o' <> o -> w_objs w !! o = Some s ->
  w_objs w1 !! o = Some s /\ (forall l, l ∈ session_locs s -> w_mem w1 !! l = w_mem w !! l).
Proof.
  intros Hi U Hne Hs. pose proof (up_lookup _ _ _ _ _ _ U) as Hs'. cbn in Hs'. split.
  - rewrite (up_objs _ _ _ _ _ _ U). by rewrite lookup_insert_ne.
  - intros l Hl. rewrite (up_mem _ _ _ _ _ _ U); [done|..].
    + by apply (i_mem _ _ Hi l), (i_locs _ _ Hi o s Hs l Hl).
    + intros Hl'. by apply Hne, (i_disj _ _ Hi o' o s' s l).
Qed.

(** The session a [Get] serves is only seen. *)
Lemma served_follows s s1 w w1 :
  (n0 <= w_ticks w)%nat -> follows w s -> maybe_result opts s s1 (clock_Now (w_ticks w)) (exec now w) w1 ->
  follows (with_obj o (s_set_lastSeen (clock_Now (S (w_ticks w1))) s1) [] (exec now (exec now w1)))
    (s_set_lastSeen (clock_Now (S (w_ticks w1))) s1).
Proof.
  intros Hn F M. pose proof (follows_refresher w s F) as Hr. pose proof (maybe_static _ _ _ _ _ _ M Hr) as ->.
  assert (w1 = exec now w) as -> by (unfold maybe_result, needsRefresh in M; rewrite Hr in M; by destruct M).
  destruct F as [F1 F2 F3 F4]. split; [by rewrite F1|done|done|].
  right. eexists. split; [|reflexivity]. cbn. lia.
Qed.

Lemma followed_call w w' : call w w' -> followed w -> followed w'.
Proof.
  intros Hc [Hi Hn Hobj Hlive]. pose proof (call_step _ _ Hc) as Hst.
  pose proof (step_ticks opts _ _ Hst Hi) as Ht.
  split; [by apply (Inv_step opts w)|lia|by apply (call_obj w)|]. intros Hid'.
  assert (Hkeep : forall s, w_sessions w !! id = Some o -> w_objs w !! o = Some s -> w_objs w' !! o = Some s ->
            (forall l, l ∈ session_locs s -> w_mem w' !! l = w_mem w !! l) ->
            exists s', w_objs w' !! o = Some s' /\ follows w' s').
  { intros s Hid Hs Hs' Hm. destruct (Hlive Hid) as (s2 & Hs2 & F). rewrite Hs in Hs2. injection Hs2 as <-.
    exists s. split; [done|]. by apply (follows_frame w). }
  destruct Hobj as [s Hs]. destruct (call_cases w w' Hi Hc) as [Eo Es Hm|D w0 Eo Es Em E|D w0 w1 id' t sp Eo Es Em Eb E ->
    |id' o' s' s1 w1 Hid Hs' U M ->|id' o' s' s1 w1 Hid Hs' U E].
  - apply (Hkeep s); [by rewrite <- Es|done|by rewrite Eo|]. intros l. by apply (Hm o).
  - destruct (evicted_frame D w w0 w' s Hi Eo Es Em E Hid' Hs) as (? & ? & ?). by apply (Hkeep s).
  - pose proof (i_objs _ _ Hi o s Hs) as Hlt.
    assert (Hb : w_brk w1 <> o) by (rewrite (er_brk _ _ _ (proj1 E)), Eb; lia).
    cbn [publish w_sessions] in Hid'. apply lookup_insert_Some in Hid' as [[_ ?]|[_ Hid']]; [done|].
    destruct (evicted_frame D w w0 w1 s Hi Eo Es Em E Hid' Hs) as (? & ? & ?). apply (Hkeep s); [done..| |done].
    cbn [publish w_objs]. by rewrite lookup_insert_ne.
  - cbn in Hid'. rewrite (up_sessions _ _ _ _ _ _ U) in Hid'. destruct (decide (o' = o)) as [->|Hne].
    + destruct (Hlive Hid') as (s2 & Hs2 & F). rewrite Hs' in Hs2. injection Hs2 as <-.
      eexists. split; [apply lookup_insert_eq|]. by apply (served_follows s' s1 w w1).
    + destruct (updated_frame o' s s' s1 w w1 Hi U Hne Hs) as [Hs1 Hm]. apply (Hkeep s); [done..| |done].
      cbn. by rewrite lookup_insert_ne.
  - destruct (proj1 (proj2 E id o) Hid') as [Hid2 HD]. cbn in Hid2. rewrite (up_sessions _ _ _ _ _ _ U) in Hid2.
    assert (Hne : o' <> o) by set_solver. destruct (updated_frame o' s s' s1 w w1 Hi U Hne Hs) as [Hs1 Hm].
    assert (Hi1 : Inv opts (exec now w1)).
    { apply Inv_now, (Inv_updated opts _ _ _ _ _ U); [left; by exists id'|by apply Inv_now]. }
    destruct (evicted_frame [o'] (exec now w1) (exec now w1) w' s Hi1 eq_refl eq_refl eq_refl E Hid' Hs1) as (_ & Hs2 & Hm2).
    apply (Hkeep s); [done..|]. intros l Hl. by rewrite Hm2, <- Hm.
Qed.

Lemma followed_transport `{RangeOrder} o' key' build' w :
  (key' = key -> build' = build) -> followed w -> followed (exec (transportFor o' key' build') w).
Proof.
  intros Hkey [Hi Hn Hobj Hlive]. set (w' := exec _ w).
  assert (Hst : step opts w w') by by econstructor.
  pose proof (step_ticks opts _ _ Hst Hi) as Ht.
  assert (G : w_sessions w' = w_sessions w /\ w_mem w' = w_mem w /\ forall s, w_objs w !! o = Some s ->
            exists m, w_objs w' !! o = Some (s_upd_transports (fun _ => m) s)).
  { unfold w', exec. assert (Hs0 : forall s, w_objs w !! o = Some s ->
      exists m, w_objs w !! o = Some (s_upd_transports (fun _ => m) s)).
    { intros s Hs. exists (s_transports s). rewrite Hs. by destruct s. }
    destruct (w_objs w !! o') as [s'|] eqn:Hs'.
    2:{ unfold transportFor. by rewrite deref_none. }
    rewrite (transportFor_run _ _ _ s') by done. destruct (s_transports s' !! key'); [done|].
    destruct (build' _) as [[rt cl]|e]; (split; [done|]; split; [done|]); intros s Hs; cbn;
      (destruct (decide (o' = o)) as [->|]; [rewrite lookup_insert_eq; simplify_eq; by eexists|
       rewrite lookup_insert_ne by done; by apply Hs0]). }
  destruct G as (Es & Em & Eo). split; [by apply (Inv_step opts w)|lia| |].
  - destruct Hobj as [s Hs]. destruct (Eo s Hs) as [m ->]. by eexists.
  - rewrite Es. intros Hid. destruct (Hlive Hid) as (s & Hs & F). destruct (Eo s Hs) as [m Hs'].
    eexists. split; [exact Hs'|]. destruct F as [F1 F2 F3 F4]. split.
    + by rewrite F1.
    + by rewrite Em.
    + intros c Hc. destruct (transportFor_transports o' key' build' w o _ key c Hs' Hc) as (s2 & Hs2 & [Hk|(<- & _ & cl & Hb)]).
      * rewrite Hs in Hs2. injection Hs2 as <-. by apply F3.
      * rewrite Hs in Hs2. injection Hs2 as <-. exists cl. rewrite <- F2, <- Hkey by done. by rewrite F1 in Hb.
    + cbn. destruct F4 as [?|(i & ? & ?)]; [by left|right]. exists i. split; [lia|done].
Qed.

Lemma followed_run w w' : rtc (fstep key build) w w' -> followed w -> followed w'.
Proof.
  induction 1 as [|x y z Hxy _ IH]; [done|]. intros Hx. apply IH.
  destruct Hxy as [x y Hc|R o' key' build' x Hkey]; [by apply (followed_call x)|by apply followed_transport].
Qed.
End One.
End Use.
