(* ===== verification/SessionConc.v ===== *)
(** * Concurrent requests on one session

    [Get] and [Delete] hold no lock for their whole body. Here they are cut at the points where a
    lock is taken or released, one program counter per critical section, and threads interleave
    freely; the only lock held across sections is a session's [refreshMutex]. The file shows that
    this cut is faithful (a thread that runs alone computes [Get]), that a refresh is single-flight
    per session, that the locking cannot deadlock, and that a [Delete] which runs while a refresh
    is in flight is undone by it. *)
From S2P Require Import Prelude.
From S2P Require Import Session.
From S2P Require Import SessionStore.
From S2P Require Import SessionFacts.
From S2P Require Import SessionOps.
From S2P Require Import SessionInv.
From S2P Require Import SessionProps.

Section Conc.
Context `{P : Platform}.
Context (opts : Options).

Definition answer : Type := result store_error nat.

(** Where a thread is. [Remove] and [Erase] are the two sections of [Delete]; they end with the
    answer the thread returns ([None] for a plain [Delete]). *)
Inductive pc :=
| Lookup (id : string)
| CheckAlive (id : string) (o : nat)
| CheckNeeds (id : string) (o : nat) (t : time)
| Acquire (id : string) (o : nat)
| Recheck (id : string) (o : nat)
| CopyToken (id : string) (o : nat)
| CallProvider (id : string) (o : nat) (tok : slice)
| Apply (id : string) (o : nat) (tok : slice) (c : Credential) (newTok : slice)
| Unlock (id : string) (o : nat) (tok : slice)
| CheckExpired (id : string) (o : nat)
| Touch (id : string) (o : nat)
| Remove (id : string) (a : option answer)
| Erase (o : nat) (a : option answer)
| Done (a : option answer).

(** One critical section. *)
Definition pc_step `{RangeOrder} (p : pc) : ST World pc :=
  match p with
  | Lookup id =>
      found ← lookup_session id;
      mret (match found with
            | Some o => CheckAlive id o
            | None => Done (Some (Err ErrNotFound))
            end)
  | CheckAlive id o =>
      t ← now;
      deref o (Done (Some (Err ErrNotFound))) (fun s =>
        mret (if negb (alive opts s t) then Remove id (Some (Err ErrExpired)) else CheckNeeds id o t))
  | CheckNeeds id o t =>
      deref o (CheckExpired id o) (fun s =>
        mret (if negb (needsRefresh s t refreshWindow) then CheckExpired id o else Acquire id o))
  | Acquire id o => mret (Recheck id o)
  | Recheck id o =>
      t ← now;
      deref o (Unlock id o None) (fun s =>
        mret (if negb (needsRefresh s t refreshWindow) then Unlock id o None else CopyToken id o))
  | CopyToken id o =>
      deref o (Unlock id o None) (fun s =>
        tok ← refreshTokenCopy s;
        mret (CallProvider id o tok))
  | CallProvider id o tok =>
      deref o (Unlock id o tok) (fun s =>
        match s_refresher s with
        | None => mret (Unlock id o tok)
        | Some r =>
            res ← callRefresher r tok;
            mret (match res with
                  | Err _ => Unlock id o tok
                  | Ok (c, newTok) => Apply id o tok c newTok
                  end)
        end)
  | Apply id o tok c newTok => applyRefresh opts o c newTok;; mret (Unlock id o tok)
  | Unlock id o tok => zeroBytes tok;; mret (CheckExpired id o)
  | CheckExpired id o =>
      t ← now;
      deref o (Done (Some (Err ErrNotFound))) (fun s =>
        mret (if credentialExpired s t then Remove id (Some (Err ErrExpired)) else Touch id o))
  | Touch id o =>
      t ← now;
      upd o (s_set_lastSeen t);;
      mret (Done (Some (Ok o)))
  | Remove id a =>
      found ← lookup_session id;
      modify (set_sessions (delete id));;
      mret (match found with Some o => Erase o a | None => Done a end)
  | Erase o a => Session_zero o;; mret (Done a)
  | Done a => mret (Done a)
  end.

(** The session whose [refreshMutex] a thread holds. *)
Definition holds (p : pc) : option nat :=
  match p with
  | Recheck _ o | CopyToken _ o | CallProvider _ o _ | Apply _ o _ _ _ | Unlock _ o _ => Some o
  | _ => None
  end.

Definition waits_for (p : pc) : option nat :=
  match p with Acquire _ o => Some o | _ => None end.

Definition finished (p : pc) : bool :=
  match p with Done _ => true | _ => false end.

Record Config := mkConfig {
  c_world : World;
  c_mutex : gmap nat nat;
  c_threads : gmap nat pc;
}.

(** The owner of each mutex after thread [i] went from [p] to its next section. *)
Definition mutex_after (i : nat) (p : pc) (m : gmap nat nat) : gmap nat nat :=
  match p with
  | Acquire _ o => <[o := i]> m
  | Unlock _ o _ => delete o m
  | _ => m
  end.

Definition blocked (p : pc) (m : gmap nat nat) : bool :=
  match waits_for p with
  | Some o => bool_decide (is_Some (m !! o))
  | None => false
  end.

(** Thread [i] runs its next critical section; [None] when it is finished or waits for a lock. *)
Definition advance `{RangeOrder} (i : nat) (c : Config) : option Config :=
  match c_threads c !! i with
  | None => None
  | Some p =>
      if finished p || blocked p (c_mutex c) then None
      else
        let '(p', w') := pc_step p (c_world c) in
        Some (mkConfig w' (mutex_after i p (c_mutex c)) (<[i := p']> (c_threads c)))
  end.

Definition is_entry (p : pc) : bool :=
  match p with Lookup _ | Remove _ None => true | _ => false end.

(** A request arrives ([Get] or [Delete]), or a thread runs one section. *)
Inductive cstep : Config -> Config -> Prop :=
| cstep_arrive i p c :
    c_threads c !! i = None -> is_entry p = true ->
    cstep c (mkConfig (c_world c) (c_mutex c) (<[i := p]> (c_threads c)))
| cstep_run (R : RangeOrder) i c c' : advance i c = Some c' -> cstep c c'.

Definition start (w : World) : Config := mkConfig w ∅ ∅.

Fixpoint pc_run `{RangeOrder} (n : nat) (p : pc) : ST World pc :=
  match n with
  | O => mret p
  | S n' => p' ← pc_step p; pc_run n' p'
  end.

(** *** Lock discipline *)

Definition mutex_ok (c : Config) : Prop :=
  forall i o, c_mutex c !! o = Some i <-> exists p, c_threads c !! i = Some p /\ holds p = Some o.

Lemma holds_step `{RangeOrder} p w :
  holds (pc_step p w).1 =
    match p with
    | Acquire _ o => Some o
    | Unlock _ _ _ => None
    | _ => holds p
    end.
Proof.
  destruct p as [id|id o|id o t|id o|id o|id o|id o tok|id o tok c nt|id o tok|id o|id o|id a|o a|a];
    cbn [pc_step holds];
    unfold lookup_session, gets, deref, refreshTokenCopy, modify, gets;
    repeat (rewrite bind_run; cbn [fst snd now w_objs w_sessions w_mem]); try done.
  - by destruct (w_sessions w !! id).
  - destruct (w_objs w !! o) as [s|]; [|done]. by destruct (alive opts s _).
  - destruct (w_objs w !! o) as [s|]; [|done]. by destruct (needsRefresh s _ _).
  - destruct (w_objs w !! o) as [s|]; [|done]. by destruct (needsRefresh s _ _).
  - destruct (w_objs w !! o) as [s|]; [|done]. rewrite !bind_run. by destruct (alloc _ _).
  - destruct (w_objs w !! o) as [s|]; [|done]. destruct (s_refresher s); [|done].
    rewrite bind_run. destruct (callRefresher _ _ _) as [[[]|] ?]; done.
  - by destruct (applyRefresh _ _ _ _ _).
  - by destruct (zeroBytes _ _).
  - destruct (w_objs w !! o) as [s|]; [|done]. by destruct (credentialExpired s _).
  - by destruct (w_sessions w !! id).
  - by destruct (Session_zero _ _).
Qed.

Lemma mutex_ok_step c c' : cstep c c' -> mutex_ok c -> mutex_ok c'.
Proof.
  intros [i p c0 Hi Hp|R i c0 c1 Ha] Hok.
  - intros j o. cbn. rewrite (Hok j o). destruct (decide (j = i)) as [->|Hne].
    + rewrite Hi, lookup_insert_eq. split; [by intros (? & ? & ?)|].
      intros (p' & E & Hh). injection E as <-.
      destruct p; cbn in *; congruence.
    + by rewrite lookup_insert_ne.
  - unfold advance in Ha. destruct (c_threads c0 !! i) as [p|] eqn:Hi; [|done].
    destruct (finished p) eqn:Hf; [done|]. destruct (blocked p (c_mutex c0)) eqn:Hb; [done|].
    cbn [orb] in Ha. pose proof (holds_step p (c_world c0)) as Hh.
    destruct (pc_step p (c_world c0)) as [p' w']. cbn in Hh. injection Ha as <-.
    intros j o. cbn [c_mutex c_threads].
    assert (Hother : j <> i -> c_mutex c0 !! o = Some j <->
      exists q, <[i:=p']> (c_threads c0) !! j = Some q /\ holds q = Some o)
      by (intros; rewrite lookup_insert_ne by done; apply Hok).
    assert (Hself : c_mutex c0 !! o = Some i <-> holds p = Some o).
    { rewrite (Hok i o). split; [by intros (? & ? & ?); simplify_eq|eauto]. }
    assert (Hself' : (exists q, <[i:=p']> (c_threads c0) !! i = Some q /\ holds q = Some o) <->
      holds p' = Some o).
    { rewrite lookup_insert_eq. split; [intros (q & E & Hq); by injection E as <-|eauto]. }
    destruct (decide (j = i)) as [->|Hne].
    + rewrite Hself', Hh. destruct p; cbn [mutex_after holds] in *; try exact Hself.
      * rewrite lookup_insert_Some. split; [intros [[-> _]|[_ E]]|intros [= ->]; by left]; [done|].
        by apply Hself in E.
      * rewrite lookup_delete_Some. split; [|done]. intros [Hn E]. apply Hself in E. by injection E.
    + rewrite <- (Hother Hne). destruct p; cbn [mutex_after]; try done.
      * unfold blocked in Hb. cbn in Hb. apply bool_decide_eq_false in Hb.
        rewrite lookup_insert_Some. split; [intros [[_ E]|[_ E]]|intros E]; [done|done|].
        right. split; [|done]. intros ->. apply Hb. by exists j.
      * rewrite lookup_delete_Some. split; [by intros [_ ?]|]. intros E. split; [|done]. intros ->.
        cbn in Hself. destruct Hself as [_ Hs]. specialize (Hs eq_refl). congruence.
Qed.

Lemma mutex_ok_reachable w c : rtc cstep (start w) c -> mutex_ok c.
Proof.
  intros Hr. assert (H0 : mutex_ok (start w)).
  { intros i o. cbn. rewrite lookup_empty. split; [done|]. intros (p & Hp & _).
    by rewrite lookup_empty in Hp. }
  revert H0. induction Hr as [|x y z Hxy _ IH]; [done|]. intros H0. by apply IH, (mutex_ok_step x).
Qed.

(** C27. A refresh is single-flight: however requests interleave, two threads are never both
    between the lock and the unlock of the same session's refresh mutex, so a session's refresh
    token is never presented to its provider by two calls at once. *)
Theorem refresh_single_flight (w : World) (c : Config) (i j o : nat) (p q : pc) :
  rtc cstep (start w) c ->
  c_threads c !! i = Some p -> c_threads c !! j = Some q ->
  holds p = Some o -> holds q = Some o -> i = j.
Proof.
  intros Hr%mutex_ok_reachable Hi Hj Hp Hq.
  assert (c_mutex c !! o = Some i) by (apply Hr; eauto).
  assert (c_mutex c !! o = Some j) by (apply Hr; eauto). congruence.
Qed.

(** C35. The locking cannot deadlock: as long as some request is unfinished, some thread can run
    its next section. *)
Theorem requests_never_deadlock `{RangeOrder} (w : World) (c : Config) (i : nat) (p : pc) :
  rtc cstep (start w) c ->
  c_threads c !! i = Some p -> finished p = false ->
  exists j c', advance j c = Some c'.
Proof.
  intros Hr%mutex_ok_reachable Hi Hf.
  assert (Hadv : forall j q, c_threads c !! j = Some q -> finished q = false ->
            blocked q (c_mutex c) = false -> exists c', advance j c = Some c').
  { intros j q Hj Hq Hb. unfold advance. rewrite Hj, Hq, Hb. cbn.
    destruct (pc_step q (c_world c)). by eexists. }
  destruct (blocked p (c_mutex c)) eqn:Hb.
  - unfold blocked in Hb. destruct (waits_for p) as [o|]; [|done].
    apply bool_decide_eq_true in Hb as [j Hj]. apply Hr in Hj as (q & Hq & Hh).
    exists j. apply (Hadv j q Hq); destruct q; done.
  - exists i. by apply (Hadv i p).
Qed.

(** *** A thread that runs alone *)

Lemma pc_run_S `{RangeOrder} n p w :
  pc_run (S n) p w = pc_run n (pc_step p w).1 (pc_step p w).2.
Proof. cbn [pc_run]. rewrite bind_run. by destruct (pc_step p w). Qed.

Lemma pc_run_done `{RangeOrder} n a w : pc_run n (Done a) w = (Done a, w).
Proof. induction n as [|n IH]; [done|]. by rewrite pc_run_S. Qed.

Lemma pc_run_delete `{RangeOrder} n id a w :
  pc_run (S (S n)) (Remove id a) w = (Done a, exec (Delete id) w).
Proof.
  rewrite pc_run_S. unfold Delete, exec. cbn [pc_step]. unfold lookup_session, gets, modify.
  repeat (rewrite bind_run; cbn [fst snd]). destruct (w_sessions w !! id) as [o|].
  - rewrite pc_run_S. cbn [pc_step fst snd mret ST_ret]. rewrite bind_run.
    destruct (Session_zero o _) as [[] w']. cbn [fst snd mret ST_ret]. apply pc_run_done.
  - apply pc_run_done.
Qed.

Lemma pc_run_tail `{RangeOrder} id o n w :
  pc_run (3 + n) (CheckExpired id o) w =
    (Done (Some (eval (get_tail id o) w)), exec (get_tail id o) w).
Proof.
  change (3 + n)%nat with (S (S (S n))). rewrite pc_run_S. unfold get_tail, eval, exec. cbn [pc_step].
  unfold deref, gets. repeat (rewrite bind_run; cbn [fst snd now w_objs]).
  destruct (w_objs w !! o) as [s|] eqn:Hs; [|by cbn [mret ST_ret fst snd]; rewrite pc_run_done].
  destruct (credentialExpired s _); cbn [mret ST_ret fst snd].
  - rewrite pc_run_delete, bind_run. unfold exec. by destruct (Delete id _) as [[] ?].
  - rewrite pc_run_S. cbn [pc_step]. repeat (rewrite bind_run; cbn [fst snd now w_objs]).
    destruct (upd o _ _) as [[] ?]. apply pc_run_done.
Qed.

Lemma pc_run_unlock `{RangeOrder} n id o tok w :
  pc_run (S n) (Unlock id o tok) w = pc_run n (CheckExpired id o) (exec (zeroBytes tok) w).
Proof.
  rewrite pc_run_S. cbn [pc_step]. rewrite bind_run. unfold exec. by destruct (zeroBytes tok w) as [[] ?].
Qed.

(** From [Recheck] to the unlock: what [refreshLocked] does. *)
Lemma pc_run_refresh `{RangeOrder} id o w :
  pc_run 8 (Recheck id o) w = 
    (Done (Some (eval (get_tail id o) (exec (refreshLocked opts o) w))),
     exec (get_tail id o) (exec (refreshLocked opts o) w)).
Proof.
  assert (Hun : forall n tok w0, (n <= 3)%nat -> pc_run (4 + n) (Unlock id o tok) w0 =
    (Done (Some (eval (get_tail id o) (exec (zeroBytes tok) w0))),
     exec (get_tail id o) (exec (zeroBytes tok) w0))).
  { intros n tok w0 _. change (4 + n)%nat with (S (3 + n)). by rewrite pc_run_unlock, pc_run_tail. }
  rewrite pc_run_S. cbn [pc_step]. unfold refreshLocked. unfold exec at 1 3.
  repeat (rewrite bind_run; cbn [fst snd now]). set (w0 := mkWorld _ _ _ _ (S _) _ _ _).
  destruct (w_objs w !! o) as [s|] eqn:Hs.
  2:{ rewrite !deref_none by done. cbn [fst snd]. by rewrite (Hun 3%nat). }
  rewrite !(deref_run _ _ _ s w0) by done.
  destruct (needsRefresh s _ refreshWindow) eqn:Hn; cbn [negb mret ST_ret fst snd];
    [|by rewrite (Hun 3%nat)].
  rewrite pc_run_S. cbn [pc_step]. rewrite (deref_run _ _ _ s w0), bind_run by done.
  destruct (s_refresher s) as [r|] eqn:Hr.
  - rewrite bind_run.
    assert (Ho : w_objs (refreshTokenCopy s w0).2 = w_objs w0).
    { unfold refreshTokenCopy, gets. rewrite bind_run. cbn [fst snd]. by destruct (slice_bytes _ _). }
    destruct (refreshTokenCopy s w0) as [tok w1]. cbn [fst snd mret ST_ret] in *.
    rewrite pc_run_S. cbn [pc_step]. rewrite (deref_run _ _ _ s w1), Hr by (by rewrite Ho).
    rewrite !bind_run. destruct (callRefresher r tok w1) as [[[c nt]|e] w2]; cbn [mret ST_ret fst snd].
    + rewrite pc_run_S. cbn [pc_step]. rewrite !bind_run.
      destruct (applyRefresh opts o c nt w2) as [[] w3]. cbn [mret ST_ret fst snd].
      rewrite bind_run, (Hun 0%nat) by lia. unfold exec. by destruct (zeroBytes tok w3) as [[] ?].
    + rewrite !bind_run. cbn [fst snd mret ST_ret].
      rewrite (Hun 1%nat) by lia. unfold exec. rewrite !bind_run. by destruct (zeroBytes tok w2) as [[] ?].
  - unfold needsRefresh in Hn. by rewrite Hr in Hn.
Qed.

(** The cut into critical sections is faithful: a thread that meets no other goes through at
    most twelve of them and computes exactly what [Get] does. *)
Theorem Get_alone `{RangeOrder} (id : string) (w : World) :
  pc_run 12 (Lookup id) w = (Done (Some (eval (Get opts id) w)), exec (Get opts id) w).
Proof.
  rewrite pc_run_S. cbn [pc_step]. unfold Get, eval, exec, lookup_session, gets.
  repeat (rewrite bind_run; cbn [fst snd]).
  destruct (w_sessions w !! id) as [o|]; [|apply pc_run_done]. cbn [mret ST_ret fst snd].
  rewrite pc_run_S. cbn [pc_step]. repeat (rewrite bind_run; cbn [fst snd now]).
  set (w0 := mkWorld _ _ _ _ (S _) _ _ _). set (t := clock_Now (w_ticks w)).
  destruct (w_objs w !! o) as [s|] eqn:Hs.
  2:{ rewrite !deref_none by done. apply pc_run_done. }
  rewrite !(deref_run _ _ _ s w0) by done.
  destruct (alive opts s t); cbn [negb mret ST_ret fst snd].
  - rewrite pc_run_S. cbn [pc_step]. rewrite (deref_run _ _ _ s w0), bind_run by done.
    unfold maybeRefresh. rewrite (deref_run _ _ _ s w0) by done.
    destruct (needsRefresh s t refreshWindow); cbn [negb mret ST_ret fst snd].
    + rewrite pc_run_S. cbn [pc_step mret ST_ret fst snd]. rewrite pc_run_refresh.
      unfold eval, exec. by destruct (refreshLocked opts o w0) as [? ?].
    + by rewrite (pc_run_tail id o 6).
  - rewrite pc_run_delete, bind_run. unfold exec. by destruct (Delete id w0) as [[] ?].
Qed.
End Conc.

(** *** A refresh in flight undoes a [Delete]

    Nothing ties a refresh to the session still being in the store. Alice's [Get] (thread 0) is
    waiting for her provider when her [Delete] (thread 1) removes and erases the session; the
    provider's answer is then installed in the erased session, and the request is served. *)

Import Demo.

Fixpoint run_schedule (l : list nat) (c : Config) : option Config :=
  match l with
  | [] => Some c
  | i :: l' => c' ← advance demo_opts i c; run_schedule l' c'
  end.

Lemma run_schedule_rtc l c c' : run_schedule l c = Some c' -> rtc (cstep demo_opts) c c'.
Proof.
  revert c; induction l as [|i l IH]; intros c H; cbn in H.
  - injection H as <-. apply rtc_refl.
  - destruct (advance demo_opts i c) as [c1|] eqn:E; [|done]. cbn in H.
    eapply rtc_l; [by eapply cstep_run|by apply IH].
Qed.

Definition two_requests : Config :=
  mkConfig w_alice ∅ (<[1%nat := Remove id_alice None]> (<[0%nat := Lookup id_alice]> ∅)).

Lemma two_requests_arrive : rtc (cstep demo_opts) (start w_alice) two_requests.
Proof.
  apply rtc_l with (mkConfig w_alice ∅ (<[0%nat := Lookup id_alice]> ∅)).
  { exact (cstep_arrive demo_opts 0 (Lookup id_alice) (start w_alice) eq_refl eq_refl). }
  apply rtc_once. exact (cstep_arrive demo_opts 1 (Remove id_alice None)
    (mkConfig w_alice ∅ (<[0%nat := Lookup id_alice]> ∅)) eq_refl eq_refl).
Qed.

(** The provider was called, then the session was deleted and erased. *)
Definition schedule_delete : list nat := [0;0;0;0;0;0;0;1;1]%nat.
Definition schedule_finish : list nat := [0;0;0;0]%nat.

Definition done_with (i : nat) (a : option answer) (c : Config) : bool :=
  match c_threads c !! i with
  | Some (Done a') => bool_decide (a' = a)
  | _ => false
  end.

(** The bearer token that the session object holds, if its array is not all zeros. *)
Definition live_token (o : nat) (c : Config) : option string :=
  match w_objs (c_world c) !! o with
  | Some s => b ← slice_bytes (w_mem (c_world c)) (cr_Token (s_credential s));
              if all_zero b then None else Some b
  | None => None
  end.

(** What may happen to a store from then on: requests arrive and run as before, and the sweep runs. *)
Inductive later_step : Config -> Config -> Prop :=
| later_request c c' : cstep demo_opts c c' -> later_step c c'
| later_sweep (R : RangeOrder) c :
    later_step c (mkConfig (exec (doGC demo_opts) (c_world c)) (c_mutex c) (c_threads c)).

(** The pc of a thread that finds nothing in an empty store. *)
Definition lost (p : pc) : bool :=
  match p with Lookup _ | Remove _ _ | Done _ => true | _ => false end.

(** A store that knows no session, and has the objects and the arrays of [w]. *)
Record forgotten (w : World) (c : Config) : Prop := mkForgotten {
  fg_sessions : w_sessions (c_world c) = ∅;
  fg_objs : w_objs (c_world c) = w_objs w;
  fg_mem : w_mem (c_world c) = w_mem w;
  fg_threads : forall i p, c_threads c !! i = Some p -> lost p = true;
}.

Lemma doGC_forgotten `{RangeOrder} w :
  w_sessions w = ∅ ->
  w_sessions (exec (doGC demo_opts) w) = ∅ /\ w_objs (exec (doGC demo_opts) w) = w_objs w /\
  w_mem (exec (doGC demo_opts) w) = w_mem w.
Proof.
  intros Hw. assert (Hwf : wf_live w) by (intros id o Hid; by rewrite Hw, lookup_empty in Hid).
  destruct (doGC_evicted demo_opts w Hwf) as [_ [E S]].
  assert (Hn : gc_expired demo_opts (clock_Now (w_ticks w)) w = []).
  { destruct (gc_expired _ _ w) as [|id l] eqn:Hl; [done|].
    assert (Hin : id ∈ gc_expired demo_opts (clock_Now (w_ticks w)) w) by (rewrite Hl; by left).
    apply elem_of_gc_expired in Hin as (o & Hid & _); [|done]. by rewrite Hw, lookup_empty in Hid. }
  rewrite Hn in E, S. cbn in E, S. split_and!; apply map_eq; intros i.
  - rewrite lookup_empty. destruct (w_sessions _ !! i) as [o|] eqn:Hi; [|done].
    apply S in Hi as [Hi _]. cbn in Hi. by rewrite Hw, lookup_empty in Hi.
  - rewrite (er_objs _ _ _ E), decide_False, option_fmap_id by set_solver. done.
  - rewrite (er_mem _ _ _ E), decide_False, option_fmap_id; [done|].
    intros (o & s & Ho & _)%elem_of_locs_of. set_solver.
Qed.

Lemma forgotten_step w c c' : later_step c c' -> forgotten w c -> forgotten w c'.
Proof.
  intros [c1 c2 [i p c3 Hi Hp|R i c3 c4 Hadv]|R c1] [F1 F2 F3 F4].
  - split; try done. cbn. intros j q [[<- <-]|[_ Hq]]%lookup_insert_Some; [by destruct p|by apply (F4 j)].
  - unfold advance in Hadv. destruct (c_threads c3 !! i) as [p|] eqn:Hi; [|done].
    destruct (finished p || blocked p (c_mutex c3)) eqn:Hb; [done|].
    pose proof (F4 i p Hi) as Hl. assert (Hq : forall q, lost q = true -> forall j q',
      <[i:=q]> (c_threads c3) !! j = Some q' -> lost q' = true).
    { intros q Hq j q' [[<- <-]|[_ Hq']]%lookup_insert_Some; [done|by apply (F4 j)]. }
    destruct p as [id| | | | | | | | | | |id a| |a]; try done; cbn [pc_step] in Hadv;
      unfold lookup_session, gets, modify in Hadv; rewrite bind_run in Hadv; cbn [fst snd] in Hadv;
      rewrite F1, lookup_empty in Hadv.
    + injection Hadv as <-. split; try done; cbn. by apply Hq.
    + rewrite bind_run in Hadv. cbn in Hadv. injection Hadv as <-. split; cbn; try done.
      * by rewrite F1, delete_empty.
      * by apply Hq.
  - destruct (doGC_forgotten (c_world c1) F1) as (E1 & E2 & E3). split; cbn; [done| | |done].
    + by rewrite E2.
    + by rewrite E3.
Qed.

Lemma forgotten_run w c c' : rtc later_step c c' -> forgotten w c -> forgotten w c'.
Proof. induction 1 as [|x y z Hxy _ IH]; [done|]. intros F. by apply IH, (forgotten_step w x). Qed.

(** C40. The contract of [Delete] does not survive a concurrent refresh: there is an interleaving
    in which [Delete] has returned, having taken the session out of the store and erased it, and
    the session afterwards holds a fresh token again, with which [Get] then serves the deleted
    session. From there no [Get], no [Delete] and no sweep, however many there are and however they
    interleave, erases that token: the store no longer knows the session. *)
Theorem delete_undone_by_refresh :
  exists c1 c2, rtc (cstep demo_opts) (start w_alice) c1 /\ rtc (cstep demo_opts) c1 c2 /\
    done_with 1 None c1 = true /\ w_sessions (c_world c1) !! id_alice = None /\
    live_token alice_obj c1 = None /\
    done_with 0 (Some (Ok alice_obj)) c2 = true /\ w_sessions (c_world c2) !! id_alice = None /\
    live_token alice_obj c2 = Some "new-token" /\
    forall c3, rtc later_step c2 c3 -> live_token alice_obj c3 = Some "new-token".
Proof.
  destruct (run_schedule schedule_delete two_requests) as [c1|] eqn:E1.
  2:{ assert (H : bool_decide (is_Some (run_schedule schedule_delete two_requests)) = true)
        by (vm_compute; reflexivity). by rewrite E1 in H. }
  assert (H1 : (match run_schedule schedule_delete two_requests with
    | Some c1 => done_with 1 None c1 && bool_decide (w_sessions (c_world c1) !! id_alice = None)
        && bool_decide (live_token alice_obj c1 = None) &&
        match run_schedule schedule_finish c1 with
        | Some c2 => done_with 0 (Some (Ok alice_obj)) c2 &&
            bool_decide (w_sessions (c_world c2) !! id_alice = None) &&
            bool_decide (live_token alice_obj c2 = Some "new-token") &&
            (bool_decide (w_sessions (c_world c2) = ∅) &&
             bool_decide (map_Forall (fun _ p => lost p = true) (c_threads c2)))
        | None => false
        end
    | None => false end) = true) by (vm_compute; reflexivity).
  rewrite E1 in H1. destruct (run_schedule schedule_finish c1) as [c2|] eqn:E2;
    [|by rewrite andb_false_r in H1].
  rewrite !andb_true_iff, !bool_decide_eq_true in H1.
  destruct H1 as [[[? ?] ?] [[[? ?] Htok] [Hempty Hlost]]]. exists c1, c2.
  split; [etransitivity; [apply two_requests_arrive|by eapply run_schedule_rtc]|].
  split; [by eapply run_schedule_rtc|]. split_and!; try assumption.
  intros c3 Hrun. destruct (forgotten_run (c_world c2) c2 c3 Hrun) as [_ Eo Em _]; [by split|].
  rewrite <- Htok. unfold live_token. by rewrite Eo, Em.
Qed.

(** *** The other properties, on the same interleaving *)

Definition in_flight : Config := default two_requests (run_schedule (take 6 schedule_delete) two_requests).

Lemma in_flight_reachable : rtc (cstep demo_opts) (start w_alice) in_flight.
Proof.
  etransitivity; [apply two_requests_arrive|]. unfold in_flight.
  destruct (run_schedule (take 6 schedule_delete) two_requests) as [c|] eqn:E; [|apply rtc_refl].
  by eapply run_schedule_rtc.
Qed.

Lemma in_flight_holds : exists p, c_threads in_flight !! 0%nat = Some p /\ holds p = Some alice_obj.
Proof.
  assert (H : (match c_threads in_flight !! 0%nat with
    | Some p => bool_decide (holds p = Some alice_obj) | None => false end) = true)
    by (vm_compute; reflexivity).
  destruct (c_threads in_flight !! 0%nat) as [p|]; [|done]. exists p. split; [done|].
  by apply bool_decide_eq_true in H.
Qed.

Lemma second_in_flight : is_Some (c_threads in_flight !! 1%nat).
Proof. apply (bool_decide_eq_true_1 _). vm_compute. reflexivity. Qed.

(** While thread 0 calls the provider, thread 1 is not in the refresh section of that session. *)
Lemma refresh_single_flight_witness :
  (exists p, c_threads in_flight !! 0%nat = Some p /\ holds p = Some alice_obj) /\
  (exists q, c_threads in_flight !! 1%nat = Some q /\ holds q <> Some alice_obj).
Proof.
  split; [apply in_flight_holds|]. destruct second_in_flight as [q Hq]. exists q. split; [exact Hq|].
  intros Hh. destruct in_flight_holds as (p & Hp & Hhp).
  discriminate (refresh_single_flight demo_opts w_alice in_flight 0 1 alice_obj p q
    in_flight_reachable Hp Hq Hhp Hh).
Defined.

Lemma requests_never_deadlock_witness : exists j c', advance demo_opts j two_requests = Some c'.
Proof.
  apply (requests_never_deadlock demo_opts w_alice two_requests 0 (Lookup id_alice)).
  - apply two_requests_arrive.
  - reflexivity.
  - reflexivity.
Defined.
