(* ===== verification/GoStrings.v ===== *)
(** * What the program uses of Go's [strings], [strconv], [fmt] and [time] packages

    Strings are byte strings. Case conversion is exact on ASCII and on the non-ASCII letters whose
    other case is ASCII (U+212A, U+017F, U+0130); any other non-ASCII letter is left as it is: the
    program only compares header keywords, hosts and flow filters. *)
From S2P Require Import Prelude.

Definition ascii_between (lo hi : nat) (c : ascii) : bool :=
  ((lo <=? nat_of_ascii c) && (nat_of_ascii c <=? hi))%nat.

Definition byte (n : nat) : ascii := ascii_of_nat n.

Definition hex_char (n : nat) : ascii := default "0"%char (String.get n "0123456789abcdef").

Definition hex_upper (n : nat) : ascii := default "0"%char (String.get n "0123456789ABCDEF").

Definition lower_ascii (c : ascii) : ascii :=
  if ascii_between 65 90 c then byte (nat_of_ascii c + 32) else c.

(** *** [strconv] and [fmt] *)

(** [%d] of a non-negative integer. *)
Definition digit_char (d : Z) : ascii := byte (Z.to_nat (48 + d)).
Fixpoint itoa_fuel (fuel : nat) (n : Z) (acc : string) : string :=
  match fuel with
  | O => acc
  | S f => if n <? 10 then String (digit_char n) acc
           else itoa_fuel f (n / 10) (String (digit_char (n mod 10)) acc)
  end.
(** Twenty digits are enough for a 64-bit integer. *)
Definition itoa (n : Z) : string := itoa_fuel 20 n "".

(** A number with leading zeros, [w] characters wide. *)
Definition pad0 (w : nat) (n : Z) : string :=
  let s := itoa n in (String.concat "" (repeat "0"%string (w - String.length s)) +:+ s)%string.

(** [%q]: exact on ASCII. A byte above 0x7f is kept, as it is in a printable UTF-8 sequence. *)
Definition quote_char (c : ascii) : string :=
  let n := nat_of_ascii c in
  let esc s := String "\" s in
  if (n =? 34)%nat || (n =? 92)%nat then esc (String c "")
  else match n with
       | 7 => esc "a" | 8 => esc "b" | 12 => esc "f" | 10 => esc "n" | 13 => esc "r" | 9 => esc "t"
       | 11 => esc "v"
       | _ => if (n <? 32)%nat || (n =? 127)%nat then
                esc (String "x" (String (hex_char (n / 16)) (String (hex_char (n mod 16)) "")))
              else String c ""
       end%nat.
Fixpoint quote_body (s : string) : string :=
  match s with
  | EmptyString => EmptyString
  | String c s' => quote_char c +:+ quote_body s'
  end.
Definition quote (s : string) : string := String (byte 34) (quote_body s +:+ String (byte 34) "").

(** *** [time] *)

(** The civil date of a day counted from March 1 of year 0: year, month, day. *)
Definition civil_date (days : Z) : Z * Z * Z :=
  let era := days / 146097 in
  let doe := days mod 146097 in
  let yoe := (doe - doe / 1460 + doe / 36524 - doe / 146096) / 365 in
  let doy := doe - (365 * yoe + yoe / 4 - yoe / 100) in
  let mp := (5 * doy + 2) / 153 in
  let d := doy - (153 * mp + 2) / 5 + 1 in
  let m := if mp <? 10 then mp + 3 else mp - 9 in
  (yoe + era * 400 + (if m <=? 2 then 1 else 0), m, d).

(** [t.UTC().Format(time.RFC3339)], for years 1 to 9999. *)
Definition FormatRFC3339 (t : time) : string :=
  let sec := t / Second in
  let '(y, m, d) := civil_date (sec / 86400 + 306) in
  let s := sec mod 86400 in
  (pad0 4 y +:+ "-" +:+ pad0 2 m +:+ "-" +:+ pad0 2 d +:+ "T" +:+ pad0 2 (s / 3600) +:+ ":" +:+
   pad0 2 (s / 60 mod 60) +:+ ":" +:+ pad0 2 (s mod 60) +:+ "Z")%string.

(** *** [strings] *)

(** [strings.TrimPrefix] and [strings.HasPrefix]. *)
Fixpoint strip_prefix (p s : string) : option string :=
  match p, s with
  | EmptyString, _ => Some s
  | String a p', String b s' => if decide (a = b) then strip_prefix p' s' else None
  | String _ _, EmptyString => None
  end.

Definition strings_HasPrefix (s p : string) : bool :=
  match strip_prefix p s with Some _ => true | None => false end.
Definition strings_TrimPrefix (s p : string) : string := default s (strip_prefix p s).

(** The first rewriting rule of [l] whose left side is a prefix of [s]. *)
Fixpoint first_prefix (l : list (string * string)) (s : string) : option (string * string) :=
  match l with
  | [] => None
  | (p, r) :: l' =>
      match strip_prefix p s with Some rest => Some (r, rest) | None => first_prefix l' s end
  end.

(** Rewrites a string from the left; bytes that no rule covers go through [f]. *)
Fixpoint rewrite_runes (fuel : nat) (l : list (string * string)) (f : ascii -> ascii) (s : string) : string :=
  match fuel, s with
  | O, _ | _, EmptyString => EmptyString
  | S n, String c s' =>
      match first_prefix l s with
      | Some (r, rest) => r +:+ rewrite_runes n l f rest
      | None => String (f c) (rewrite_runes n l f s')
      end
  end.

Definition utf8 (bs : list nat) : string := fold_right (fun n s => String (byte n) s) EmptyString bs.
Definition kelvin : string := utf8 [226; 132; 170]%nat.
Definition long_s : string := utf8 [197; 191]%nat.
Definition dotted_I : string := utf8 [196; 176]%nat.

Definition strings_ToLower (s : string) : string :=
  rewrite_runes (String.length s) [(kelvin, "k"); (dotted_I, "i")] lower_ascii s.

Definition strings_fold (s : string) : string :=
  rewrite_runes (String.length s) [(kelvin, "k"); (long_s, "s")] lower_ascii s.

Definition strings_EqualFold (a b : string) : bool := bool_decide (strings_fold a = strings_fold b).

Fixpoint strings_ContainsByte (s : string) (c : ascii) : bool :=
  match s with
  | EmptyString => false
  | String d s' => if decide (d = c) then true else strings_ContainsByte s' c
  end.

(** [strings.Split] around a one-byte separator. *)
Fixpoint strings_Split (s : string) (sep : ascii) : list string :=
  match s with
  | EmptyString => [EmptyString]
  | String c s' =>
      if decide (c = sep) then EmptyString :: strings_Split s' sep
      else match strings_Split s' sep with
           | p :: l => String c p :: l
           | [] => [String c EmptyString]
           end
  end.

(** Cuts around the last occurrence of a byte. *)
Fixpoint cut_last (s : string) (sep : ascii) : option (string * string) :=
  match s with
  | EmptyString => None
  | String c s' =>
      match cut_last s' sep with
      | Some (a, b) => Some (String c a, b)
      | None => if decide (c = sep) then Some (EmptyString, s') else None
      end
  end.

Fixpoint strings_Join (l : list string) (sep : string) : string :=
  match l with
  | [] => EmptyString
  | [x] => x
  | x :: l' => x +:+ sep +:+ strings_Join l' sep
  end.

Fixpoint string_rev_app (s acc : string) : string :=
  match s with
  | EmptyString => acc
  | String c s' => string_rev_app s' (String c acc)
  end.
Definition string_rev (s : string) : string := string_rev_app s EmptyString.

(** The UTF-8 encodings of the runes for which [unicode.IsSpace] holds. *)
Definition spaces : list string :=
  map utf8 ([[9]; [10]; [11]; [12]; [13]; [32]; [194; 133]; [194; 160]; [225; 154; 128];
    [226; 128; 168]; [226; 128; 169]; [226; 128; 175]; [226; 129; 159]; [227; 128; 128]]%nat
    ++ map (fun n => [226; 128; n]%nat) (seq 128 11)).

Fixpoint trim_left (fuel : nat) (sp : list string) (s : string) : string :=
  match fuel with
  | O => s
  | S n =>
      match first_prefix (map (fun p => (p, EmptyString)) sp) s with
      | Some (_, rest) => trim_left n sp rest
      | None => s
      end
  end.

Definition strings_TrimSpace (s : string) : string :=
  let s1 := trim_left (String.length s) spaces s in
  string_rev (trim_left (String.length s1) (map string_rev spaces) (string_rev s1)).

(** *** Facts *)

Lemma string_app_cons c a b : String c a +:+ b = String c (a +:+ b).
Proof. done. Qed.

#[export] Instance string_app_left_id : LeftId (=) EmptyString String.append.
Proof. done. Qed.
#[export] Instance string_app_right_id : RightId (=) EmptyString String.append.
Proof. intros s; induction s as [|c s IH]; [done|]. by rewrite string_app_cons, IH. Qed.
#[export] Instance string_app_assoc : Assoc (=) String.append.
Proof.
  intros a b c; induction a as [|x a IH]; [done|]. by rewrite !string_app_cons, IH.
Qed.

Lemma length_substring_le n s : (String.length (String.substring 0 n s) <= n)%nat.
Proof. revert n; induction s as [|c s IH]; intros [|n]; cbn; [lia..|]. specialize (IH n). lia. Qed.

Lemma string_length_app a b : String.length (a +:+ b) = (String.length a + String.length b)%nat.
Proof.
  induction a as [|x a IH]; [done|]. rewrite string_app_cons. cbn [String.length]. rewrite IH. lia.
Qed.

Lemma strip_prefix_Some p s r : strip_prefix p s = Some r <-> s = p +:+ r.
Proof.
  revert s; induction p as [|a p IH]; intros s.
  { change (EmptyString +:+ r) with r. cbn [strip_prefix]. destruct s; split; congruence. }
  change (String a p +:+ r) with (String a (p +:+ r)).
  destruct s as [|b s]; cbn [strip_prefix]; [done|].
  case_decide as Hab; [subst|split; congruence]. rewrite IH. split; [by intros ->|by intros [=]].
Qed.

Lemma HasPrefix_true s p : strings_HasPrefix s p = true <-> exists r, s = p +:+ r.
Proof.
  unfold strings_HasPrefix. destruct (strip_prefix p s) as [r|] eqn:E.
  - split; [|done]. intros _. exists r. by apply strip_prefix_Some.
  - split; [done|]. intros [r Hr%strip_prefix_Some]. congruence.
Qed.

Lemma Split_cons s sep : exists p l, strings_Split s sep = p :: l.
Proof.
  induction s as [|c s (p & l & IH)]; cbn [strings_Split]; [by exists EmptyString, []|].
  case_decide; [by eexists _, _|]. rewrite IH. by eexists _, _.
Qed.

Fixpoint string_elem (c : ascii) (s : string) : Prop :=
  match s with EmptyString => False | String d s' => d = c \/ string_elem c s' end.

Lemma ContainsByte_elem s c : strings_ContainsByte s c = true <-> string_elem c s.
Proof.
  induction s as [|d s IH]; cbn [strings_ContainsByte string_elem]; [done|].
  case_decide; [naive_solver|]. rewrite IH. naive_solver.
Qed.

(** Pieces without the separator, joined by it, are split back. *)
Lemma Split_app_sep a b sep :
  strings_ContainsByte a sep = false ->
  strings_Split (a +:+ String sep b) sep = a :: strings_Split b sep.
Proof.
  induction a as [|c a IH]; intros Ha.
  - change (EmptyString +:+ String sep b) with (String sep b). cbn [strings_Split].
    by rewrite decide_True.
  - change (String c a +:+ String sep b) with (String c (a +:+ String sep b)).
    cbn [strings_Split strings_ContainsByte] in *. case_decide; [done|]. by rewrite IH.
Qed.

Lemma Split_no_sep a sep : strings_ContainsByte a sep = false -> strings_Split a sep = [a].
Proof.
  induction a as [|c a IH]; intros Ha; [done|]. cbn [strings_Split strings_ContainsByte] in *.
  case_decide; [done|]. by rewrite IH.
Qed.

Example TrimSpace_ex : strings_TrimSpace "  a b 	" = "a b".
Proof. vm_compute. reflexivity. Qed.
Example Split_ex : strings_Split "a,b,,c" "," = ["a"; "b"; ""; "c"].
Proof. vm_compute. reflexivity. Qed.
Example quote_ex : quote (String (byte 34) "a") = utf8 [34; 92; 34; 97; 34]%nat.
Proof. vm_compute. reflexivity. Qed.
Example FormatRFC3339_ex : FormatRFC3339 (time_Unix 1709164799) = "2024-02-28T23:59:59Z".
Proof. vm_compute. reflexivity. Qed.
Example FormatRFC3339_epoch : FormatRFC3339 0 = "0001-01-01T00:00:00Z".
Proof. vm_compute. reflexivity. Qed.
Example EqualFold_ex : strings_EqualFold "BeArEr" "bearer" = true.
Proof. vm_compute. reflexivity. Qed.

(** *** Sorting ([sort.Strings], [slices.Sort]) *)

Definition sort_Strings (l : list string) : list string := merge_sort String.le l.

Lemma sort_Strings_perm l : sort_Strings l ≡ₚ l.
Proof. apply merge_sort_Permutation. Qed.

Lemma sort_Strings_sorted l : StronglySorted String.le (sort_Strings l).
Proof. apply (StronglySorted_merge_sort String.le). Qed.

(** The order a map is ranged over does not show once its keys are sorted. *)
Lemma sort_Strings_range l1 l2 : l1 ≡ₚ l2 -> sort_Strings l1 = sort_Strings l2.
Proof.
  intros Hp. apply (StronglySorted_unique String.le); [apply sort_Strings_sorted..|].
  by rewrite !sort_Strings_perm.
Qed.
