(* ===== verification/GoUrl.v ===== *)
(** * [url.Parse] of Go 1.26's [net/url]

    The part of the standard library's URL parser that the redirect and origin checks rely on: the
    scheme, the authority with its userinfo and port, and every reason to refuse a URL. Only the
    syntax of IP literals is left to a parameter. *)
From S2P Require Import Prelude.
From S2P Require Import GoStrings.

(** [netip.ParseAddr], reduced to "an address that is not IPv4". *)
Class GoNet := { netip_is_6 : string -> bool }.

Inductive encoding := encodePath | encodeFragment | encodeUserPassword | encodeHost | encodeZone.

Definition is_alpha (c : ascii) : bool := ascii_between 65 90 c || ascii_between 97 122 c.
Definition is_digit (c : ascii) : bool := ascii_between 48 57 c.
Definition is_hex (c : ascii) : bool := is_digit c || ascii_between 65 70 c || ascii_between 97 102 c.
Definition unhex (c : ascii) : nat :=
  if is_digit c then nat_of_ascii c - 48
  else if ascii_between 97 102 c then nat_of_ascii c - 87 else nat_of_ascii c - 55.

Definition is_CTL (c : ascii) : bool := (nat_of_ascii c <? 32)%nat || (nat_of_ascii c =? 127)%nat.

(** [shouldEscape] in the host modes. *)
Definition shouldEscape_host (c : ascii) : bool :=
  negb (is_alpha c || is_digit c ||
    strings_ContainsByte "-_.~!$&'()*+,;=:[]<>" c || bool_decide (c = byte 34)).

(** [unescape]: [None] for an escape or a byte the mode does not allow. *)
Fixpoint unescape (m : encoding) (s : string) : option string :=
  match s with
  | EmptyString => Some EmptyString
  | String c s' =>
      if decide (c = "%"%char) then
        match s' with
        | String a (String b s'') =>
            if is_hex a && is_hex b then
              let v := byte (unhex a * 16 + unhex b) in
              let is25 := bool_decide (a = "2"%char /\ b = "5"%char) in
              let bad := match m with
                         | encodeHost => (unhex a <? 8)%nat && negb is25
                         | encodeZone => negb is25 && negb (bool_decide (v = " "%char)) && shouldEscape_host v
                         | _ => false
                         end in
              if bad then None else String v <$> unescape m s''
            else None
        | _ => None
        end
      else
        let bad := match m with
                   | encodeHost | encodeZone => (nat_of_ascii c <? 128)%nat && shouldEscape_host c
                   | _ => false
                   end in
        if bad then None else String c <$> unescape m s'
  end.

Definition validOptionalPort (s : string) : bool :=
  match s with
  | EmptyString => true
  | String c s' => bool_decide (c = ":"%char) && string_forallb is_digit s'
  end.

Definition validUserinfo (s : string) : bool :=
  string_forallb (fun c => is_alpha c || is_digit c || strings_ContainsByte "-._:~!$&'()*+,;=%@" c) s.

(** The scheme and the rest of the URL; [None] when the URL starts with a colon. *)
Fixpoint getScheme_from (first : bool) (whole s : string) : option (string * string) :=
  match s with
  | EmptyString => Some (EmptyString, whole)
  | String c s' =>
      if is_alpha c then
        match getScheme_from false whole s' with
        | Some (EmptyString, _) => Some (EmptyString, whole)
        | Some (sch, rest) => Some (String c sch, rest)
        | None => None
        end
      else if is_digit c || strings_ContainsByte "+-." c then
        if first then Some (EmptyString, whole)
        else match getScheme_from false whole s' with
             | Some (EmptyString, _) => Some (EmptyString, whole)
             | Some (sch, rest) => Some (String c sch, rest)
             | None => None
             end
      else if decide (c = ":"%char) then
        if first then None else Some (String ":" EmptyString, s')
      else Some (EmptyString, whole)
  end.

(** A found scheme carries its colon until here. *)
Definition getScheme (s : string) : option (string * string) :=
  match getScheme_from true s s with
  | Some (EmptyString, _) => Some (EmptyString, s)
  | Some (sch, rest) => Some (default EmptyString (fst <$> cut_last sch ":"), rest)
  | None => None
  end.

Record URL := mkURL { u_Scheme : string; u_Host : string; u_RawQuery : string }.

Section Url.
Context `{GoNet}.

Definition parseHost (host : string) : option string :=
  match cut_last host "[" with
  | Some (String _ _, _) => None
  | Some (EmptyString, rest) =>
      match cut_last rest "]" with
      | None => None
      | Some (hostname, colonPort) =>
          if negb (validOptionalPort colonPort) then None else
          port ← unescape encodeHost colonPort;
          let '(addr, zone, zoned) := strings_Cut hostname "%" in
          name ← (if zoned && strings_HasPrefix zone "25" then
                    a ← unescape encodeHost addr;
                    z ← unescape encodeZone (String "%" zone);
                    Some (a +:+ z)
                  else unescape encodeHost hostname);
          if netip_is_6 name then Some ("[" +:+ name +:+ "]" +:+ port) else None
      end
  | None =>
      match cut_last host ":" with
      | None => unescape encodeHost host
      | Some (h, port) =>
          if strings_ContainsByte h ":" || negb (validOptionalPort (String ":" port)) then None
          else unescape encodeHost host
      end
  end.

Definition parseAuthority (authority : string) : option string :=
  match cut_last authority "@" with
  | None => parseHost authority
  | Some (userinfo, hostport) =>
      host ← parseHost hostport;
      if negb (validUserinfo userinfo) then None
      else
        let '(user, pass, _) := strings_Cut userinfo ":" in
        _ ← unescape encodeUserPassword user;
        _ ← unescape encodeUserPassword pass;
        Some host
  end.

(** The URL without its fragment. *)
Definition url_parse_nofrag (raw : string) : option URL :=
  if negb (string_forallb (fun c => negb (is_CTL c)) raw) then None else
  if decide (raw = "*") then Some (mkURL "" "" "") else
  '(sch, rest0) ← getScheme raw;
  let scheme := strings_ToLower sch in
  let '(rest, query, _) := strings_Cut rest0 "?" in
  if negb (strings_HasPrefix rest "/") && negb (bool_decide (scheme = "")) then
    Some (mkURL scheme "" query)
  else if negb (strings_HasPrefix rest "/") &&
          (let '(segment, _, _) := strings_Cut rest "/" in strings_ContainsByte segment ":") then None
  else if (negb (bool_decide (scheme = "")) || negb (strings_HasPrefix rest "///"))
          && strings_HasPrefix rest "//" then
    let '(authority, path, slash) := strings_Cut (strings_TrimPrefix rest "//") "/" in
    host ← parseAuthority authority;
    _ ← unescape encodePath path;
    Some (mkURL scheme host query)
  else
    _ ← unescape encodePath rest;
    Some (mkURL scheme "" query).

Definition url_Parse (raw : string) : option URL :=
  let '(u, frag, _) := strings_Cut raw "#" in
  url ← url_parse_nofrag u;
  _ ← unescape encodeFragment frag;
  Some url.

(** *** Facts *)

Lemma Cut_eq s sep a b f :
  strings_Cut s sep = (a, b, f) ->
  s = a +:+ (if f then String sep b else EmptyString) /\ strings_ContainsByte a sep = false.
Proof.
  revert a b f; induction s as [|c s IH]; intros a b f; cbn [strings_Cut].
  { by intros [= <- <- <-]. }
  case_decide as Hc; [subst; by intros [= <- <- <-]|].
  destruct (strings_Cut s sep) as [[a' b'] f'] eqn:E. intros [= <- <- <-].
  destruct (IH a' b' f' eq_refl) as [-> Hn]. split; [done|].
  cbn [strings_ContainsByte]. by rewrite decide_False.
Qed.

(** A URL that parses has no control byte before its fragment. *)
Lemma url_Parse_no_CTL raw url :
  url_Parse raw = Some url ->
  let '(u, _, _) := strings_Cut raw "#" in string_forallb (fun c => negb (is_CTL c)) u = true.
Proof.
  unfold url_Parse. destruct (strings_Cut raw "#") as [[u frag] f].
  destruct (url_parse_nofrag u) as [url'|] eqn:E; [|done]. intros _.
  unfold url_parse_nofrag in E. by destruct (string_forallb _ u).
Qed.
End Url.

#[local] Instance no_ipv6 : GoNet := {| netip_is_6 _ := false |}.

Example url_ex1 : url_Parse "https://ui.example.com:8443/a?b#c" = Some (mkURL "https" "ui.example.com:8443" "b").
Proof. vm_compute. reflexivity. Qed.
Example url_ex2 : url_Parse "https://ui.example.com\@evil.com/" = None.
Proof. vm_compute. reflexivity. Qed.
Example url_ex3 : url_Parse "javascript:alert(1)" = Some (mkURL "javascript" "" "").
Proof. vm_compute. reflexivity. Qed.
Example url_ex4 : url_Parse "///evil.com" = Some (mkURL "" "" "").
Proof. vm_compute. reflexivity. Qed.
Example url_ex5 : url_Parse "//evil.com" = Some (mkURL "" "evil.com" "").
Proof. vm_compute. reflexivity. Qed.
Example url_ex6 : url_Parse "a:b:c" = Some (mkURL "a" "" "") /\ url_Parse ":b" = None /\ url_Parse "1:b" = None.
Proof. vm_compute. repeat split. Qed.

(** *** Printing *)

Fixpoint url_escape (should : ascii -> bool) (s : string) : string :=
  match s with
  | EmptyString => EmptyString
  | String c s' =>
      (if should c then String "%" (String (hex_upper (nat_of_ascii c / 16)) (String (hex_upper (nat_of_ascii c mod 16)) ""))
       else String c "") +:+ url_escape should s'
  end.

(** [shouldEscape] for a path. *)
Definition shouldEscape_path (c : ascii) : bool :=
  negb (is_alpha c || is_digit c || strings_ContainsByte "-_.~$&+,/:;=@" c).

Definition validEncoded_path (raw : string) : bool :=
  string_forallb (fun c => strings_ContainsByte "!$&'()*+,;=:@[]%" c || negb (shouldEscape_path c)) raw.

(** [EscapedPath]: the raw path when it is a valid encoding of the path. *)
Definition EscapedPath (rawPath path : string) : string :=
  if negb (bool_decide (rawPath = "")) && validEncoded_path rawPath
     && bool_decide (unescape encodePath rawPath = Some path) then rawPath
  else if decide (path = "*") then "*" else url_escape shouldEscape_path path.

(** [String] of a URL made of a scheme, a host and a path. *)
Definition url_String (scheme host path : string) : string :=
  let p := EscapedPath "" path in
  let slash := if negb (bool_decide (p = "")) && negb (strings_HasPrefix p "/") && negb (bool_decide (host = ""))
               then "/" else "" in
  (scheme +:+ "://" +:+ url_escape (fun c => (nat_of_ascii c <? 128)%nat && shouldEscape_host c) host +:+ slash +:+ p)%string.

Example url_String_ex : url_String "https" "antrea.kube-system.svc" "/feature gates" = "https://antrea.kube-system.svc/feature%20gates".
Proof. vm_compute. reflexivity. Qed.

(** *** Escaping and unescaping *)

Lemma hex_upper_unhex n : (n < 16)%nat -> is_hex (hex_upper n) = true /\ unhex (hex_upper n) = n.
Proof. intros Hn. do 16 (destruct n as [|n]; [done|]). lia. Qed.

Lemma url_escape_app p a b : url_escape p (a +:+ b) = url_escape p a +:+ url_escape p b.
Proof.
  induction a as [|c a IH]; [done|]. rewrite string_app_cons. cbn [url_escape]. by rewrite IH, (assoc_L String.append).
Qed.

Lemma unescape_byte n s :
  (n < 256)%nat ->
  unescape encodePath (String "%" (String (hex_upper (n / 16)) (String (hex_upper (n mod 16)) s))) =
    String (byte n) <$> unescape encodePath s.
Proof.
  intros Hn. destruct (hex_upper_unhex (n / 16)) as [H1 U1]; [apply Nat.Div0.div_lt_upper_bound; lia|].
  destruct (hex_upper_unhex (n mod 16)) as [H2 U2]; [apply Nat.mod_upper_bound; lia|].
  cbn [unescape]. rewrite decide_True by done. rewrite H1, H2, U1, U2. cbn [andb].
  by rewrite (Nat.mul_comm (n / 16)), <- Nat.div_mod_eq.
Qed.

(** Escaping a path loses nothing, whatever bytes are escaped as long as "%" is. *)
Lemma unescape_escape p s : p "%"%char = true -> unescape encodePath (url_escape p s) = Some s.
Proof.
  intros Hp. induction s as [|c s IH]; [done|]. cbn [url_escape]. destruct (p c) eqn:Hc.
  - change (String "%" ?a +:+ ?b) with (String "%" (a +:+ b)). rewrite string_app_cons, !string_app_cons.
    rewrite unescape_byte by apply nat_ascii_bounded. rewrite (left_id_L "" String.append), IH. cbn.
    unfold byte. by rewrite ascii_nat_embedding.
  - rewrite string_app_cons, (left_id_L "" String.append). cbn [unescape].
    rewrite decide_False by (intros ->; congruence). cbn [andb]. by rewrite IH.
Qed.

Lemma unescape_EscapedPath raw path : unescape encodePath (EscapedPath raw path) = Some path.
Proof.
  unfold EscapedPath. destruct (negb _ && validEncoded_path raw && _) eqn:E.
  - by apply andb_true_iff in E as [_ E%bool_decide_eq_true].
  - clear E. case_decide as Hp; [rewrite Hp|apply unescape_escape]; vm_compute; reflexivity.
Qed.
