(* ===== verification/Browser.v ===== *)
(** * How a browser reads a URL

    A redirect is followed, and an [Origin] header written, by a browser, which reads URLs by the
    WHATWG standard and not by [net/url]. This is an independent definition of what it makes of a
    reference or an absolute http(s) URL, as far as the origin goes, and the proof that [GoUrl]'s
    parser agrees with it on every URL that it accepts. *)
From S2P Require Import Prelude.
From S2P Require Import GoStrings.
From S2P Require Import GoUrl.

(** A browser drops tabs and line breaks from a URL, and spaces and control bytes at its ends. *)
Definition is_tab_or_newline (c : ascii) : bool :=
  bool_decide (c = byte 9) || bool_decide (c = byte 10) || bool_decide (c = byte 13).
Definition is_C0_or_space (c : ascii) : bool := (nat_of_ascii c <=? 32)%nat.

Fixpoint drop_front (s : string) : string :=
  match s with
  | String c s' => if is_C0_or_space c then drop_front s' else s
  | EmptyString => EmptyString
  end.
Fixpoint drop_back (s : string) : string :=
  match s with
  | String c s' =>
      match drop_back s' with
      | EmptyString => if is_C0_or_space c then EmptyString else String c EmptyString
      | r => String c r
      end
  | EmptyString => EmptyString
  end.
Fixpoint drop_tabs (s : string) : string :=
  match s with
  | String c s' => if is_tab_or_newline c then drop_tabs s' else String c (drop_tabs s')
  | EmptyString => EmptyString
  end.

Definition browser_clean (s : string) : string := drop_tabs (drop_back (drop_front s)).

(** A reference that a browser resolves on the origin of the page: one slash, and not two slashes
    of either kind. *)
Definition browser_stays (s : string) : bool :=
  match browser_clean s with
  | String a rest =>
      bool_decide (a = "/"%char) &&
      match rest with
      | String b _ => negb (bool_decide (b = "/"%char) || bool_decide (b = "\"%char))
      | EmptyString => true
      end
  | EmptyString => false
  end.

Lemma not_CTL_visible c : is_CTL c = false -> is_tab_or_newline c = false.
Proof.
  unfold is_tab_or_newline. intros Hc. apply not_true_iff_false. rewrite !orb_true_iff, !bool_decide_eq_true.
  intros [[->| ->]| ->]; done.
Qed.

Lemma browser_stays_prefix c rest :
  is_tab_or_newline c = false -> c <> "/"%char -> c <> "\"%char ->
  browser_stays (String "/" (String c rest)) = true.
Proof.
  intros Ht H1 H2. unfold browser_stays, browser_clean.
  change (drop_front (String "/" (String c rest))) with (String "/" (String c rest)).
  assert (Hb : drop_back (String "/" (String c rest)) = String "/" "" \/
               exists r, drop_back (String "/" (String c rest)) = String "/" (String c r)).
  { cbn [drop_back]. destruct (drop_back rest) as [|d r]; [|right; by eexists].
    destruct (is_C0_or_space c); [by left|right; by exists ""]. }
  destruct Hb as [->|[r ->]]; [done|]. cbn [drop_tabs]. change (is_tab_or_newline "/") with false.
  cbn iota. rewrite Ht. rewrite bool_decide_true, !bool_decide_false by done. done.
Qed.

(** *** Absolute URLs *)

Definition ascii_lower (s : string) : string := string_map lower_ascii s.

Fixpoint percent_decode (s : string) : string :=
  match s with
  | EmptyString => EmptyString
  | String c s' =>
      match s' with
      | String a (String b s'') =>
          if bool_decide (c = "%"%char) && is_hex a && is_hex b
          then String (byte (unhex a * 16 + unhex b)) (percent_decode s'')
          else String c (percent_decode s')
      | _ => String c (percent_decode s')
      end
  end.

(** Backslashes count as slashes. *)
Definition is_slash (c : ascii) : bool := bool_decide (c = "/"%char) || bool_decide (c = "\"%char).

Definition two_slashes (s : string) : bool :=
  match s with String a (String b _) => is_slash a && is_slash b | _ => false end.

Fixpoint skip_slashes (s : string) : string :=
  match s with String c s' => if is_slash c then skip_slashes s' else s | EmptyString => EmptyString end.

Definition ends_authority (c : ascii) : bool :=
  is_slash c || bool_decide (c = "?"%char) || bool_decide (c = "#"%char).

Fixpoint authority_of (s : string) : string :=
  match s with
  | String c s' => if ends_authority c then EmptyString else String c (authority_of s')
  | EmptyString => EmptyString
  end.

(** The scheme of an absolute http or https URL, and its host with the port if there is one: what
    precedes the last "@" of the authority are credentials. Case is folded when hosts are compared. *)
Definition browser_origin (s : string) : option (string * string) :=
  let '(sch, rest, colon) := strings_Cut (browser_clean s) ":" in
  let scheme := ascii_lower sch in
  if colon && (bool_decide (scheme = "http") || bool_decide (scheme = "https")) && two_slashes rest then
    let authority := authority_of (skip_slashes rest) in
    Some (scheme, percent_decode (match cut_last authority "@" with Some (_, h) => h | None => authority end))
  else None.

Example browser_ex1 : browser_origin "https://ui.example.com@evil.com/x" = Some ("https", "evil.com").
Proof. vm_compute. reflexivity. Qed.
Example browser_ex2 : browser_origin "HTTPS:\\evil.com\@ui.example.com" = Some ("https", "evil.com").
Proof. vm_compute. reflexivity. Qed.
Example browser_ex3 : browser_origin "https://ui.example.com.evil.com:8443?a" = Some ("https", "ui.example.com.evil.com:8443").
Proof. vm_compute. reflexivity. Qed.
Example browser_ex4 : browser_origin "javascript:alert(1)" = None /\ browser_origin "/summary" = None.
Proof. vm_compute. by split. Qed.

(** *** Strings *)

Lemma forallb_app p a b : string_forallb p (a +:+ b) = string_forallb p a && string_forallb p b.
Proof. induction a as [|c a IH]; [done|]. rewrite string_app_cons. cbn [string_forallb]. by rewrite IH, andb_assoc. Qed.

Lemma forallb_impl (p q : ascii -> bool) s :
  (forall c, p c = true -> q c = true) -> string_forallb p s = true -> string_forallb q s = true.
Proof.
  intros Hpq. induction s as [|c s IH]; [done|]. cbn. intros [H1 H2]%andb_true_iff. by rewrite Hpq, IH.
Qed.

Lemma forallb_no_byte p s c : string_forallb p s = true -> p c = false -> strings_ContainsByte s c = false.
Proof.
  intros Hs Hc. induction s as [|d s IH]; [done|]. cbn in *. apply andb_true_iff in Hs as [Hd Hs].
  case_decide; [congruence|auto].
Qed.

Lemma Cut_app a sep b : strings_ContainsByte a sep = false -> strings_Cut (a +:+ String sep b) sep = (a, b, true).
Proof.
  induction a as [|c a IH]; intros Ha.
  - change (EmptyString +:+ String sep b) with (String sep b). cbn. by rewrite decide_True.
  - rewrite string_app_cons. cbn [strings_Cut strings_ContainsByte] in *. case_decide; [done|]. by rewrite IH.
Qed.

Lemma Cut_none a sep : strings_ContainsByte a sep = false -> strings_Cut a sep = (a, EmptyString, false).
Proof.
  induction a as [|c a IH]; intros Ha; [done|]. cbn [strings_Cut strings_ContainsByte] in *. case_decide; [done|]. by rewrite IH.
Qed.

Lemma cut_last_Some s sep a b : cut_last s sep = Some (a, b) -> s = a +:+ String sep b.
Proof.
  revert a b; induction s as [|c s IH]; intros a b; cbn; [done|]. destruct (cut_last s sep) as [[a' b']|].
  - intros [= <- <-]. rewrite string_app_cons. f_equal. by apply IH.
  - case_decide; [|done]. by intros [= <- <-]; subst.
Qed.

Lemma cut_last_none s sep : strings_ContainsByte s sep = false -> cut_last s sep = None.
Proof.
  induction s as [|c s IH]; [done|]. cbn [strings_ContainsByte cut_last]. case_decide as Hc; [done|]. intros H.
  by rewrite (IH H).
Qed.

Lemma cut_last_snoc s sep : cut_last (s +:+ String sep "") sep = Some (s, "").
Proof.
  induction s as [|c s IH].
  - change ("" +:+ String sep "") with (String sep ""). cbn. by rewrite decide_True.
  - rewrite string_app_cons. cbn [cut_last]. by rewrite IH.
Qed.

(** *** Escapes *)

(** An escape is three characters long. *)
Lemma escape_ind (P : string -> Prop) :
  P "" -> (forall c s, P s -> (forall a b s', s = String a (String b s') -> P s') -> P (String c s)) -> forall s, P s.
Proof.
  intros H0 Hs s. enough (forall n s, (String.length s <= n)%nat -> P s) as H by by eapply (H _ s).
  clear s. induction n as [|n IH]; intros [|c s] Hn; try done; cbn in Hn; [lia|].
  apply Hs; [apply IH; lia|]. intros a b s' ->. apply IH. cbn in Hn. lia.
Qed.

Lemma percent_decode_cons c s : c <> "%"%char -> percent_decode (String c s) = String c (percent_decode s).
Proof. intros Hc. cbn [percent_decode]. rewrite bool_decide_false by done. by destruct s as [|a [|b s]]. Qed.

Lemma percent_decode_app m s s' t :
  unescape m s = Some s' -> percent_decode (s +:+ t) = s' +:+ percent_decode t.
Proof.
  revert s'. induction s as [|c s IH IH3] using escape_ind; intros s'; cbn [unescape]; [by intros [= <-]|]. case_decide as Hc.
  - subst c. destruct s as [|a [|b s]]; [done..|]. destruct (is_hex a && is_hex b) eqn:Hh; [|done].
    destruct (match m with encodeHost => _ | _ => _ end); [done|].
    intros (r & Hr & ->)%fmap_Some. rewrite !string_app_cons. cbn [percent_decode].
    rewrite bool_decide_true, <- andb_assoc, Hh by done. cbn [andb]. by rewrite (IH3 a b s eq_refl r Hr).
  - destruct (match m with encodeHost => _ | _ => _ end); [done|].
    intros (r & Hr & ->)%fmap_Some. rewrite !string_app_cons, percent_decode_cons by done. by rewrite (IH r Hr).
Qed.

(** Characters that neither end an authority nor are dropped from a URL. *)
Definition authority_char (c : ascii) : bool :=
  negb (ends_authority c) && negb (is_C0_or_space c) && negb (is_CTL c).

Definition host_char (c : ascii) : bool := authority_char c && negb (bool_decide (c = "@"%char)).

Lemma plain_host_char c : (nat_of_ascii c <? 128)%nat && shouldEscape_host c = false -> host_char c = true.
Proof. destruct c as [[] [] [] [] [] [] [] []]; by vm_compute. Qed.

Lemma hex_host_char c : is_hex c = true -> host_char c = true.
Proof. destruct c as [[] [] [] [] [] [] [] []]; by vm_compute. Qed.

Definition host_mode (m : encoding) : bool := match m with encodeHost | encodeZone => true | _ => false end.

Lemma unescape_chars m s s' :
  host_mode m = true -> unescape m s = Some s' -> string_forallb host_char s = true.
Proof.
  intros Hm. revert s'. induction s as [|c s IH IH3] using escape_ind; intros s'; cbn [unescape]; [done|]. case_decide as Hc.
  - subst c. destruct s as [|a [|b s]]; [discriminate..|]. destruct (is_hex a) eqn:Ha, (is_hex b) eqn:Hb; try discriminate. cbn [andb].
    destruct (match m with encodeHost => _ | _ => _ end); [done|]. intros (r & Hr & _)%fmap_Some.
    change (host_char a && (host_char b && string_forallb host_char s) = true).
    by rewrite (hex_host_char a Ha), (hex_host_char b Hb), (IH3 a b s eq_refl r Hr).
  - destruct m; try discriminate Hm; (destruct (_ && shouldEscape_host c) eqn:Hbad; [discriminate|]);
      intros (r & Hr & _)%fmap_Some; cbn [string_forallb]; by rewrite (IH r Hr), plain_host_char.
Qed.

(** What the decoding gives: an escape below 0x80 is only that of a percent sign, or in a zone. *)
Definition decoded_char (c : ascii) : bool :=
  negb (ends_authority c) && negb (bool_decide (c = "@"%char)).

Lemma plain_decoded_char c : (nat_of_ascii c <? 128)%nat && shouldEscape_host c = false -> decoded_char c = true.
Proof. destruct c as [[] [] [] [] [] [] [] []]; by vm_compute. Qed.

Lemma unhex_lt c : is_hex c = true -> (unhex c < 16)%nat.
Proof. intros H. apply Nat.ltb_lt. revert H. destruct c as [[] [] [] [] [] [] [] []]; by vm_compute. Qed.

Lemma escaped_decoded_char m a b :
  host_mode m = true -> is_hex a = true -> is_hex b = true ->
  (match m with
   | encodeHost => (unhex a <? 8)%nat && negb (bool_decide (a = "2"%char /\ b = "5"%char))
   | encodeZone => negb (bool_decide (a = "2"%char /\ b = "5"%char)) && negb (bool_decide (byte (unhex a * 16 + unhex b) = " "%char)) &&
       shouldEscape_host (byte (unhex a * 16 + unhex b))
   | _ => false
   end) = false -> decoded_char (byte (unhex a * 16 + unhex b)) = true.
Proof.
  intros Hm Ha Hb. destruct (bool_decide_reflect (a = "2"%char /\ b = "5"%char)) as [[-> ->]|_]; [done|].
  destruct m; try done; cbn [negb andb].
  - rewrite andb_true_r. intros Hge%Nat.ltb_ge. apply plain_decoded_char. apply andb_false_iff. left. apply Nat.ltb_ge.
    pose proof (unhex_lt a Ha). pose proof (unhex_lt b Hb). unfold byte. rewrite nat_ascii_embedding by lia. lia.
  - intros Hz. apply andb_false_iff in Hz as [Hz|Hz].
    + apply negb_false_iff, bool_decide_eq_true in Hz. by rewrite Hz.
    + apply plain_decoded_char. by rewrite Hz, andb_false_r.
Qed.

Lemma unescape_decoded m s s' :
  host_mode m = true -> unescape m s = Some s' -> string_forallb decoded_char s' = true.
Proof.
  intros Hm. revert s'. induction s as [|c s IH IH3] using escape_ind; intros s'; cbn [unescape]; [by intros [= <-]|]. case_decide as Hc.
  - subst c. destruct s as [|a [|b s]]; [discriminate..|]. destruct (is_hex a) eqn:Ha, (is_hex b) eqn:Hb; try discriminate. cbn [andb].
    destruct (match m with encodeHost => _ | _ => _ end) eqn:Hbad; [done|]. intros (r & Hr & ->)%fmap_Some.
    cbn [string_forallb]. by rewrite (IH3 a b s eq_refl r Hr), (escaped_decoded_char m).
  - destruct m; try discriminate Hm; (destruct (_ && shouldEscape_host c) eqn:Hbad; [discriminate|]);
      intros (r & Hr & ->)%fmap_Some; cbn [string_forallb]; by rewrite (IH r Hr), plain_decoded_char.
Qed.

(** *** The two parsers on the same URL *)

Section Agree.
Context `{GoNet}.

Lemma host_char_at s : string_forallb host_char s = true -> strings_ContainsByte s "@" = false.
Proof. intros Hs. by eapply forallb_no_byte. Qed.

Lemma digit_host_char c : is_digit c = true -> host_char c = true.
Proof. intros Hc. apply hex_host_char. unfold is_hex. by rewrite Hc. Qed.

(** What a host may be made of, and what becomes of it. *)
Record host_read (h h' : string) : Prop := {
  hr_chars : string_forallb host_char h = true;
  hr_decoded : percent_decode h = h';
  hr_chars' : string_forallb decoded_char h' = true;
}.

Lemma unescape_read m h h' : host_mode m = true -> unescape m h = Some h' -> host_read h h'.
Proof.
  intros Hm Hu. split; [by eapply unescape_chars| |by eapply unescape_decoded].
  pose proof (percent_decode_app m h h' "" Hu) as E. by rewrite !(right_id_L "" String.append) in E.
Qed.

Lemma unescape_app m1 m2 a b a' b' :
  host_mode m1 = true -> host_mode m2 = true -> unescape m1 a = Some a' -> unescape m2 b = Some b' ->
  host_read (a +:+ b) (a' +:+ b').
Proof.
  intros Hm1 Hm2 Ha Hb. destruct (unescape_read m1 a a' Hm1 Ha) as [A1 A2 A3], (unescape_read m2 b b' Hm2 Hb) as [B1 B2 B3].
  split; [by rewrite forallb_app, A1| |by rewrite forallb_app, A3]. by rewrite (percent_decode_app m1 a a'), B2.
Qed.

Lemma host_read_bracket h h' p p' :
  host_read h h' -> (forall t, percent_decode (h +:+ t) = h' +:+ percent_decode t) -> host_read p p' ->
  host_read ("[" +:+ h +:+ "]" +:+ p) ("[" +:+ h' +:+ "]" +:+ p').
Proof.
  intros [A1 A2 A3] Happ [B1 B2 B3]. change ("[" +:+ ?a) with (String "[" a). change ("]" +:+ ?a) with (String "]" a).
  split; cbn [string_forallb]; rewrite ?forallb_app; cbn [string_forallb].
  - by rewrite A1, B1.
  - by rewrite percent_decode_cons, Happ, percent_decode_cons, B2.
  - by rewrite A3, B3.
Qed.

Lemma parseHost_read h h' : parseHost h = Some h' -> host_read h h'.
Proof.
  unfold parseHost. destruct (cut_last h "[") as [[[|c x] rest]|] eqn:Hb; [|done|].
  - apply cut_last_Some in Hb. destruct (cut_last rest "]") as [[hostname colonPort]|] eqn:Hc; [|done].
    apply cut_last_Some in Hc. subst rest h. destruct (validOptionalPort colonPort); [|done]. cbn [negb].
    intros (port & Hport & Hn)%bind_Some. pose proof (unescape_read encodeHost _ _ eq_refl Hport) as Rp.
    assert (exists name, h' = "[" +:+ name +:+ "]" +:+ port /\ host_read hostname name /\
      forall t, percent_decode (hostname +:+ t) = name +:+ percent_decode t) as (name & -> & Rn & Happ).
    { destruct (strings_Cut hostname "%") as [[addr zone] zoned] eqn:Hcut. apply Cut_eq in Hcut as [Hh _].
      destruct (zoned && strings_HasPrefix zone "25") eqn:Hz.
      - apply andb_true_iff in Hz as [-> _]. apply bind_Some in Hn as (name & (a & Ha & (z & Hzn & [= <-])%bind_Some)%bind_Some & Hn).
        destruct (netip_is_6 _); [|done]. injection Hn as <-. exists (a +:+ z). subst hostname. split; [done|].
        split; [by eapply (unescape_app encodeHost encodeZone)|]. intros t.
        rewrite <- !(assoc_L String.append), (percent_decode_app encodeHost addr a) by done.
        by rewrite (percent_decode_app encodeZone _ z).
      - apply bind_Some in Hn as (name & Hu & Hn). destruct (netip_is_6 _); [|done]. injection Hn as <-. exists name.
        split; [done|]. split; [by apply (unescape_read encodeHost)|]. intros t. by apply (percent_decode_app encodeHost). }
    by apply (host_read_bracket hostname name colonPort port).
  - destruct (cut_last h ":") as [[hh port]|]; [destruct (_ || _); [done|]|]; by apply unescape_read.
Qed.

Lemma userinfo_char c :
  is_alpha c || is_digit c || strings_ContainsByte "-._:~!$&'()*+,;=%@" c = true -> authority_char c = true.
Proof. destruct c as [[] [] [] [] [] [] [] []]; by vm_compute. Qed.

Lemma host_authority_char s : string_forallb host_char s = true -> string_forallb authority_char s = true.
Proof. apply forallb_impl. by intros c [? _]%andb_true_iff. Qed.

(** The host of an authority, and the host's text. *)
Lemma parseAuthority_read a h :
  parseAuthority a = Some h ->
  string_forallb authority_char a = true /\ string_forallb decoded_char h = true /\
  percent_decode (match cut_last a "@" with Some (_, x) => x | None => a end) = h.
Proof.
  unfold parseAuthority. destruct (cut_last a "@") as [[ui hp]|] eqn:Ha.
  - apply cut_last_Some in Ha. intros (x & Hx & Hrest)%bind_Some. destruct (validUserinfo ui) eqn:Hu; [|done].
    cbn [negb] in Hrest. destruct (strings_Cut ui ":") as [[user pass] ?].
    apply bind_Some in Hrest as (_ & _ & (_ & _ & [= ->])%bind_Some). destruct (parseHost_read hp h Hx) as [H1 H2 H3].
    split; [|done]. subst a. rewrite forallb_app. cbn [string_forallb]. rewrite (host_authority_char hp H1).
    rewrite (forallb_impl _ authority_char ui userinfo_char Hu). done.
  - intros Hh. destruct (parseHost_read a h Hh) as [H1 H2 H3]. split; [by apply host_authority_char|done].
Qed.

(** *** The scheme *)

Definition scheme_char (c : ascii) : bool := is_alpha c || is_digit c || strings_ContainsByte "+-." c.

Lemma getScheme_from_spec first whole s sch rest :
  getScheme_from first whole s = Some (sch, rest) -> sch <> "" ->
  exists sch0, sch = sch0 +:+ String ":" "" /\ s = sch0 +:+ String ":" rest /\ string_forallb scheme_char sch0 = true.
Proof.
  revert first sch; induction s as [|c s IH]; intros first sch; cbn [getScheme_from]; [by intros [= <- <-]|].
  assert (Hrec : forall sch', scheme_char c = true -> sch' <> "" -> getScheme_from false whole s = Some (sch', rest) ->
    exists sch0, String c sch' = sch0 +:+ String ":" "" /\ String c s = sch0 +:+ String ":" rest /\ string_forallb scheme_char sch0 = true).
  { intros sch' Hc Hne Hs. destruct (IH false sch' Hs Hne) as (sch0 & -> & -> & Hch). exists (String c sch0).
    rewrite !string_app_cons. cbn [string_forallb]. by rewrite Hc, Hch. }
  destruct (is_alpha c) eqn:Ha; [|destruct (is_digit c || strings_ContainsByte "+-." c) eqn:Hd].
  1: destruct (getScheme_from false whole s) as [[[|d sch'] r']|] eqn:E; try done; [by intros [= <- <-]|].
  2: destruct first; [by intros [= <- <-]|];
     destruct (getScheme_from false whole s) as [[[|d sch'] r']|] eqn:E; try done; [by intros [= <- <-]|].
  1, 2: intros [= <- <-] _; apply Hrec; [unfold scheme_char; by rewrite ?Ha, ?Hd, ?orb_true_r|done|done].
  case_decide as Hc; [|by intros [= <- <-]]. destruct first; [done|]. intros [= <- <-] _. subst c. by exists "".
Qed.

Lemma getScheme_spec s sch rest :
  getScheme s = Some (sch, rest) -> sch <> "" -> s = sch +:+ String ":" rest /\ string_forallb scheme_char sch = true.
Proof.
  unfold getScheme. destruct (getScheme_from true s s) as [[[|c x] r]|] eqn:E; [by intros [= <- <-]| |done].
  destruct (getScheme_from_spec true s s _ r E ltac:(done)) as (sch0 & Hx & Hs & Hch).
  rewrite Hx, cut_last_snoc. cbn. by intros [= <- <-] _.
Qed.

(** *** Case *)

Definition is_ascii (c : ascii) : bool := (nat_of_ascii c <? 128)%nat.

Lemma not_utf8_head n p c s : is_ascii c = true -> (128 <= n < 256)%nat -> strip_prefix (String (byte n) p) (String c s) = None.
Proof.
  unfold is_ascii. intros Hc%Nat.ltb_lt Hn. cbn. rewrite decide_False; [done|]. intros <-. unfold byte in Hc.
  rewrite nat_ascii_embedding in Hc; lia.
Qed.

Lemma fold_cons c s : is_ascii c = true -> strings_fold (String c s) = String (lower_ascii c) (strings_fold s).
Proof.
  intros Hc. unfold strings_fold. cbn [String.length rewrite_runes first_prefix].
  unfold kelvin at 1, long_s at 1. cbn [utf8 fold_right]. by rewrite !not_utf8_head by (done || lia).
Qed.

Lemma lower_cons c s : is_ascii c = true -> strings_ToLower (String c s) = String (lower_ascii c) (strings_ToLower s).
Proof.
  intros Hc. unfold strings_ToLower. cbn [String.length rewrite_runes first_prefix].
  unfold kelvin at 1, dotted_I at 1. cbn [utf8 fold_right]. by rewrite !not_utf8_head by (done || lia).
Qed.

Lemma fold_nonempty c s : strings_fold (String c s) <> "".
Proof.
  unfold strings_fold. cbn [String.length rewrite_runes first_prefix].
  destruct (strip_prefix kelvin _); [done|]. by destruct (strip_prefix long_s _).
Qed.

Lemma fold_app a b : string_forallb is_ascii a = true -> strings_fold (a +:+ b) = ascii_lower a +:+ strings_fold b.
Proof.
  induction a as [|c a IH]; [done|]. cbn. intros [Hc Ha]%andb_true_iff. rewrite string_app_cons, fold_cons by done.
  by rewrite IH.
Qed.

Lemma lower_ascii_only a : string_forallb is_ascii a = true -> strings_ToLower a = ascii_lower a.
Proof.
  induction a as [|c a IH]; [done|]. cbn [string_forallb]. intros [Hc Ha]%andb_true_iff. rewrite lower_cons by done. by rewrite IH.
Qed.

Lemma scheme_char_ascii c : scheme_char c = true -> is_ascii c = true.
Proof. destruct c as [[] [] [] [] [] [] [] []]; by vm_compute. Qed.

Lemma scheme_char_lower c :
  scheme_char c = true -> scheme_char (lower_ascii c) = true /\ lower_ascii (lower_ascii c) = lower_ascii c.
Proof. destruct c as [[] [] [] [] [] [] [] []]; by vm_compute. Qed.

(** A scheme as [net/url] gives it. *)
Definition lower_scheme (s : string) : Prop := string_forallb scheme_char s = true /\ ascii_lower s = s.

Lemma lower_scheme_lower s : string_forallb scheme_char s = true -> lower_scheme (ascii_lower s).
Proof.
  induction s as [|c s IH]; [done|]. cbn. intros [Hc Hs]%andb_true_iff. destruct (scheme_char_lower c Hc) as [H1 H2], (IH Hs) as [I1 I2].
  split; cbn; [by rewrite H1|]. unfold ascii_lower in *. cbn. by rewrite H2, I2.
Qed.

Lemma scheme_no_colon s : string_forallb scheme_char s = true -> strings_ContainsByte s ":" = false.
Proof. intros Hs. by eapply forallb_no_byte. Qed.

(** Two origins fold to the same string just if their schemes are equal and their hosts fold to the
    same string. *)
Lemma EqualFold_origin s1 h1 s2 h2 :
  lower_scheme s1 -> lower_scheme s2 ->
  strings_EqualFold (s1 +:+ "://" +:+ h1) (s2 +:+ "://" +:+ h2) = true <-> s1 = s2 /\ strings_EqualFold h1 h2 = true.
Proof.
  intros [H1 L1] [H2 L2]. unfold strings_EqualFold. rewrite !bool_decide_eq_true.
  rewrite (fold_app s1), (fold_app s2), L1, L2 by (by eapply forallb_impl; [apply scheme_char_ascii|]).
  rewrite !(fold_app "://") by done. change (ascii_lower "://") with "://". split; [|by intros [-> ->]].
  intros E. apply (f_equal (fun x => strings_Cut x ":")) in E.
  change ("://" +:+ ?x) with (String ":" ("//" +:+ x)) in E.
  rewrite !Cut_app in E by by apply scheme_no_colon. change ("//" +:+ ?x) with (String "/" (String "/" x)) in E. naive_solver.
Qed.

(** *** The parts of a URL with a scheme and a host *)

Definition after_authority (t : string) : Prop :=
  t = "" \/ exists c t', t = String c t' /\ ends_authority c = true.

Lemma Cut_suffix s sep a b f :
  ends_authority sep = true -> strings_Cut s sep = (a, b, f) -> exists t, s = a +:+ t /\ after_authority t.
Proof.
  intros Hsep [-> _]%Cut_eq. eexists. split; [done|]. destruct f; [|by left]. right. exists sep, b.
  done.
Qed.

Lemma after_authority_app t1 t2 : after_authority t1 -> after_authority t2 -> after_authority (t1 +:+ t2).
Proof. intros [->|(c & t & -> & Hc)] H2; [done|]. right. exists c, (t +:+ t2). by rewrite string_app_cons. Qed.

Lemma url_Parse_shape raw u :
  url_Parse raw = Some u -> u_Scheme u <> "" -> u_Host u <> "" ->
  exists sch a t, raw = sch +:+ "://" +:+ a +:+ t /\ string_forallb scheme_char sch = true /\ sch <> "" /\
    u_Scheme u = ascii_lower sch /\ parseAuthority a = Some (u_Host u) /\ after_authority t.
Proof.
  unfold url_Parse. destruct (strings_Cut raw "#") as [[r frag] f] eqn:Hf.
  apply (Cut_suffix raw "#") in Hf as (t1 & -> & T1); [|done].
  intros (u' & Hu & (_ & _ & [= ->])%bind_Some)%bind_Some Hs Hh. unfold url_parse_nofrag in Hu.
  destruct (negb _); [done|]. case_decide; [by injection Hu as <-|].
  apply bind_Some in Hu as ([sch rest0] & Hsch & Hu).
  destruct (strings_Cut rest0 "?") as [[rest query] q] eqn:Hq. apply (Cut_suffix rest0 "?") in Hq as (t2 & Hr0 & T2); [|done].
  destruct (negb (strings_HasPrefix rest "/") && negb (bool_decide (strings_ToLower sch = ""))); [by injection Hu as <-|].
  destruct (negb (strings_HasPrefix rest "/") && _); [done|].
  destruct ((negb (bool_decide (strings_ToLower sch = "")) || _) && strings_HasPrefix rest "//") eqn:Hp.
  2:{ apply bind_Some in Hu as (_ & _ & [= <-]). done. }
  apply andb_true_iff in Hp as [_ Hp]. apply HasPrefix_true in Hp as [rest' ->].
  assert (Htrim : strings_TrimPrefix ("//" +:+ rest') "//" = rest').
  { unfold strings_TrimPrefix. by rewrite (proj2 (strip_prefix_Some "//" ("//" +:+ rest') rest')). }
  rewrite Htrim in Hu. destruct (strings_Cut rest' "/") as [[a path] sl] eqn:Ha.
  apply (Cut_suffix rest' "/") in Ha as (t3 & -> & T3); [|done].
  apply bind_Some in Hu as (host & Hhost & (_ & _ & [= <-])%bind_Some). cbn [u_Scheme u_Host] in *.
  assert (Hne : sch <> "") by (by intros ->). apply getScheme_spec in Hsch as [-> Hch]; [|done].
  assert (Hl : strings_ToLower sch = ascii_lower sch).
  { apply lower_ascii_only. eapply forallb_impl; [apply scheme_char_ascii|done]. }
  exists sch, a, (t3 +:+ t2 +:+ t1). rewrite Hl. split_and!; try done.
  - rewrite Hr0. change (String ":" ?x) with (":" +:+ x). by rewrite <- !(assoc_L String.append).
  - apply after_authority_app; [done|]. by apply after_authority_app.
Qed.

Definition visible (c : ascii) : bool := negb (is_C0_or_space c).

Lemma visible_no_tab c : visible c = true -> is_tab_or_newline c = false.
Proof. destruct c as [[] [] [] [] [] [] [] []]; by vm_compute. Qed.

Lemma drop_back_cons c s : visible c = true -> drop_back (String c s) = String c (drop_back s).
Proof. unfold visible. intros Hc%negb_true_iff. cbn [drop_back]. rewrite Hc. by destruct (drop_back s). Qed.

(** Cleaning a URL reaches only what follows its visible characters. *)
Lemma browser_clean_app p t :
  string_forallb visible p = true -> p <> "" -> browser_clean (p +:+ t) = p +:+ drop_tabs (drop_back t).
Proof.
  intros Hp Hne. unfold browser_clean. replace (drop_front (p +:+ t)) with (p +:+ t).
  2:{ destruct p as [|c p]; [done|]. cbn in Hp. apply andb_true_iff in Hp as [Hc%negb_true_iff _].
      rewrite string_app_cons. cbn [drop_front]. by rewrite Hc. }
  clear Hne. induction p as [|c p IH]; [done|]. cbn [string_forallb] in Hp. apply andb_true_iff in Hp as [Hc Hp].
  rewrite string_app_cons, drop_back_cons by done. cbn [drop_tabs]. rewrite visible_no_tab by done.
  by rewrite IH.
Qed.

Lemma ends_authority_visible c : ends_authority c = true -> visible c = true.
Proof. destruct c as [[] [] [] [] [] [] [] []]; by vm_compute. Qed.

Lemma after_authority_clean t : after_authority t -> after_authority (drop_tabs (drop_back t)).
Proof.
  intros [->|(c & t' & -> & Hc)]; [by left|]. right. apply ends_authority_visible in Hc as Hv.
  rewrite drop_back_cons by done. cbn [drop_tabs]. rewrite visible_no_tab by done. by eexists c, _.
Qed.

Lemma authority_of_app a t :
  string_forallb authority_char a = true -> after_authority t -> authority_of (a +:+ t) = a.
Proof.
  intros Ha Ht. induction a as [|c a IH].
  - destruct Ht as [->|(c & t' & -> & Hc)]; [done|]. change ("" +:+ ?x) with x. cbn [authority_of]. by rewrite Hc.
  - cbn [string_forallb] in Ha. apply andb_true_iff in Ha as [[[Hc%negb_true_iff _]%andb_true_iff _]%andb_true_iff Ha].
    rewrite string_app_cons. cbn [authority_of]. by rewrite Hc, IH.
Qed.

Lemma scheme_char_visible c : scheme_char c = true -> visible c = true.
Proof. destruct c as [[] [] [] [] [] [] [] []]; by vm_compute. Qed.

Lemma authority_char_visible c : authority_char c = true -> visible c = true.
Proof. destruct c as [[] [] [] [] [] [] [] []]; by vm_compute. Qed.

(** The browser goes to the host that [net/url] found. *)
Lemma browser_origin_parse raw u :
  url_Parse raw = Some u -> u_Scheme u = "http" \/ u_Scheme u = "https" -> u_Host u <> "" ->
  browser_origin raw = Some (u_Scheme u, u_Host u).
Proof.
  intros Hp Hs Hh. destruct (url_Parse_shape raw u Hp) as (sch & a & t & -> & Hch & Hne & Hl & Ha & Ht);
    [by destruct Hs as [-> | ->]|done|].
  destruct (parseAuthority_read a _ Ha) as (Hac & _ & Hd). set (t' := drop_tabs (drop_back t)).
  assert (Hclean : browser_clean (sch +:+ "://" +:+ a +:+ t) = sch +:+ String ":" (String "/" (String "/" (a +:+ t')))).
  { rewrite !(assoc_L String.append), browser_clean_app; [by rewrite <- !(assoc_L String.append)| |by destruct sch].
    rewrite !forallb_app, (forallb_impl _ visible sch scheme_char_visible Hch).
    by rewrite (forallb_impl _ visible a authority_char_visible Hac). }
  unfold browser_origin. rewrite Hclean, Cut_app by by apply scheme_no_colon. cbn [andb two_slashes].
  rewrite <- Hl. assert (Hsk : skip_slashes (String "/" (String "/" (a +:+ t'))) = a +:+ t').
  { cbn. destruct a as [|c a]; [by injection Ha as Ha|]. rewrite string_app_cons. cbn [skip_slashes].
    cbn in Hac. apply andb_true_iff in Hac as [[[Hc%negb_true_iff _]%andb_true_iff _]%andb_true_iff _].
    unfold ends_authority in Hc. by apply orb_false_iff in Hc as [[-> _]%orb_false_iff _]. }
  rewrite Hsk, authority_of_app, Hd by (done || by apply after_authority_clean).
  destruct Hs as [-> | ->]; done.
Qed.

(** *** An origin, parsed *)

Definition web_scheme (s : string) : Prop := s = "http" \/ s = "https".

Lemma web_lower_scheme s : web_scheme s -> lower_scheme s.
Proof. by intros [-> | ->]. Qed.

Lemma parse_scheme raw u : url_Parse raw = Some u -> lower_scheme (u_Scheme u).
Proof.
  unfold url_Parse. destruct (strings_Cut raw "#") as [[r frag] f].
  intros (u' & Hu & (_ & _ & [= ->])%bind_Some)%bind_Some. unfold url_parse_nofrag in Hu.
  destruct (negb _); [done|]. case_decide; [by injection Hu as <-|]. apply bind_Some in Hu as ([sch rest0] & Hsch & Hu).
  assert (Hl : lower_scheme (strings_ToLower sch)).
  { destruct (decide (sch = "")) as [->|Hne]; [done|]. apply getScheme_spec in Hsch as [_ Hch]; [|done].
    rewrite lower_ascii_only by (by eapply forallb_impl; [apply scheme_char_ascii|]). by apply lower_scheme_lower. }
  destruct (strings_Cut rest0 "?") as [[rest query] q].
  destruct (_ && _); [by injection Hu as <-|]. destruct (_ && _); [done|]. destruct (_ && strings_HasPrefix rest "//").
  - destruct (strings_Cut _ "/") as [[a path] sl]. by apply bind_Some in Hu as (host & _ & (_ & _ & [= <-])%bind_Some).
  - by apply bind_Some in Hu as (_ & _ & [= <-]).
Qed.

Definition no_CTL (s : string) : bool := string_forallb (fun c => negb (is_CTL c)) s.

(** A scheme and a host, and nothing more, are parsed as that. *)
Lemma url_Parse_origin scheme host :
  web_scheme scheme -> string_forallb decoded_char host = true ->
  url_Parse (scheme +:+ "://" +:+ host) =
    if no_CTL host then h ← parseHost host; Some (mkURL scheme h "") else None.
Proof.
  intros Hs Hh. assert (Hno : forall c, decoded_char c = false -> strings_ContainsByte host c = false).
  { intros c. by apply forallb_no_byte. }
  assert (Hcut : strings_Cut (scheme +:+ "://" +:+ host) "#" = (scheme +:+ "://" +:+ host, "", false)).
  { apply Cut_none. destruct Hs as [-> | ->]; cbn; by apply Hno. }
  unfold url_Parse. rewrite Hcut. unfold url_parse_nofrag. unfold no_CTL. rewrite !forallb_app.
  replace (string_forallb (fun c => negb (is_CTL c)) scheme) with true by (by destruct Hs as [-> | ->]).
  change (string_forallb (fun c => negb (is_CTL c)) "://") with true. cbn [andb].
  destruct (string_forallb (fun c => negb (is_CTL c)) host); [|done]. cbn [negb].
  rewrite decide_False by (by destruct Hs as [-> | ->]).
  assert (Hg : getScheme (scheme +:+ "://" +:+ host) = Some (scheme, "//" +:+ host)) by (by destruct Hs as [-> | ->]).
  rewrite Hg. cbn [mbind option_bind].
  assert (Hq : strings_Cut ("//" +:+ host) "?" = ("//" +:+ host, "", false)) by (apply Cut_none; cbn; by apply Hno).
  rewrite Hq. change (strings_HasPrefix ("//" +:+ host) "/") with true.
  change (strings_HasPrefix ("//" +:+ host) "//") with true. change (strings_TrimPrefix ("//" +:+ host) "//") with host.
  replace (strings_ToLower scheme) with scheme by (by destruct Hs as [-> | ->]).
  rewrite bool_decide_false by (by destruct Hs as [-> | ->]). cbn [negb andb orb].
  rewrite (Cut_none host "/") by (by apply Hno). unfold parseAuthority. rewrite (cut_last_none host "@") by (by apply Hno).
  by destruct (parseHost host).
Qed.

Lemma percent_decode_id s : strings_ContainsByte s "%" = false -> percent_decode s = s.
Proof.
  induction s as [|c s IH]; [done|]. cbn [strings_ContainsByte]. case_decide as Hc; [done|]. intros Hs.
  by rewrite percent_decode_cons, IH.
Qed.

(** A host that needs no decoding, as browsers serialise it. *)
Definition plain_host (h : string) : Prop := h <> "" /\ strings_ContainsByte h "%" = false /\ parseHost h = Some h.

Lemma plain_host_decoded h : plain_host h -> string_forallb decoded_char h = true /\ no_CTL h = true.
Proof.
  intros (_ & _ & Hp). destruct (parseHost_read h h Hp) as [H1 _ H3]. split; [done|].
  eapply forallb_impl; [|exact H1]. by intros c [[_ ?]%andb_true_iff _]%andb_true_iff.
Qed.
End Agree.
