(* ===== verification/Redact.v ===== *)
(** * What is printed of secrets ([pkg/auth/session/session.go])

    [MarshalJSON] is what a structured logger prints of a credential or a session: its kind and its
    names, quoted as Go source ([%q]). [String] is in [Session]. *)
From S2P Require Import Prelude.
From S2P Require Import GoStrings.
From S2P Require Import GoUrl.
From S2P Require Import Session.

Definition Credential_MarshalJSON (c : Credential) : string :=
  "{" +:+ quote "kind" +:+ ":" +:+ quote (cr_Kind c) +:+ "," +:+ quote "userName" +:+ ":" +:+ quote (cr_UserName c) +:+
  "," +:+ quote "redacted" +:+ ":true}".

Definition Session_MarshalJSON `{Platform} (s : Session) : string :=
  "{" +:+ quote "id" +:+ ":" +:+ quote (s_id s) +:+ "," +:+ quote "mode" +:+ ":" +:+ quote (s_mode s) +:+
  "," +:+ quote "redacted" +:+ ":true}".

(** The characters of a JSON string (RFC 8259), between its quotes. *)
Fixpoint json_chars (s : string) : bool :=
  match s with
  | EmptyString => true
  | String c s' =>
      if (nat_of_ascii c <? 32)%nat || bool_decide (c = byte 34) then false
      else if decide (c = byte 92) then
        match s' with
        | String d s'' =>
            if strings_ContainsByte "/\bfnrt" d || bool_decide (d = byte 34) then json_chars s''
            else match d, s'' with
                 | "u"%char, String a (String b (String e (String f rest))) =>
                     forallb is_hex [a; b; e; f] && json_chars rest
                 | _, _ => false
                 end
        | EmptyString => false
        end
      else json_chars s'
  end.

(** The characters that [%q] does not turn into an escape JSON does not have. *)
Definition loggable (c : ascii) : bool :=
  let n := nat_of_ascii c in
  ((32 <=? n) && negb (n =? 127))%nat || bool_decide (n ∈ [8; 9; 10; 12; 13]%nat).

(** The escapes are single characters, decided one by one. *)
Lemma json_chars_quote_char c s : json_chars (quote_char c +:+ s) = loggable c && json_chars s.
Proof. destruct c as [[] [] [] [] [] [] [] []]; reflexivity. Qed.

(** What is printed is JSON just if the names have no control characters but the five that JSON
    can escape. *)
Lemma quote_is_json s : json_chars (quote_body s) = string_forallb loggable s.
Proof. induction s as [|c s IH]; [done|]. cbn [quote_body string_forallb]. by rewrite json_chars_quote_char, IH. Qed.
