(* ===== verification/Http.v ===== *)
(** * Requests, responses and error handling

    A gin handler is modelled as a state-passing function: it reads the request and appends what it
    does to the response, in order, to a list of effects. The cookie helpers of
    [pkg/server/utils/cookie/cookie.go] and the error helpers of [pkg/server/errors/error.go] are
    here because every handler uses them. *)
From S2P Require Import Prelude.
From S2P Require Import GoStrings.

(** A request as net/http parsed it: headers by canonical name, cookies in order, the query's
    values by key. *)
Record Request := mkRequest {
  req_Method : string;
  req_Host : string;
  req_RemoteAddr : string;
  req_Header : gmap string (list string);
  req_Cookies : list (string * string);
  req_Query : gmap string (list string);
  req_BasicAuth : option (string * string);
}.

(** [Header.Values], [Header.Get], [c.Query], [c.GetQuery]. *)
Definition header_Values (r : Request) (name : string) : list string := default [] (req_Header r !! name).
Definition GetHeader (r : Request) (name : string) : string := default "" (head (header_Values r name)).
Definition GetQuery (r : Request) (key : string) : option string := head (default [] (req_Query r !! key)).
Definition Query (r : Request) (key : string) : string := default "" (GetQuery r key).

(** [Request.Cookie]: the first cookie with that name. *)
Definition req_Cookie (r : Request) (name : string) : option string :=
  snd <$> head (filter (fun c => c.1 = name) (req_Cookies r)).

(** *** Responses *)

Inductive SameSite := SameSiteDefault | SameSiteLax | SameSiteStrict.

Record Cookie := mkCookie {
  c_Name : string;
  c_Value : string;
  c_Path : string;
  c_MaxAge : Z;
  c_Secure : bool;
  c_HttpOnly : bool;
  c_SameSite : SameSite;
}.

Inductive effect :=
| SetCookie (c : Cookie)
| JSON (code : Z) (body : string)
| Status (code : Z)
| SetHeader (key value : string)
| Data (code : Z) (contentType body : string)
| Redirect (code : Z) (url : string)
| RecordError (msg : string)
| LogErr (msg : string)
| Abort.

#[export] Instance SameSite_eq_dec : EqDecision SameSite.
Proof. solve_decision. Defined.
#[export] Instance Cookie_eq_dec : EqDecision Cookie.
Proof. solve_decision. Defined.
#[export] Instance effect_eq_dec : EqDecision effect.
Proof. solve_decision. Defined.

Definition StatusOK : Z := 200.
Definition StatusAccepted : Z := 202.
Definition StatusFound : Z := 302.
Definition StatusSeeOther : Z := 303.
Definition StatusBadRequest : Z := 400.
Definition StatusUnauthorized : Z := 401.
Definition StatusForbidden : Z := 403.
Definition StatusNotFound : Z := 404.
Definition StatusRequestEntityTooLarge : Z := 413.
Definition StatusTooManyRequests : Z := 429.
Definition StatusInternalServerError : Z := 500.
Definition StatusNotImplemented : Z := 501.
Definition StatusBadGateway : Z := 502.
Definition StatusServiceUnavailable : Z := 503.

(** The state of a handler: the rest of the server, and what the response got so far. *)
Record HState (W : Type) := mkH { h_world : W; h_out : list effect }.
Arguments mkH {W} h_world h_out.
Arguments h_world {W} h.
Arguments h_out {W} h.

Section Handler.
Context {W : Type}.

Definition emit (e : effect) : ST (HState W) unit := fun h => (tt, mkH (h_world h) (h_out h ++ [e])).
Definition lift {A} (m : ST W A) : ST (HState W) A := fun h =>
  let '(a, w) := m (h_world h) in (a, mkH w (h_out h)).

(** *** Errors *)

Record ServerError := mkServerError {
  se_Code : Z;
  se_Err : option string;
  se_Message : string;
}.

Definition HandleError (e : ServerError) : ST (HState W) unit :=
  match se_Err e with Some m => emit (RecordError m) | None => mret tt end;;
  if se_Code e =? StatusInternalServerError
  then emit (JSON (se_Code e) "Internal Server Error")
  else emit (JSON (se_Code e) (se_Message e)).

Definition LogError (e : option ServerError) (msg : string) : ST (HState W) unit :=
  match e with
  | Some e => match se_Err e with Some m => emit (LogErr (msg +:+ ": " +:+ m)) | None => mret tt end
  | None => mret tt
  end.

(** What [c.BindJSON] makes of a body: its fields, or a failure, which it records itself. *)
Definition BindJSON {A} (body : option A) : ST (HState W) (option A) :=
  match body with
  | Some v => mret (Some v)
  | None => emit (RecordError "bind");; emit Abort;; mret None
  end.

(** *** Cookies *)

Definition SessionCookieName : string := "antrea-ui-session".
Definition sessionCookiePath : string := "/".
Definition refreshTokenCookieName : string := "antrea-ui-refresh-token".
Definition refreshTokenCookiePath : string := "/auth".
Definition legacyOIDCIDTokenCookieName : string := "antrea-ui-oidc-id-token".

Definition session_cookie (id : string) (secure : bool) (sameSite : SameSite) : Cookie :=
  mkCookie SessionCookieName id sessionCookiePath 0 secure true sameSite.

(** A cookie that makes the browser drop the one of that name and path. *)
Definition expired_cookie (name path : string) : Cookie :=
  mkCookie name "" path (-1) false false SameSiteDefault.

Definition SetSessionCookie (id : string) (secure : bool) (sameSite : SameSite) : ST (HState W) unit :=
  emit (SetCookie (session_cookie id secure sameSite)).

Definition GetSessionCookie (r : Request) : option string :=
  match req_Cookie r SessionCookieName with
  | Some v => if decide (v = "") then None else Some v
  | None => None
  end.

Definition UnsetSessionCookie : ST (HState W) unit :=
  emit (SetCookie (expired_cookie SessionCookieName sessionCookiePath)).

Definition UnsetLegacyCookies (r : Request) : ST (HState W) unit :=
  match req_Cookie r refreshTokenCookieName with
  | Some _ => emit (SetCookie (expired_cookie refreshTokenCookieName refreshTokenCookiePath))
  | None => mret tt
  end;;
  mfor (req_Cookies r) (fun c =>
    when (strings_HasPrefix c.1 legacyOIDCIDTokenCookieName)
      (emit (SetCookie (expired_cookie c.1 refreshTokenCookiePath)))).

(** *** Facts *)

(** What a handler appended to the response. *)
Definition out_after {A} (m : ST (HState W) A) (h : HState W) : list effect :=
  drop (length (h_out h)) (h_out (exec m h)).

Lemma lift_run {A} (m : ST W A) h :
  lift m h = ((m (h_world h)).1, mkH (m (h_world h)).2 (h_out h)).
Proof. unfold lift. by destruct (m (h_world h)). Qed.

Definition legacy_effects (r : Request) : list effect :=
  (match req_Cookie r refreshTokenCookieName with
   | Some _ => [SetCookie (expired_cookie refreshTokenCookieName refreshTokenCookiePath)]
   | None => []
   end) ++
  omap (fun c => if strings_HasPrefix c.1 legacyOIDCIDTokenCookieName
                 then Some (SetCookie (expired_cookie c.1 refreshTokenCookiePath)) else None)
    (req_Cookies r).

Lemma UnsetLegacyCookies_run r h :
  UnsetLegacyCookies r h = (tt, mkH (h_world h) (h_out h ++ legacy_effects r)).
Proof.
  unfold UnsetLegacyCookies, legacy_effects. rewrite bind_run.
  assert (Hloop : forall l (h : HState W),
    mfor l (fun c => when (strings_HasPrefix c.1 legacyOIDCIDTokenCookieName)
      (emit (SetCookie (expired_cookie c.1 refreshTokenCookiePath)))) h =
    (tt, mkH (h_world h) (h_out h ++ omap (fun c : string * string =>
       if strings_HasPrefix c.1 legacyOIDCIDTokenCookieName
       then Some (SetCookie (expired_cookie c.1 refreshTokenCookiePath)) else None) l))).
  { clear. intros l; induction l as [|c l IH]; intros h.
    { cbn. rewrite app_nil_r. by destruct h. }
    cbn [mfor]. rewrite bind_run. unfold when.
    replace (omap _ (c :: l)) with ((if strings_HasPrefix c.1 legacyOIDCIDTokenCookieName
      then [SetCookie (expired_cookie c.1 refreshTokenCookiePath)] else []) ++
      omap (fun c : string * string =>
       if strings_HasPrefix c.1 legacyOIDCIDTokenCookieName
       then Some (SetCookie (expired_cookie c.1 refreshTokenCookiePath)) else None) l)
      by (cbn; by destruct (strings_HasPrefix c.1 _)).
    destruct (strings_HasPrefix c.1 _); unfold emit, mret, ST_ret; rewrite IH; cbn [h_world h_out];
      by rewrite <- ?(assoc_L (++)). }
  destruct (req_Cookie r refreshTokenCookieName); unfold emit, mret, ST_ret; rewrite Hloop;
    cbn [h_world h_out]; by rewrite <- ?(assoc_L (++)).
Qed.

(** What [HandleError] sends for an error: never the message of an internal one. *)
Definition error_effects (e : ServerError) : list effect :=
  (match se_Err e with Some m => [RecordError m] | None => [] end) ++
  [JSON (se_Code e) (if se_Code e =? StatusInternalServerError then "Internal Server Error"
                     else se_Message e)].

Lemma HandleError_run e h :
  HandleError e h = (tt, mkH (h_world h) (h_out h ++ error_effects e)).
Proof.
  unfold HandleError, error_effects, emit. rewrite bind_run.
  destruct (se_Err e), (_ =? _); cbn; by rewrite <- ?(assoc_L (++)).
Qed.
End Handler.

(** Runs the end of a handler and collects what it sent. *)
Ltac run_effects :=
  do 3 (cbn; unfold emit, mbind, ST_bind, mret, ST_ret); cbn; by rewrite <- ?(assoc_L (++)).
