(* ===== verification/Lru.v ===== *)
(** * The LRU cache that the rate limiter and the bearer validator keep

    [hashicorp/golang-lru] is not part of the program. [LRU] states what the program relies on: the
    cache is a bounded map, from which an insertion may drop other entries. [list_lru] is one
    instance, for the witnesses. *)
From S2P Require Import Prelude.

Class LRU (V : Type) := {
  lru : Type;
  (** What the cache holds. *)
  lru_view : lru -> gmap string V;
  (** [lru.New]: an error when the size is not positive. *)
  lru_New : Z -> option lru;
  lru_Get : string -> ST lru (option V);
  lru_Add : string -> V -> ST lru unit;
  (** [PeekOrAdd]: the value already there, or the new one is added. *)
  lru_PeekOrAdd : string -> V -> ST lru (option V);

  lru_New_pos : forall n, 0 < n -> exists c, lru_New n = Some c /\ lru_view c = ∅;
  lru_Get_value : forall k c, eval (lru_Get k) c = lru_view c !! k;
  lru_Get_view : forall k c, lru_view (exec (lru_Get k) c) = lru_view c;
  lru_Add_same : forall k v c, lru_view (exec (lru_Add k v) c) !! k = Some v;
  lru_Add_other : forall k v c k', k' <> k ->
    lru_view (exec (lru_Add k v) c) !! k' = None \/
    lru_view (exec (lru_Add k v) c) !! k' = lru_view c !! k';
  lru_PeekOrAdd_spec : forall k v c, lru_PeekOrAdd k v c =
    match lru_view c !! k with
    | Some v' => (Some v', c)
    | None => (None, exec (lru_Add k v) c)
    end;
}.

(** Most recently used first; no key twice. *)
Record LruList (V : Type) := mkLruList {
  ll_size : nat;
  ll_items : list (string * V);
}.
Arguments mkLruList {V}.
Arguments ll_size {V}.
Arguments ll_items {V}.

Section ListLru.
Context {V : Type}.

Definition ll_view (c : LruList V) : gmap string V := list_to_map (ll_items c).

Definition ll_drop (k : string) (l : list (string * V)) : list (string * V) :=
  filter (fun e => e.1 <> k) l.

Definition ll_Add (k : string) (v : V) : ST (LruList V) unit := fun c =>
  (tt, mkLruList (ll_size c) ((k, v) :: take (ll_size c) (ll_drop k (ll_items c)))).

Definition ll_Get (k : string) : ST (LruList V) (option V) := fun c =>
  match ll_view c !! k with
  | Some v => (Some v, mkLruList (ll_size c) ((k, v) :: ll_drop k (ll_items c)))
  | None => (None, c)
  end.

Definition ll_PeekOrAdd (k : string) (v : V) : ST (LruList V) (option V) := fun c =>
  match ll_view c !! k with
  | Some v' => (Some v', c)
  | None => (None, exec (ll_Add k v) c)
  end.

Lemma ll_drop_lookup k k' (l : list (string * V)) :
  (list_to_map (ll_drop k l) : gmap string V) !! k' =
    if decide (k' = k) then None else (list_to_map l : gmap string V) !! k'.
Proof.
  unfold ll_drop. induction l as [|[x v] l IH]; [by case_decide|].
  destruct (decide (x = k)) as [->|Hx].
  - rewrite filter_cons_False by (intros H; by apply H). rewrite IH. case_decide; [done|].
    cbn. by rewrite lookup_insert_ne.
  - rewrite filter_cons_True by done. cbn. destruct (decide (k' = x)) as [->|].
    + by rewrite !lookup_insert_eq, decide_False.
    + by rewrite !lookup_insert_ne, IH.
Qed.

Lemma ll_Get_view k c : ll_view (exec (ll_Get k) c) = ll_view c.
Proof.
  unfold ll_Get, exec. destruct (ll_view c !! k) as [v|] eqn:E; [|done].
  apply map_eq; intros k'. unfold ll_view in *; cbn. destruct (decide (k' = k)) as [->|].
  - by rewrite lookup_insert_eq.
  - by rewrite lookup_insert_ne, ll_drop_lookup, decide_False.
Qed.

Lemma take_lookup n (l : list (string * V)) k :
  (list_to_map (take n l) : gmap string V) !! k = None \/
  (list_to_map (take n l) : gmap string V) !! k = (list_to_map l : gmap string V) !! k.
Proof.
  revert n; induction l as [|[x v] l IH]; intros [|n]; [by left..|].
  cbn. destruct (decide (k = x)) as [->|]; [right; by rewrite !lookup_insert_eq|].
  rewrite !lookup_insert_ne by done. apply IH.
Qed.
End ListLru.

#[export] Instance list_lru (V : Type) : LRU V.
Proof.
  refine {| lru := LruList V; lru_view := ll_view;
    lru_New n := if 0 <? n then Some (mkLruList (Z.to_nat n - 1) []) else None;
    lru_Get := ll_Get; lru_Add := ll_Add; lru_PeekOrAdd := ll_PeekOrAdd |}.
  - intros n Hn. rewrite (proj2 (Z.ltb_lt 0 n) Hn). by eexists.
  - intros k c. unfold eval, ll_Get. by destruct (ll_view c !! k) eqn:E.
  - apply ll_Get_view.
  - intros k v c. unfold ll_view; cbn. by rewrite lookup_insert_eq.
  - intros k v c k' Hne. unfold ll_view; cbn. rewrite lookup_insert_ne by done.
    destruct (take_lookup (ll_size c) (ll_drop k (ll_items c)) k') as [H|H]; rewrite H; [by left|].
    right. by rewrite ll_drop_lookup, decide_False.
  - done.
Defined.
