(* ===== verification/RateLimit.v ===== *)
(** * Rate limiting ([pkg/server/ratelimit])

    Rate strings, the per-client limiter with its LRU of token buckets, the key a client is known
    by, and the middleware. The token bucket itself is [golang.org/x/time/rate]: a parameter. *)
From S2P Require Import Prelude.
From S2P Require Import GoStrings.
From S2P Require Import Http.
From S2P Require Import Lru.
From Stdlib Require Import SpecFloat.

(** *** Numbers *)

(** A float64 is an IEEE 754 binary64. *)
Definition float64 := spec_float.
Definition float64_of_Z (z : Z) : float64 := binary_normalize 53 1024 z 0 false.
Definition float64_div (x y : float64) : float64 := SFdiv 53 1024 x y.

Definition digit_val (c : ascii) : option Z :=
  if ascii_between 48 57 c then Some (Z.of_nat (nat_of_ascii c) - 48) else None.

Fixpoint parse_digits (acc : Z) (s : string) : option Z :=
  match s with
  | EmptyString => Some acc
  | String c s' => d ← digit_val c; parse_digits (acc * 10 + d) s'
  end.

(** [strconv.ParseUint(s, 10, 64)]. *)
Definition ParseUint64 (s : string) : result string Z :=
  if decide (s = "") then Err "invalid syntax" else
  match parse_digits 0 s with
  | None => Err "invalid syntax"
  | Some n => if n <? 2^64 then Ok n else Err "value out of range"
  end.

(** *** Rate strings ([config.go]) *)

Record config := mkConfig { ratePerSecond : float64; burstSize : Z }.

(** The submatches of [rateRegexp]: the number and the unit. *)
Definition rate_match (s : string) : option (string * string) :=
  let '(num, unit, slash) := strings_Cut s "/" in
  let digits := string_forallb (ascii_between 48 57) num in
  let number := match num with
                | EmptyString => false
                | String c rest => if ascii_between 49 57 c then digits
                                   else bool_decide (num = "0")
                end in
  if slash && number && bool_decide (unit ∈ ["s"; "m"; "h"]) then Some (num, unit) else None.

Definition rateFromStr (s : string) : result string float64 :=
  match rate_match s with
  | None => Err "not a valid rate string"
  | Some (num, unit) =>
      match ParseUint64 num with
      | Err e => Err ("rate number cannot be converted to uint64: " +:+ e)
      | Ok r =>
          if decide (unit = "s") then Ok (float64_of_Z r)
          else if decide (unit = "m") then Ok (float64_div (float64_of_Z r) (float64_of_Z 60))
          else Ok (float64_div (float64_of_Z r) (float64_of_Z 3600))
      end
  end.

Definition newConfig (rateStr : string) (burst : Z) : result string config :=
  match rateFromStr rateStr with
  | Err e => Err e
  | Ok r => if burst <? 0 then Err "burst size should be >= 0 for rate limiter"
            else Ok (mkConfig r burst)
  end.

(** *** Limiters *)

(** A token bucket: made for a rate and a burst, asked whether an event may happen now. *)
Class Limiter := {
  limiter : Type;
  NewLimiter : float64 -> Z -> limiter;
  AllowN : time -> ST limiter bool;
}.

(** The standard library's IP addresses. *)
Class GoIP := {
  IP : Type;
  ParseIP : string -> option IP;
  IP_String : IP -> string;
  IP_IsPrivate : IP -> bool;
}.

(** [net.SplitHostPort], reduced to the host. *)
Definition SplitHost (hostport : string) : option string :=
  match hostport with
  | String c rest =>
      if decide (c = "["%char) then
        let '(host, after, closed) := strings_Cut rest "]" in
        match after with
        | String c2 port =>
            if closed && bool_decide (c2 = ":"%char)
               && negb (strings_ContainsByte port ":") && negb (strings_ContainsByte rest "[")
               && negb (strings_ContainsByte after "]")
            then Some host else None
        | EmptyString => None
        end
      else
        match cut_last hostport ":" with
        | Some (host, port) =>
            if strings_ContainsByte host ":" || strings_ContainsByte hostport "["
               || strings_ContainsByte hostport "]" then None else Some host
        | None => None
        end
  | EmptyString => None
  end.

Section ClientKey.
Context `{GoIP}.

Definition ClientKeyFn := Request -> string.

(** The rightmost part that is a public IP. *)
Fixpoint last_public (parts : list string) : option IP :=
  match parts with
  | [] => None
  | p :: rest =>
      match last_public rest with
      | Some ip => Some ip
      | None => match ParseIP (strings_TrimSpace p) with
                | Some ip => if IP_IsPrivate ip then None else Some ip
                | None => None
                end
      end
  end.

Definition getIPFromXFFHeader (req : Request) : option IP :=
  last_public (header_Values req "X-Forwarded-For" ≫= fun v => strings_Split v ",").

Definition getIPFromHeader (req : Request) (name : string) : option IP :=
  let value := strings_TrimSpace (GetHeader req name) in
  if decide (value = "") then None else ParseIP value.

Definition ClientKeyIP (req : Request) : string :=
  match getIPFromXFFHeader req with
  | Some ip => IP_String ip
  | None =>
      match getIPFromHeader req "X-Real-Ip" with
      | Some ip => IP_String ip
      | None =>
          let remoteAddr := strings_TrimSpace (req_RemoteAddr req) in
          match SplitHost remoteAddr with Some host => host | None => remoteAddr end
      end
  end.

Lemma last_public_app l1 l2 :
  last_public (l1 ++ l2) = match last_public l2 with Some ip => Some ip | None => last_public l1 end.
Proof.
  induction l1 as [|p l1 IH]; cbn [last_public app]; [by destruct (last_public l2)|].
  rewrite IH. by destruct (last_public l2).
Qed.
End ClientKey.

Section Client.
Context `{L : Limiter} `{C : LRU nat}.

(** The cache holds pointers to limiters; the limiters live on the heap. *)
Record ClientRateLimiter := mkClientRateLimiter {
  rl_config : config;
  rl_cache : lru;
  rl_heap : gmap nat limiter;
  rl_next : nat;
  rl_keyFn : ClientKeyFn;
}.

(** What golang-lru says of a size it refuses is left out of the error. *)
Definition NewClientRateLimiter (rateStr : string) (burst maxSize : Z) (keyFn : ClientKeyFn)
    : result string ClientRateLimiter :=
  match newConfig rateStr burst with
  | Err e => Err e
  | Ok cfg =>
      match lru_New maxSize with
      | None => Err "error when initializing LRU client cache"
      | Some c => Ok (mkClientRateLimiter cfg c ∅ 0 keyFn)
      end
  end.

(** [None] is the panic. *)
Definition NewClientRateLimiterOrDie (rateStr : string) (burst maxSize : Z) (keyFn : ClientKeyFn)
    : option ClientRateLimiter :=
  match NewClientRateLimiter rateStr burst maxSize keyFn with Ok l => Some l | Err _ => None end.

(** A new limiter is allocated when the key is not cached; [PeekOrAdd] decides which is kept. *)
Definition Allow (t : time) (req : Request) : ST ClientRateLimiter bool := fun l =>
  let key := rl_keyFn l req in
  let '(found, c1) := lru_Get key (rl_cache l) in
  let '(a, l1) :=
    match found with
    | Some a => (a, mkClientRateLimiter (rl_config l) c1 (rl_heap l) (rl_next l) (rl_keyFn l))
    | None =>
        let fresh := rl_next l in
        let '(previous, c2) := lru_PeekOrAdd key fresh c1 in
        (default fresh previous,
         mkClientRateLimiter (rl_config l) c2
           (<[fresh := NewLimiter (ratePerSecond (rl_config l)) (burstSize (rl_config l))]> (rl_heap l))
           (S fresh) (rl_keyFn l))
    end in
  match rl_heap l1 !! a with
  | None => (false, l1)
  | Some b =>
      let '(ok, b') := AllowN t b in
      (ok, mkClientRateLimiter (rl_config l1) (rl_cache l1) (<[a := b']> (rl_heap l1)) (rl_next l1)
             (rl_keyFn l1))
  end.

(** The token bucket a key currently has. *)
Definition bucket_of (key : string) (l : ClientRateLimiter) : option limiter :=
  a ← lru_view (rl_cache l) !! key; rl_heap l !! a.

(** No two keys share a bucket, and buckets are allocated below the next address. *)
Record rl_wf (l : ClientRateLimiter) : Prop := mkRlWf {
  rl_alloc : forall k a, lru_view (rl_cache l) !! k = Some a -> is_Some (rl_heap l !! a);
  rl_bound : forall a, is_Some (rl_heap l !! a) -> (a < rl_next l)%nat;
  rl_inj : forall k1 k2 a, lru_view (rl_cache l) !! k1 = Some a ->
    lru_view (rl_cache l) !! k2 = Some a -> k1 = k2;
}.

(** What [Allow] does, by whether the key has a bucket. *)
Lemma Allow_spec t req l :
  rl_wf l ->
  let key := rl_keyFn l req in
  let b := default (NewLimiter (ratePerSecond (rl_config l)) (burstSize (rl_config l)))
             (bucket_of key l) in
  let l' := exec (Allow t req) l in
  eval (Allow t req) l = eval (AllowN t) b /\
  bucket_of key l' = Some (exec (AllowN t) b) /\ rl_wf l' /\
  (forall k, k <> key -> bucket_of k l' = None \/ bucket_of k l' = bucket_of k l).
Proof.
  intros [Wa Wb Wi] key b l'. unfold l', Allow, eval, exec. fold key.
  pose proof (lru_Get_value key (rl_cache l)) as Gv. pose proof (lru_Get_view key (rl_cache l)) as Gw.
  unfold eval, exec in Gv, Gw. destruct (lru_Get key (rl_cache l)) as [found c1]. cbn [fst snd] in *.
  subst found. unfold b, bucket_of in *. destruct (lru_view (rl_cache l) !! key) as [a|] eqn:Hk.
  - destruct (Wa key a Hk) as [x Hx]. cbn [mbind option_bind rl_heap]. rewrite Hx. cbn [from_option id].
    destruct (AllowN t x) as [ok x']. cbn [fst snd rl_cache rl_heap rl_next]. rewrite Gw, Hk.
    split; [done|]. split; [cbn; by rewrite lookup_insert_eq|]. split.
    + split; cbn; rewrite ?Gw.
      * intros k a' Ha'. rewrite lookup_insert. case_decide; [by eexists|by eapply Wa].
      * intros a'. rewrite lookup_insert. case_decide; [intros _; subst; apply Wb; by exists x|apply Wb].
      * done.
    + intros k Hne. right. destruct (lru_view (rl_cache l) !! k) as [a'|] eqn:Hk'; [|done]. cbn.
      rewrite lookup_insert_ne; [done|]. intros ->. by apply Hne, (Wi k key a').
  - cbn [mbind option_bind]. rewrite lru_PeekOrAdd_spec, Gw, Hk. cbn [from_option id].
    pose proof (lru_Add_same key (rl_next l) c1) as As. pose proof (lru_Add_other key (rl_next l) c1) as Ao.
    rewrite Gw in Ao. set (c2 := exec (lru_Add key (rl_next l)) c1) in *. cbn [rl_heap].
    rewrite lookup_insert_eq. destruct (AllowN t _) as [ok x']. cbn [fst snd rl_cache rl_heap rl_next].
    rewrite insert_insert_eq, As. split; [done|]. split; [cbn; by rewrite lookup_insert_eq|]. split.
    + assert (Hold : forall k a', k <> key -> lru_view c2 !! k = Some a' ->
                lru_view (rl_cache l) !! k = Some a').
      { intros k a' Hne Ha'. destruct (Ao k Hne) as [E|E]; rewrite E in Ha'; done. }
      assert (Hlt : forall k a', lru_view (rl_cache l) !! k = Some a' -> (a' < rl_next l)%nat)
        by (intros k a' Ha'; by eapply Wb, Wa).
      split; cbn.
      * intros k a' Ha'. rewrite lookup_insert. case_decide; [by eexists|].
        destruct (decide (k = key)) as [->|Hne]; [congruence|]. by eapply Wa, Hold.
      * intros a'. rewrite lookup_insert. case_decide; [lia|]. intros ?%Wb. lia.
      * intros k1 k2 a' H1 H2. destruct (decide (k1 = key)) as [->|N1], (decide (k2 = key)) as [->|N2];
          try done.
        -- pose proof (Hlt _ _ (Hold k2 a' N2 H2)). rewrite As in H1. injection H1 as <-. lia.
        -- pose proof (Hlt _ _ (Hold k1 a' N1 H1)). rewrite As in H2. injection H2 as <-. lia.
        -- by eapply Wi; apply Hold.
    + intros k Hne. destruct (Ao k Hne) as [E|E]; rewrite E; [by left|right].
      destruct (lru_view (rl_cache l) !! k) as [a'|] eqn:Hk'; [|done]. cbn.
      rewrite lookup_insert_ne; [done|]. intros <-. destruct (Wa k _ Hk') as [y Hy].
      assert (rl_next l < rl_next l)%nat by (apply Wb; by exists y). lia.
Qed.
End Client.

(** *** The middleware ([middleware.go]) and the global limiter ([global.go]) *)

(** [ratelimit.Interface]: the world of a limiter and its [Allow]. *)
Class RateLimiter (W : Type) := { rl_Allow : time -> Request -> ST W bool }.

(** Lets the request through, or answers 429 and stops the chain. *)
Definition Middleware `{RateLimiter W} (t : time) (req : Request) : ST (HState W) bool :=
  ok ← lift (rl_Allow t req);
  if (ok : bool) then mret true
  else emit (Status StatusTooManyRequests);; emit Abort;; mret false.

#[export] Instance client_rate_limiter `{Limiter} `{LRU nat} : RateLimiter ClientRateLimiter :=
  {| rl_Allow := Allow |}.

Section Global.
Context `{L : Limiter}.

Record GlobalRateLimiter := mkGlobal { g_rl : limiter }.

Definition NewGlobalRateLimiter (rateStr : string) (burst : Z) : result string GlobalRateLimiter :=
  match newConfig rateStr burst with
  | Err e => Err e
  | Ok cfg => Ok (mkGlobal (NewLimiter (ratePerSecond cfg) (burstSize cfg)))
  end.

Definition Global_Allow (t : time) (req : Request) : ST GlobalRateLimiter bool := fun l =>
  let '(ok, b) := AllowN t (g_rl l) in (ok, mkGlobal b).
End Global.

#[export] Instance global_rate_limiter `{Limiter} : RateLimiter GlobalRateLimiter :=
  {| rl_Allow := Global_Allow |}.

(** *** Printing and parsing of numbers *)

Lemma digit_char_val d : 0 <= d < 10 -> digit_val (digit_char d) = Some d.
Proof.
  intros Hd. unfold digit_val, digit_char, ascii_between, byte.
  rewrite nat_ascii_embedding by lia. rewrite !(proj2 (Nat.leb_le _ _)) by lia. cbn [andb]. f_equal. lia.
Qed.

Lemma digit_char_between (lo : nat) d :
  0 <= d < 10 -> Z.of_nat lo <= 48 + d -> ascii_between lo 57 (digit_char d) = true.
Proof.
  intros Hd Hlo. unfold digit_char, ascii_between, byte. rewrite nat_ascii_embedding by lia.
  by rewrite !(proj2 (Nat.leb_le _ _)) by lia.
Qed.

(** The digits of [n]: nothing but digits, no leading zero, and they read as [n]. *)
Definition digits_of (n : Z) (ds : string) : Prop :=
  string_forallb (ascii_between 48 57) ds = true /\
  (forall acc rest, parse_digits acc (ds +:+ rest) =
     parse_digits (acc * 10 ^ Z.of_nat (String.length ds) + n) rest) /\
  match ds with
  | EmptyString => False
  | String c rest => ascii_between 49 57 c = true \/ ds = "0"
  end.

Lemma digits_single n : 0 <= n < 10 -> digits_of n (String (digit_char n) "").
Proof.
  intros Hn. split_and!.
  - cbn [string_forallb]. by rewrite digit_char_between by lia.
  - intros acc rest. change (String (digit_char n) "" +:+ rest) with (String (digit_char n) rest).
    cbn [parse_digits]. rewrite digit_char_val by done. cbn. by f_equal.
  - destruct (decide (n = 0)) as [->|]; [by right|left]. apply digit_char_between; lia.
Qed.

Lemma digits_snoc q d ds :
  0 < q -> 0 <= d < 10 -> digits_of q ds ->
  digits_of (q * 10 + d) (ds +:+ String (digit_char d) "").
Proof.
  intros Hq Hd (D & R & F). split_and!.
  - revert D. clear -Hd. induction ds as [|c ds IH]; cbn [string_forallb]; intros D.
    + rewrite (left_id_L "" String.append). cbn [string_forallb]. by rewrite digit_char_between by lia.
    + rewrite string_app_cons. cbn [string_forallb]. apply andb_true_iff in D as [-> D]. by apply IH.
  - intros acc rest. rewrite <- (assoc_L String.append), R.
    change (String (digit_char d) "" +:+ rest) with (String (digit_char d) rest).
    cbn [parse_digits]. rewrite digit_char_val by done. cbn [mbind option_bind]. f_equal.
    rewrite string_length_app, Nat2Z.inj_add, Z.pow_add_r by lia. cbn. lia.
  - destruct ds as [|c ds]; [done|]. rewrite string_app_cons. destruct F as [F|F]; [by left|].
    exfalso. specialize (R 0 ""). injection F as -> ->.
    rewrite Z.mul_0_l, Z.add_0_l in R. vm_compute in R. injection R as <-. lia.
Qed.

Lemma itoa_fuel_digits fuel n acc :
  0 <= n < 10 ^ Z.of_nat fuel -> (0 < fuel)%nat ->
  exists ds, itoa_fuel fuel n acc = ds +:+ acc /\ digits_of n ds.
Proof.
  revert n acc; induction fuel as [|fuel IH]; intros n acc Hn Hf; [lia|]. cbn [itoa_fuel].
  destruct (Z.ltb_spec n 10) as [Hlt|Hge].
  { exists (String (digit_char n) ""). split; [done|]. apply digits_single. lia. }
  rewrite Nat2Z.inj_succ, Z.pow_succ_r in Hn by lia.
  assert (0 < n / 10 < 10 ^ Z.of_nat fuel) as Hq.
  { split; [apply Z.div_str_pos; lia|]. apply Z.div_lt_upper_bound; lia. }
  destruct (IH (n / 10) (String (digit_char (n mod 10)) acc)) as (ds & -> & D);
    [lia|destruct fuel; [cbn in Hq; lia|lia]|].
  exists (ds +:+ String (digit_char (n mod 10)) ""). split; [by rewrite <- (assoc_L String.append)|].
  rewrite (Z.div_mod n 10) at 1 by lia. rewrite (Z.mul_comm 10). apply digits_snoc; [lia| |done].
  apply Z.mod_pos_bound. lia.
Qed.

Lemma itoa_digits n : 0 <= n < 2 ^ 64 -> digits_of n (itoa n).
Proof.
  intros Hn. destruct (itoa_fuel_digits 20 n "") as (ds & E & D); [cbn in *; lia|lia|].
  unfold itoa. rewrite E. by rewrite (right_id_L "" String.append).
Qed.

Lemma parse_itoa n : 0 <= n < 2 ^ 64 -> ParseUint64 (itoa n) = Ok n.
Proof.
  intros Hn. destruct (itoa_digits n Hn) as (_ & R & F). unfold ParseUint64.
  destruct (itoa n) as [|c ds] eqn:E; [done|]. rewrite decide_False by done.
  specialize (R 0 ""). rewrite (right_id_L "" String.append) in R. rewrite R. cbn [parse_digits].
  rewrite Z.mul_0_l, Z.add_0_l. by rewrite (proj2 (Z.ltb_lt _ _)) by lia.
Qed.

Lemma Cut_digits ds u :
  string_forallb (ascii_between 48 57) ds = true -> strings_Cut (ds +:+ String "/" u) "/" = (ds, u, true).
Proof.
  induction ds as [|c ds IH]; intros D; [done|]. rewrite string_app_cons.
  cbn [strings_Cut string_forallb] in *. apply andb_true_iff in D as [Hc D].
  rewrite decide_False by (intros ->; done). by rewrite IH.
Qed.

Lemma rate_match_printed n u :
  0 <= n < 2 ^ 64 -> u ∈ ["s"; "m"; "h"] -> rate_match (itoa n +:+ String "/" u) = Some (itoa n, u).
Proof.
  intros Hn Hu. destruct (itoa_digits n Hn) as (D & _ & F).
  unfold rate_match. rewrite Cut_digits by done. cbn [andb].
  rewrite (bool_decide_true (u ∈ _)) by done. rewrite D.
  destruct (itoa n) as [|c ds] eqn:E; [done|]. destruct F as [->|F]; [done|].
  by injection F as -> ->.
Qed.

Lemma rateFromStr_seconds n : 0 <= n < 2 ^ 64 -> rateFromStr (itoa n +:+ "/s") = Ok (float64_of_Z n).
Proof.
  intros Hn. unfold rateFromStr. rewrite rate_match_printed, parse_itoa by (done || set_solver).
  by rewrite decide_True.
Qed.

Lemma rateFromStr_hours n :
  0 <= n < 2 ^ 64 -> rateFromStr (itoa n +:+ "/h") = Ok (float64_div (float64_of_Z n) (float64_of_Z 3600)).
Proof.
  intros Hn. unfold rateFromStr. rewrite rate_match_printed, parse_itoa by (done || set_solver).
  by rewrite !decide_False.
Qed.

(** Every 64-bit unsigned number of events per second, minute or hour, printed in decimal, is
    a valid rate string, and it means that number, in float64, divided by the length of the unit. *)
Theorem rateFromStr_printed (n : Z) :
  0 <= n < 2 ^ 64 ->
  rateFromStr (itoa n +:+ "/s") = Ok (float64_of_Z n) /\
  rateFromStr (itoa n +:+ "/m") = Ok (float64_div (float64_of_Z n) (float64_of_Z 60)) /\
  rateFromStr (itoa n +:+ "/h") = Ok (float64_div (float64_of_Z n) (float64_of_Z 3600)).
Proof.
  intros Hn. split; [by apply rateFromStr_seconds|]. split; [|by apply rateFromStr_hours].
  unfold rateFromStr. rewrite rate_match_printed, parse_itoa by (done || set_solver).
  by rewrite decide_False, decide_True.
Qed.

(** Clients are limited independently: whether a request passes depends on its own client's
    token bucket alone (a fresh one with the configured rate and burst when it has none), and the
    bucket of no other client changes, except that making room in the cache may drop it. *)
Theorem Allow_isolated `{L : Limiter} `{C : LRU nat} (t : time) (req : Request) (l : ClientRateLimiter) :
  rl_wf l ->
  let key := rl_keyFn l req in
  let bucket := default (NewLimiter (ratePerSecond (rl_config l)) (burstSize (rl_config l)))
                  (bucket_of key l) in
  let l' := exec (Allow t req) l in
  eval (Allow t req) l = eval (AllowN t) bucket /\
  bucket_of key l' = Some (exec (AllowN t) bucket) /\ rl_wf l' /\
  (forall k, k <> key -> bucket_of k l' = None \/ bucket_of k l' = bucket_of k l).
Proof. intros Hw. by apply Allow_spec. Qed.

(** A client behind a proxy that appends the address it saw to X-Forwarded-For cannot choose
    its key: whatever other values and addresses the header carried, a public address in last
    position is the key. *)
Theorem ClientKeyIP_not_spoofed `{GoIP} (req : Request) (vals : list string) (spoofed addr : string) (ip : IP) :
  header_Values req "X-Forwarded-For" = vals ++ [spoofed +:+ String "," addr] ->
  strings_ContainsByte spoofed "," = false -> strings_ContainsByte addr "," = false ->
  ParseIP (strings_TrimSpace addr) = Some ip -> IP_IsPrivate ip = false ->
  ClientKeyIP req = IP_String ip.
Proof.
  intros Hv Hs Ha Hp Hpr. unfold ClientKeyIP, getIPFromXFFHeader. rewrite Hv, bind_app. cbn [mbind list_bind].
  rewrite app_nil_r, Split_app_sep, (Split_no_sep addr) by done.
  change ([spoofed; addr]) with ([spoofed] ++ [addr]). rewrite (assoc_L (++)), last_public_app.
  cbn [last_public]. by rewrite Hp, Hpr.
Qed.

(** *** Instances *)

Module RateDemo.

(** A bucket that never refills: the burst, then nothing. *)
#[local] Instance demo_limiter : Limiter := {|
  limiter := Z;
  NewLimiter _ burst := burst;
  AllowN _ := fun b => (0 <? b, Z.max 0 (b - 1));
|}.

(** Dotted quads of one digit each; 10.x.x.x is private. *)
#[local] Instance demo_ip : GoIP := {|
  IP := string;
  ParseIP s := if (Nat.eqb (String.length s) 7) then Some s else None;
  IP_String s := s;
  IP_IsPrivate s := strings_HasPrefix s "9";
|}.

Definition demo_req (xff : list string) : Request :=
  mkRequest "GET" "ui" "1.1.1.1:80" (<["X-Forwarded-For" := xff]> ∅) [] ∅ None.

Lemma rateFromStr_printed_witness : rateFromStr "18446744073709551615/s" = Ok (float64_of_Z (2 ^ 64 - 1)).
Proof. apply (rateFromStr_printed (2 ^ 64 - 1)). lia. Defined.

Definition demo_rl : ClientRateLimiter :=
  mkClientRateLimiter (mkConfig (float64_of_Z 1) 1) (mkLruList 3 []) ∅ 0 ClientKeyIP.

Lemma demo_rl_wf : rl_wf demo_rl.
Proof.
  split; cbn; [intros k a|intros a [x Hx]|intros k1 k2 a]; cbn in *;
    by rewrite ?lookup_empty in *.
Qed.

Lemma Allow_isolated_witness : eval (Allow 0 (demo_req ["8.8.8.8"])) demo_rl = true.
Proof. apply (Allow_isolated 0 (demo_req ["8.8.8.8"]) demo_rl demo_rl_wf). Defined.

Lemma ClientKeyIP_not_spoofed_witness : ClientKeyIP (demo_req ["6.6.6.6"; "7.7.7.7, 8.8.8.8"]) = "8.8.8.8".
Proof.
  apply (@ClientKeyIP_not_spoofed demo_ip (demo_req ["6.6.6.6"; "7.7.7.7, 8.8.8.8"]) ["6.6.6.6"] "7.7.7.7" " 8.8.8.8" "8.8.8.8");
    vm_compute; reflexivity.
Defined.
End RateDemo.
