(* ===== verification/RateLimitConc.v ===== *)
(** * Concurrent requests at the rate limiter ([pkg/server/ratelimit/client.go])

    [Allow] takes no lock of its own: it is safe because the cache and each token bucket are, one
    call at a time, and because of the order of its calls. Here it is those calls one by one, and
    any number of requests interleave them: two requests of a client that has no bucket yet both
    make one, and [PeekOrAdd] decides which of the two counts. *)
From S2P Require Import Prelude.
From S2P Require Import Steps.
From S2P Require Import Http.
From S2P Require Import Lru.
From S2P Require Import RateLimit.

Section Conc.
Context `{L : Limiter} `{C : LRU nat}.

(** Where a call of [Allow] is: at the lookup, with a bucket of its own to offer, at the bucket it
    asks, or returned. *)
Inductive allow_pc :=
| AGet (t : time) (req : Request)
| AAdd (t : time) (key : string) (fresh : nat)
| AAsk (t : time) (key : string) (a : nat)
| AEnd (ok : bool).

Definition set_cache (c : lru) (l : ClientRateLimiter) : ClientRateLimiter :=
  mkClientRateLimiter (rl_config l) c (rl_heap l) (rl_next l) (rl_keyFn l).
Definition set_bucket (a : nat) (b : limiter) (l : ClientRateLimiter) : ClientRateLimiter :=
  mkClientRateLimiter (rl_config l) (rl_cache l) (<[a := b]> (rl_heap l)) (rl_next l) (rl_keyFn l).
Definition fresh_bucket (l : ClientRateLimiter) : limiter :=
  NewLimiter (ratePerSecond (rl_config l)) (burstSize (rl_config l)).
Definition alloc (l : ClientRateLimiter) : ClientRateLimiter :=
  mkClientRateLimiter (rl_config l) (rl_cache l) (<[rl_next l := fresh_bucket l]> (rl_heap l)) (S (rl_next l)) (rl_keyFn l).

(** One call of [Allow]: of the cache, or of a bucket. *)
Definition allow_step (pc : allow_pc) (l : ClientRateLimiter) : option (allow_pc * ClientRateLimiter) :=
  match pc with
  | AGet t req =>
      let key := rl_keyFn l req in
      let '(found, c) := lru_Get key (rl_cache l) in
      Some (match found with
            | Some a => (AAsk t key a, set_cache c l)
            | None => (AAdd t key (rl_next l), alloc (set_cache c l))
            end)
  | AAdd t key fresh =>
      let '(previous, c) := lru_PeekOrAdd key fresh (rl_cache l) in
      Some (AAsk t key (default fresh previous), set_cache c l)
  | AAsk t key a =>
      b ← rl_heap l !! a;
      let '(ok, b') := AllowN t b in Some (AEnd ok, set_bucket a b' l)
  | AEnd _ => None
  end.

(** Nobody else in between, it is [Allow]. *)
Fixpoint allow_alone (fuel : nat) (pc : allow_pc) (l : ClientRateLimiter) : option (bool * ClientRateLimiter) :=
  match pc, fuel with
  | AEnd ok, _ => Some (ok, l)
  | _, O => None
  | _, S fuel => '(pc', l') ← allow_step pc l; allow_alone fuel pc' l'
  end.

Lemma allow_alone_spec t req l : rl_wf l -> allow_alone 3 (AGet t req) l = Some (Allow t req l).
Proof.
  intros [Wa _ _]. unfold Allow. cbn [allow_alone allow_step].
  pose proof (lru_Get_value (rl_keyFn l req) (rl_cache l)) as Gv. pose proof (lru_Get_view (rl_keyFn l req) (rl_cache l)) as Gw.
  unfold eval, exec in Gv, Gw. destruct (lru_Get _ _) as [[a|] c]; cbn [fst snd] in Gv, Gw; cbn.
  - destruct (Wa (rl_keyFn l req) a) as [b Hb]; [done|]. rewrite Hb. cbn. by destruct (AllowN t b).
  - rewrite lru_PeekOrAdd_spec, Gw, <- Gv. cbn. unfold fresh_bucket. cbn. rewrite lookup_insert_eq. cbn.
    by destruct (AllowN t _).
Qed.

(** ** Any number of calls *)

(** An answer given: to which call, for which client, by which bucket, at what time. *)
Record verdict := mkVerdict { vd_call : nat; vd_key : string; vd_bucket : nat; vd_time : time; vd_ok : bool }.

(** The limiter, the calls in progress, and the answers in the order in which they were given. *)
Record rsys := mkRsys { rs_lim : ClientRateLimiter; rs_calls : gmap nat allow_pc; rs_log : list verdict }.

Inductive revent := RArrive (n : nat) (t : time) (req : Request) | RGo (n : nat).

Definition rstep (e : revent) (x : rsys) : option rsys :=
  match e with
  | RArrive n t req =>
      match rs_calls x !! n with
      | None => Some (mkRsys (rs_lim x) (<[n := AGet t req]> (rs_calls x)) (rs_log x))
      | Some _ => None
      end
  | RGo n =>
      pc ← rs_calls x !! n;
      '(pc', l') ← allow_step pc (rs_lim x);
      Some (mkRsys l' (<[n := pc']> (rs_calls x))
        (rs_log x ++ match pc, pc' with AAsk t key a, AEnd ok => [mkVerdict n key a t ok] | _, _ => [] end))
  end.

Definition rrun : list revent -> rsys -> option rsys := run_steps rstep.

Definition rsys0 (l : ClientRateLimiter) : rsys := mkRsys l ∅ [].

(** What a bucket is after events at the times [ts], and what it answered to them. *)
Fixpoint bucket_after (ts : list time) (b : limiter) : limiter :=
  match ts with [] => b | t :: ts => bucket_after ts (exec (AllowN t) b) end.
Fixpoint bucket_answers (ts : list time) (b : limiter) : list bool :=
  match ts with [] => [] | t :: ts => eval (AllowN t) b :: bucket_answers ts (exec (AllowN t) b) end.

Lemma bucket_after_snoc ts t b : bucket_after (ts ++ [t]) b = exec (AllowN t) (bucket_after ts b).
Proof. revert b; induction ts as [|u ts IH]; intros b; cbn; [done|apply IH]. Qed.
Lemma bucket_answers_snoc ts t b :
  bucket_answers (ts ++ [t]) b = bucket_answers ts b ++ [eval (AllowN t) (bucket_after ts b)].
Proof. revert b; induction ts as [|u ts IH]; intros b; cbn; [done|by rewrite IH]. Qed.

Definition asked (a : nat) (log : list verdict) : list verdict := filter (fun v => vd_bucket v = a) log.
Definition of_client (key : string) (log : list verdict) : list verdict := filter (fun v => vd_key v = key) log.

(** The client has a bucket in the cache; the run never drops it. *)
Definition cached (key : string) (l : ClientRateLimiter) : bool := bool_decide (is_Some (lru_view (rl_cache l) !! key)).

Fixpoint kept (key : string) (l : list revent) (x : rsys) : bool :=
  match l with
  | [] => true
  | e :: l =>
      match rstep e x with
      | Some x' => implb (cached key (rs_lim x)) (cached key (rs_lim x')) && kept key l x'
      | None => true
      end
  end.

(** ** The invariant

    [owner] is the client for which each bucket was made. *)
Definition owned (owner : gmap nat string) (pc : allow_pc) : Prop :=
  match pc with
  | AAdd _ key a | AAsk _ key a => owner !! a = Some key
  | _ => True
  end.

Record rinv (cfg : config) (x : rsys) (owner : gmap nat string) : Prop := mkRinv {
  ri_config : rl_config (rs_lim x) = cfg;
  ri_next : forall a, is_Some (owner !! a) -> (a < rl_next (rs_lim x))%nat;
  ri_view : forall k a, lru_view (rl_cache (rs_lim x)) !! k = Some a -> owner !! a = Some k;
  ri_calls : forall n pc, rs_calls x !! n = Some pc -> owned owner pc;
  ri_log : forall v, v ∈ rs_log x -> owner !! vd_bucket v = Some (vd_key v);
  ri_heap : forall a, is_Some (owner !! a) ->
    let b := NewLimiter (ratePerSecond cfg) (burstSize cfg) in
    rl_heap (rs_lim x) !! a = Some (bucket_after (vd_time <$> asked a (rs_log x)) b) /\
    vd_ok <$> asked a (rs_log x) = bucket_answers (vd_time <$> asked a (rs_log x)) b;
}.

Lemma owned_mono owner owner' pc : owner ⊆ owner' -> owned owner pc -> owned owner' pc.
Proof. intros Ho. destruct pc; cbn; try done; intros H; by eapply lookup_weaken. Qed.

Lemma add_view key fresh c k a :
  lru_view (lru_PeekOrAdd key fresh c).2 !! k = Some a ->
  lru_view c !! k = Some a \/ k = key /\ a = fresh.
Proof.
  rewrite lru_PeekOrAdd_spec. destruct (lru_view c !! key) as [a'|] eqn:E; cbn; [by left|].
  destruct (decide (k = key)) as [->|Hk].
  - rewrite lru_Add_same. intros [= <-]. by right.
  - destruct (lru_Add_other key fresh c k Hk) as [-> | ->]; [done|by left].
Qed.

(** A call moves: what the invariant asks of the new place and of the limiter. *)
Lemma rinv_go cfg x owner owner' n pc l' new :
  rinv cfg x owner -> owner ⊆ owner' -> owned owner' pc ->
  rl_config l' = cfg -> (forall a, is_Some (owner' !! a) -> (a < rl_next l')%nat) ->
  (forall k a, lru_view (rl_cache l') !! k = Some a -> owner' !! a = Some k) ->
  (forall v, v ∈ new -> owner' !! vd_bucket v = Some (vd_key v)) ->
  (forall a, is_Some (owner' !! a) ->
     let b := NewLimiter (ratePerSecond cfg) (burstSize cfg) in
     rl_heap l' !! a = Some (bucket_after (vd_time <$> asked a (rs_log x ++ new)) b) /\
     vd_ok <$> asked a (rs_log x ++ new) = bucket_answers (vd_time <$> asked a (rs_log x ++ new)) b) ->
  rinv cfg (mkRsys l' (<[n := pc]> (rs_calls x)) (rs_log x ++ new)) owner'.
Proof.
  intros [H1 H2 H3 H4 H5 H6] Ho Hpc Hc Hn Hv Hl Hh. split; cbn; try done.
  - intros i pc'. rewrite lookup_insert. case_decide; [by intros [= <-]|]. intros Hi. by eapply owned_mono, H4.
  - intros v [Hin|Hin]%elem_of_app; [|by apply Hl]. by eapply lookup_weaken, Ho; apply H5.
Qed.

Lemma asked_snoc a log v : asked a (log ++ [v]) = if decide (vd_bucket v = a) then asked a log ++ [v] else asked a log.
Proof. unfold asked. rewrite filter_app, filter_cons, filter_nil. by case_decide; rewrite ?app_nil_r. Qed.

Lemma asked_none (owner : gmap nat string) (log : list verdict) a :
  (forall v, v ∈ log -> owner !! vd_bucket v = Some (vd_key v)) -> owner !! a = None -> asked a log = [].
Proof.
  intros Hl Ha. destruct (asked a log) as [|v vs] eqn:E; [done|].
  assert (Hv : v ∈ asked a log) by (rewrite E; by left). apply list_elem_of_filter in Hv as [<- Hv].
  specialize (Hl v Hv). congruence.
Qed.

Lemma rinv_step cfg e x x' owner :
  rinv cfg x owner -> rstep e x = Some x' -> exists owner', owner ⊆ owner' /\ rinv cfg x' owner'.
Proof.
  intros Hi Hs. pose proof Hi as [H1 H2 H3 H4 H5 H6]. destruct e as [n t req|n]; cbn in Hs.
  { destruct (rs_calls x !! n); [done|]. injection Hs as <-. exists owner. split; [done|].
    rewrite <- (app_nil_r (rs_log x)). apply (rinv_go cfg x owner); try done; [by intros v ?%elem_of_nil|].
    intros a Ha. rewrite app_nil_r. by apply H6. }
  apply bind_Some in Hs as (pc & Hpc & ([pc' l'] & Hst & Hs)%bind_Some). pose proof (H4 n pc Hpc) as Hown.
  injection Hs as <-. destruct pc as [t req|t key fresh|t key a|ok]; cbn in Hst.
  - pose proof (lru_Get_value (rl_keyFn (rs_lim x) req) (rl_cache (rs_lim x))) as Gv.
    pose proof (lru_Get_view (rl_keyFn (rs_lim x) req) (rl_cache (rs_lim x))) as Gw.
    unfold eval, exec in Gv, Gw. destruct (lru_Get _ _) as [[a|] c]; cbn [fst snd] in Gv, Gw; injection Hst as <- <-.
    + exists owner. split; [done|]. apply (rinv_go cfg x owner); cbn; try done; [by apply H3|by rewrite Gw|by intros v ?%elem_of_nil|].
      intros a' Ha'. rewrite app_nil_r. by apply H6.
    + set (key := rl_keyFn _ _) in *. set (a := rl_next (rs_lim x)).
      assert (Hnew : owner !! a = None).
      { destruct (owner !! a) eqn:E; [|done]. assert (a < a)%nat by (apply H2; by eexists). lia. }
      exists (<[a := key]> owner). split; [by apply insert_subseteq|].
      assert (Hsub : owner ⊆ <[a := key]> owner) by (by apply insert_subseteq).
      apply (rinv_go cfg x owner); cbn; try done.
      * by rewrite lookup_insert_eq.
      * intros a'. rewrite lookup_insert. case_decide; [subst; lia|]. intros Ha'%H2. lia.
      * rewrite Gw. intros k a' Hk. by eapply lookup_weaken, Hsub; apply H3.
      * by intros v ?%elem_of_nil.
      * intros a'. rewrite app_nil_r, !lookup_insert. case_decide as Ha'; [subst a'|rewrite decide_False by done; apply H6].
        rewrite decide_True, (asked_none owner _ a H5 Hnew) by done. cbn. unfold fresh_bucket. cbn. by rewrite H1.
  - exists owner. split; [done|]. pose proof (add_view key fresh (rl_cache (rs_lim x))) as Av.
    pose proof (lru_PeekOrAdd_spec key fresh (rl_cache (rs_lim x))) as Ap.
    destruct (lru_PeekOrAdd _ _ _) as [previous c]. cbn in Av. injection Hst as <- <-.
    apply (rinv_go cfg x owner); cbn; try done.
    + destruct (lru_view _ !! key) as [a|] eqn:E; [|by injection Ap as -> _]. injection Ap as -> _. by apply H3.
    + intros k a Hk. destruct (Av k a Hk) as [Hk'|[-> ->]]; [by apply H3|done].
    + by intros v ?%elem_of_nil.
    + intros a Ha. rewrite app_nil_r. by apply H6.
  - exists owner. split; [done|]. destruct (H6 a) as [Hb Hok]; [by rewrite Hown|]. rewrite Hb in Hst. cbn in Hst.
    destruct (AllowN t _) as [ok b'] eqn:Ea. injection Hst as <- <-.
    apply (rinv_go cfg x owner); cbn; try done; [by intros v ->%list_elem_of_singleton|].
    intros a' Ha'. destruct (H6 a' Ha') as [Hb' Hok']. rewrite asked_snoc, lookup_insert. cbn.
    case_decide as E; [subst a'|done]. rewrite !fmap_app. cbn. rewrite bucket_after_snoc, bucket_answers_snoc, Hok.
    unfold eval, exec. by rewrite Ea.
  - done.
Qed.

Lemma rinv_run cfg l x x' owner :
  rinv cfg x owner -> rrun l x = Some x' -> exists owner', rinv cfg x' owner'.
Proof.
  intros Hi Hr. apply (run_steps_inv rstep (fun x => exists owner, rinv cfg x owner) l x x'); [|by eexists|done].
  intros e x1 x2 [o Ho] Hs. destruct (rinv_step cfg e x1 x2 o Ho Hs) as (o' & _ & Ho'). by exists o'.
Qed.

(** *** Whose answer it is *)

(** A call answers for the client its request came from, at the time it came. *)
Definition traced (f : ClientKeyFn) (l : list revent) (log : list verdict) (n : nat) (pc : allow_pc) : Prop :=
  match pc with
  | AGet t req => RArrive n t req ∈ l
  | AAdd t key _ | AAsk t key _ => exists req, RArrive n t req ∈ l /\ key = f req
  | AEnd ok => exists req v, RArrive n (vd_time v) req ∈ l /\ v ∈ log /\ vd_call v = n /\ vd_key v = f req /\ vd_ok v = ok
  end.

Lemma traced_mono f l e log new n pc : traced f l log n pc -> traced f (l ++ [e]) (log ++ new) n pc.
Proof. destruct pc; cbn; set_solver. Qed.

Lemma traced_run f l l0 x :
  rl_keyFn l0 = f -> rrun l (rsys0 l0) = Some x ->
  rl_keyFn (rs_lim x) = f /\ forall n pc, rs_calls x !! n = Some pc -> traced f l (rs_log x) n pc.
Proof.
  intros Hf. apply (run_steps_hist rstep (fun l x => rl_keyFn (rs_lim x) = f /\
    forall n pc, rs_calls x !! n = Some pc -> traced f l (rs_log x) n pc)); [by split|]. clear.
  intros l e x x' [Hk Hc] Hs. destruct e as [n t req|n]; cbn in Hs.
  - destruct (rs_calls x !! n); [done|]. injection Hs as <-. split; [done|]. cbn. intros i pc.
    rewrite lookup_insert. case_decide as Hi; [intros [= <-]; subst i; cbn; set_solver|].
    intros Hpc. rewrite <- (app_nil_r (rs_log x)). by apply traced_mono, Hc.
  - apply bind_Some in Hs as (pc & Hpc & ([pc' l'] & Hst & [= <-])%bind_Some). cbn.
    specialize (Hc n pc Hpc) as Hn. enough (rl_keyFn l' = f /\ traced f (l ++ [RGo n])
      (rs_log x ++ match pc, pc' with AAsk t key a, AEnd ok => [mkVerdict n key a t ok] | _, _ => [] end) n pc') as [? ?].
    { split; [done|]. intros i pc2. rewrite lookup_insert. case_decide as Hi; [by intros [= <-]; subst i|].
      intros Hpc2. by apply traced_mono, Hc. }
    destruct pc as [t req|t key fresh|t key a|ok]; cbn in Hst, Hn.
    + destruct (lru_Get _ _) as [[a|] c]; injection Hst as <- <-; (split; [done|]); cbn; exists req; rewrite Hk; set_solver.
    + destruct (lru_PeekOrAdd _ _ _) as [previous c]. injection Hst as <- <-. split; [done|]. cbn. set_solver.
    + apply bind_Some in Hst as (b & _ & Hst). destruct (AllowN t b) as [ok b']. injection Hst as <- <-. split; [done|].
      destruct Hn as (req & Hin & ->). exists req, (mkVerdict n (f req) a t ok). cbn. set_solver.
    + done.
Qed.

(** *** One bucket, as long as it is kept *)

(** The client's requests have asked this bucket, or are about to. *)
Definition uses (key : string) (a : nat) (x : rsys) : Prop :=
  (exists n t, rs_calls x !! n = Some (AAsk t key a)) \/
  (exists v, v ∈ rs_log x /\ vd_key v = key /\ vd_bucket v = a).

Definition one_bucket (key : string) (x : rsys) : Prop :=
  forall a, uses key a x -> lru_view (rl_cache (rs_lim x)) !! key = Some a.

(** Adding a client's bucket leaves another's as it is, or drops it. *)
Lemma add_other key fresh c k a :
  lru_view c !! k = Some a -> is_Some (lru_view (lru_PeekOrAdd key fresh c).2 !! k) ->
  lru_view (lru_PeekOrAdd key fresh c).2 !! k = Some a.
Proof.
  intros Hk. rewrite lru_PeekOrAdd_spec. destruct (lru_view c !! key) as [a'|] eqn:E; cbn; [done|].
  assert (Hne : k <> key) by (intros ->; congruence).
  destruct (lru_Add_other key fresh c k Hne) as [-> | ->]; [by intros []|done].
Qed.

Lemma one_bucket_go key x n pc pc' l' new :
  one_bucket key x -> rs_calls x !! n = Some pc ->
  (forall a, lru_view (rl_cache (rs_lim x)) !! key = Some a -> lru_view (rl_cache l') !! key = Some a) ->
  (forall a, (exists t, pc' = AAsk t key a) -> lru_view (rl_cache l') !! key = Some a) ->
  (forall v, v ∈ new -> exists t, pc = AAsk t (vd_key v) (vd_bucket v)) ->
  one_bucket key (mkRsys l' (<[n := pc']> (rs_calls x)) (rs_log x ++ new)).
Proof.
  intros Ho Hpc Hv Hnew Hlog a [(i & t & Hi)|(v & Hin & Hk & Hb)]; cbn in *.
  - rewrite lookup_insert in Hi. case_decide; [injection Hi as ->; apply Hnew; by exists t|].
    apply Hv, Ho. left. by exists i, t.
  - apply Hv, Ho. apply elem_of_app in Hin as [Hin|Hin]; [right; by exists v|].
    destruct (Hlog v Hin) as [t ->]. left. exists n, t. by subst.
Qed.

Lemma one_bucket_step key e x x' :
  one_bucket key x -> (cached key (rs_lim x) = true -> cached key (rs_lim x') = true) ->
  rstep e x = Some x' -> one_bucket key x'.
Proof.
  unfold cached. rewrite !bool_decide_eq_true. intros Ho Hkept Hs. destruct e as [n t req|n]; cbn in Hs.
  { destruct (rs_calls x !! n); [done|]. injection Hs as <-. intros a [(i & t' & Hi)|Hv]; cbn in *; apply Ho; [|by right].
    rewrite lookup_insert in Hi. case_decide; [done|]. left. by exists i, t'. }
  apply bind_Some in Hs as (pc & Hpc & ([pc' l'] & Hst & [= <-])%bind_Some). cbn in Hkept.
  destruct pc as [t req|t k fresh|t k a|ok]; cbn in Hst.
  - pose proof (lru_Get_value (rl_keyFn (rs_lim x) req) (rl_cache (rs_lim x))) as Gv.
    pose proof (lru_Get_view (rl_keyFn (rs_lim x) req) (rl_cache (rs_lim x))) as Gw.
    unfold eval, exec in Gv, Gw. destruct (lru_Get _ _) as [[a|] c]; cbn [fst snd] in Gv, Gw; injection Hst as <- <-;
      eapply one_bucket_go; try done; cbn; rewrite ?Gw; try done; try (by intros v ?%elem_of_nil); by intros a' [t' [= -> <- ->]].
  - pose proof (add_other k fresh (rl_cache (rs_lim x)) key) as Ao.
    pose proof (lru_PeekOrAdd_spec k fresh (rl_cache (rs_lim x))) as Ap.
    destruct (lru_PeekOrAdd _ _ _) as [previous c]. cbn [snd] in Ao. injection Hst as <- <-. cbn in Hkept.
    eapply one_bucket_go; try done; cbn; [| |by intros v ?%elem_of_nil].
    + intros a Ha. apply Ao; [done|]. apply Hkept. by rewrite Ha.
    + intros a' [t' [= -> -> <-]]. destruct (lru_view _ !! key) as [a|] eqn:E; injection Ap as -> ->; [done|]. apply lru_Add_same.
  - apply bind_Some in Hst as (b & _ & Hst). destruct (AllowN t b) as [ok b']. injection Hst as <- <-.
    eapply one_bucket_go; try done; cbn; [by intros a' []|]. intros v ->%list_elem_of_singleton. by exists t.
  - done.
Qed.

Lemma one_bucket_run key l x x' :
  kept key l x = true -> one_bucket key x -> rrun l x = Some x' -> one_bucket key x'.
Proof.
  revert x; induction l as [|e l IH]; intros x Hk Ho Hr; [by injection Hr as <-|].
  apply run_steps_cons in Hr as (x1 & H1 & H2). cbn in Hk. rewrite H1 in Hk.
  apply andb_true_iff in Hk as [Hk1 Hk2]. apply (IH x1); [done| |done].
  eapply one_bucket_step; [done| |done]. intros Hc. by rewrite Hc in Hk1.
Qed.

Lemma new_limiter rateStr burst maxSize keyFn l0 :
  0 < maxSize -> NewClientRateLimiter rateStr burst maxSize keyFn = Ok l0 ->
  lru_view (rl_cache l0) = ∅ /\ rl_heap l0 = ∅ /\ rl_keyFn l0 = keyFn.
Proof.
  intros (c & E & Hv)%lru_New_pos. unfold NewClientRateLimiter. destruct (newConfig rateStr burst); [|done].
  rewrite E. by intros [= <-].
Qed.

Lemma rinv0 l0 : lru_view (rl_cache l0) = ∅ -> rinv (rl_config l0) (rsys0 l0) ∅.
Proof.
  intros Hv. split; cbn; [done|..].
  - intros a [k Hk]. by rewrite lookup_empty in Hk.
  - intros k a. by rewrite Hv, lookup_empty.
  - intros n pc. by rewrite lookup_empty.
  - by intros v ?%elem_of_nil.
  - intros a [k Hk]. by rewrite lookup_empty in Hk.
Qed.

Lemma filter_ext_in {A} (P Q : A -> Prop) `{!forall x, Decision (P x), !forall x, Decision (Q x)} (l : list A) :
  (forall x, x ∈ l -> P x <-> Q x) -> filter P l = filter Q l.
Proof.
  induction l as [|x l IH]; intros Heq; [done|]. rewrite !filter_cons, IH by set_solver.
  destruct (Heq x) as [H1 H2]; [by left|]. by repeat case_decide; auto; exfalso; auto.
Qed.

(** C20. The limits hold however requests interleave. For every run of concurrent requests at a new
    limiter: each bucket answers exactly as if it had been asked the same questions one after the
    other, starting full; no bucket ever serves two clients; every request is answered for the
    client it came from, at the time it came, and finds its bucket; and as long as the cache does
    not drop a client's bucket, all answers to this client come from a single one, so that two
    first requests at once do not get two allowances. *)
Theorem concurrent_clients_limited (rateStr : string) (burst maxSize : Z) (keyFn : ClientKeyFn)
    (l0 : ClientRateLimiter) (l : list revent) (x : rsys) :
  0 < maxSize -> NewClientRateLimiter rateStr burst maxSize keyFn = Ok l0 -> rrun l (rsys0 l0) = Some x ->
  let b := fresh_bucket l0 in
  (forall a, vd_ok <$> asked a (rs_log x) = bucket_answers (vd_time <$> asked a (rs_log x)) b) /\
  (forall v v', v ∈ rs_log x -> v' ∈ rs_log x -> vd_bucket v = vd_bucket v' -> vd_key v = vd_key v') /\
  (forall n pc, rs_calls x !! n = Some pc ->
     traced keyFn l (rs_log x) n pc /\ ((exists ok, pc = AEnd ok) \/ is_Some (rstep (RGo n) x))) /\
  (forall key, kept key l (rsys0 l0) = true ->
     vd_ok <$> of_client key (rs_log x) = bucket_answers (vd_time <$> of_client key (rs_log x)) b).
Proof.
  intros Hpos Hnew Hr b. destruct (new_limiter _ _ _ _ _ Hpos Hnew) as (Hv & _ & Hf).
  destruct (rinv_run _ l _ x _ (rinv0 l0 Hv) Hr) as [owner [R1 R2 R3 R4 R5 R6]].
  destruct (traced_run keyFn l l0 x Hf Hr) as [_ Ht].
  assert (Hone : forall v v', v ∈ rs_log x -> v' ∈ rs_log x -> vd_bucket v = vd_bucket v' -> vd_key v = vd_key v').
  { intros v v' H1%R5 H2%R5 E. rewrite E in H1. congruence. }
  assert (Hans : forall a, vd_ok <$> asked a (rs_log x) = bucket_answers (vd_time <$> asked a (rs_log x)) b).
  { intros a. destruct (owner !! a) as [k|] eqn:Ea; [by apply R6|]. by rewrite (asked_none owner _ a R5 Ea). }
  split_and!; [done|done|..].
  - intros n pc Hpc. split; [by apply Ht|]. cbn. rewrite Hpc. cbn. specialize (R4 n pc Hpc).
    destruct pc as [t req|t key fresh|t key a|ok]; cbn; [..|left; by eexists]; right.
    + destruct (lru_Get _ _) as [[a|] c]; by eexists.
    + destruct (lru_PeekOrAdd _ _ _); by eexists.
    + destruct (R6 a) as [-> _]; [by rewrite R4|]. cbn. destruct (AllowN t _). by eexists.
  - intros key Hk. assert (Ho : one_bucket key x).
    { eapply one_bucket_run; [exact Hk| |exact Hr]. intros a [(n & t & Hn)|(v & Hin & _)]; cbn in *;
        [by rewrite lookup_empty in Hn|by apply elem_of_nil in Hin]. }
    destruct (of_client key (rs_log x)) as [|v vs] eqn:E; [done|]. rewrite <- E.
    assert (Hin : v ∈ of_client key (rs_log x)) by (rewrite E; by left). apply list_elem_of_filter in Hin as [Hkey Hin].
    enough (of_client key (rs_log x) = asked (vd_bucket v) (rs_log x)) as -> by done.
    apply filter_ext_in. intros v' Hin'. split; [|intros Hb; rewrite <- Hkey; by apply Hone].
    intros Hkey'. assert (Hu : lru_view (rl_cache (rs_lim x)) !! key = Some (vd_bucket v')) by (apply Ho; right; by exists v').
    rewrite (Ho (vd_bucket v)) in Hu by (right; by exists v). congruence.
Qed.
End Conc.

Module RateConcDemo.
Import RateDemo.
#[local] Existing Instances demo_limiter demo_ip.

(** Two requests of one client, known by its address, that both find no bucket; the burst is 1. *)
Definition demo_events : list revent :=
  [RArrive 0 5%Z (demo_req []); RArrive 1 6%Z (demo_req []); RGo 0; RGo 1; RGo 1; RGo 0; RGo 0; RGo 1]%nat.

Definition demo_rl0 : ClientRateLimiter := mkClientRateLimiter (mkConfig (float64_of_Z 1) 1) (mkLruList 2 []) ∅ 0 req_RemoteAddr.
Definition demo_rx : rsys := default (rsys0 demo_rl0) (rrun demo_events (rsys0 demo_rl0)).

Lemma concurrent_clients_limited_witness :
  vd_ok <$> of_client "1.1.1.1:80" (rs_log demo_rx) = [true; false].
Proof.
  assert (H1 : NewClientRateLimiter "1/s" 1 3 req_RemoteAddr = Ok demo_rl0) by reflexivity.
  assert (H2 : rrun demo_events (rsys0 demo_rl0) = Some demo_rx).
  { assert (E : match rrun demo_events (rsys0 demo_rl0) with Some _ => true | None => false end = true) by (vm_compute; reflexivity).
    unfold demo_rx. by destruct (rrun _ _). }
  assert (H3 : kept "1.1.1.1:80" demo_events (rsys0 demo_rl0) = true) by (vm_compute; reflexivity).
  exact (proj2 (proj2 (proj2 (concurrent_clients_limited "1/s" 1 3 req_RemoteAddr demo_rl0 demo_events demo_rx ltac:(lia) H1 H2)))
    "1.1.1.1:80" H3).
Defined.
End RateConcDemo.
