(* ===== verification/GoHttp.v ===== *)
(** * What the program uses of [net/http] and [net/http/httputil]

    Headers with their canonical keys, and the parts of [httputil.ReverseProxy] that decide what is
    sent upstream: the preparation of the outgoing request, [ProxyRequest.SetURL] and
    [ProxyRequest.SetXForwarded]. Copying the answer back and protocol upgrades are not here. *)
From S2P Require Import Prelude.
From S2P Require Import GoStrings.
From S2P Require Import GoUrl.
From S2P Require Import Http.
From S2P Require Import RateLimit.

(** *** Headers *)

Notation headers := (gmap string (list string)).


Definition validHeaderFieldByte (c : ascii) : bool :=
  is_alpha c || is_digit c || strings_ContainsByte "!#$%&'*+-.^_`|~" c.

Definition upper_ascii (c : ascii) : ascii :=
  if ascii_between 97 122 c then byte (nat_of_ascii c - 32) else c.

(** Upper case for the first letter and the letters that follow a hyphen, lower case for the others. *)
Fixpoint canonical_from (upper : bool) (s : string) : string :=
  match s with
  | EmptyString => EmptyString
  | String c s' =>
      String (if upper then upper_ascii c else lower_ascii c) (canonical_from (bool_decide (c = "-"%char)) s')
  end.

(** [textproto.CanonicalMIMEHeaderKey]. *)
Definition CanonicalHeaderKey (s : string) : string :=
  if string_forallb validHeaderFieldByte s then canonical_from true s else s.

Definition Header_Values (h : headers) (key : string) : list string := default [] (h !! CanonicalHeaderKey key).
Definition Header_Get (h : headers) (key : string) : string := default "" (head (Header_Values h key)).
Definition Header_Set (key value : string) (h : headers) : headers := <[CanonicalHeaderKey key := [value]]> h.
Definition Header_Del (key : string) (h : headers) : headers := delete (CanonicalHeaderKey key) h.

(** Every key is canonical, as in a request that net/http's server has read. *)
Definition canonical (h : headers) : Prop := forall k v, h !! k = Some v -> CanonicalHeaderKey k = k.

(** [httpguts.HeaderValuesContainsToken]. *)
Definition HeaderValuesContainsToken (values : list string) (token : string) : bool :=
  existsb (fun v => existsb (fun t => strings_EqualFold (strings_TrimSpace t) token) (strings_Split v ","%char)) values.

(** *** Requests *)

(** The parts of a [url.URL] that matter to a server. *)
Record PURL := mkPURL {
  pu_Scheme : string;
  pu_Host : string;
  pu_Path : string;
  pu_RawPath : string;
  pu_RawQuery : string;
}.

Record HttpRequest := mkHttpRequest {
  hq_Method : string;
  hq_URL : PURL;
  hq_Host : string;
  hq_RemoteAddr : string;
  hq_TLS : bool;
  hq_Header : headers;
}.

Definition set_header (f : headers -> headers) (r : HttpRequest) : HttpRequest :=
  mkHttpRequest (hq_Method r) (hq_URL r) (hq_Host r) (hq_RemoteAddr r) (hq_TLS r) (f (hq_Header r)).
Definition set_URL (u : PURL) (host : string) (r : HttpRequest) : HttpRequest :=
  mkHttpRequest (hq_Method r) u host (hq_RemoteAddr r) (hq_TLS r) (hq_Header r).

(** *** URLs *)

Fixpoint ends_with (c : ascii) (s : string) : bool :=
  match s with
  | EmptyString => false
  | String d EmptyString => bool_decide (d = c)
  | String _ s' => ends_with c s'
  end.

Definition string_tail (s : string) : string := match s with String _ s' => s' | EmptyString => EmptyString end.

(** Joins two paths with one slash; [aslash] and [bslash] say which of them has one already. *)
Definition join_slash (aslash bslash : bool) (a b : string) : string :=
  if aslash && bslash then a +:+ string_tail b
  else if negb aslash && negb bslash then a +:+ "/" +:+ b
  else a +:+ b.

(** [joinURLPath]: the path and the raw path. *)
Definition joinURLPath (a b : PURL) : string * string :=
  if bool_decide (pu_RawPath a = "") && bool_decide (pu_RawPath b = "") then
    (join_slash (ends_with "/" (pu_Path a)) (strings_HasPrefix (pu_Path b) "/") (pu_Path a) (pu_Path b), "")
  else
    let apath := EscapedPath (pu_RawPath a) (pu_Path a) in
    let bpath := EscapedPath (pu_RawPath b) (pu_Path b) in
    let aslash := ends_with "/" apath in
    let bslash := strings_HasPrefix bpath "/" in
    (join_slash aslash bslash (pu_Path a) (pu_Path b), join_slash aslash bslash apath bpath).

(** [ProxyRequest.SetURL], on the outgoing request. *)
Definition SetURL (target : PURL) (out : HttpRequest) : HttpRequest :=
  let u := hq_URL out in
  let '(path, rawPath) := joinURLPath target u in
  let query := if bool_decide (pu_RawQuery target = "") || bool_decide (pu_RawQuery u = "")
               then pu_RawQuery target +:+ pu_RawQuery u
               else pu_RawQuery target +:+ "&" +:+ pu_RawQuery u in
  set_URL (mkPURL (pu_Scheme target) (pu_Host target) path rawPath query) "" out.

(** [ProxyRequest.SetXForwarded], on the incoming and the outgoing request. *)
Definition SetXForwarded (inr out : HttpRequest) : HttpRequest :=
  set_header (fun h =>
    let h := match SplitHost (hq_RemoteAddr inr) with
             | Some ip =>
                 let prior := default [] (h !! "X-Forwarded-For") in
                 let ip := if bool_decide (prior = []) then ip else strings_Join prior ", " +:+ ", " +:+ ip in
                 Header_Set "X-Forwarded-For" ip h
             | None => Header_Del "X-Forwarded-For" h
             end in
    let h := Header_Set "X-Forwarded-Host" (hq_Host inr) h in
    Header_Set "X-Forwarded-Proto" (if hq_TLS inr then "https" else "http") h) out.

(** *** [ReverseProxy] *)

Definition hopHeaders : list string :=
  ["Connection"; "Proxy-Connection"; "Keep-Alive"; "Proxy-Authenticate"; "Proxy-Authorization"; "Te";
   "Trailer"; "Transfer-Encoding"; "Upgrade"].

Definition del_all (keys : list string) (h : headers) : headers := fold_left (fun h k => Header_Del k h) keys h.

(** The headers that the Connection header names. *)
Definition connection_named (h : headers) : list string :=
  List.filter (fun k => negb (bool_decide (k = "")))
    (map strings_TrimSpace (List.concat (map (fun v => strings_Split v ","%char) (default [] (h !! "Connection"))))).

Definition removeHopByHopHeaders (h : headers) : headers :=
  del_all hopHeaders (del_all (connection_named h) h).

Definition upgradeType (h : headers) : string :=
  if HeaderValuesContainsToken (default [] (h !! "Connection")) "Upgrade" then Header_Get h "Upgrade" else "".

Definition forwardingHeaders : list string := ["Forwarded"; "X-Forwarded-For"; "X-Forwarded-Host"; "X-Forwarded-Proto"].

(** The outgoing headers as [Rewrite] finds them. *)
Definition prepare_header (h : headers) : headers :=
  let upType := upgradeType h in
  let h1 := removeHopByHopHeaders h in
  let h2 := if HeaderValuesContainsToken (default [] (h !! "Te")) "trailers" then Header_Set "Te" "trailers" h1 else h1 in
  let h3 := if bool_decide (upType = "") then h2
            else Header_Set "Upgrade" upType (Header_Set "Connection" "Upgrade" h2) in
  del_all forwardingHeaders h3.

(** What is sent upstream for a request, given [Rewrite]; [cleanQuery] is net/url's reprinting of a
    query that it cannot parse. *)
Definition outgoing (cleanQuery : string -> string) (Rewrite : HttpRequest -> HttpRequest -> HttpRequest)
    (req : HttpRequest) : HttpRequest :=
  let u := hq_URL req in
  let out := set_header prepare_header
    (set_URL (mkPURL (pu_Scheme u) (pu_Host u) (pu_Path u) (pu_RawPath u) (cleanQuery (pu_RawQuery u)))
       (hq_Host req) req) in
  let out := Rewrite req out in
  set_header (fun h => match h !! "User-Agent" with Some _ => h | None => Header_Set "User-Agent" "" h end) out.

(** *** Facts *)

Create HintDb hdr.

Lemma del_all_lookup keys h k :
  del_all keys h !! k = if decide (k ∈ map CanonicalHeaderKey keys) then None else h !! k.
Proof.
  unfold del_all. revert h; induction keys as [|x keys IH]; intros h; cbn [fold_left map].
  { by rewrite decide_False by apply not_elem_of_nil. }
  rewrite IH. unfold Header_Del. destruct (decide (k ∈ map CanonicalHeaderKey keys)) as [Hin|Hn].
  { by rewrite decide_True by (by right). }
  destruct (decide (k = CanonicalHeaderKey x)) as [->|Hne].
  - by rewrite lookup_delete_eq, decide_True by left.
  - rewrite lookup_delete_ne, decide_False; [done| |done]. rewrite elem_of_cons. tauto.
Qed.

Lemma canonical_Del key h : canonical h -> canonical (Header_Del key h).
Proof. intros H k v. unfold Header_Del. intros [_ Hk]%lookup_delete_Some. by apply (H k v). Qed.

Lemma canonical_del_all keys h : canonical h -> canonical (del_all keys h).
Proof. intros H k v. rewrite del_all_lookup. case_decide; [done|]. apply H. Qed.

Lemma canonical_Set key v h :
  CanonicalHeaderKey (CanonicalHeaderKey key) = CanonicalHeaderKey key -> canonical h -> canonical (Header_Set key v h).
Proof. intros Hk H k w. unfold Header_Set. intros [[<- _]|[_ Hw]]%lookup_insert_Some; [done|]. by apply (H k w). Qed.

#[export] Hint Resolve canonical_Del canonical_del_all : hdr.
#[export] Hint Extern 2 (canonical (Header_Set _ _ _)) => apply canonical_Set; [vm_compute; reflexivity|] : hdr.

(** Preparing a request keeps canonical keys, and keeps every header that is not about the
    connection or the forwarding. *)
Lemma canonical_prepare h : canonical h -> canonical (prepare_header h).
Proof.
  intros H. unfold prepare_header, removeHopByHopHeaders.
  destruct (HeaderValuesContainsToken _ _), (bool_decide _); auto 9 with hdr.
Qed.

Definition connection_keys (h : headers) : list string :=
  map CanonicalHeaderKey (hopHeaders ++ connection_named h ++ forwardingHeaders).

Lemma prepare_header_lookup h k :
  k ∉ connection_keys h -> prepare_header h !! k = h !! k.
Proof.
  unfold connection_keys. rewrite !map_app, !elem_of_app. intros Hk. unfold prepare_header, removeHopByHopHeaders.
  rewrite del_all_lookup, decide_False by tauto.
  assert (Hset : forall key v m, key ∈ hopHeaders -> Header_Set key v m !! k = m !! k).
  { intros key v m Hin. apply lookup_insert_ne. intros <-. apply Hk. left. by apply list_elem_of_fmap_2. }
  assert (Hbase : del_all hopHeaders (del_all (connection_named h) h) !! k = h !! k).
  { rewrite !del_all_lookup, !decide_False by tauto. done. }
  assert (Hin : forall key, bool_decide (key ∈ hopHeaders) = true -> key ∈ hopHeaders)
    by (intros key; apply bool_decide_eq_true_1).
  destruct (bool_decide (upgradeType h = "")); [|rewrite !Hset by (apply Hin; vm_compute; reflexivity)];
    (destruct (HeaderValuesContainsToken _ "trailers"); [rewrite Hset by (apply Hin; vm_compute; reflexivity)|]); done.
Qed.

(** A key under which nothing is sent stays so, whatever [ReverseProxy] adds after [Rewrite]. *)
Lemma outgoing_header cq Rw req k :
  k <> "User-Agent" ->
  hq_Header (outgoing cq Rw req) !! k =
    hq_Header (Rw req (set_header prepare_header
      (set_URL (mkPURL (pu_Scheme (hq_URL req)) (pu_Host (hq_URL req)) (pu_Path (hq_URL req))
         (pu_RawPath (hq_URL req)) (cq (pu_RawQuery (hq_URL req)))) (hq_Host req) req))) !! k.
Proof.
  intros Hk. unfold outgoing. cbn [set_header hq_Header]. destruct (hq_Header _ !! "User-Agent"); [done|].
  by apply lookup_insert_ne.
Qed.

(** *** Joining paths *)

Lemma ends_with_app_cons c s d t : ends_with c (s +:+ String d t) = ends_with c (String d t).
Proof.
  induction s as [|x s IH]; [done|]. rewrite string_app_cons, <- IH. by destruct s.
Qed.

Lemma ends_with_escape p s :
  p "/"%char = false -> ends_with "/" (url_escape p s) = ends_with "/" s.
Proof.
  intros Hp. induction s as [|c s IH]; [done|]. cbn [url_escape].
  destruct s as [|d s].
  { cbn [url_escape]. rewrite (right_id_L "" String.append). destruct (p c) eqn:Hc.
    - change (ends_with "/" (String c "")) with (bool_decide (c = "/"%char)).
      rewrite bool_decide_false by (intros ->; congruence).
      destruct (hex_upper_unhex (nat_of_ascii c mod 16)) as [Hx _]; [apply Nat.mod_upper_bound; lia|].
      cbn [ends_with]. apply bool_decide_false. intros E. by rewrite E in Hx.
    - done. }
  change (ends_with "/" (String c (String d s))) with (ends_with "/" (String d s)).
  rewrite <- IH. change (if p d then _ else _) with (if p d then String "%" (String (hex_upper (nat_of_ascii d / 16))
    (String (hex_upper (nat_of_ascii d mod 16)) "")) else String d "").
  change (_ +:+ url_escape p s) with (url_escape p (String d s)).
  destruct (url_escape p (String d s)) as [|e t] eqn:E; [cbn [url_escape] in E; by destruct (p d)|].
  apply ends_with_app_cons.
Qed.
