(* ===== verification/Base64.v ===== *)
(** * Base 64 ([encoding/base64])

    [base64.StdEncoding], [base64.URLEncoding] and the unpadded [base64.RawURLEncoding]. As in Go, decoding skips
    line breaks and does not look at the unused bits of the last character. *)
From S2P Require Import Prelude.
From S2P Require Import GoStrings.

Inductive encoding := StdEncoding | URLEncoding | RawURLEncoding.

Definition enc_62 (e : encoding) : ascii := match e with StdEncoding => "+"%char | _ => "-"%char end.
Definition enc_63 (e : encoding) : ascii := match e with StdEncoding => "/"%char | _ => "_"%char end.
Definition enc_padded (e : encoding) : bool := match e with RawURLEncoding => false | _ => true end.

Definition b64_alphanum : string := "ABCDEFGHIJKLMNOPQRSTUVWXYZabcdefghijklmnopqrstuvwxyz0123456789".

Definition b64_char (e : encoding) (n : Z) : ascii :=
  if n =? 62 then enc_62 e else if n =? 63 then enc_63 e
  else default "A"%char (String.get (Z.to_nat n) b64_alphanum).

Definition b64_val (e : encoding) (c : ascii) : option Z :=
  if ascii_between 65 90 c then Some (Z.of_nat (nat_of_ascii c) - 65)
  else if ascii_between 97 122 c then Some (Z.of_nat (nat_of_ascii c) - 71)
  else if ascii_between 48 57 c then Some (Z.of_nat (nat_of_ascii c) + 4)
  else if decide (c = enc_62 e) then Some 62
  else if decide (c = enc_63 e) then Some 63
  else None.

Definition byte_val (c : ascii) : Z := Z.of_nat (nat_of_ascii c).
Definition val_byte (z : Z) : ascii := byte (Z.to_nat (z mod 256)).

Definition is_newline (c : ascii) : bool := bool_decide (c = byte 10) || bool_decide (c = byte 13).

Fixpoint strip_newlines (s : string) : string :=
  match s with
  | EmptyString => EmptyString
  | String c s' => if is_newline c then strip_newlines s' else String c (strip_newlines s')
  end.

Fixpoint string_repeat (n : nat) (c : ascii) : string :=
  match n with O => EmptyString | S n' => String c (string_repeat n' c) end.

Section Base64.
Context (enc : encoding).
Local Notation padded := (enc_padded enc).
Local Notation b64_char := (b64_char enc).
Local Notation b64_val := (b64_val enc).

Definition pad (n : nat) : string := if padded then string_repeat n "="%char else "".

Fixpoint b64_Encode (s : string) : string :=
  match s with
  | EmptyString => EmptyString
  | String a EmptyString =>
      let v := byte_val a * 65536 in
      String (b64_char (v / 262144)) (String (b64_char (v / 4096 mod 64)) (pad 2))
  | String a (String b EmptyString) =>
      let v := byte_val a * 65536 + byte_val b * 256 in
      String (b64_char (v / 262144)) (String (b64_char (v / 4096 mod 64))
        (String (b64_char (v / 64 mod 64)) (pad 1)))
  | String a (String b (String c rest)) =>
      let v := byte_val a * 65536 + byte_val b * 256 + byte_val c in
      String (b64_char (v / 262144)) (String (b64_char (v / 4096 mod 64))
        (String (b64_char (v / 64 mod 64)) (String (b64_char (v mod 64)) (b64_Encode rest))))
  end.

Fixpoint b64_decode (s : string) : option string :=
  match s with
  | EmptyString => Some EmptyString
  | String c1 (String c2 EmptyString) =>
      if padded then None else
      v1 ← b64_val c1; v2 ← b64_val c2;
      Some (String (val_byte (v1 * 4 + v2 / 16)) EmptyString)
  | String c1 (String c2 (String c3 EmptyString)) =>
      if padded then None else
      v1 ← b64_val c1; v2 ← b64_val c2; v3 ← b64_val c3;
      Some (String (val_byte (v1 * 4 + v2 / 16)) (String (val_byte (v2 * 16 + v3 / 4)) EmptyString))
  | String c1 (String c2 (String c3 (String c4 rest))) =>
      v1 ← b64_val c1; v2 ← b64_val c2;
      let b1 := val_byte (v1 * 4 + v2 / 16) in
      if padded && bool_decide (c4 = "="%char) then
        if decide (rest = "") then
          if decide (c3 = "="%char) then Some (String b1 EmptyString)
          else v3 ← b64_val c3; Some (String b1 (String (val_byte (v2 * 16 + v3 / 4)) EmptyString))
        else None
      else
        v3 ← b64_val c3; v4 ← b64_val c4;
        r ← b64_decode rest;
        Some (String b1 (String (val_byte (v2 * 16 + v3 / 4)) (String (val_byte (v3 * 64 + v4)) r)))
  | String _ EmptyString => None
  end.

Definition b64_DecodeString (s : string) : option string := b64_decode (strip_newlines s).

(** *** Round trip *)

Lemma b64_char_val n : 0 <= n < 64 -> b64_val (b64_char n) = Some n.
Proof.
  intros Hn. rewrite <- (Z2Nat.id n) by lia. assert (H : (Z.to_nat n < 64)%nat) by lia.
  revert H. generalize (Z.to_nat n). clear n Hn. intros n H.
  assert (Hall : forallb (fun k => bool_decide (b64_val (b64_char (Z.of_nat k)) = Some (Z.of_nat k))) (seq 0 64) = true)
    by (destruct enc; vm_compute; reflexivity).
  rewrite forallb_forall in Hall. specialize (Hall n ltac:(apply in_seq; lia)).
  by apply bool_decide_eq_true in Hall.
Qed.

Lemma b64_char_plain n : 0 <= n < 64 ->
  b64_char n <> "="%char /\ is_newline (b64_char n) = false.
Proof.
  intros Hn. pose proof (b64_char_val n Hn) as Hv. split.
  - intros E. rewrite E in Hv. by destruct enc.
  - unfold is_newline. apply orb_false_iff. rewrite !bool_decide_eq_false.
    split; intros E; rewrite E in Hv; by destruct enc.
Qed.

Lemma b64_char_nl n : 0 <= n < 64 -> is_newline (b64_char n) = false.
Proof. apply b64_char_plain. Qed.

Lemma byte_val_bound c : 0 <= byte_val c < 256.
Proof. unfold byte_val. pose proof (nat_ascii_bounded c). lia. Qed.

Lemma val_byte_val c z : z mod 256 = byte_val c -> val_byte z = c.
Proof. intros E. unfold val_byte, byte. rewrite E. unfold byte_val. by rewrite Nat2Z.id, ascii_nat_embedding. Qed.

(** The bytes come back out of the sextets. *)
Lemma sextets (a b c : Z) :
  0 <= a < 256 -> 0 <= b < 256 -> 0 <= c < 256 ->
  let v := a * 65536 + b * 256 + c in
  let v1 := v / 262144 in let v2 := v / 4096 mod 64 in
  let v3 := v / 64 mod 64 in let v4 := v mod 64 in
  (0 <= v1 < 64) /\ (v1 * 4 + v2 / 16) mod 256 = a /\
  (v2 * 16 + v3 / 4) mod 256 = b /\ (v3 * 64 + v4) mod 256 = c.
Proof. intros Ha Hb Hc v v1 v2 v3 v4. unfold v1, v2, v3, v4, v. split_and!; Z.to_euclidean_division_equations; lia. Qed.

(** Induction by groups of three. *)
Lemma string_ind3 (Q : string -> Prop) :
  Q "" -> (forall a, Q (String a "")) -> (forall a b, Q (String a (String b ""))) ->
  (forall a b c r, Q r -> Q (String a (String b (String c r)))) -> forall s, Q s.
Proof.
  intros H0 H1 H2 H3. fix IH 1. intros [|a [|b [|c r]]]; [done|apply H1|apply H2|apply H3, IH].
Qed.

Lemma strip_pad n : strip_newlines (pad n) = pad n.
Proof. unfold pad. destruct padded; [|done]. induction n as [|n IH]; [done|]. cbn. by rewrite IH. Qed.

Lemma b64_mod64 z : 0 <= z mod 64 < 64.
Proof. apply Z.mod_pos_bound. lia. Qed.

Ltac b64_group :=
  repeat first
    [ rewrite b64_char_val by (assumption || apply b64_mod64) | progress cbn [mbind option_bind] ].

Lemma b64_roundtrip s : b64_DecodeString (b64_Encode s) = Some s.
Proof.
  unfold b64_DecodeString. induction s as [|a|a b|a b c r IH] using string_ind3; [done| | |].
  - pose proof (sextets _ 0 0 (byte_val_bound a) ltac:(lia) ltac:(lia)) as (B & E1 & _ & _).
    rewrite !Z.mul_0_l, !Z.add_0_r in *.
    cbn [b64_Encode strip_newlines]. rewrite !b64_char_nl by (done || apply b64_mod64).
    rewrite strip_pad. unfold pad. destruct padded eqn:Ep; cbn [string_repeat b64_decode];
      rewrite ?Ep; b64_group; by rewrite (val_byte_val a).
  - pose proof (sextets _ _ 0 (byte_val_bound a) (byte_val_bound b) ltac:(lia)) as (B & E1 & E2 & _).
    rewrite !Z.add_0_r in *.
    cbn [b64_Encode strip_newlines]. rewrite !b64_char_nl by (done || apply b64_mod64).
    rewrite strip_pad. unfold pad. destruct padded eqn:Ep; cbn [string_repeat b64_decode];
      rewrite ?Ep; b64_group.
    + rewrite bool_decide_true by done. cbn [andb]. rewrite decide_True by done.
      rewrite decide_False by (apply b64_char_plain, b64_mod64). b64_group.
      by rewrite (val_byte_val a), (val_byte_val b).
    + by rewrite (val_byte_val a), (val_byte_val b).
  - pose proof (sextets _ _ _ (byte_val_bound a) (byte_val_bound b) (byte_val_bound c)) as (B & E1 & E2 & E3).
    cbn [b64_Encode strip_newlines]. rewrite !b64_char_nl by (done || apply b64_mod64).
    cbn [b64_decode]. b64_group.
    rewrite (bool_decide_false (_ = "="%char)) by (apply b64_char_plain, b64_mod64).
    rewrite andb_false_r. b64_group. rewrite IH. b64_group.
    by rewrite (val_byte_val a), (val_byte_val b), (val_byte_val c).
Qed.

(** The encoding has none of the characters outside its alphabet. *)
Lemma b64_Encode_forall (p : ascii -> bool) s :
  (forall n, 0 <= n < 64 -> p (b64_char n) = true) -> p "="%char = true ->
  string_forallb p (b64_Encode s) = true.
Proof.
  intros Hp Hpad.
  assert (Hpads : forall n, string_forallb p (pad n) = true).
  { intros n. unfold pad. destruct padded; [|done]. induction n as [|n IH]; [done|]. cbn. by rewrite Hpad. }
  induction s as [|a|a b|a b c r IH] using string_ind3; [done| | |]; cbn [b64_Encode string_forallb];
    rewrite ?Hpads, ?IH, !Hp; try done; try apply b64_mod64.
  - by destruct (sextets _ 0 0 (byte_val_bound a) ltac:(lia) ltac:(lia)) as (B & _);
      rewrite !Z.mul_0_l, !Z.add_0_r in B.
  - by destruct (sextets _ _ 0 (byte_val_bound a) (byte_val_bound b) ltac:(lia)) as (B & _);
      rewrite !Z.add_0_r in B.
  - by destruct (sextets _ _ _ (byte_val_bound a) (byte_val_bound b) (byte_val_bound c)) as (B & _).
Qed.

Lemma b64_no_dot s : strings_ContainsByte (b64_Encode s) "." = false.
Proof.
  pose proof (b64_Encode_forall (fun x => negb (bool_decide (x = "."%char))) s) as Hf.
  specialize (Hf ltac:(intros n Hn; apply negb_true_iff, bool_decide_eq_false; intros E;
    pose proof (b64_char_val n Hn) as Hv; rewrite E in Hv; by destruct enc) eq_refl).
  revert Hf. generalize (b64_Encode s). clear. intros e; induction e as [|x e IH]; [done|].
  cbn [string_forallb strings_ContainsByte]. intros [Hx He]%andb_true_iff.
  apply negb_true_iff, bool_decide_eq_false in Hx. rewrite decide_False by done. by apply IH.
Qed.
End Base64.

Example b64_ex : b64_Encode URLEncoding "light w" = "bGlnaHQgdw==" /\ b64_DecodeString RawURLEncoding "bGlnaHQgdw" = Some "light w".
Proof. vm_compute. split; reflexivity. Qed.
