(* ===== verification/K8sCred.v ===== *)
(** * Kubernetes credentials and transports ([pkg/k8s/credentials.go], [pkg/k8s/factory.go])

    How a credential is read out of a kubeconfig or a pasted token, when a JWT says it expires,
    which transport presents a credential, and the check of a credential with the API server. *)
From S2P Require Import Prelude.
From S2P Require Import GoStrings.
From S2P Require Import Base64.
From S2P Require Import Session.

(** A user entry of a kubeconfig ([clientcmdapi.AuthInfo]); empty means absent. *)
Record AuthInfo := mkAuthInfo {
  ai_Exec : bool;
  ai_AuthProvider : option string;
  ai_Token : string;
  ai_TokenFile : string;
  ai_ClientCertificateData : string;
  ai_ClientKeyData : string;
  ai_ClientCertificate : string;
  ai_ClientKey : string;
  ai_Username : string;
}.

Record Kubeconfig := mkKubeconfig {
  kc_CurrentContext : string;
  kc_Contexts : gmap string string;
  kc_AuthInfos : gmap string AuthInfo;
}.

(** An error of the API server, as [apierrors.IsUnauthorized] and [IsForbidden] tell them apart. *)
Inductive kube_error := KubeUnauthorized (msg : string) | KubeForbidden (msg : string) | KubeOther (msg : string).
Definition kube_error_msg (e : kube_error) : string :=
  match e with KubeUnauthorized m | KubeForbidden m | KubeOther m => m end.

#[export] Instance kube_error_eq_dec : EqDecision kube_error.
Proof. solve_decision. Defined.

(** [rest.Config]: the settings the program reads or writes; [rc_Other] stands for the others. *)
Record RestConfig := mkRestConfig {
  rc_Host : string;
  rc_CAData : option string;
  rc_ServerName : string;
  rc_BearerToken : string;
  rc_BearerTokenFile : string;
  rc_CertData : option string;
  rc_KeyData : option string;
  rc_Other : string;
}.

Definition rc_set_cert (cert key : option string) (c : RestConfig) : RestConfig :=
  mkRestConfig (rc_Host c) (rc_CAData c) (rc_ServerName c) (rc_BearerToken c) (rc_BearerTokenFile c)
    cert key (rc_Other c).

(** The parsers the package calls, and the constructors of client-go. *)
Class KubeLib `{Platform} := {
  (** [clientcmd.Load]. *)
  clientcmd_Load : string -> option Kubeconfig;
  (** [pem.Decode]: the first block's bytes. *)
  pem_Decode : string -> option string;
  (** [x509.ParseCertificate]: the end of the certificate's validity. *)
  x509_NotAfter : string -> option time;
  (** [json.Unmarshal] of the claims: the [exp] claim as an int64, 0 when absent. *)
  json_exp : string -> option Z;
  (** [transport.NewBearerAuthRoundTripper], [rest.TransportFor], [rest.AnonymousClientConfig], and
      [transport.NewImpersonatingRoundTripper]. *)
  NewBearerAuthRoundTripper : string -> RoundTripper -> RoundTripper;
  rest_TransportFor : RestConfig -> result string RoundTripper;
  AnonymousClientConfig : RestConfig -> RestConfig;
  NewImpersonatingRoundTripper : string -> RoundTripper -> RoundTripper;
  (** [utilnet.CloseIdleConnectionsFor] of a transport, as a cleanup closure. *)
  CloseIdleConnectionsFor : RoundTripper -> Cleanup;
  (** [kubernetes.NewForConfigAndClient]: an error, or none. *)
  kubernetes_NewForConfigAndClient : RestConfig -> RoundTripper -> option string;
  (** The i-th SelfSubjectReview sent through a transport. *)
  SelfSubjectReview : nat -> RoundTripper -> result kube_error string;
}.

Section Cred.
Context `{K : KubeLib}.

(** [JWTExpiry]: the zero time unless the token has three parts, the second of which is raw
    base64url of JSON with a non-zero [exp]. *)
Definition JWTExpiry (token : string) : time :=
  match strings_Split (strings_TrimSpace token) "." with
  | [_; payload; _] =>
      match b64_DecodeString RawURLEncoding payload with
      | None => time_zero
      | Some claims =>
          match json_exp claims with
          | None => time_zero
          | Some exp => if exp =? 0 then time_zero else time_Unix exp
          end
      end
  | _ => time_zero
  end.

Definition bearer_val (token : string) (expiry : time) : CredVal :=
  mkCredVal KindBearer (Some token) None None "" expiry.

Definition BearerCredential (token : string) : result string CredVal :=
  if Nat.eqb (String.length (strings_TrimSpace token)) 0 then Err "token is empty"
  else Ok (bearer_val token (JWTExpiry token)).

(** [certCredential], at time [now]. *)
Definition certCredential (t : time) (certPEM keyPEM : string) : result string CredVal :=
  match pem_Decode certPEM with
  | None => Err "client-certificate-data is not valid PEM"
  | Some block =>
      match x509_NotAfter block with
      | None => Err "client-certificate-data is not a valid X.509 certificate"
      | Some notAfter =>
          if time_After t notAfter then Err ("client certificate expired on " +:+ FormatRFC3339 notAfter) else
          match pem_Decode keyPEM with
          | None => Err "client-key-data is not valid PEM"
          | Some _ => Ok (mkCredVal KindCert None (Some certPEM) (Some keyPEM) "" notAfter)
          end
      end
  end.

Definition nonempty (s : string) : bool := negb (bool_decide (s = "")).

Definition exec_unsupported : string :=
  "kubeconfig uses an exec credential plugin, which Antrea UI cannot run on your behalf. " +:+
  "Run the plugin locally and paste the resulting token instead, or use a different login method".
Definition auth_provider_unsupported (name : string) : string :=
  "kubeconfig uses an auth-provider (" +:+ name +:+ "), which Antrea UI does not support. " +:+
  "Use a token or client certificate credential, or a different login method".
Definition token_file_unsupported : string :=
  "kubeconfig references a token file, which only exists on your machine. Paste the token itself instead".
Definition cert_files_unsupported : string :=
  "kubeconfig references certificate files, which only exist on your machine. " +:+
  "Use `kubectl config view --raw --minify` to produce a kubeconfig with the data embedded".

Definition CredentialFromKubeconfig (t : time) (data : string) : result string CredVal :=
  match clientcmd_Load data with
  | None => Err "kubeconfig is not valid YAML/JSON"
  | Some cfg =>
      let contextName := kc_CurrentContext cfg in
      if decide (contextName = "") then Err "kubeconfig has no current-context" else
      match kc_Contexts cfg !! contextName with
      | None => Err ("kubeconfig has no context named " +:+ quote contextName)
      | Some user =>
          match kc_AuthInfos cfg !! user with
          | None => Err ("kubeconfig has no user named " +:+ quote user)
          | Some ai =>
              if ai_Exec ai then Err exec_unsupported
              else match ai_AuthProvider ai with
              | Some name => Err (auth_provider_unsupported name)
              | None =>
                  if nonempty (ai_Token ai) then BearerCredential (ai_Token ai)
                  else if nonempty (ai_TokenFile ai) then Err token_file_unsupported
                  else if nonempty (ai_ClientCertificateData ai) && nonempty (ai_ClientKeyData ai) then
                    certCredential t (ai_ClientCertificateData ai) (ai_ClientKeyData ai)
                  else if nonempty (ai_ClientCertificate ai) || nonempty (ai_ClientKey ai) then
                    Err cert_files_unsupported
                  else if nonempty (ai_Username ai) then
                    Err "kubeconfig uses HTTP basic authentication, which Antrea UI does not support"
                  else Err ("kubeconfig user " +:+ quote user +:+ " has no usable credential")
              end
          end
      end
  end.

(** *** The client factory ([factory.go]) *)

Record ClientFactory := mkClientFactory {
  f_config : RestConfig;
  baseTransport : RoundTripper;
  saTransport : RoundTripper;
  transportKey : string;
}.

Definition NewClientFactory (config : RestConfig) (sa : RoundTripper) (key : string)
    : result string ClientFactory :=
  match rest_TransportFor (AnonymousClientConfig config) with
  | Err e => Err ("failed to build anonymous base transport: " +:+ e)
  | Ok base => Ok (mkClientFactory config base sa key)
  end.

(** The transport of a client certificate: it owns its connections. *)
Definition cert_transport (f : ClientFactory) (cert key : option string) : result string RoundTripper :=
  rest_TransportFor (rc_set_cert cert key (AnonymousClientConfig (f_config f))).

(** [TransportFor]: a [TransportBuilder]. *)
Definition TransportFor (f : ClientFactory) : TransportBuilder := fun cred =>
  if decide (cv_Kind cred = KindBearer) then
    Ok (NewBearerAuthRoundTripper (default "" (cv_Token cred)) (baseTransport f), None)
  else if decide (cv_Kind cred = KindCert) then
    match cert_transport f (cv_CertPEM cred) (cv_KeyPEM cred) with
    | Err e => Err ("failed to build client certificate transport: " +:+ e)
    | Ok rt => Ok (rt, Some (CloseIdleConnectionsFor rt))
    end
  else if decide (cv_Kind cred = KindImpersonate) then
    Ok (NewImpersonatingRoundTripper (cv_UserName cred) (saTransport f), None)
  else Err ("unsupported credential kind " +:+ quote (cv_Kind cred)).

(** The API server's side: how many reviews were sent, and the cleanups run since. *)
Record KubeState := mkKubeState { ks_calls : nat; ks_closed : list Cleanup }.

(** [ValidateCredential]: one review through a transport of its own, which is then released. *)
Definition ValidateCredential (f : ClientFactory) (cred : CredVal)
    : ST KubeState (result kube_error string) := fun ks =>
  match TransportFor f cred with
  | Err e => (Err (KubeOther e), ks)
  | Ok (rt, cleanup) =>
      let closed := ks_closed ks ++ option_list cleanup in
      match kubernetes_NewForConfigAndClient (f_config f) rt with
      | Some e => (Err (KubeOther e), mkKubeState (ks_calls ks) closed)
      | None => (SelfSubjectReview (ks_calls ks) rt, mkKubeState (S (ks_calls ks)) closed)
      end
  end.

(** *** Properties *)

(** The only credentials a kubeconfig yields are the token or the certificate pair embedded in
    the current context's user; a user that runs a plugin, contacts a provider or points at files
    yields none; a certificate is refused once it has expired. *)
Theorem kubeconfig_credential (t : time) (data : string) (v : CredVal) :
  CredentialFromKubeconfig t data = Ok v ->
  exists cfg user ai, clientcmd_Load data = Some cfg /\
    kc_Contexts cfg !! kc_CurrentContext cfg = Some user /\ kc_AuthInfos cfg !! user = Some ai /\
    ai_Exec ai = false /\ ai_AuthProvider ai = None /\
    ((v = bearer_val (ai_Token ai) (JWTExpiry (ai_Token ai)) /\
      strings_TrimSpace (ai_Token ai) <> "") \/
     (ai_Token ai = "" /\ ai_TokenFile ai = "" /\
      cv_Kind v = KindCert /\ cv_Token v = None /\
      cv_CertPEM v = Some (ai_ClientCertificateData ai) /\ cv_KeyPEM v = Some (ai_ClientKeyData ai) /\
      t <= cv_ExpiresAt v)).
Proof.
  unfold CredentialFromKubeconfig, nonempty. intros Hc.
  destruct (clientcmd_Load data) as [cfg|]; [|done]. case_decide as Hctx; [done|].
  destruct (kc_Contexts cfg !! kc_CurrentContext cfg) as [user|] eqn:Hu; [|done].
  destruct (kc_AuthInfos cfg !! user) as [ai|] eqn:Hai; [|done].
  destruct (ai_Exec ai) eqn:Hexec; [done|]. destruct (ai_AuthProvider ai) eqn:Hap; [done|].
  exists cfg, user, ai. split_and!; try done.
  destruct (bool_decide_reflect (ai_Token ai = "")) as [Htok|Htok]; cbn [negb] in Hc.
  - right. destruct (bool_decide_reflect (ai_TokenFile ai = "")) as [Hf|]; [|done]. cbn [negb] in Hc.
    destruct (_ && _); [|by repeat (destruct (_ || _) || destruct (negb _))].
    unfold certCredential in Hc. destruct (pem_Decode _) as [block|]; [|done].
    destruct (x509_NotAfter block) as [na|]; [|done]. unfold time_After in Hc.
    destruct (Z.ltb_spec na t); [done|]. destruct (pem_Decode _); [|done]. by injection Hc as <-.
  - left. unfold BearerCredential in Hc. destruct (Nat.eqb_spec (String.length (strings_TrimSpace (ai_Token ai))) 0)
      as [|Hn]; [done|]. injection Hc as <-. split; [done|]. intros E. by rewrite E in Hn.
Qed.

(** A JWT's expiry is its [exp] claim read as seconds since 1970, whatever the signature says,
    and any other token has none. No claim within three hundred million years of 1970 wraps around. *)
Theorem JWTExpiry_claim (h c s : string) (exp : Z) :
  strings_ContainsByte h "." = false -> strings_ContainsByte s "." = false ->
  strings_TrimSpace (h +:+ "." +:+ b64_Encode RawURLEncoding c +:+ "." +:+ s) =
    (h +:+ "." +:+ b64_Encode RawURLEncoding c +:+ "." +:+ s)%string ->
  json_exp c = Some exp -> exp <> 0 -> - 2 ^ 62 <= exp < 2 ^ 62 ->
  JWTExpiry (h +:+ "." +:+ b64_Encode RawURLEncoding c +:+ "." +:+ s) = (exp + unix_to_internal) * Second.
Proof.
  intros Hh Hs Htrim Hj Hne Hb. unfold JWTExpiry. rewrite Htrim.
  pose proof (b64_no_dot RawURLEncoding c) as Hc.
  change (h +:+ "." +:+ b64_Encode RawURLEncoding c +:+ "." +:+ s)%string
    with (h +:+ String "." (b64_Encode RawURLEncoding c +:+ String "." s)).
  rewrite (Split_app_sep h), (Split_app_sep (b64_Encode RawURLEncoding c)), (Split_no_sep s) by done.
  rewrite b64_roundtrip, Hj. rewrite (proj2 (Z.eqb_neq _ _)) by done.
  unfold time_Unix, wrap64, unix_to_internal. f_equal.
  rewrite Z.mod_small; lia.
Qed.

(** A credential is presented as what it is: a bearer token in its own header over the shared
    anonymous connections, a certificate on connections of its own, and only an impersonating
    credential goes through the service account's transport. Exactly the certificate transports own
    connections to close. *)
Theorem TransportFor_kind (f : ClientFactory) (cred : CredVal) (rt : RoundTripper) (cleanup : option Cleanup) :
  TransportFor f cred = Ok (rt, cleanup) ->
  (cv_Kind cred = KindBearer /\ cleanup = None /\
   rt = NewBearerAuthRoundTripper (default "" (cv_Token cred)) (baseTransport f)) \/
  (cv_Kind cred = KindCert /\ cleanup = Some (CloseIdleConnectionsFor rt) /\
   cert_transport f (cv_CertPEM cred) (cv_KeyPEM cred) = Ok rt) \/
  (cv_Kind cred = KindImpersonate /\ cleanup = None /\
   rt = NewImpersonatingRoundTripper (cv_UserName cred) (saTransport f)).
Proof.
  unfold TransportFor. intros Ht. case_decide; [left; by injection Ht as <- <-|].
  case_decide; [right; left|].
  - destruct (cert_transport _ _ _); [by injection Ht as <- <-|done].
  - case_decide; [right; right; by injection Ht as <- <-|done].
Qed.
End Cred.

(** *** Instances *)

Module K8sDemo.

#[local] Instance demo_platform : Platform := {|
  RoundTripper := string; Cleanup := string; Refresher := nat;
  clock_Now i := Z.of_nat i; rand_Read _ _ := Err "no entropy";
  refresher_Refresh _ _ _ := Err "none";
|}.

(** The kubeconfig text names the only user's token; the claims are the decimal [exp]. *)
#[local] Instance demo_kube : KubeLib := {|
  clientcmd_Load data := Some (mkKubeconfig "ctx" {["ctx" := "alice"]}
    {["alice" := mkAuthInfo false None data "" "" "" "" "" ""]});
  pem_Decode s := Some s;
  x509_NotAfter _ := Some 100;
  json_exp s := if decide (s = "exp=9") then Some 9 else None;
  NewBearerAuthRoundTripper tok base := "bearer " +:+ tok;
  rest_TransportFor _ := Ok "base";
  AnonymousClientConfig c := c;
  kubernetes_NewForConfigAndClient _ _ := None;
  NewImpersonatingRoundTripper u base := "as " +:+ u;
  CloseIdleConnectionsFor rt := rt;
  SelfSubjectReview _ rt := Ok rt;
|}.

Lemma kubeconfig_credential_witness : exists cfg, clientcmd_Load "tok" = Some cfg /\ kc_CurrentContext cfg = "ctx".
Proof.
  assert (Hc : CredentialFromKubeconfig 0 "tok" = Ok (bearer_val "tok" 0)) by (vm_compute; reflexivity).
  destruct (kubeconfig_credential 0 "tok" (bearer_val "tok" 0) Hc)
    as (cfg & user & ai & H & _). exists cfg. split; [exact H|]. injection H as <-. reflexivity.
Defined.

Lemma JWTExpiry_claim_witness :
  JWTExpiry ("h" +:+ "." +:+ b64_Encode RawURLEncoding "exp=9" +:+ "." +:+ "s") = 62135596809 * Second.
Proof. apply (JWTExpiry_claim "h" "exp=9" "s" 9); first [vm_compute; reflexivity | lia]. Defined.

Definition demo_config : RestConfig := mkRestConfig "https://10.0.0.1" None "" "" "" None None "".
Definition demo_factory : ClientFactory := @mkClientFactory demo_platform demo_config "base" "sa" "k8s".
Definition demo_cred : CredVal := mkCredVal KindImpersonate None None None "admin" 0.
Definition demo_rt : RoundTripper := ("as admin"%string : @RoundTripper demo_platform).

Lemma TransportFor_kind_witness : demo_rt = NewImpersonatingRoundTripper "admin" (saTransport demo_factory).
Proof.
  assert (Ht : TransportFor demo_factory demo_cred = Ok (demo_rt, None)) by (vm_compute; reflexivity).
  destruct (TransportFor_kind demo_factory demo_cred demo_rt None Ht)
    as [(H & _)|[(H & _)|(_ & _ & H)]]; [discriminate H|discriminate H|exact H].
Defined.
End K8sDemo.
