(* ===== verification/SessionContext.v ===== *)
(** * The identity of a request ([pkg/auth/session/context.go])

    [Store] is the Go interface of the same name: what the rest of the program knows of the session
    store. [StoreLaws] is what it relies on; [mem_store] and [mem_store_laws] show that the
    in-memory store of [SessionStore] keeps it. *)
From S2P Require Import Prelude.
From S2P Require Import Session.
From S2P Require Import SessionStore.
From S2P Require Import SessionFacts.
From S2P Require Import SessionOps.
From S2P Require Import SessionRefresh.
From S2P Require Import SessionInv.
From S2P Require Import SessionSpec.
From S2P Require Import SessionProps.

Class Store `{Platform} := {
  store_Create : Spec -> ST World (result store_error nat);
  store_Get : string -> ST World (result store_error nat);
  store_Peek : string -> ST World (option nat);
  store_Delete : string -> ST World unit;
}.

Class StoreLaws `{P : Platform} (S : Store) := {
  store_ok : World -> Prop;
  store_ok_Delete : forall id w, store_ok w -> store_ok (exec (store_Delete id) w);
  store_ok_Get : forall id w, store_ok w -> store_ok (exec (store_Get id) w);
  (** A deleted id is unknown. *)
  store_Delete_Peek : forall id w, store_ok w -> eval (store_Peek id) (exec (store_Delete id) w) = None;
  store_Get_unknown : forall id w, eval (store_Peek id) w = None -> store_Get id w = (Err ErrNotFound, w);
  (** The session [Get] returns is the one [Peek] finds, it carries that id, and it stays known. *)
  store_Get_Peek : forall id w p, store_ok w -> eval (store_Get id) w = Ok p ->
    eval (store_Peek id) w = Some p /\ eval (store_Peek id) (exec (store_Get id) w) = Some p /\
    exists s, w_objs (exec (store_Get id) w) !! p = Some s /\ s_id s = id;
  store_Peek_pure : forall id w, exec (store_Peek id) w = w;
  (** Neither a lookup that fails nor a deletion writes to an array that no session holds. *)
  store_Delete_mem : forall id w l, store_ok w ->
    (forall o s, w_objs w !! o = Some s -> l ∉ session_locs s) ->
    w_mem (exec (store_Delete id) w) !! l = w_mem w !! l;
  store_Delete_id : forall id w o, store_ok w ->
    s_id <$> w_objs (exec (store_Delete id) w) !! o = s_id <$> w_objs w !! o;
  (** Caching a transport on a session does not disturb the store. *)
  store_ok_transportFor : forall (R : RangeOrder) o key build w,
    store_ok w -> store_ok (exec (transportFor o key build) w);
}.

#[export] Instance mem_store `{Platform} (opts : Options) (R : RangeOrder) : Store := {|
  store_Create := Create opts;
  store_Get := Get opts;
  store_Peek := Peek;
  store_Delete := Delete;
|}.

#[export] Instance mem_store_laws `{Platform} (opts : Options) (R : RangeOrder) :
  StoreLaws (mem_store opts R).
Proof.
  refine {| store_ok := Inv opts |}; cbn [store_Delete store_Get store_Peek mem_store].
  - intros. by apply Inv_Delete.
  - intros. by apply Inv_Get.
  - intros id w Hi. pose proof (Delete_evicted id w (i_live _ _ Hi)) as [_ S].
    unfold Peek, lookup_session, gets, eval. cbn [fst].
    destruct (w_sessions (exec (Delete id) w) !! id) as [o|] eqn:E; [|done].
    apply S in E as [E Hn]. rewrite E in Hn. cbn in Hn. set_solver.
  - intros id w Hp. unfold Peek, lookup_session, gets, eval in Hp. cbn [fst] in Hp.
    unfold Get, lookup_session, gets. rewrite bind_run. cbn [fst snd]. by rewrite Hp.
  - intros id w p Hi Hg. pose proof (Get_cases opts id w Hi) as C. rewrite Hg in C.
    pose proof (i_live _ _ (Inv_Get opts id w Hi)) as Hw'.
    inversion C as [| | |p' s s1 w1 Hid Hs Ha U M Hc Ep Ew]; subst.
    unfold Peek, lookup_session, gets, eval; cbn [fst].
    assert (Hid' : w_sessions (exec (Get opts id) w) !! id = Some p).
    { rewrite <- Ew. cbn. by rewrite (up_sessions _ _ _ _ _ _ U). }
    rewrite Ew, Hid'. split; [done|]. split; [done|]. by apply Hw'.
  - done.
  - intros id w l Hi Hl. pose proof (Delete_evicted id w (i_live _ _ Hi)) as [E _].
    rewrite (er_mem _ _ _ E), decide_False, option_fmap_id; [done|].
    intros (o & s & _ & Hs & Hin)%elem_of_locs_of. by apply (Hl o s).
  - intros id w o Hi. pose proof (Delete_evicted id w (i_live _ _ Hi)) as [E _].
    rewrite (er_objs _ _ _ E), <- option_fmap_compose.
    destruct (w_objs w !! o); [|done]. simpl. by case_decide.
  - intros. by apply Inv_transportFor.
Defined.

Definition TransportKeyK8s : string := "k8s".

Section RequestAuth.
Context `{P : Platform}.

Record RequestAuth := mkRequestAuth {
  ra_Mode : string;
  ra_Username : string;
  ra_session : option nat;
  ra_ephemeralCredential : Credential;
}.

Definition NewSessionAuth (o : nat) : ST World RequestAuth :=
  deref o (mkRequestAuth "" "" (Some o) Credential_zero_value) (fun s =>
    mret (mkRequestAuth (s_mode s) (s_username s) (Some o) Credential_zero_value)).

Definition NewEphemeralAuth (cred : Credential) (username : string) : RequestAuth :=
  mkRequestAuth ModeSAToken username None cred.

(** [(ra *RequestAuth) Credential()]: read through to the session each time. *)
Definition ra_Credential (ra : RequestAuth) : ST World Credential :=
  match ra_session ra with
  | Some o => deref o Credential_zero_value (fun s => mret (s_credential s))
  | None => mret (ra_ephemeralCredential ra)
  end.

Definition ra_SessionID (ra : RequestAuth) : ST World string :=
  match ra_session ra with
  | Some o => deref o "" (fun s => mret (s_id s))
  | None => mret ""
  end.

Definition ra_TransportFor `{RangeOrder} (ra : RequestAuth) (key : string)
    (build : option TransportBuilder) : ST World (result string RoundTripper) :=
  match build with
  | None => mret (Err "no transport builder provided")
  | Some build =>
      match ra_session ra with
      | Some o => transportFor o key build
      | None =>
          m ← gets w_mem;
          mret (match build (credential_val m (ra_ephemeralCredential ra)) with
                | Ok (rt, _) => Ok rt
                | Err e => Err e
                end)
      end
  end.

Context {S : Store}.

Definition KeepAlive (ra : RequestAuth) : ST World bool :=
  match ra_session ra with
  | None =>
      if time_IsZero (cr_ExpiresAt (ra_ephemeralCredential ra)) then mret true
      else t ← now; mret (time_Before t (cr_ExpiresAt (ra_ephemeralCredential ra)))
  | Some _ =>
      id ← ra_SessionID ra;
      r ← store_Get id;
      mret (is_ok r)
  end.

Definition Invalidate (ra : RequestAuth) : ST World unit :=
  match ra_session ra with
  | None => mret tt
  | Some _ => id ← ra_SessionID ra; store_Delete id
  end.

(** *** Properties *)

Lemma ra_SessionID_run ra o s w :
  ra_session ra = Some o -> w_objs w !! o = Some s -> ra_SessionID ra w = (s_id s, w).
Proof. intros Hr Hs. unfold ra_SessionID. rewrite Hr. by rewrite (deref_run _ _ _ s). Qed.

(** An ephemeral request is bounded by its credential. *)
Lemma KeepAlive_ephemeral (cred : Credential) (user : string) (w : World) :
  eval (KeepAlive (NewEphemeralAuth cred user)) w =
    (time_IsZero (cr_ExpiresAt cred) || time_Before (clock_Now (w_ticks w)) (cr_ExpiresAt cred)).
Proof.
  unfold KeepAlive, eval. cbn [ra_session NewEphemeralAuth ra_ephemeralCredential].
  by destruct (time_IsZero (cr_ExpiresAt cred)).
Qed.
(** No keep-alive of a request succeeds once its session was deleted. *)
Lemma KeepAlive_deleted {L : StoreLaws S} (ra : RequestAuth) (o : nat) (s : Session) (w : World) :
  store_ok w -> ra_session ra = Some o -> w_objs w !! o = Some s ->
  eval (KeepAlive ra) (exec (store_Delete (s_id s)) w) = false /\
  eval (store_Get (s_id s)) (exec (store_Delete (s_id s)) w) = Err ErrNotFound.
Proof.
  intros Hok Hr Hs. set (w' := exec (store_Delete (s_id s)) w).
  assert (Hget : store_Get (s_id s) w' = (Err ErrNotFound, w')).
  { apply store_Get_unknown. by apply store_Delete_Peek. }
  pose proof (store_Delete_id (s_id s) w o Hok) as Hid. fold w' in Hid. rewrite Hs in Hid.
  destruct (w_objs w' !! o) as [s'|] eqn:Hs'; [|done]. injection Hid as Hid.
  split; [|unfold eval; by rewrite Hget].
  unfold KeepAlive, eval. rewrite Hr, bind_run, (ra_SessionID_run ra o s') by done.
  rewrite bind_run, Hid, Hget. done.
Qed.

(** A request's identity ends when its session does. Against any store that keeps its laws:
    once an upstream 401 made a request invalidate its session, no keep-alive of a request with
    that session succeeds and [Get] no longer knows it; and a request with a bearer token of its
    own is kept alive exactly as long as the token's expiry, if it has one, is ahead. *)
Theorem invalidate_ends_keepalive {L : StoreLaws S} (ra ra' : RequestAuth) (o : nat) (s : Session) (w : World) :
  store_ok w ->
  ra_session ra = Some o -> ra_session ra' = Some o -> w_objs w !! o = Some s ->
  eval (KeepAlive ra') (exec (Invalidate ra) w) = false /\
  eval (store_Get (s_id s)) (exec (Invalidate ra) w) = Err ErrNotFound /\
  (forall cred user, eval (KeepAlive (NewEphemeralAuth cred user)) w =
     (time_IsZero (cr_ExpiresAt cred) || time_Before (clock_Now (w_ticks w)) (cr_ExpiresAt cred))).
Proof.
  intros Hok Hr Hr' Hs.
  assert (Hinv : exec (Invalidate ra) w = exec (store_Delete (s_id s)) w).
  { unfold Invalidate, exec. rewrite Hr, bind_run. by rewrite (ra_SessionID_run ra o s w). }
  rewrite Hinv. destruct (KeepAlive_deleted ra' o s w Hok Hr' Hs) as [Hk Hg].
  split_and!; [done|done|intros; apply KeepAlive_ephemeral].
Qed.
End RequestAuth.

Import Demo.

Lemma invalidate_ends_keepalive_witness :
  eval (KeepAlive (S := mem_store demo_opts demo_order) (mkRequestAuth ModeOIDC "alice" (Some alice_obj) Credential_zero_value))
    (exec (Invalidate (S := mem_store demo_opts demo_order) (mkRequestAuth ModeOIDC "alice" (Some alice_obj) Credential_zero_value)) w_both) = false.
Proof.
  destruct alice_lookup as [_ Hs].
  apply (invalidate_ends_keepalive (L := mem_store_laws demo_opts demo_order)
    (mkRequestAuth ModeOIDC "alice" (Some alice_obj) Credential_zero_value)
    (mkRequestAuth ModeOIDC "alice" (Some alice_obj) Credential_zero_value) alice_obj alice_session w_both).
  - apply Inv_reachable; [apply setDefaults_ok|apply reachable_both].
  - reflexivity.
  - reflexivity.
  - exact Hs.
Defined.
