(* ===== verification/Authn.v ===== *)
(** * Who is making a request ([pkg/server/authn])

    The session cookie and the cross-origin gate that goes with it, the bearer fallback with its
    validation cache ([bearer.go]), and the filter on redirect targets. *)
From S2P Require Import Prelude.
From S2P Require Import GoStrings.
From S2P Require Import GoUrl.
From S2P Require Import Browser.
From S2P Require Import Http.
From S2P Require Import Lru.
From S2P Require Import RateLimit.
From S2P Require Import Session.
From S2P Require Import SessionStore.
From S2P Require Import SessionContext.
From S2P Require Import K8sCred.

Definition DevOrigin : string := "http://localhost:3000".

Record AuthnConfig := mkAuthnConfig {
  ac_ServerURL : string;
  ac_CookieSecure : bool;
  ac_BearerFallbackEnabled : bool;
  (** A validator was provided. *)
  ac_BearerValidator : bool;
  ac_DevMode : bool;
}.

Record Authenticator := mkAuthenticator {
  a_config : AuthnConfig;
  a_serverOrigin : string;
}.

Definition bearerCacheTTL : duration := 60 * Second.
Definition bearerCacheSize : Z := 1024.
Definition bearerMissRate : string := "5/s".
Definition bearerMissBurst : Z := 10.
Definition bearerMissClients : Z := 10000.

(** [crypto/sha256] and [crypto/hmac]. *)
Class Crypto := {
  sha256_Sum256 : string -> string;
  hmac_sha256 : string -> string -> string;
}.

Section Origin.
Context `{GoNet}.

(** [New]: the server URL must be one with a host, and the bearer fallback needs a validator. *)
Definition Authenticator_New (config : AuthnConfig) : result string Authenticator :=
  if ac_BearerFallbackEnabled config && negb (ac_BearerValidator config) then
    Err "bearer token authentication is enabled but no credential validator was provided"
  else if decide (ac_ServerURL config = "") then Ok (mkAuthenticator config "")
  else match url_Parse (ac_ServerURL config) with
       | Some u => if decide (u_Host u = "") then Err ("invalid server URL '" +:+ ac_ServerURL config +:+ "'")
                   else Ok (mkAuthenticator config (u_Scheme u +:+ "://" +:+ u_Host u))
       | None => Err ("invalid server URL '" +:+ ac_ServerURL config +:+ "'")
       end.

Definition SameSite_mode (a : Authenticator) : SameSite :=
  if ac_DevMode (a_config a) then SameSiteLax else SameSiteStrict.

Definition originAllowed (a : Authenticator) (req : Request) (origin : string) : bool :=
  if decide (a_serverOrigin a <> "") then strings_EqualFold origin (a_serverOrigin a)
  else match url_Parse origin with
       | None => false
       | Some u => if decide (u_Host u = "") then false
                   else strings_EqualFold (u_Host u) (req_Host req)
       end.

Definition isTopLevelNavigation (req : Request) : bool :=
  bool_decide (GetHeader req "Sec-Fetch-Mode" = "navigate")
  && bool_decide (GetHeader req "Sec-Fetch-Dest" = "document").

Definition cross_origin_error (reason : string) : ServerError :=
  mkServerError StatusForbidden (Some ("cross-origin request rejected: " +:+ reason))
    "Cross-origin request rejected".

Definition checkCrossOrigin (a : Authenticator) (req : Request) (allowTopLevelNavigation : bool)
    : option ServerError :=
  let origin := GetHeader req "Origin" in
  if ac_DevMode (a_config a) && bool_decide (origin = DevOrigin) then None else
  let fetchSite := GetHeader req "Sec-Fetch-Site" in
  if decide (fetchSite <> "") then
    if bool_decide (fetchSite = "same-origin") || bool_decide (fetchSite = "none") then None
    else if allowTopLevelNavigation && isTopLevelNavigation req then None
    else Some (cross_origin_error ("Sec-Fetch-Site is " +:+ quote fetchSite))
  else if decide (origin = "") then None
  else if originAllowed a req origin then None
  else Some (cross_origin_error ("Origin is " +:+ quote origin)).

Definition checkCSRF (a : Authenticator) (req : Request) : option ServerError :=
  checkCrossOrigin a req false.

(** [SafeRedirectURL]: the target itself, or "" when it is refused. *)
Definition SafeRedirectURL (a : Authenticator) (req : Request) (raw : string) : string :=
  if decide (raw = "") then "" else
  match url_Parse raw with
  | None => ""
  | Some u =>
      if bool_decide (u_Scheme u = "") && bool_decide (u_Host u = "") then
        if negb (strings_HasPrefix raw "/") || strings_HasPrefix raw "//" then ""
        else if strings_ContainsByte raw "\" then ""
        else raw
      else if negb (bool_decide (u_Scheme u = "http")) && negb (bool_decide (u_Scheme u = "https")) then ""
      else if originAllowed a req (u_Scheme u +:+ "://" +:+ u_Host u) then raw
      else ""
  end.

(** *** The server's own origin *)

(** The origin the server is reached at: the configured one, or, with none configured, any whose
    host is the one the request was sent to. *)
Definition own_origin (config : AuthnConfig) (req : Request) (scheme host : string) : Prop :=
  if decide (ac_ServerURL config = "") then strings_EqualFold host (req_Host req) = true
  else exists su, url_Parse (ac_ServerURL config) = Some su /\ scheme = u_Scheme su /\
         strings_EqualFold host (u_Host su) = true.

Lemma Authenticator_New_origin config a :
  Authenticator_New config = Ok a ->
  a_config a = config /\
  if decide (ac_ServerURL config = "") then a_serverOrigin a = ""
  else exists su, url_Parse (ac_ServerURL config) = Some su /\ u_Host su <> "" /\
         a_serverOrigin a = u_Scheme su +:+ "://" +:+ u_Host su.
Proof.
  unfold Authenticator_New. destruct (_ && _); [done|]. case_decide; [by intros [= <-]|].
  destruct (url_Parse _) as [su|]; [|done]. case_decide; [done|]. intros [= <-]. split; [done|]. by exists su.
Qed.

Lemma origin_nonempty s h : s +:+ "://" +:+ h <> "".
Proof. by destruct s. Qed.

(** What [originAllowed] accepts of the origins of web pages is the server's own origin. *)
Lemma originAllowed_own config a req scheme host :
  Authenticator_New config = Ok a -> web_scheme scheme -> string_forallb decoded_char host = true ->
  originAllowed a req (scheme +:+ "://" +:+ host) = true ->
  host <> "" /\ (strings_ContainsByte host "%" = false -> own_origin config req scheme host).
Proof.
  intros [_ Hn]%Authenticator_New_origin Hs Hh. unfold originAllowed, own_origin. case_decide as Hu.
  - rewrite Hn, decide_False, url_Parse_origin by (done || by intros []). destruct (no_CTL host); [|done].
    destruct (parseHost host) as [h|] eqn:Hp; [|done]. cbn. case_decide as Hne; [done|]. intros He.
    destruct (parseHost_read host h Hp) as [_ Hd _]. split; [by intros ->|].
    intros Hpc. rewrite percent_decode_id in Hd by done. by subst h.
  - destruct Hn as (su & Hsu & Hne & Ho). rewrite Ho, decide_True by apply origin_nonempty.
    rewrite EqualFold_origin by first [by apply web_lower_scheme|by eapply parse_scheme].
    intros [-> He]. split; [|by exists su].
    intros ->. unfold strings_EqualFold in He. apply bool_decide_eq_true in He.
    destruct (u_Host su) as [|c h]; [done|]. by destruct (fold_nonempty c h).
Qed.

Lemma own_originAllowed config a req scheme host :
  Authenticator_New config = Ok a -> web_scheme scheme -> plain_host host -> own_origin config req scheme host ->
  originAllowed a req (scheme +:+ "://" +:+ host) = true.
Proof.
  intros [_ Hn]%Authenticator_New_origin Hs Hh. unfold originAllowed, own_origin. case_decide as Hu.
  - destruct (plain_host_decoded host Hh) as [H1 H2]. destruct Hh as (Hne & _ & Hp).
    rewrite Hn, decide_False, url_Parse_origin, H2, Hp by (done || by intros []). cbn. by rewrite decide_False.
  - destruct Hn as (su & Hsu & Hne & Ho). intros (su' & Hsu' & -> & He). simplify_eq.
    rewrite Ho, decide_True by apply origin_nonempty.
    by apply EqualFold_origin; [eapply parse_scheme|eapply parse_scheme|].
Qed.

Lemma accepted_origin config a req raw u :
  Authenticator_New config = Ok a -> url_Parse raw = Some u -> web_scheme (u_Scheme u) ->
  originAllowed a req (u_Scheme u +:+ "://" +:+ u_Host u) = true ->
  exists scheme host, browser_origin raw = Some (scheme, host) /\
    (strings_ContainsByte host "%" = false -> own_origin config req scheme host).
Proof.
  intros Hnew Hp Hs Ho. exists (u_Scheme u), (u_Host u).
  assert (Hd : string_forallb decoded_char (u_Host u) = true).
  { destruct (decide (u_Host u = "")) as [->|Hne]; [done|].
    destruct (url_Parse_shape raw u Hp) as (sch & au & t & _ & _ & _ & _ & Ha & _); [by destruct Hs as [-> | ->]|done|].
    by apply (parseAuthority_read au). }
  destruct (originAllowed_own config a req _ _ Hnew Hs Hd Ho) as [Hne Hown]. split; [|done].
  by apply browser_origin_parse.
Qed.

(** [null] is what a browser sends for a page whose origin it does not tell. *)
Lemma null_refused config a req : Authenticator_New config = Ok a -> originAllowed a req "null" = false.
Proof.
  intros [_ Hn]%Authenticator_New_origin. unfold originAllowed. case_decide as Hu.
  - rewrite Hn, decide_False by (by intros []). by vm_compute.
  - destruct Hn as (su & Hsu & Hne & ->). rewrite decide_True by apply origin_nonempty.
    apply bool_decide_eq_false. destruct (parse_scheme _ _ Hsu) as [Hch Hl].
    rewrite (fold_app (u_Scheme su)), Hl, (fold_app "://") by (done || by eapply forallb_impl; [apply scheme_char_ascii|]).
    intros E. apply (f_equal (fun x => strings_Cut x ":")) in E. change (ascii_lower "://") with "://" in E.
    change ("://" +:+ ?x) with (String ":" ("//" +:+ x)) in E. rewrite Cut_app in E by by apply scheme_no_colon.
    discriminate E.
Qed.

(** C15. No open redirect: an accepted target is returned as it is, and a browser that follows it
    stays on the server. Either it is a reference that the browser resolves on the current origin,
    whatever tabs, line breaks or backslashes were tried; or it is an http or https URL that the
    browser, reading it by its own rules, takes to the host of the configured server URL and with
    its scheme, or, when no URL is configured, to the host the request was sent to, over either
    scheme. (A browser opens no URL whose host, once decoded, still has a percent sign.) *)
Theorem SafeRedirectURL_safe (config : AuthnConfig) (a : Authenticator) (req : Request) (raw : string) :
  Authenticator_New config = Ok a -> SafeRedirectURL a req raw <> "" ->
  SafeRedirectURL a req raw = raw /\
  (browser_stays raw = true \/
   exists scheme host, browser_origin raw = Some (scheme, host) /\
     (strings_ContainsByte host "%" = false -> own_origin config req scheme host)).
Proof.
  intros Hnew. unfold SafeRedirectURL. case_decide; [done|]. destruct (url_Parse raw) as [u|] eqn:Eu; [|done].
  destruct (bool_decide_reflect (u_Scheme u = "")), (bool_decide_reflect (u_Host u = "")); cbn [andb].
  2-4: destruct (bool_decide_reflect (u_Scheme u = "http")), (bool_decide_reflect (u_Scheme u = "https"));
    cbn [andb negb]; try done; destruct (originAllowed a req _) eqn:Ho; try done;
    intros _; (split; [done|right; apply (accepted_origin config a req raw u); unfold web_scheme; auto]).
  destruct (strings_HasPrefix raw "/") eqn:H1; [|done].
  destruct (strings_HasPrefix raw "//") eqn:H2; [done|]. cbn [negb orb].
  destruct (strings_ContainsByte raw "\") eqn:Hb; [done|]. intros _. split; [done|left].
  apply HasPrefix_true in H1 as [rest ->]. change ("/" +:+ rest)%string with (String "/" rest) in *.
  destruct rest as [|c rest]; [done|].
  assert (Hs : c <> "/"%char).
  { intros ->. revert H2. apply not_false_iff_true. apply HasPrefix_true. by exists rest. }
  assert (Hbs : c <> "\"%char) by (intros ->; done).
  apply browser_stays_prefix; [|done|done].
  pose proof (url_Parse_no_CTL _ _ Eu) as Hc. cbn [strings_Cut] in Hc.
  rewrite decide_False in Hc by done.
  destruct (decide (c = "#"%char)) as [->|]; [done|].
  destruct (strings_Cut rest "#") as [[u' frag] f]. cbn [string_forallb] in Hc.
  rewrite !andb_true_iff in Hc. destruct Hc as (_ & Hc & _). apply not_CTL_visible. by apply negb_true_iff.
Qed.

(** C16. The cross-origin gate lets a browser's request through only on evidence. Outside
    development, a request that declares a fetch site passes just if that is the same origin or the
    user's own doing, or, on the logout route, if it is a top-level navigation to a document; one
    that declares only an origin passes, if that is the origin of a web page, just if it is the
    server's own (by its host alone, when no URL is configured), and not if it is an opaque origin; one that declares neither does not come
    from a page and passes. A refusal is a 403 that keeps the reason out of the answer. *)
Theorem checkCrossOrigin_gate (config : AuthnConfig) (a : Authenticator) (req : Request) (nav : bool) :
  Authenticator_New config = Ok a -> ac_DevMode config = false ->
  let site := GetHeader req "Sec-Fetch-Site" in
  let origin := GetHeader req "Origin" in
  let passes := checkCrossOrigin a req nav = None in
  (site <> "" ->
     passes <-> site = "same-origin" \/ site = "none" \/
       (nav = true /\ GetHeader req "Sec-Fetch-Mode" = "navigate" /\ GetHeader req "Sec-Fetch-Dest" = "document")) /\
  (site = "" -> origin = "" -> passes) /\
  (site = "" -> forall scheme host, web_scheme scheme -> plain_host host -> origin = scheme +:+ "://" +:+ host ->
     passes <-> own_origin config req scheme host) /\
  (site = "" -> origin = "null" -> ~ passes) /\
  (forall e, checkCrossOrigin a req nav = Some e ->
     se_Code e = StatusForbidden /\ se_Message e = "Cross-origin request rejected").
Proof.
  intros Hnew Hdev site origin passes. pose proof (Authenticator_New_origin config a Hnew) as [Ha _].
  assert (E : checkCrossOrigin a req nav =
    if decide (site <> "") then
      if bool_decide (site = "same-origin") || bool_decide (site = "none") then None
      else if nav && isTopLevelNavigation req then None
      else Some (cross_origin_error ("Sec-Fetch-Site is " +:+ quote site))
    else if decide (origin = "") then None
    else if originAllowed a req origin then None
    else Some (cross_origin_error ("Origin is " +:+ quote origin))).
  { unfold checkCrossOrigin. rewrite Ha, Hdev. done. }
  unfold passes. rewrite E. clear E. split_and!.
  - intros Hs. rewrite decide_True by done. unfold isTopLevelNavigation.
    destruct (bool_decide_reflect (site = "same-origin")), (bool_decide_reflect (site = "none"));
      cbn [orb]; try tauto.
    destruct nav; cbn [andb]; [|naive_solver].
    destruct (bool_decide_reflect (GetHeader req "Sec-Fetch-Mode" = "navigate")),
      (bool_decide_reflect (GetHeader req "Sec-Fetch-Dest" = "document")); naive_solver.
  - intros Hs Ho. by rewrite decide_False, decide_True by tauto.
  - intros Hs scheme host Hw Hp Ho. rewrite !decide_False by (rewrite ?Ho; (tauto || apply origin_nonempty)).
    rewrite Ho. destruct (originAllowed a req (scheme +:+ "://" +:+ host)) eqn:Hall.
    + split; [|done]. intros _. destruct (plain_host_decoded host Hp) as [Hd _].
      apply (originAllowed_own config a req scheme host Hnew Hw Hd Hall). by apply Hp.
    + split; [done|]. intros Hown%(own_originAllowed config a req scheme host Hnew Hw Hp). congruence.
  - intros Hs Ho. rewrite !decide_False by (rewrite ?Ho; (tauto || done)). rewrite Ho.
    by rewrite (null_refused config a req Hnew).
  - intros e. repeat case_match; try done; by intros [= <-].
Qed.
End Origin.

(** *** The state a request runs on *)

(** [CredentialValidator]: asks the API server who a credential is. *)
Class CredentialValidator `{Platform} := {
  cv_Validate : CredVal -> ST KubeState (result kube_error string);
}.

#[export] Instance factory_validator `{KubeLib} (f : ClientFactory) : CredentialValidator :=
  {| cv_Validate := ValidateCredential f |}.

Record bearerCacheEntry := mkBearerEntry { be_username : string; be_validUntil : time }.

Section Authn.
Context `{P : Platform} {S : Store} {V : CredentialValidator} `{Limiter} `{LRU nat}
  `{BC : LRU bearerCacheEntry} `{GoIP} `{GoNet} `{Crypto} `{K : !KubeLib}.

(** The session store with its memory and clock, the API server, and the bearer validator's cache
    and miss limiter. *)
Record SrvState := mkSrv {
  sv_store : World;
  sv_kube : KubeState;
  sv_cache : lru (V := bearerCacheEntry);
  sv_limiter : ClientRateLimiter;
}.

Definition on_store {A} (m : ST World A) : ST SrvState A := fun s =>
  let '(a, w) := m (sv_store s) in (a, mkSrv w (sv_kube s) (sv_cache s) (sv_limiter s)).
Definition on_kube {A} (m : ST KubeState A) : ST SrvState A := fun s =>
  let '(a, k) := m (sv_kube s) in (a, mkSrv (sv_store s) k (sv_cache s) (sv_limiter s)).
Definition on_cache {A} (m : ST lru A) : ST SrvState A := fun s =>
  let '(a, c) := m (sv_cache s) in (a, mkSrv (sv_store s) (sv_kube s) c (sv_limiter s)).
Definition on_limiter {A} (m : ST ClientRateLimiter A) : ST SrvState A := fun s =>
  let '(a, l) := m (sv_limiter s) in (a, mkSrv (sv_store s) (sv_kube s) (sv_cache s) l).

(** *** The bearer validator ([bearer.go]) *)

Definition newBearerValidator : option (lru (V := bearerCacheEntry) * ClientRateLimiter) :=
  match lru_New bearerCacheSize,
        NewClientRateLimiter bearerMissRate bearerMissBurst bearerMissClients ClientKeyIP with
  | Some c, Ok l => Some (c, l)
  | _, _ => None
  end.

Definition cacheKey (token : string) : string := hex_EncodeToString (sha256_Sum256 token).

Definition too_many_validations : ServerError :=
  mkServerError StatusTooManyRequests None "Too many token validations, please try again later".
Definition unverified (e : kube_error) : ServerError :=
  mkServerError StatusServiceUnavailable (Some ("bearer token validation failed: " +:+ kube_error_msg e))
    "Could not verify the token with Kubernetes, please try again later".
Definition rejected_token : ServerError :=
  mkServerError StatusUnauthorized None "Kubernetes rejected this token".

(** The part of [validate] that runs when the cache has no valid entry. *)
Definition validate_miss (req : Request) (token : string) (t : time)
    : ST SrvState (result ServerError string) :=
  allowed ← on_limiter (Allow t req);
  if (allowed : bool) then
    r ← on_kube (cv_Validate (bearer_val token 0));
    match r with
    | Err (KubeUnauthorized _) | Err (KubeForbidden _) => mret (Err rejected_token)
    | Err e => mret (Err (unverified e))
    | Ok username =>
        t2 ← on_store now;
        let ttl_end := time_Add t2 bearerCacheTTL in
        let expiry := JWTExpiry token in
        let validUntil := if negb (time_IsZero expiry) && time_Before expiry ttl_end
                          then expiry else ttl_end in
        on_cache (lru_Add (cacheKey token) (mkBearerEntry username validUntil));;
        mret (Ok username)
    end
  else mret (Err too_many_validations).

Definition validate (req : Request) (token : string) : ST SrvState (result ServerError string) :=
  t ← on_store now;
  entry ← on_cache (lru_Get (cacheKey token));
  match entry with
  | Some e => if time_Before t (be_validUntil e) then mret (Ok (be_username e))
              else validate_miss req token t
  | None => validate_miss req token t
  end.

(** *** Resolving a request *)

Definition bearerToken (req : Request) : option string :=
  let header := GetHeader req "Authorization" in
  if decide (header = "") then None else
  let '(scheme, tok, found) := strings_Cut header " " in
  if negb found || negb (strings_EqualFold scheme "Bearer") || bool_decide (tok = "") then None
  else Some tok.

Definition sessionLookupError (e : store_error) : option string :=
  match e with
  | ErrNotFound | ErrExpired => None
  | e => Some (store_error_msg e)
  end.

Definition session_invalid (e : store_error) : ServerError :=
  mkServerError StatusUnauthorized (sessionLookupError e)
    "Session is no longer valid, please log in again".
Definition bearer_disabled : ServerError :=
  mkServerError StatusUnauthorized None "Bearer token authentication is disabled (auth.bearerToken.enabled)".
Definition no_authentication : ServerError :=
  mkServerError StatusUnauthorized None "No authentication present (session cookie / Authorization header)".

Definition Resolve (a : Authenticator) (req : Request)
    : ST (HState SrvState) (result ServerError RequestAuth) :=
  match GetSessionCookie req with
  | Some id =>
      match checkCSRF a req with
      | Some e => mret (Err e)
      | None =>
          r ← lift (on_store (store_Get id));
          match r with
          | Err e =>
              UnsetSessionCookie;;
              UnsetLegacyCookies req;;
              mret (Err (session_invalid e))
          | Ok o => ra ← lift (on_store (NewSessionAuth o)); mret (Ok ra)
          end
      end
  | None =>
      match bearerToken req with
      | Some token =>
          if negb (ac_BearerFallbackEnabled (a_config a)) then mret (Err bearer_disabled)
          else
            tok ← lift (on_store (alloc (Some token)));
            r ← lift (validate req token);
            match r with
            | Err e => mret (Err e)
            | Ok username =>
                mret (Ok (NewEphemeralAuth (mkCredential KindBearer tok None None "" (JWTExpiry token))
                            username))
            end
      | None => mret (Err no_authentication)
      end
  end.

(** *** Middlewares: [Some] is what the rest of the chain runs with, [None] stops it. *)

Definition authn_Middleware (a : Authenticator) (req : Request) : ST (HState SrvState) (option RequestAuth) :=
  r ← Resolve a req;
  match r with
  | Ok ra => mret (Some ra)
  | Err e =>
      HandleError e;;
      LogError (Some e) "Failed to authenticate request";;
      emit Abort;;
      mret None
  end.

Definition csrfMiddleware (a : Authenticator) (req : Request) (allowTopLevelNavigation : bool)
    : ST (HState SrvState) bool :=
  match checkCrossOrigin a req allowTopLevelNavigation with
  | Some e =>
      HandleError e;;
      LogError (Some e) "Rejected cross-origin request";;
      emit Abort;;
      mret false
  | None => mret true
  end.

(** *** Facts *)

Lemma on_store_run {A} (m : ST World A) s :
  on_store m s = ((m (sv_store s)).1, mkSrv (m (sv_store s)).2 (sv_kube s) (sv_cache s) (sv_limiter s)).
Proof. unfold on_store. by destruct (m (sv_store s)). Qed.

Lemma on_kube_run {A} (m : ST KubeState A) s :
  on_kube m s = ((m (sv_kube s)).1, mkSrv (sv_store s) (m (sv_kube s)).2 (sv_cache s) (sv_limiter s)).
Proof. unfold on_kube. by destruct (m (sv_kube s)). Qed.

Lemma on_cache_run {A} (m : ST lru A) s :
  on_cache m s = ((m (sv_cache s)).1, mkSrv (sv_store s) (sv_kube s) (m (sv_cache s)).2 (sv_limiter s)).
Proof. unfold on_cache. by destruct (m (sv_cache s)). Qed.

Lemma on_limiter_run {A} (m : ST ClientRateLimiter A) s :
  on_limiter m s = ((m (sv_limiter s)).1, mkSrv (sv_store s) (sv_kube s) (sv_cache s) (m (sv_limiter s)).2).
Proof. unfold on_limiter. by destruct (m (sv_limiter s)). Qed.

(** One step of a handler on one part of the state. *)
Local Ltac srv_step := rewrite bind_run, ?lift_run, ?on_store_run, ?on_kube_run, ?on_cache_run, ?on_limiter_run;
  cbn [fst snd h_world h_out sv_store sv_kube sv_cache sv_limiter].

(** The entry the cache holds for a token. *)
Definition cached (token : string) (s : SrvState) : option bearerCacheEntry :=
  lru_view (sv_cache s) !! cacheKey token.

(** The API server accepted [token] as [user] in the one call made, which the limiter had allowed at
    [t], and the cache entry made at [t2] lasts a minute at most, and not past the token's expiry. *)
Definition vouched (req : Request) (token user : string) (t t2 : time) (s s' : SrvState) : Prop :=
  let answer := cv_Validate (bearer_val token 0) (sv_kube s) in
  eval (Allow t req) (sv_limiter s) = true /\ answer.1 = Ok user /\ sv_kube s' = answer.2 /\
  exists e, cached token s' = Some e /\ be_username e = user /\
    be_validUntil e <= t2 + bearerCacheTTL /\
    (JWTExpiry token <> 0 -> be_validUntil e <= JWTExpiry token).

(** Why [validate] answered the error [e]: the limiter, a rejection, or an API server that failed. *)
Definition refused (req : Request) (token : string) (t : time) (s s' : SrvState) (e : ServerError) : Prop :=
  let answer := cv_Validate (bearer_val token 0) (sv_kube s) in
  (e = too_many_validations /\ sv_kube s' = sv_kube s /\ eval (Allow t req) (sv_limiter s) = false) \/
  (e = rejected_token /\ exists m, answer.1 = Err (KubeUnauthorized m) \/ answer.1 = Err (KubeForbidden m)) \/
  (se_Code e = StatusServiceUnavailable /\ exists m, answer.1 = Err (KubeOther m)).

Lemma validate_run req token s :
  let s1 := mkSrv (exec now (sv_store s)) (sv_kube s) (exec (lru_Get (cacheKey token)) (sv_cache s))
              (sv_limiter s) in
  let t := clock_Now (w_ticks (sv_store s)) in
  validate req token s =
  match cached token s with
  | Some e => if time_Before t (be_validUntil e) then (Ok (be_username e), s1)
              else validate_miss req token t s1
  | None => validate_miss req token t s1
  end.
Proof.
  intros s1 t. pose proof (lru_Get_value (cacheKey token) (sv_cache s)) as Gv. unfold eval in Gv.
  unfold validate. srv_step. srv_step. rewrite Gv. unfold cached.
  destruct (lru_view (sv_cache s) !! cacheKey token) as [e|]; [|done]. by destruct (time_Before _ _).
Qed.

Lemma validate_miss_spec req token t s :
  let s' := exec (validate_miss req token t) s in
  match eval (validate_miss req token t) s with
  | Ok user => vouched req token user t (clock_Now (w_ticks (sv_store s))) s s'
  | Err e => sv_cache s' = sv_cache s /\ refused req token t s s' e
  end.
Proof.
  unfold exec, eval, vouched, refused, validate_miss. srv_step. unfold eval.
  destruct ((Allow t req (sv_limiter s)).1); [|cbn; auto]. srv_step.
  destruct ((cv_Validate (bearer_val token 0) (sv_kube s)).1) as [user|[| |m]]; cbn [fst snd mret ST_ret];
    [|naive_solver..].
  srv_step. srv_step. cbn [mret ST_ret fst snd sv_kube now]. split_and!; try done.
  eexists; split; [unfold cached; cbn [sv_cache]; apply (lru_Add_same (cacheKey token))|].
  cbn [be_username be_validUntil]. split; [done|]. unfold time_IsZero, time_Before, time_Add.
  destruct (Z.eqb_spec (JWTExpiry token) 0); cbn [negb andb]; [split; [reflexivity|done]|].
  destruct (Z.ltb_spec (JWTExpiry token) (clock_Now (w_ticks (sv_store s)) + bearerCacheTTL)); split; lia.
Qed.

(** C18. A bearer token is believed only on the API server's word: a request is given a username
    either from a cache entry for that token that has not run out, without any call, or because
    the API server accepted the token just now, in a single call that the miss limiter allowed;
    the entry then made lasts at most a minute, and not past the token's own expiry. A refused or
    unverifiable token leaves the cache as it was. *)
Theorem validate_trusts_apiserver (req : Request) (token : string) (s : SrvState) :
  let s' := exec (validate req token) s in
  let t := clock_Now (w_ticks (sv_store s)) in
  let t2 := clock_Now (Datatypes.S (w_ticks (sv_store s))) in
  match eval (validate req token) s with
  | Ok user =>
      (exists e, cached token s = Some e /\ be_username e = user /\ t < be_validUntil e /\
         sv_kube s' = sv_kube s /\ sv_limiter s' = sv_limiter s) \/
      vouched req token user t t2 s s'
  | Err e => lru_view (sv_cache s') = lru_view (sv_cache s) /\ refused req token t s s' e
  end.
Proof.
  intros s' t t2. unfold s', exec, eval. rewrite validate_run. fold t.
  set (s1 := mkSrv _ _ _ _). pose proof (validate_miss_spec req token t s1) as Hmiss. cbn zeta in Hmiss.
  unfold exec, eval in Hmiss.
  assert (Hview : lru_view (sv_cache s1) = lru_view (sv_cache s)) by apply lru_Get_view.
  destruct (cached token s) as [e|] eqn:Hc.
  - unfold time_Before. destruct (Z.ltb_spec t (be_validUntil e)); cbn [fst snd].
    + left. by exists e.
    + destruct (validate_miss req token t s1) as [[user|e'] s2]; cbn [fst snd] in *; [by right|].
      destruct Hmiss as [-> ?]. done.
  - destruct (validate_miss req token t s1) as [[user|e'] s2]; cbn [fst snd] in *; [by right|].
    destruct Hmiss as [-> ?]. done.
Qed.

(** A request with a session cookie that passes the gate: what the store answers decides. *)
Lemma Resolve_session (a : Authenticator) (req : Request) (h : HState SrvState) id :
  GetSessionCookie req = Some id -> checkCSRF a req = None ->
  let s := h_world h in
  let with_store w := mkSrv w (sv_kube s) (sv_cache s) (sv_limiter s) in
  Resolve a req h =
  match store_Get id (sv_store s) with
  | (Ok o, w) => (Ok (eval (NewSessionAuth o) w), mkH (with_store w) (h_out h))
  | (Err e, w) => (Err (session_invalid e), mkH (with_store w)
      (h_out h ++ [SetCookie (expired_cookie SessionCookieName sessionCookiePath)] ++ legacy_effects req))
  end.
Proof.
  intros Hc Hg s with_store. unfold Resolve. rewrite Hc, Hg. srv_step. fold s.
  destruct (store_Get id (sv_store s)) as [[o|e] w]; cbn [fst snd].
  - srv_step. unfold eval, NewSessionAuth, deref, gets. rewrite !bind_run. cbn [fst snd]. by destruct (w_objs w !! o).
  - rewrite bind_run. unfold UnsetSessionCookie, emit. rewrite bind_run, UnsetLegacyCookies_run.
    cbn [fst snd mret ST_ret h_out h_world]. by rewrite <- (assoc_L (++)).
Qed.

(** C17. The session cookie takes precedence, and with it the cross-origin gate: a request that
    carries a session cookie never uses its Authorization header, is refused with nothing done
    when the gate refuses it, and otherwise stands or falls with the session store; without a
    cookie, a bearer token counts only where the fallback is enabled. *)
Theorem Resolve_precedence (a : Authenticator) (req : Request) (h : HState SrvState) :
  let h' := exec (Resolve a req) h in
  match GetSessionCookie req with
  | Some id =>
      sv_kube (h_world h') = sv_kube (h_world h) /\ sv_cache (h_world h') = sv_cache (h_world h) /\
      match checkCSRF a req with
      | Some e => eval (Resolve a req) h = Err e /\ h' = h
      | None =>
          match eval (store_Get id) (sv_store (h_world h)) with
          | Ok o => (exists ra, eval (Resolve a req) h = Ok ra /\ ra_session ra = Some o) /\
              h_out h' = h_out h
          | Err e => eval (Resolve a req) h = Err (session_invalid e) /\
              h_out h' = h_out h ++ [SetCookie (expired_cookie SessionCookieName sessionCookiePath)]
                         ++ legacy_effects req
          end
      end
  | None =>
      h_out h' = h_out h /\
      match bearerToken req with
      | None => eval (Resolve a req) h = Err no_authentication /\ h' = h
      | Some token =>
          if ac_BearerFallbackEnabled (a_config a) then
            match eval (Resolve a req) h with
            | Ok ra => ra_session ra = None /\ ra_Mode ra = ModeSAToken /\
                cr_ExpiresAt (ra_ephemeralCredential ra) = JWTExpiry token
            | Err e => True
            end
          else eval (Resolve a req) h = Err bearer_disabled /\ h' = h
      end
  end.
Proof.
  intros h'. unfold h', exec, eval. destruct (GetSessionCookie req) as [id|] eqn:Hc.
  - destruct (checkCSRF a req) as [e|] eqn:Hg.
    { unfold Resolve. by rewrite Hc, Hg. }
    rewrite (Resolve_session a req h id Hc Hg).
    destruct (store_Get id (sv_store (h_world h))) as [[o|e] w1]; cbn [fst snd h_world h_out sv_kube sv_cache]; [|done].
    split_and!; try done. eexists; split; [done|]. unfold eval, NewSessionAuth, deref, gets.
    rewrite bind_run. cbn [fst snd]. by destruct (w_objs w1 !! o).
  - unfold Resolve. rewrite Hc. destruct (bearerToken req) as [token|]; [|done].
    destruct (ac_BearerFallbackEnabled (a_config a)); cbn [negb]; [|done].
    srv_step. rewrite bind_run, lift_run. cbn [h_out].
    by destruct (validate req token _) as [[user|e] s2].
Qed.
End Authn.

(** The same, for the files of the handlers. *)
Create HintDb srv.
#[export] Hint Rewrite @lift_run @on_store_run @on_kube_run @on_cache_run @on_limiter_run : srv.

Ltac srv_step := rewrite bind_run; autorewrite with srv;
  cbn [fst snd h_world h_out sv_store sv_kube sv_cache sv_limiter].
