(* ===== verification/Oidc.v ===== *)
(** * The OIDC provider ([pkg/server/oauth2.go], [pkg/server/utils/template/template.go])

    The signed state that a login carries through the identity provider, the nonce, the refresh of
    an id_token, and the logout URL with its template. The handlers are in [OAuth2]. *)
From S2P Require Import Prelude.
From S2P Require Import GoStrings.
From S2P Require Import GoUrl.
From S2P Require Import Base64.
From S2P Require Import Session.
From S2P Require Import SessionStore.
From S2P Require Import K8sCred.
From S2P Require Import Authn.

(** *** Templates *)

Definition is_word (c : ascii) : bool := is_alpha c || is_digit c || bool_decide (c = "_"%char).
(** [\s] of Go's regexp: tab, line feed, form feed, carriage return, space. *)
Definition is_re_space (c : ascii) : bool :=
  existsb (fun n => bool_decide (c = byte n)) [9; 10; 12; 13; 32]%nat.

(** The longest prefix of bytes that satisfy [p]. *)
Fixpoint span (p : ascii -> bool) (s : string) : string * string :=
  match s with
  | String c s' => if p c then let '(a, b) := span p s' in (String c a, b) else (EmptyString, s)
  | EmptyString => (EmptyString, EmptyString)
  end.

(** A variable at the head of [s]: [{{], its name between optional spaces (none with [strict]),
    [}}]; the name and what follows. *)
Definition match_var (strict : bool) (s : string) : option (string * string) :=
  rest ← strip_prefix "{{" s;
  let rest := if strict then rest else (span is_re_space rest).2 in
  let '(name, rest) := span is_word rest in
  let rest := if strict then rest else (span is_re_space rest).2 in
  rest ← strip_prefix "}}" rest;
  if decide (name = "") then None else Some (name, rest).

(** Replaces each variable, from the left, by [f] of its name, which may fail. *)
Fixpoint replace_vars (fuel : nat) (strict : bool) (f : string -> string) (s : string) : string :=
  match fuel, s with
  | O, _ | _, EmptyString => EmptyString
  | S n, String c s' =>
      match match_var strict s with
      | Some (name, rest) => f name +:+ replace_vars n strict f rest
      | None => String c (replace_vars n strict f s')
      end
  end.

Fixpoint find_vars (fuel : nat) (s : string) : list string :=
  match fuel, s with
  | O, _ | _, EmptyString => []
  | S n, String _ s' =>
      match match_var true s with
      | Some (name, rest) => name :: find_vars n rest
      | None => find_vars n s'
      end
  end.

Record Template := mkTemplate { tpl : string; requiredVars : list string }.

Definition Template_New (t : string) (supportedVars : list string) : result string Template :=
  let normalized := replace_vars (String.length t) false (fun v => "{{" +:+ v +:+ "}}")%string t in
  let vars := find_vars (String.length normalized) normalized in
  match filter (fun v => v ∉ supportedVars) vars with
  | v :: _ => Err ("unknown var in template: '" +:+ v +:+ "'")
  | [] => Ok (mkTemplate normalized vars)
  end.

Definition Template_Replace (t : Template) (values : gmap string string) : result string string :=
  match filter (fun v => values !! v = None) (requiredVars t) with
  | v :: _ => Err ("required var is missing: '" +:+ v +:+ "'")
  | [] => Ok (replace_vars (String.length (tpl t)) true (fun v => default "" (values !! v)) (tpl t))
  end.

(** [url.QueryEscape]. *)

Fixpoint url_QueryEscape (s : string) : string :=
  match s with
  | EmptyString => EmptyString
  | String c s' =>
      if is_alpha c || is_digit c || strings_ContainsByte "-_.~" c then String c (url_QueryEscape s')
      else if decide (c = " "%char) then String "+" (url_QueryEscape s')
      else String "%" (String (hex_upper (nat_of_ascii c / 16)) (String (hex_upper (nat_of_ascii c mod 16))
             (url_QueryEscape s')))
  end.

(** *** The provider *)

Record oauth2State := mkState { st_Nonce : string; st_RedirectURL : string }.

#[export] Instance oauth2State_eq_dec : EqDecision oauth2State.
Proof. solve_decision. Defined.

(** The answer of the token endpoint: the refresh token ("" for none) and the id_token, if any. *)
Record TokenResponse := mkTokenResponse { tr_RefreshToken : string; tr_IDToken : option string }.
Record IDToken := mkIDToken { id_Expiry : time; id_Nonce : string }.

(** What the provider's code calls: JSON, [golang.org/x/oauth2] and [coreos/go-oidc]. *)
Class OIDCLib := {
  json_MarshalState : oauth2State -> string;
  json_UnmarshalState : string -> option oauth2State;
  (** The refresh_token grant, and the exchange of a code; the i-th call to the provider. *)
  oauth2_RefreshGrant : nat -> string -> option TokenResponse;
  oauth2_Exchange : nat -> string -> result string TokenResponse;
  (** Verification of an id_token's signature, issuer and audience. *)
  oidc_Verify : string -> result string IDToken;
  (** [AuthCodeURL] of a state and a nonce. *)
  oauth2_AuthCodeURL : string -> string -> string;
  (** What net/url prints: a URL with path elements joined to it, one whose query is replaced by a
      single parameter, and one with a parameter set in its query. *)
  url_JoinPath : string -> list string -> string;
  url_WithQuery : string -> string -> string -> string;
  url_SetQuery : string -> string -> string -> string;
  (** [oidc.NewProvider]: the i-th discovery request to a URL; whether it succeeds. *)
  oidc_Discover : nat -> string -> bool;
}.

Record OIDCProvider := mkOIDCProvider {
  p_serverURL : string;
  p_issuerURL : string;
  p_discoveryURL : string;
  p_clientID : string;
  p_clientSecret : string;
  p_callbackURL : string;
  p_logoutURLTemplate : Template;
  p_logoutReturnURL : string;
  p_scopes : list string;
  p_oauth2StateSecret : string;
}.

Definition DefaultOIDCScopes : list string := ["openid"; "email"; "groups"; "offline_access"].

Definition sha256_BlockSize : nat := 64.
Definition logout_vars : list string := ["Token"; "ClientID"; "URL"; "LogoutReturnURL"].

Section Oidc.
Context `{P : Platform} `{O : OIDCLib} `{C : Crypto} `{N : GoNet}.

Definition genNonce : ST World (result string string) := random_HexString 32.

Definition hashOIDCNonce (nonce : string) : string := b64_Encode URLEncoding (sha256_Sum256 nonce).

Definition NewOIDCProvider (serverURL issuerURL discoveryURL clientID clientSecret logoutURLTemplate : string)
    (scopes : list string) : ST World (result string OIDCProvider) :=
  match url_Parse serverURL with
  | None => mret (Err ("invalid server URL '" +:+ serverURL +:+ "'"))
  | Some _ =>
      let callbackURL := url_JoinPath serverURL ["auth"; "oauth2"; "callback"] in
      let logoutReturnURL :=
        url_WithQuery serverURL "msg" "You successfully logged out from the OIDC provider" in
      secret ← random_Bytes sha256_BlockSize;
      match secret with
      | Err e => mret (Err ("error when generating secret for OAuth2 state: " +:+ e))
      | Ok secret =>
          match Template_New logoutURLTemplate logout_vars with
          | Err e => mret (Err ("logout URL is not a valid template: " +:+ e))
          | Ok t =>
              mret (Ok (mkOIDCProvider serverURL issuerURL discoveryURL clientID clientSecret callbackURL t
                logoutReturnURL (if decide (scopes = []) then DefaultOIDCScopes else scopes) secret))
          end
      end
  end.

(** *** Discovery

    [Init] asks for the provider's metadata until it answers or the context is done. The i-th
    [select] of the loop ends by the context when [ctx_done i] says so; the waits it asked for are
    returned with the outcome. *)
Definition initialWait : duration := Second.
Definition maxWait : duration := 10 * Second.

Definition next_wait (wait : duration) : duration :=
  let wait := 2 * wait in if maxWait <? wait then maxWait else wait.

Definition discovery_url (p : OIDCProvider) : string :=
  if negb (bool_decide (p_discoveryURL p = "")) && negb (bool_decide (p_discoveryURL p = p_issuerURL p))
  then p_discoveryURL p else p_issuerURL p.

Inductive init_outcome := InitDone | InitCancelled | InitRunning.

Fixpoint Init_loop (fuel : nat) (ctx_done : nat -> bool) (url : string) (i : nat) (wait : duration)
    (waits : list duration) : init_outcome * list duration :=
  match fuel with
  | 0%nat => (InitRunning, waits)
  | S n =>
      if oidc_Discover i url then (InitDone, waits)
      else if ctx_done i then (InitCancelled, waits)
      else Init_loop n ctx_done url (S i) (next_wait wait) (waits ++ [wait])
  end.

Definition Init (fuel : nat) (ctx_done : nat -> bool) (p : OIDCProvider) : init_outcome * list duration :=
  Init_loop fuel ctx_done (discovery_url p) 0 initialWait [].

Definition sign_state (p : OIDCProvider) (b64 : string) : string :=
  b64_Encode URLEncoding (hmac_sha256 (p_oauth2StateSecret p) b64).

Definition GetOAuth2State (p : OIDCProvider) (redirectURL : string)
    : ST World (result string (oauth2State * string)) :=
  nonce ← genNonce;
  match nonce with
  | Err e => mret (Err e)
  | Ok nonce =>
      let state := mkState nonce redirectURL in
      let b64 := b64_Encode URLEncoding (json_MarshalState state) in
      mret (Ok (state, (b64 +:+ "." +:+ sign_state p b64)%string))
  end.

Definition ParseOAuth2State (p : OIDCProvider) (raw : string) : result string oauth2State :=
  match strings_Split raw "." with
  | [s0; s1] =>
      match b64_DecodeString URLEncoding s0, b64_DecodeString URLEncoding s1 with
      | Some data, Some signature =>
          if decide (signature = hmac_sha256 (p_oauth2StateSecret p) s0) then
            match json_UnmarshalState data with
            | Some state => Ok state
            | None => Err "invalid format"
            end
          else Err "invalid signature"
      | _, _ => Err "invalid format"
      end
  | _ => Err "invalid format"
  end.

(** [BuildLogoutURL]; what net/url says of a URL it cannot parse is left out of the error. *)
Definition BuildLogoutURL (p : OIDCProvider) (idToken : string) : result string string :=
  let inputs : gmap string string :=
    {["Token" := url_QueryEscape idToken; "ClientID" := url_QueryEscape (p_clientID p);
      "URL" := url_QueryEscape (p_serverURL p);
      "LogoutReturnURL" := url_QueryEscape (p_logoutReturnURL p)]} in
  match Template_Replace (p_logoutURLTemplate p) inputs with
  | Err e => Err e
  | Ok logoutURL =>
      match url_Parse logoutURL with
      | Some _ => Ok logoutURL
      | None => Err "invalid logout URL"
      end
  end.

(** [oidcRefresher.Refresh]: the provider behind [refresher_Refresh] of OIDC sessions. *)
Definition oidcRefresher_Refresh (i : nat) (refreshToken : option string)
    : result string (CredVal * option string) :=
  match refreshToken with
  | None | Some EmptyString => Err "session has no refresh token"
  | Some tok =>
      match oauth2_RefreshGrant i tok with
      | None => Err "refresh token was rejected by the OIDC provider"
      | Some resp =>
          match tr_IDToken resp with
          | None => Err "no id_token in refresh response"
          | Some rawIDToken =>
              match oidc_Verify rawIDToken with
              | Err _ => Err "failed to verify refreshed id_token"
              | Ok idToken =>
                  let rotated := if negb (bool_decide (tr_RefreshToken resp = ""))
                                    && negb (bool_decide (tr_RefreshToken resp = tok))
                                 then Some (tr_RefreshToken resp) else None in
                  Ok (bearer_val rawIDToken (id_Expiry idToken), rotated)
              end
          end
      end
  end.

(** *** Properties *)

(** What [GetOAuth2State] signs parses back, provided JSON brings the state back (which it does
    when the redirect target is valid UTF-8). *)
Lemma GetOAuth2State_parses (p : OIDCProvider) (redirectURL : string) (w : World) (st : oauth2State) (raw : string) :
  json_UnmarshalState (json_MarshalState st) = Some st ->
  eval (GetOAuth2State p redirectURL) w = Ok (st, raw) ->
  ParseOAuth2State p raw = Ok st /\ st_RedirectURL st = redirectURL.
Proof.
  intros Hj Hg. unfold GetOAuth2State, genNonce, random_HexString, random_Bytes, draw, eval in Hg.
  repeat (rewrite bind_run in Hg; cbn [fst snd] in Hg).
  destruct (rand_Read (w_draws w) 32) as [b|]; cbn in Hg; [|done]. injection Hg as <- <-.
  set (st := mkState _ _) in *. split; [|done]. unfold ParseOAuth2State.
  set (b64 := b64_Encode URLEncoding (json_MarshalState st)).
  change (b64 +:+ "." +:+ sign_state p b64)%string with (b64 +:+ String "." (sign_state p b64)).
  rewrite Split_app_sep by apply b64_no_dot. rewrite Split_no_sep by apply b64_no_dot.
  unfold b64, sign_state. rewrite !b64_roundtrip, decide_True by done. by rewrite Hj.
Qed.

(** An accepted state was signed with the provider's secret. *)
Lemma ParseOAuth2State_signed p raw st :
  ParseOAuth2State p raw = Ok st ->
  exists s0 s1 data, strings_Split raw "." = [s0; s1] /\
    b64_DecodeString URLEncoding s1 = Some (hmac_sha256 (p_oauth2StateSecret p) s0) /\
    b64_DecodeString URLEncoding s0 = Some data /\ json_UnmarshalState data = Some st.
Proof.
  unfold ParseOAuth2State. destruct (strings_Split raw ".") as [|s0 [|s1 [|? ?]]]; try done.
  destruct (b64_DecodeString URLEncoding s0) as [data|] eqn:E0; [|done].
  destruct (b64_DecodeString URLEncoding s1) as [sig|] eqn:E1; [|done].
  case_decide; [|done]. subst. destruct (json_UnmarshalState data) as [st'|] eqn:E; [|done].
  intros [= ->]. by exists s0, s1, data.
Qed.

Lemma next_wait_bounds wait : initialWait <= wait <= maxWait -> initialWait <= next_wait wait <= maxWait.
Proof. unfold next_wait, initialWait, maxWait, Second. intros. destruct (Z.ltb_spec (10 * 1000000000) (2 * wait)); lia. Qed.

Lemma Init_loop_spec n ctx_done url i wait waits :
  initialWait <= wait <= maxWait ->
  (forall d, d ∈ (Init_loop n ctx_done url i wait waits).2 -> d ∈ waits \/ initialWait <= d <= maxWait) /\
  (forall k, (k < n)%nat -> (forall j, (j < k)%nat -> ctx_done (i + j)%nat = false) ->
     (forall j, (j < k)%nat -> oidc_Discover (i + j) url = false) ->
     (oidc_Discover (i + k) url = true -> (Init_loop n ctx_done url i wait waits).1 = InitDone) /\
     (oidc_Discover (i + k) url = false -> ctx_done (i + k)%nat = true ->
      (Init_loop n ctx_done url i wait waits).1 = InitCancelled)).
Proof.
  revert i wait waits. induction n as [|n IH]; intros i wait waits Hw; cbn [Init_loop fst snd].
  { split; [by left|lia]. }
  specialize (IH (S i) (next_wait wait) (waits ++ [wait]) (next_wait_bounds _ Hw)) as [IH1 IH2].
  destruct (oidc_Discover i url) eqn:Hd; [|destruct (ctx_done i) eqn:Hc]; cbn [fst snd].
  - split; [by left|]. intros [|k] _ _ Hk; [by rewrite Nat.add_0_r, Hd|].
    specialize (Hk 0%nat ltac:(lia)). rewrite Nat.add_0_r in Hk. congruence.
  - split; [by left|]. intros [|k] _ Hk _; [rewrite Nat.add_0_r, Hd; by split|].
    specialize (Hk 0%nat ltac:(lia)). rewrite Nat.add_0_r in Hk. congruence.
  - split.
    + intros d Hin. destruct (IH1 d Hin) as [[?|Heq%list_elem_of_singleton]%elem_of_app|]; [by left|right; by rewrite Heq|by right].
    + intros [|k] Hlt Hk1 Hk2; [rewrite Nat.add_0_r, Hd, Hc; by split|].
      rewrite Nat.add_succ_r, <- Nat.add_succ_l. apply IH2; [lia| |]; intros j Hj;
        rewrite Nat.add_succ_l, <- Nat.add_succ_r; [apply Hk1|apply Hk2]; lia.
Qed.

(** A discovery that [Init] reports has happened: some attempt was answered, and the context was not
    done after any before it. *)
Lemma Init_loop_done n ctx_done url i wait waits :
  (Init_loop n ctx_done url i wait waits).1 = InitDone ->
  exists k, oidc_Discover (i + k) url = true /\
    forall j, (j < k)%nat -> oidc_Discover (i + j) url = false /\ ctx_done (i + j)%nat = false.
Proof.
  revert i wait waits. induction n as [|n IH]; intros i wait waits; cbn [Init_loop fst]; [done|].
  destruct (oidc_Discover i url) eqn:Hd; [|destruct (ctx_done i) eqn:Hc]; cbn [fst].
  - intros _. exists 0%nat. rewrite Nat.add_0_r. split; [done|lia].
  - done.
  - intros (k & Hk & Hj)%IH. exists (S k). rewrite Nat.add_succ_r. split; [done|].
    intros [|j] Hlt; [by rewrite Nat.add_0_r|]. rewrite Nat.add_succ_r. apply (Hj j). lia.
Qed.

(** A refresh renews a session with nothing but a verified id_token: the new credential is a
    bearer token the provider's keys vouch for, with the expiry they state; the session's refresh
    token is replaced only by a different, non-empty one; and without a refresh token the provider
    is not asked. *)
Theorem refresh_credential (i : nat) (tok : option string) :
  match oidcRefresher_Refresh i tok with
  | Ok (v, rotated) => exists t resp raw idToken,
      tok = Some t /\ t <> "" /\ oauth2_RefreshGrant i t = Some resp /\
      tr_IDToken resp = Some raw /\ oidc_Verify raw = Ok idToken /\
      v = bearer_val raw (id_Expiry idToken) /\
      match rotated with
      | Some t' => t' = tr_RefreshToken resp /\ t' <> "" /\ t' <> t
      | None => tr_RefreshToken resp = "" \/ tr_RefreshToken resp = t
      end
  | Err e => tok = None \/ tok = Some "" \/
      exists t, tok = Some t /\
        match oauth2_RefreshGrant i t with
        | None => e = "refresh token was rejected by the OIDC provider"
        | Some resp => forall raw, tr_IDToken resp = Some raw -> exists e, oidc_Verify raw = Err e
        end
  end.
Proof.
  unfold oidcRefresher_Refresh. destruct tok as [[|c t']|]; [by right; left| |by left].
  set (t := String c t'). destruct (oauth2_RefreshGrant i t) as [resp|] eqn:Hg;
    [|right; right; exists t; by rewrite Hg].
  destruct (tr_IDToken resp) as [raw|] eqn:Hi;
    [|right; right; exists t; rewrite Hg; split; [done|congruence]].
  destruct (oidc_Verify raw) as [idt|] eqn:Hv.
  - exists t, resp, raw, idt. split_and!; try done.
    destruct (bool_decide_reflect (tr_RefreshToken resp = "")),
      (bool_decide_reflect (tr_RefreshToken resp = t)); cbn [negb andb]; auto.
  - right; right. exists t. rewrite Hg. split; [done|]. intros raw' E.
    rewrite Hi in E. injection E as <-. by eexists.
Qed.

(** *** The logout URL *)

(** Bytes that can neither end a query parameter nor start another. *)
Definition query_safe (c : ascii) : bool :=
  is_alpha c || is_digit c || strings_ContainsByte "-_.~+%" c.

Lemma QueryEscape_safe s : string_forallb query_safe (url_QueryEscape s) = true.
Proof.
  assert (Hhex : forall n, (n < 16)%nat -> query_safe (hex_upper n) = true).
  { intros n Hn. do 16 (destruct n as [|n]; [done|]). lia. }
  induction s as [|c s IH]; [done|]. cbn [url_QueryEscape].
  destruct (is_alpha c || is_digit c || strings_ContainsByte "-_.~" c) eqn:Hc.
  - cbn [string_forallb]. rewrite IH, andb_true_r. unfold query_safe.
    destruct (is_alpha c || is_digit c); [done|]. cbn [orb] in *. cbn [strings_ContainsByte] in *.
    repeat case_decide; done.
  - case_decide; [by cbn [string_forallb]; rewrite IH|]. cbn [string_forallb].
    pose proof (nat_ascii_bounded c). rewrite IH, !Hhex; [done| |].
    + apply Nat.mod_upper_bound. lia.
    + apply Nat.Div0.div_lt_upper_bound. lia.
Qed.

Lemma filter_nil_forall {A} (Q : A -> Prop) `{forall x, Decision (Q x)} (l : list A) :
  filter Q l = [] <-> forall x, x ∈ l -> ~ Q x.
Proof.
  split.
  - intros E x Hx Hq. assert (x ∈ filter Q l) by by apply list_elem_of_filter. rewrite E in *. set_solver.
  - intros Hn. destruct (filter Q l) as [|x l'] eqn:E; [done|].
    assert (x ∈ filter Q l) as Hx by (rewrite E; left). apply list_elem_of_filter in Hx as [? ?].
    by destruct (Hn x).
Qed.

(** A logout URL template that was accepted at startup never fails at logout for a missing
    variable, and what is put in it is escaped: neither the id_token nor a configured value can
    add a parameter or leave the query. *)
Theorem logout_template_total (t : string) (tm : Template) (p : OIDCProvider) (idToken e : string) :
  Template_New t logout_vars = Ok tm -> p_logoutURLTemplate p = tm ->
  (BuildLogoutURL p idToken = Err e -> e = "invalid logout URL") /\
  string_forallb query_safe (url_QueryEscape idToken) = true.
Proof.
  intros Ht Hp. split; [|apply QueryEscape_safe].
  unfold Template_New in Ht. destruct (filter _ _) as [|v l] eqn:Ef; [|done]. injection Ht as <-.
  unfold BuildLogoutURL, Template_Replace. rewrite Hp. cbn [requiredVars].
  set (values := _ : gmap string string). set (vars := find_vars _ _) in *.
  assert (filter (fun v => values !! v = None) vars = []) as ->.
  { apply filter_nil_forall. intros v Hv.
    assert (Hs : v ∈ logout_vars).
    { destruct (decide (v ∈ logout_vars)); [done|]. by destruct (proj1 (filter_nil_forall _ _) Ef v). }
    unfold logout_vars in Hs. rewrite !elem_of_cons in Hs.
    destruct Hs as [->|[->|[->|[->|Hs]]]]; [done..|set_solver]. }
  destruct (url_Parse _); [done|]. by intros [= <-].
Qed.
End Oidc.

Example template_ex :
  match Template_New "https://idp/logout?h={{ Token }}&c={{ClientID}}" logout_vars with
  | Ok t => Template_Replace t {["Token" := "a%20b"; "ClientID" := "ui"]} = Ok "https://idp/logout?h=a%20b&c=ui"
  | Err _ => False
  end.
Proof. vm_compute. reflexivity. Qed.
