(* ===== verification/Password.v ===== *)
(** * The admin password ([pkg/password], [pkg/server/api/account.go])

    The store that caches a salt and a hash in front of a [ReadWriter], its two read-writers (a
    Kubernetes Secret and memory), and the endpoint that changes the password. *)
From S2P Require Import Prelude.
From S2P Require Import GoStrings.
From S2P Require Import Base64.
From S2P Require Import Http.
From S2P Require Import Session.
From S2P Require Import SessionContext.

Definition defaultPassword : string := "admin".
Definition saltLength : nat := 16.
Definition ErrNotInitialized : string := "not initialized".
Definition ErrInvalidPassword : string := "invalid password".

(** [readwriter.Interface]: [Read] answers nothing, or the hash and the salt. *)
Class ReadWriter (W : Type) := {
  rw_Read : ST W (result string (option (string * string)));
  rw_Write : string -> string -> ST W (option string);
}.

(** What the password store relies on: a read that answers tells the truth, and a write that
    succeeds is what the next reads see. *)
Class ReadWriterLaws {W} (R : ReadWriter W) := {
  rw_stored : W -> option (string * string);
  rw_Read_ok : forall w r, eval rw_Read w = Ok r -> r = rw_stored w;
  rw_Read_stored : forall w, rw_stored (exec rw_Read w) = rw_stored w;
  rw_Write_ok : forall h s w, eval (rw_Write h s) w = None -> rw_stored (exec (rw_Write h s) w) = Some (h, s);
}.

(** ** The store *)

(** [pw_salt] is nil until the store is initialised; [pw_draws] counts reads of the random source. *)
Record PwStore (W : Type) := mkPwStore {
  pw_rw : W;
  pw_salt : option string;
  pw_hash : string;
  pw_draws : nat;
}.
Arguments mkPwStore {W}.
Arguments pw_rw {W}.
Arguments pw_salt {W}.
Arguments pw_hash {W}.
Arguments pw_draws {W}.

Section Store.
Context {W : Type} `{R : ReadWriter W}.
(** The hasher, and the i-th read of [n] random bytes. *)
Context (Hash : string -> string -> result string string) (random : nat -> nat -> result string string).

Definition NewPwStore (w : W) (draws : nat) : PwStore W := mkPwStore w None "" draws.

Definition on_rw {A} (m : ST W A) : ST (PwStore W) A := fun s =>
  let '(a, w) := m (pw_rw s) in (a, mkPwStore w (pw_salt s) (pw_hash s) (pw_draws s)).

Definition set_cache (salt hash : string) : ST (PwStore W) unit :=
  modify (fun s => mkPwStore (pw_rw s) (Some salt) hash (pw_draws s)).

Definition draw_salt : ST (PwStore W) (result string string) := fun s =>
  (random (pw_draws s) saltLength, mkPwStore (pw_rw s) (pw_salt s) (pw_hash s) (S (pw_draws s))).

(** [Init]: [None] is success. *)
Definition PwInit : ST (PwStore W) (option string) :=
  r ← on_rw rw_Read;
  match r with
  | Err e => mret (Some e)
  | Ok (Some (hash, salt)) => set_cache salt hash;; mret None
  | Ok None =>
      salt ← draw_salt;
      match salt with
      | Err e => mret (Some ("error when generating random salt: " +:+ e))
      | Ok salt =>
          match Hash defaultPassword salt with
          | Err e => mret (Some e)
          | Ok hash =>
              e ← on_rw (rw_Write hash salt);
              match e with
              | Some e => mret (Some e)
              | None => set_cache salt hash;; mret None
              end
          end
      end
  end.

Definition PwUpdate (password : string) : ST (PwStore W) (option string) :=
  cached ← gets pw_salt;
  match cached with
  | None => mret (Some ErrNotInitialized)
  | Some salt =>
      match Hash password salt with
      | Err e => mret (Some e)
      | Ok hash =>
          e ← on_rw (rw_Write hash salt);
          match e with
          | Some e => mret (Some e)
          | None => set_cache salt hash;; mret None
          end
      end
  end.

(** [subtle.ConstantTimeCompare] of the hashes is equality. *)
Definition PwCompare (password : string) (s : PwStore W) : option string :=
  match pw_salt s with
  | None => Some ErrNotInitialized
  | Some salt =>
      match Hash password salt with
      | Err e => Some e
      | Ok hash => if decide (hash = pw_hash s) then None else Some ErrInvalidPassword
      end
  end.

(** The cache is what is stored. *)
Definition consistent `{L : !ReadWriterLaws R} (s : PwStore W) : Prop :=
  exists salt, pw_salt s = Some salt /\ rw_stored (pw_rw s) = Some (pw_hash s, salt).

Lemma on_rw_run {A} (m : ST W A) (s : PwStore W) :
  on_rw m s = (eval m (pw_rw s), mkPwStore (exec m (pw_rw s)) (pw_salt s) (pw_hash s) (pw_draws s)).
Proof. unfold on_rw, eval, exec. by destruct (m (pw_rw s)). Qed.

Lemma cache_run salt hash (s : PwStore W) :
  (set_cache salt hash;; mret (M := ST (PwStore W)) (@None string)) s =
    (None, mkPwStore (pw_rw s) (Some salt) hash (pw_draws s)).
Proof. reflexivity. Qed.

Lemma PwInit_spec `{L : !ReadWriterLaws R} (s : PwStore W) :
  eval PwInit s = None ->
  consistent (exec PwInit s) /\
  match rw_stored (pw_rw s) with
  | Some (hash, salt) => pw_salt (exec PwInit s) = Some salt /\ pw_hash (exec PwInit s) = hash
  | None => exists salt, random (pw_draws s) saltLength = Ok salt /\
      pw_salt (exec PwInit s) = Some salt /\ Hash defaultPassword salt = Ok (pw_hash (exec PwInit s))
  end.
Proof.
  unfold eval, exec, PwInit. rewrite bind_run, on_rw_run.
  pose proof (rw_Read_ok (pw_rw s)) as Hr. pose proof (rw_Read_stored (pw_rw s)) as Hs.
  destruct (eval rw_Read (pw_rw s)) as [[[hash salt]|]|e]; [..|done].
  - intros _. rewrite cache_run. cbn [fst snd pw_salt pw_hash pw_rw]. rewrite <- (Hr _ eq_refl). split; [|done]. exists salt. cbn [pw_salt pw_hash pw_rw].
    by rewrite Hs, <- (Hr _ eq_refl).
  - rewrite bind_run. unfold draw_salt. cbn [pw_rw pw_salt pw_hash pw_draws].
    rewrite <- (Hr _ eq_refl). destruct (random (pw_draws s) saltLength) as [salt|] eqn:Hd; [|done].
    destruct (Hash defaultPassword salt) as [hash|e] eqn:Hh; [|done]. rewrite bind_run, on_rw_run.
    cbn [pw_rw pw_salt pw_hash pw_draws]. set (w := exec rw_Read (pw_rw s)) in *.
    pose proof (rw_Write_ok hash salt w) as Hw.
    destruct (eval (rw_Write hash salt) w) as [e|]; [done|]. intros _. rewrite cache_run. cbn [fst snd pw_salt pw_hash pw_rw].
    split; [exists salt; cbn [pw_salt pw_hash pw_rw]; by rewrite Hw|]. by exists salt.
Qed.

Lemma PwUpdate_spec `{L : !ReadWriterLaws R} (p : string) (s : PwStore W) :
  match eval (PwUpdate p) s with
  | None => consistent (exec (PwUpdate p) s) /\
      exists salt, pw_salt s = Some salt /\ pw_salt (exec (PwUpdate p) s) = Some salt /\
        Hash p salt = Ok (pw_hash (exec (PwUpdate p) s))
  | Some _ => pw_salt (exec (PwUpdate p) s) = pw_salt s /\ pw_hash (exec (PwUpdate p) s) = pw_hash s
  end.
Proof.
  unfold eval, exec, PwUpdate. rewrite bind_run. unfold gets. destruct (pw_salt s) as [salt|] eqn:Hs; [|by cbn].
  destruct (Hash p salt) as [hash|e] eqn:Hh; [|by cbn]. rewrite bind_run, on_rw_run.
  pose proof (rw_Write_ok hash salt (pw_rw s)) as Hw.
  destruct (eval (rw_Write hash salt) (pw_rw s)) as [e|]; [done|]; rewrite cache_run; cbn [fst snd pw_salt pw_hash pw_rw].
  split; [exists salt; cbn [pw_salt pw_hash pw_rw]; by rewrite Hw|]. by exists salt.
Qed.
End Store.

(** ** The read-writers *)

(** The hasher ([argon2.go]): its parameters, and the hash made with them; [IDKey] is
    [golang.org/x/crypto/argon2]'s. *)
Record Argon2id := mkArgon2id { a2_time : Z; a2_memory : Z; a2_threads : Z; a2_keyLen : Z }.

Definition NewArgon2id : Argon2id := mkArgon2id 2 (19 * 1024) 1 32.

Definition Argon2id_Hash (IDKey : string -> string -> Z -> Z -> Z -> Z -> string) (h : Argon2id)
    (password salt : string) : result string string :=
  Ok (IDKey password salt (a2_time h) (a2_memory h) (a2_threads h) (a2_keyLen h)).

(** [InMemory]: nothing until the first write. *)
#[export] Instance InMemory : ReadWriter (option (string * string)) := {|
  rw_Read := fun m => (Ok m, m);
  rw_Write hash salt := fun _ => (None, Some (hash, salt));
|}.

#[export] Instance InMemory_laws : ReadWriterLaws InMemory.
Proof.
  refine {| rw_stored m := m |}; cbn.
  - by intros w r [= <-].
  - done.
  - done.
Defined.

(** A Secret: its [data], base64 as the dynamic client has it, and everything else. *)
Record Secret := mkSecret { sec_data : option (gmap string string); sec_rest : string }.

Inductive api_result (A : Type) := ApiOk (a : A) | ApiNotFound | ApiErr (msg : string).
Arguments ApiOk {A}.
Arguments ApiNotFound {A}.
Arguments ApiErr {A}.

(** The Kubernetes API, for the one Secret this program reads and writes. *)
Class SecretAPI (W : Type) := {
  api_Get : ST W (api_result Secret);
  api_Create : Secret -> ST W (option string);
  api_Update : Secret -> ST W (option string);
}.

(** A get that answers tells the truth, and a create or update that succeeds took effect. Any call
    may fail. *)
Class SecretAPILaws {W} (A : SecretAPI W) := {
  api_secret : W -> option Secret;
  api_Get_state : forall w, api_secret (exec api_Get w) = api_secret w;
  api_Get_ok : forall w s, eval api_Get w = ApiOk s -> api_secret w = Some s;
  api_Get_absent : forall w, eval api_Get w = ApiNotFound -> api_secret w = None;
  api_Create_ok : forall s w, eval (api_Create s) w = None -> api_secret (exec (api_Create s) w) = Some s;
  api_Update_ok : forall s w, eval (api_Update s) w = None -> api_secret (exec (api_Update s) w) = Some s;
}.

Section K8sSecret.
Context {W : Type} `{A : SecretAPI W}.
(** Where the Secret is, and the identity of the one the program creates. *)
Context (secretNamespace secretName new_secret : string).

Definition secret_at : string := "'" +:+ secretNamespace +:+ "/" +:+ secretName +:+ "': ".

(** Go's [(secret, ok, err)]. *)
Definition readSecret : ST W (option Secret * bool * option string) :=
  r ← api_Get;
  mret (match r with
        | ApiNotFound => (None, false, None)
        | ApiErr e => (None, false, Some e)
        | ApiOk s => (Some s, true, None)
        end).

(** What encoding/base64 says of a string it cannot decode is left out of the errors. *)
Definition readData (s : Secret) : result string (string * string) :=
  match sec_data s with
  | None => Err "no data in secret"
  | Some data =>
      match data !! "hash", data !! "salt" with
      | None, _ => Err "hash is missing from data"
      | _, None => Err "salt is missing from data"
      | Some hashS, Some saltS =>
          match b64_DecodeString StdEncoding hashS, b64_DecodeString StdEncoding saltS with
          | None, _ => Err "error when base64-decoding hash"
          | _, None => Err "error when base64-decoding salt"
          | Some hash, Some salt => Ok (hash, salt)
          end
      end
  end.

(** [Read]: [ok] is looked at before [err]. [ok] comes with a secret. *)
Definition K8sSecret_Read : ST W (result string (option (string * string))) :=
  r ← readSecret;
  let '(secret, ok, err) := r in
  if negb ok then mret (Ok None)
  else match err, secret with
       | Some e, _ => mret (Err ("error when retrieving K8s secret " +:+ secret_at +:+ e))
       | None, None => mret (Ok None)
       | None, Some s =>
           mret (match readData s with
                 | Ok (hash, salt) => Ok (Some (hash, salt))
                 | Err e => Err ("error when reading data from K8s secret " +:+ secret_at +:+ e)
                 end)
       end.

Definition secret_data (hash salt : string) : gmap string string :=
  {["hash" := b64_Encode StdEncoding hash; "salt" := b64_Encode StdEncoding salt]}.

Definition K8sSecret_Write (hash salt : string) : ST W (option string) :=
  r ← readSecret;
  let '(secret, ok, err) := r in
  match err with
  | Some e => mret (Some e)
  | None =>
      match ok, secret with
      | true, Some s =>
          e ← api_Update (mkSecret (Some (secret_data hash salt)) (sec_rest s));
          mret ((fun e => "error when updating K8s secret " +:+ secret_at +:+ e) <$> e)
      | _, _ =>
          e ← api_Create (mkSecret (Some (secret_data hash salt)) new_secret);
          mret ((fun e => "error when creating K8s secret " +:+ secret_at +:+ e) <$> e)
      end
  end.

#[export] Instance K8sSecret : ReadWriter W := {| rw_Read := K8sSecret_Read; rw_Write := K8sSecret_Write |}.

Lemma readData_written hash salt rest :
  readData (mkSecret (Some (secret_data hash salt)) rest) = Ok (hash, salt).
Proof.
  unfold readData, secret_data. cbn [sec_data]. rewrite lookup_insert_eq, lookup_insert_ne, lookup_singleton_eq by done.
  by rewrite !b64_roundtrip.
Qed.

Lemma readSecret_run w :
  readSecret w = (match eval api_Get w with
                  | ApiNotFound => (None, false, None)
                  | ApiErr e => (None, false, Some e)
                  | ApiOk s => (Some s, true, None)
                  end, exec api_Get w).
Proof. unfold readSecret, eval, exec. rewrite bind_run. by destruct (api_Get w) as [[]]. Qed.

Lemma K8sSecret_Write_ok `{L : !SecretAPILaws A} hash salt w :
  eval (K8sSecret_Write hash salt) w = None ->
  exists s, api_secret (exec (K8sSecret_Write hash salt) w) = Some s /\ readData s = Ok (hash, salt).
Proof.
  unfold K8sSecret_Write. unfold eval at 1, exec. rewrite bind_run, readSecret_run.
  destruct (eval api_Get w) as [s| |e]; [| |done]; rewrite bind_run.
  - set (s' := mkSecret _ _). pose proof (api_Update_ok s' (exec api_Get w)) as U. unfold eval, exec in *.
    destruct (api_Update s' _) as [[e|] w']; [done|]. intros _. exists s'. split; [by apply U|].
    apply readData_written.
  - set (s' := mkSecret _ _). pose proof (api_Create_ok s' (exec api_Get w)) as U. unfold eval, exec in *.
    destruct (api_Create s' _) as [[e|] w']; [done|]. intros _. exists s'. split; [by apply U|].
    apply readData_written.
Qed.

(** The Secret keeps the promise of a read-writer as long as no get of it fails: a failure reads
    as an empty store (see [Init_forgets_password]). *)
Definition K8sSecret_laws `{L : !SecretAPILaws A} (up : forall w e, eval api_Get w <> ApiErr e) :
  ReadWriterLaws K8sSecret.
Proof.
  refine {| rw_stored w := match api_secret w with
                           | Some s => match readData s with Ok hs => Some hs | Err _ => None end
                           | None => None end |}; cbn [rw_Read rw_Write K8sSecret].
  - intros w r. unfold eval, K8sSecret_Read. rewrite bind_run, readSecret_run.
    pose proof (api_Get_ok w) as G. pose proof (api_Get_absent w) as N. pose proof (up w) as U.
    destruct (eval api_Get w) as [s| |e]; cbn; [| |by destruct (U e)].
    + rewrite (G s eq_refl). destruct (readData s) as [[hash salt]|]; [|done]. by intros [= <-].
    + rewrite (N eq_refl). by intros [= <-].
  - intros w. assert (E : exec K8sSecret_Read w = exec api_Get w).
    { unfold exec at 1, K8sSecret_Read. rewrite bind_run, readSecret_run.
      by destruct (eval api_Get w) as [s| |e]; cbn; [destruct (readData s) as [[]|]| |]. }
    by rewrite E, api_Get_state.
  - intros h s w Hw. by destruct (K8sSecret_Write_ok h s w Hw) as (sec & -> & ->).
Defined.
End K8sSecret.

(** ** Changing the password ([account.go]) *)

Section Account.
Context {W : Type} `{R : ReadWriter W} `{P : Platform}.
Context (Hash : string -> string -> result string string).

Local Notation HM := (ST (HState (PwStore W))).

(** [ra] is the identity the authentication middleware left in the context. *)
Definition UpdatePassword_body (ra : option RequestAuth) (body : option (string * string))
    : HM (option ServerError) :=
  let admin := match ra with Some ra => bool_decide (ra_Mode ra = ModeAdmin) | None => false end in
  if negb admin then
    mret (Some (mkServerError StatusForbidden None
      "Only a session authenticated with the admin password can change it"))
  else
    updatePassword ← BindJSON body;
    match updatePassword with
    | None => mret (Some (mkServerError StatusBadRequest None "invalid body"))
    | Some (CurrentPassword, NewPassword) =>
        wrong ← lift (gets (PwCompare Hash CurrentPassword));
        match wrong with
        | Some _ => mret (Some (mkServerError StatusBadRequest None "Invalid current admin password"))
        | None =>
            e ← lift (PwUpdate Hash NewPassword);
            mret (match e with
                  | Some e => Some (mkServerError StatusInternalServerError
                                      (Some ("error when updating password: " +:+ e)) "")
                  | None => None
                  end)
        end
    end.

Definition UpdatePassword (ra : option RequestAuth) (body : option (string * string)) : HM unit :=
  e ← UpdatePassword_body ra body;
  match e with
  | Some e => HandleError e;; LogError (Some e) "Failed to update password"
  | None => emit (Status StatusOK)
  end.

(** Only a session that was opened with the admin password can change it, and only by
    repeating that password: in every other case the store is not touched and the answer is 403
    or 400. *)
Theorem UpdatePassword_guard (ra : option RequestAuth) (body : option (string * string)) (h : HState (PwStore W)) :
  (exists r cur new, ra = Some r /\ ra_Mode r = ModeAdmin /\ body = Some (cur, new) /\
     PwCompare Hash cur (h_world h) = None /\
     h_world (exec (UpdatePassword_body ra body) h) = exec (PwUpdate Hash new) (h_world h) /\
     (eval (UpdatePassword_body ra body) h = None <-> eval (PwUpdate Hash new) (h_world h) = None)) \/
  (h_world (exec (UpdatePassword_body ra body) h) = h_world h /\
   exists e, eval (UpdatePassword_body ra body) h = Some e /\
     (se_Code e = StatusForbidden \/ se_Code e = StatusBadRequest)).
Proof.
  unfold UpdatePassword_body, eval, exec.
  destruct ra as [r|]; [destruct (bool_decide_reflect (ra_Mode r = ModeAdmin))|]; cbn [negb];
    [|right; split; [done|eexists; split; [done|by left]]..].
  destruct body as [[cur new]|].
  2:{ right. split; [done|]. eexists; split; [done|by right]. }
  cbn [BindJSON]. rewrite !bind_ret. unfold mbind, ST_bind, lift, gets. cbn [fst snd].
  destruct (PwCompare Hash cur (h_world h)) as [e'|] eqn:Hc.
  { right. destruct h. split; [done|]. eexists; split; [done|by right]. }
  left. exists r, cur, new. split_and!; try done; cbn [h_world h_out];
    destruct (PwUpdate Hash new (h_world h)) as [[e'|] w]; done.
Qed.
End Account.

(** ** Properties *)

Section Properties.
Context {W : Type} `{R : ReadWriter W}.
Context (Hash : string -> string -> result string string) (random : nat -> nat -> result string string).

(** The password outlives the process: over a read-writer that keeps its promise, after a
    successful change the new password compares equal, any other compares equal only if it hashes
    to the same value under the stored salt, and a server that starts later over the same storage
    answers every comparison the same way; the default password comes back in neither. *)
Theorem password_survives_restart `{L : !ReadWriterLaws R} (w : W) (d d' : nat) (p : string) :
  let st1 := exec (PwInit Hash random) (NewPwStore w d) in
  let st2 := exec (PwUpdate Hash p) st1 in
  let st3 := exec (PwInit Hash random) (NewPwStore (pw_rw st2) d') in
  eval (PwInit Hash random) (NewPwStore w d) = None ->
  eval (PwUpdate Hash p) st1 = None ->
  eval (PwInit Hash random) (NewPwStore (pw_rw st2) d') = None ->
  PwCompare Hash p st3 = None /\
  (forall q, PwCompare Hash q st3 = PwCompare Hash q st2) /\
  exists salt, pw_salt st1 = Some salt /\ pw_salt st3 = Some salt /\
    forall q, PwCompare Hash q st3 = None <-> Hash q salt = Hash p salt.
Proof.
  intros st1 st2 st3 H1 H2 H3.
  pose proof (PwUpdate_spec Hash p st1) as U. rewrite H2 in U. fold st2 in U.
  destruct U as ((salt & S2 & T2) & salt' & S1 & S2' & Hp). assert (salt' = salt) by congruence. subst salt'.
  destruct (PwInit_spec Hash random _ H3) as [_ I]. cbn [NewPwStore pw_rw] in I. rewrite T2 in I.
  fold st3 in I. destruct I as [S3 E3].
  assert (Hq : forall q, PwCompare Hash q st3 = PwCompare Hash q st2).
  { intros q. unfold PwCompare. by rewrite S3, S2, E3. }
  split; [|split; [done|]].
  - unfold PwCompare. by rewrite S3, Hp, decide_True by done.
  - exists salt. split_and!; try done. intros q. unfold PwCompare. rewrite S3, E3, Hp.
    destruct (Hash q salt) as [hash|e]; [|done]. case_decide; split; congruence.
Qed.

(** C36. A single failed read at startup resets the admin password: when the first get of the
    Secret fails for a reason other than its absence and the next one works, [Init] reports
    success, the server accepts the default password, and the Secret holds that password's hash in
    place of the one it had. *)
Theorem Init_forgets_password {K : Type} `{A : SecretAPI K} `{LA : !SecretAPILaws A} (ns name rest : string)
    (w : K) (d : nat) (msg salt hash : string) (old : Secret) :
  eval api_Get w = ApiErr msg ->
  eval api_Get (exec api_Get w) = ApiOk old ->
  random d saltLength = Ok salt -> Hash defaultPassword salt = Ok hash ->
  eval (api_Update (mkSecret (Some (secret_data hash salt)) (sec_rest old))) (exec api_Get (exec api_Get w)) = None ->
  let st := exec (PwInit (R := K8sSecret ns name rest) Hash random) (NewPwStore w d) in
  eval (PwInit (R := K8sSecret ns name rest) Hash random) (NewPwStore w d) = None /\
  PwCompare Hash defaultPassword st = None /\
  exists s, api_secret (pw_rw st) = Some s /\ readData s = Ok (hash, salt).
Proof.
  intros G1 G2 Hd Hh Hu st.
  assert (Hr : K8sSecret_Read ns name w = (Ok None, exec api_Get w)).
  { unfold K8sSecret_Read. rewrite bind_run, readSecret_run, G1. done. }
  assert (Hw : eval (K8sSecret_Write ns name rest hash salt) (exec api_Get w) = None).
  { unfold K8sSecret_Write, eval. rewrite bind_run, readSecret_run, G2, bind_run.
    unfold eval, exec in Hu |- *. by destruct (api_Update _ _) as [[]]. }
  destruct (K8sSecret_Write_ok ns name rest hash salt _ Hw) as (s & Hs & Hrd).
  assert (Hrun : PwInit (R := K8sSecret ns name rest) Hash random (NewPwStore w d) =
    (None, mkPwStore (exec (K8sSecret_Write ns name rest hash salt) (exec api_Get w)) (Some salt) hash (S d))).
  { unfold PwInit. rewrite bind_run, on_rw_run. cbn [rw_Read K8sSecret NewPwStore pw_rw pw_salt pw_hash pw_draws].
    unfold eval at 1. rewrite Hr. cbn [fst]. rewrite bind_run. unfold draw_salt.
    cbn [pw_rw pw_salt pw_hash pw_draws]. rewrite Hd, Hh, bind_run, on_rw_run.
    cbn [rw_Write K8sSecret pw_rw pw_salt pw_hash pw_draws].
    replace (exec (K8sSecret_Read ns name) w) with (exec api_Get w) by (unfold exec at 2; by rewrite Hr).
    rewrite Hw. done. }
  unfold st, eval, exec. rewrite Hrun. cbn [fst snd pw_rw]. split; [done|]. split; [|by exists s].
  unfold PwCompare. cbn [pw_salt pw_hash]. by rewrite Hh, decide_True by done.
Qed.
End Properties.

Module PasswordDemo.

Definition demo_hash (p salt : string) : result string string := Ok (p +:+ salt).
Definition demo_random (i n : nat) : result string string := Ok "salty".

Lemma password_survives_restart_witness :
  PwCompare demo_hash "new"
    (exec (PwInit demo_hash demo_random)
       (NewPwStore (pw_rw (exec (PwUpdate demo_hash "new")
          (exec (PwInit demo_hash demo_random) (NewPwStore (None : option (string * string)) 0)))) 1)) = None.
Proof.
  apply (password_survives_restart (L := InMemory_laws) demo_hash demo_random None 0 1 "new"); reflexivity.
Defined.

(** An API server whose first get times out. *)
#[local] Instance flaky_api : SecretAPI (nat * option Secret) := {|
  api_Get := fun '(n, s) => (match n with O => ApiErr "timeout" | _ => match s with
                             | Some s => ApiOk s | None => ApiNotFound end end, (S n, s));
  api_Create s := fun '(n, _) => (None, (n, Some s));
  api_Update s := fun '(n, _) => (None, (n, Some s));
|}.

#[local] Instance flaky_laws : SecretAPILaws flaky_api.
Proof.
  refine {| api_secret := snd |}; cbn.
  - by intros [n s].
  - intros [[|n] [s|]] s' H; cbn in *; by inversion H.
  - intros [[|n] [s|]] H; cbn in *; done.
  - by intros s [n s'].
  - by intros s [n s'].
Defined.

Definition old_secret : Secret := mkSecret (Some (secret_data "hash-of-the-old-password" "pepper")) "antrea-ui-passwd".

Lemma Init_forgets_password_witness :
  exists s, api_secret (pw_rw (exec (PwInit (R := K8sSecret "antrea-ui" "antrea-ui-passwd" "new") demo_hash demo_random)
                          (NewPwStore (0%nat, Some old_secret) 0))) = Some s /\
    readData s = Ok ("adminsalty", "salty").
Proof.
  destruct (Init_forgets_password demo_hash demo_random "antrea-ui" "antrea-ui-passwd" "new" (0%nat, Some old_secret) 0 "timeout" "salty"
    "adminsalty" old_secret) as (_ & _ & E); [reflexivity..|exact E].
Defined.
End PasswordDemo.
