(* ===== verification/PasswordConc.v ===== *)
(** * Concurrent logins and changes of the admin password ([pkg/password/store.go])

    [Compare] holds the store's lock for reading and [Update] for writing, each while it hashes (which
    takes long) and [Update] while it writes to the cluster. Here they are the critical sections of
    the goroutines of concurrent requests: logins, and the handler that changes the password, which
    compares and then updates. [Init] has returned before the server listens ([Startup]). *)
From S2P Require Import Prelude.
From S2P Require Import Steps.
From S2P Require Import Http.
From S2P Require Import Session.
From S2P Require Import SessionContext.
From S2P Require Import Critical.
From S2P Require Import Password.

Section Requests.
Context {W : Type} `{R : ReadWriter W} (Hash : string -> string -> result string string).
Implicit Types (s : PwStore W) (p : string).

(** The salt is only nil before [Init]. *)
Definition cachedSalt s : string := default "" (pw_salt s).
Definition set_cachedHash (hash : string) s : PwStore W := mkPwStore (pw_rw s) (pw_salt s) hash (pw_draws s).

(** *** The sections, statement by statement *)

Definition Update_section p : crit (PwStore W) (option string) :=
  Step (fun s =>
    match pw_salt s with
    | None => (Return (Some ErrNotInitialized), s)
    | Some _ =>
        (Step (fun s =>
           match Hash p (cachedSalt s) with
           | Err e => (Return (Some e), s)
           | Ok hash =>
               (Step (fun s =>
                  let '(e, s') := on_rw (rw_Write hash (cachedSalt s)) s in
                  (match e with
                   | Some e => Return (Some e)
                   | None => Step (fun s => (Return None, set_cachedHash hash s))
                   end, s')), s)
           end), s)
    end).

Definition Compare_section p : crit (PwStore W) (option string) :=
  Step (fun s =>
    match pw_salt s with
    | None => (Return (Some ErrNotInitialized), s)
    | Some _ =>
        (Step (fun s =>
           match Hash p (cachedSalt s) with
           | Err e => (Return (Some e), s)
           | Ok hash => (Step (fun s => (Return (if decide (hash = pw_hash s) then None else Some ErrInvalidPassword), s)), s)
           end), s)
    end).

(** *** The requests *)

(** What [Compare] answered to a login; what the handler of a change, once its body is read, answers. *)
Inductive outcome := Compared (err : option string) | Changed (err : option ServerError).

Inductive request := Login (password : string) | Change (current new : string).

Definition wrong_current : ServerError := mkServerError StatusBadRequest None "Invalid current admin password".
Definition update_failed (e : string) : ServerError :=
  mkServerError StatusInternalServerError (Some ("error when updating password: " +:+ e)) "".

Definition updating (new : string) : prog (S := PwStore W) :=
  Section_ Lock (Update_section new) (fun e => Answer (Changed (update_failed <$> e))).

Definition prog_of (r : request) : prog (S := PwStore W) :=
  match r with
  | Login p => Section_ RLock (Compare_section p) (fun e => Answer (Compared e))
  | Change current new =>
      Section_ RLock (Compare_section current) (fun e =>
        match e with
        | Some _ => Answer (Changed (Some wrong_current))
        | None => updating new
        end)
  end.

(** *** Each section, run in one piece, is the operation of [Password] *)

Lemma Update_whole p s : run_crit (Update_section p) s = PwUpdate Hash p s.
Proof.
  cbn. unfold PwUpdate, gets. rewrite bind_run. cbn [fst snd]. destruct (pw_salt s) as [salt|] eqn:Hs; [|done]. cbn.
  unfold cachedSalt. rewrite Hs. cbn. destruct (Hash p salt) as [hash|e]; [|done]. cbn. rewrite Hs. cbn.
  rewrite bind_run. unfold on_rw. destruct (rw_Write hash salt (pw_rw s)) as [[e|] w]; [done|]. cbn. unfold set_cachedHash. cbn.
  by rewrite Hs.
Qed.

Lemma Compare_whole p s : run_crit (Compare_section p) s = (PwCompare Hash p s, s).
Proof.
  cbn. unfold PwCompare. destruct (pw_salt s) as [salt|] eqn:Hs; [|done]. cbn. unfold cachedSalt. rewrite Hs. cbn.
  by destruct (Hash p salt).
Qed.

Lemma Compare_reads p : read_only (Compare_section p).
Proof.
  intros s. destruct (pw_salt s); [|done]. split; [done|]. intros s1. by destruct (Hash p _).
Qed.

Lemma prog_disciplined r : disciplined (prog_of r).
Proof.
  destruct r; constructor; try (intros; apply Compare_reads); intros [e|]; repeat constructor; done.
Qed.

(** A change that nothing interrupts is the handler of [Password]. *)
Lemma change_alone `{P : Platform} (ra : RequestAuth) current new (h : HState (PwStore W)) :
  ra_Mode ra = ModeAdmin ->
  let body := UpdatePassword_body Hash (Some ra) (Some (current, new)) in
  run_prog (prog_of (Change current new)) (h_world h) = (Changed (eval body h), h_world (exec body h)).
Proof.
  intros Hm body. unfold body, UpdatePassword_body, eval, exec. rewrite bool_decide_true by done.
  cbn [negb prog_of run_prog BindJSON]. rewrite Compare_whole, bind_ret.
  unfold mbind, ST_bind, lift, gets. cbn [fst snd]. destruct (PwCompare Hash current (h_world h)); [done|].
  cbn [run_prog updating]. rewrite Update_whole. destruct h as [w o]. cbn [h_world].
  destruct (PwUpdate Hash new w) as [[e|] w']; done.
Qed.

(** *** The sequential explanation *)

(** The store after the updates [us], in this order; [us] says which goroutine asked for which password. *)
Fixpoint after (us : list (nat * string)) s : PwStore W :=
  match us with [] => s | (_, p) :: us => after us (exec (PwUpdate Hash p) s) end.

Lemma after_snoc us n p s : after (us ++ [(n, p)]) s = exec (PwUpdate Hash p) (after us s).
Proof. revert s; induction us as [|[m q] us IH]; intros s; cbn; [done|apply IH]. Qed.

(** The answer of a request, explained by the updates: a login compares with the store as it was
    after some of them, at least the first [b]; a change compares in the same way, and if that
    succeeds is one of the later updates. *)
Definition explained (st : PwStore W) (us : list (nat * string)) (b n : nat) (r : request) (a : outcome) : Prop :=
  match r, a with
  | Login p, Compared e => exists k, (b <= k <= length us)%nat /\ e = PwCompare Hash p (after (take k us) st)
  | Change current new, Changed err =>
      exists k, (b <= k <= length us)%nat /\
        match PwCompare Hash current (after (take k us) st) with
        | Some _ => err = Some wrong_current /\ n ∉ us.*1
        | None => exists j, (k <= j)%nat /\ us !! j = Some (n, new) /\
            err = update_failed <$> eval (PwUpdate Hash new) (after (take j us) st)
        end
  | _, _ => False
  end.



(** [floor] is, for each request, a number of updates that came before its start. *)
Section Floor.
Context (floor : nat -> nat).

(** Where a request is in the sequential run: not begun, between its two sections, or answered. *)
Inductive status (st : PwStore W) (us : list (nat * string)) (n : nat) (r : request) : thread -> Prop :=
| st_pending : (floor n <= length us)%nat -> n ∉ us.*1 -> status st us n r (Outside (prog_of r))
| st_compared current new k :
    r = Change current new -> (floor n <= k <= length us)%nat -> PwCompare Hash current (after (take k us) st) = None ->
    n ∉ us.*1 -> status st us n r (Outside (updating new))
| st_answered a : explained st us (floor n) n r a -> status st us n r (Outside (Answer a)).

Record explains (st : PwStore W) (l : list event) (us : list (nat * string)) (y : sys) : Prop := mkExplains {
  ex_nodup : NoDup us.*1;
  ex_state : sy_state y = after us st;
  ex_updates : forall n, n ∈ us.*1 -> is_Some (sy_threads y !! n);
  ex_asked : forall n p, (n, p) ∈ us -> exists current, (n, prog_of (Change current p)) ∈ spawned l;
  ex_floor : forall n, sy_threads y !! n = None -> (floor n <= length us)%nat;
  ex_threads : forall n t, sy_threads y !! n = Some t ->
    exists r, (n, prog_of r) ∈ spawned l /\ status st us n r t;
}.

(** Another goroutine's update changes no explanation. *)
Lemma explained_snoc st us m q n r a :
  m <> n -> explained st us (floor n) n r a -> explained st (us ++ [(m, q)]) (floor n) n r a.
Proof.
  intros Hm. destruct r as [p|c w], a as [e|e]; cbn; try done.
  - intros (k & Hk & ->). exists k. rewrite length_app. split; [lia|]. by rewrite take_app_le by lia.
  - intros (k & Hk & H). exists k. rewrite length_app, take_app_le by lia. split; [lia|].
    destruct (PwCompare _ _ _) as [e'|].
    + destruct H as [-> H]. split; [done|]. rewrite fmap_app. set_solver.
    + destruct H as (j & Hj & Hu & ->). pose proof (lookup_lt_Some _ _ _ Hu). exists j.
      rewrite lookup_app_l, take_app_le by lia. done.
Qed.

Lemma status_snoc st us m q n r t : m <> n -> status st us n r t -> status st (us ++ [(m, q)]) n r t.
Proof.
  intros Hm [Hf H|c w k -> Hk Hc H|a H].
  - apply st_pending; [rewrite length_app; lia|]. rewrite fmap_app. set_solver.
  - eapply (st_compared _ _ _ _ c w k); [done|rewrite length_app; lia|by rewrite take_app_le by lia|].
    rewrite fmap_app. set_solver.
  - apply st_answered. by apply explained_snoc.
Qed.

(** What one section of a request does to its explanation. *)
Lemma status_section st us n r m c k :
  status st us n r (Outside (Section_ m c k)) -> n ∉ us.*1 /\
  let s := after us st in
  ((run_crit c s).2 = s /\ status st us n r (Outside (k (run_crit c s).1)) \/
   exists current new, r = Change current new /\ (run_crit c s).2 = after (us ++ [(n, new)]) st /\
     status st (us ++ [(n, new)]) n r (Outside (k (run_crit c s).1))).
Proof.
  inversion 1 as [Hf Hn|current new k0 Hr Hk Hc Hn|]; subst; (split; [done|]); cbn zeta.
  - left. destruct r as [p|c1 w]; cbn [prog_of] in *.
    all: match goal with H : Section_ _ _ _ = Section_ _ _ _ |- _ => injection H as <- <- <- end.
    all: rewrite Compare_whole; cbn [fst snd]; split; [done|].
    + apply st_answered. exists (length us). rewrite take_ge by done. split; [lia|done].
    + destruct (PwCompare Hash c1 (after us st)) eqn:E.
      * apply st_answered. exists (length us). rewrite take_ge, E by done. by split; [lia|].
      * apply (st_compared _ _ _ _ c1 w (length us)); [done|lia|by rewrite take_ge|done].
  - right. exists current, new. rewrite Update_whole, after_snoc. split; [done|]. split; [done|].
    apply st_answered. exists k0. rewrite length_app, take_app_le, Hc by lia. split; [lia|].
    exists (length us). rewrite lookup_app_r, Nat.sub_diag, take_app_le, take_ge by lia. by split; [lia|].
Qed.

Lemma explains_step st l us y e y' :
  explains st l us y -> (forall n pr, e = Spawn n pr -> exists r, pr = prog_of r) -> coarse_step e y = Some y' ->
  exists us', explains st (l ++ [e]) (us ++ us') y'.
Proof.
  intros [H1 H2 H3 Hask Hfl H4] He Hs.
  assert (Hl : forall n pr, (n, pr) ∈ spawned l -> (n, pr) ∈ spawned (l ++ [e])).
  { intros n p Hin. unfold spawned. rewrite omap_app. apply elem_of_app. by left. }
  destruct e as [n p|n|n|n|n]; cbn in Hs; try done.
  - destruct (He n p eq_refl) as [r ->]. unfold spawn in Hs. destruct (sy_threads y !! n) eqn:E; [done|].
    injection Hs as <-. exists []. rewrite app_nil_r. split; [done|done|..]; cbn; intros i.
    + intros Hi. rewrite lookup_insert. case_decide; [by eexists|by apply H3].
    + intros p [c Hc]%Hask. exists c. by apply Hl.
    + rewrite lookup_insert. case_decide; [done|apply Hfl].
    + intros t. rewrite lookup_insert. case_decide as Hi; [intros [= <-]; subst i|].
      * exists r. split; [unfold spawned; rewrite omap_app; set_solver|]. apply st_pending; [by apply Hfl|].
        intros Hin%H3. rewrite E in Hin. by destruct Hin.
      * intros (r' & Hin & Hst)%H4. exists r'. split; [by apply Hl|done].
  - destruct (sy_threads y !! n) as [[[a|m c k]|]|] eqn:E; try done.
    destruct (H4 n _ E) as (r & Hin & Hst). apply status_section in Hst as [Hn Hc].
    rewrite H2 in Hs. destruct (run_crit c (after us st)) as [a s'] eqn:Er. injection Hs as <-. cbn [fst snd] in Hc.
    assert (Hthr : forall us', (forall i t, i <> n -> sy_threads y !! i = Some t -> forall r, status st us i r t -> status st us' i r t) ->
      status st us' n r (Outside (k a)) -> forall i t, <[n := Outside (k a)]> (sy_threads y) !! i = Some t ->
      exists r, (i, prog_of r) ∈ spawned (l ++ [Whole n]) /\ status st us' i r t).
    { intros us' Hmono Hn' i t. rewrite lookup_insert. case_decide as Hi; [intros [= <-]; subst i; exists r; by auto|].
      intros Ht. destruct (H4 i t Ht) as (r' & Hin' & Hst'). exists r'. by split; [auto|eapply Hmono]. }
    assert (Hdom : forall i, is_Some (sy_threads y !! i) -> is_Some (<[n := Outside (k a)]> (sy_threads y) !! i)).
    { intros i Hi. rewrite lookup_insert. case_decide; [by eexists|done]. }
    assert (Hfl' : forall i, <[n := Outside (k a)]> (sy_threads y) !! i = None -> (floor i <= length us)%nat).
    { intros i. rewrite lookup_insert. case_decide; [done|apply Hfl]. }
    rewrite Er in Hc. cbn [fst snd] in Hc. destruct Hc as [[-> Hc]|(c0 & w & -> & -> & Hc)].
    + exists []. rewrite app_nil_r. split; cbn; [done|done|by auto|naive_solver|done|by apply Hthr].
    + exists [(n, w)]. split; cbn; [| |..|apply Hthr; [|done]].
      * rewrite fmap_app. apply NoDup_app. split; [done|]. split; [|by apply NoDup_singleton]. set_solver.
      * done.
      * intros i. rewrite fmap_app, elem_of_app. intros [Hi|Hi%list_elem_of_singleton]; [by auto|].
        apply Hdom. cbn in Hi. subst i. by rewrite E.
      * intros i p [(c1 & Hc1)%Hask|[= -> ->]%list_elem_of_singleton]%elem_of_app; [exists c1|exists c0]; by apply Hl.
      * intros i Hi%Hfl'. rewrite length_app. lia.
      * intros i t Hi Ht r' Hst'. apply status_snoc; [congruence|done].
Qed.
End Floor.

Definition of_requests : list (event (S := PwStore W)) -> Prop := spawns_only (fun pr => exists r, pr = prog_of r).

Lemma explains_run floor st l us y l2 y' :
  of_requests l2 -> explains floor st l us y -> coarse l2 y = Some y' ->
  exists us', explains floor st (l ++ l2) (us ++ us') y'.
Proof.
  intros Hl He. revert y'; induction l2 as [|e l2 IH] using rev_ind; intros y' H.
  - injection H as <-. exists []. by rewrite !app_nil_r.
  - apply Forall_app in Hl as [Hl Ho]. apply Forall_inv in Ho.
    apply run_steps_snoc in H as (y1 & H1 & H2). destruct (IH Hl y1 H1) as [us1 Hus1].
    destruct (explains_step floor st _ _ y1 e y' Hus1) as [us2 Hus2]; [by intros n p ->|done|].
    exists (us1 ++ us2). by rewrite !(assoc_L (++)).
Qed.

Lemma explains_init st : explains (fun _ => 0%nat) st [] [] (mkSys ∅ st).
Proof.
  split; cbn; [by constructor|done|by intros n ?%elem_of_nil|by intros n p ?%elem_of_nil|done|].
  intros n t. by rewrite lookup_empty.
Qed.

(** What is started from now on comes after the updates so far. *)
Lemma explains_since st l us y :
  explains (fun _ => 0%nat) st l us y ->
  explains (fun n => if decide (is_Some (sy_threads y !! n)) then 0%nat else length us) st l us y.
Proof.
  intros [H1 H2 H3 Hask H4 H5]. split; [done..| |].
  - intros n Hn. case_decide; lia.
  - intros n t Ht. destruct (H5 n t Ht) as (r & Hr & Hst). exists r. split; [done|].
    assert (E : (if decide (is_Some (sy_threads y !! n)) then 0%nat else length us) = 0%nat).
    { rewrite decide_True; [done|]. by rewrite Ht. }
    destruct Hst as [Hf Hn|c w k Hr' Hk Hc Hn|a Ha].
    + apply st_pending; [rewrite E; lia|done].
    + eapply st_compared; [done|by rewrite E|done..].
    + apply st_answered. by rewrite E.
Qed.

Lemma explains_answered floor st l us y n a :
  explains floor st l us y -> answered n a y ->
  exists r, (n, prog_of r) ∈ spawned l /\ explained st us (floor n) n r a.
Proof.
  intros He Ha. destruct (ex_threads _ _ _ _ _ He n _ Ha) as (r & Hin & Hst). exists r.
  split; [done|]. inversion Hst; subst; [by destruct r|done].
Qed.

(** C19. Concurrent logins and password changes are linearizable. However the steps of their hashing
    and writing interleave, there is an order of the updates, each asked for by a change and at most one
    for each, such that every login was answered by comparing with the store as some number of these updates left it,
    and every change either was refused by such a comparison, without an update, or its answer is
    that of its own update, which came no earlier than the comparison. The order respects time: the
    updates of a first part of the run come first, and a request that starts after that part
    compares with a store that has them all. Whenever nobody holds the lock, the store is what the
    updates make of it, and no request waits for ever. *)
Theorem password_linearizable (st : PwStore W) (l1 l2 : list event) (x1 x2 : sys) :
  of_requests (l1 ++ l2) -> fine l1 (mkSys ∅ st) = Some x1 -> fine l2 x1 = Some x2 ->
  (exists us1 us2, let us := us1 ++ us2 in NoDup us.*1 /\
    (forall n p, (n, p) ∈ us -> exists current, (n, prog_of (Change current p)) ∈ spawned (l1 ++ l2)) /\
    (forall n a, answered n a x1 -> exists r, (n, prog_of r) ∈ spawned l1 /\ explained st us1 0 n r a) /\
    (forall n a, answered n a x2 -> exists r, (n, prog_of r) ∈ spawned (l1 ++ l2) /\
       explained st us (if decide (is_Some (sy_threads x1 !! n)) then 0 else length us1) n r a) /\
    ((forall n t, sy_threads x2 !! n = Some t -> is_inside t = false) -> sy_state x2 = after us st)) /\
  (forall n t, sy_threads x2 !! n = Some t -> (forall a, t <> Outside (Answer a)) ->
     exists e x', fine_step e x2 = Some x' /\ match e with Spawn _ _ => False | _ => True end).
Proof.
  intros Hl H1 H2. split; [|intros n t; apply never_stuck].
  assert (Hok : forall l, of_requests l -> spawns_only disciplined l).
  { intros l Ho. eapply Forall_impl; [exact Ho|]. intros [n p| | | |]; try done. intros [r ->]. apply prog_disciplined. }
  assert (Hre : forall l l', of_requests l -> spawned l' = spawned l -> of_requests l').
  { intros l l' Ho Hs. apply spawns_only_spawned. rewrite Hs. by apply spawns_only_spawned. }
  apply Forall_app in Hl as [Hl1 Hl2].
  destruct (sections_atomic l1 _ _ x1 (sim_init st)) as (l1' & y1 & Hy1 & Hs1 & Hsim1); [by apply Hok|done|].
  destruct (sections_atomic l2 _ _ x2 Hsim1) as (l2' & y2 & Hy2 & Hs2 & Hsim2); [by apply Hok|done|].
  destruct (explains_run _ st [] [] _ l1' y1 (Hre l1 l1' Hl1 Hs1) (explains_init st) Hy1) as [us1 E1]. cbn in E1.
  destruct (explains_run _ st l1' us1 y1 l2' y2 (Hre l2 l2' Hl2 Hs2) (explains_since _ _ _ _ E1) Hy2) as [us2 E2].
  exists us1, us2. split; [apply E2|]. split_and!.
  - intros n p Hin. destruct (ex_asked _ _ _ _ _ E2 n p Hin) as [c Hc]. exists c.
    unfold spawned in *. by rewrite omap_app, <- Hs1, <- Hs2, <- omap_app.
  - intros n a Ha. rewrite <- Hs1. by apply (explains_answered _ _ _ _ _ n a E1), (sim_answered x1).
  - intros n a Ha. apply (sim_answered x2 y2 n a Hsim2) in Ha.
    destruct (explains_answered _ _ _ _ _ n a E2 Ha) as (r & Hin & Hx). exists r. split.
    + unfold spawned in *. by rewrite omap_app, <- Hs1, <- Hs2, <- omap_app.
    + rewrite (decide_ext (is_Some (sy_threads x1 !! n)) (is_Some (sy_threads y1 !! n))); [done|by apply sim_started].
  - intros Hq. rewrite (sim_quiescent x2 y2 Hsim2 Hq). apply E2.
Qed.

(** *** Two changes at once *)

Lemma acts_requests n l : acts_of n l -> of_requests l.
Proof. intros H. eapply Forall_impl; [exact H|]. by intros e [-> | [-> | -> ]]. Qed.

Lemma update_works p salt hp s :
  (forall h sl w, eval (rw_Write h sl) w = None) -> pw_salt s = Some salt -> Hash p salt = Ok hp ->
  let s' := exec (PwUpdate Hash p) s in
  eval (PwUpdate Hash p) s = None /\ pw_salt s' = Some salt /\ pw_hash s' = hp.
Proof.
  intros Hw Hs Hp. unfold eval, exec, PwUpdate, gets. rewrite bind_run. cbn [fst snd]. rewrite Hs, Hp, bind_run, on_rw_run.
  by rewrite Hw, cache_run.
Qed.

(** Knowing a former password is enough to change it: when two changes start with the current
    password, both can be answered with success. The first has then been told that its password is
    in place, and it was, with the former one refused; but the second replaces it, although the
    password it gave as the current one no longer was. *)
Theorem password_change_race (st : PwStore W) (current a b salt h0 ha hb : string) :
  pw_salt st = Some salt -> Hash current salt = Ok h0 -> pw_hash st = h0 ->
  Hash a salt = Ok ha -> Hash b salt = Ok hb -> ha <> h0 -> hb <> ha ->
  (forall h sl w, eval (rw_Write h sl) w = None) ->
  exists l1 l2 x1 x2, of_requests l1 /\ acts_of 1 l2 /\
    fine l1 (mkSys ∅ st) = Some x1 /\ fine l2 x1 = Some x2 /\
    answered 0 (Changed None) x1 /\
    PwCompare Hash a (sy_state x1) = None /\ PwCompare Hash current (sy_state x1) = Some ErrInvalidPassword /\
    answered 1 (Changed None) x2 /\
    PwCompare Hash b (sy_state x2) = None /\ PwCompare Hash a (sy_state x2) = Some ErrInvalidPassword.
Proof.
  intros Hs Hc Hh Ha Hb Hne Hne' Hw.
  set (x0 := mkSys (<[1%nat := Outside (prog_of (Change current b))]> (<[0%nat := Outside (prog_of (Change current a))]> ∅)) st).
  assert (Q0 : quiet x0).
  { intros i t. cbn. rewrite !lookup_insert, lookup_empty. repeat case_decide; [by intros [= <-]..|done]. }
  assert (Cc : PwCompare Hash current st = None) by (unfold PwCompare; by rewrite Hs, Hc, Hh, decide_True).
  destruct (next_section 0 _ _ _ x0 Q0 eq_refl) as (c0 & Ac0 & y1 & R1 & Q1 & S1 & T1 & O1).
  rewrite Compare_whole in S1, T1. cbn [fst snd sy_state x0] in S1, T1. rewrite Cc in T1.
  specialize (O1 1%nat ltac:(done)). change (sy_threads x0 !! 1%nat) with (Some (Outside (prog_of (Change current b)))) in O1.
  destruct (next_section 1 _ _ _ y1 Q1 O1) as (c1 & Ac1 & y2 & R2 & Q2 & S2 & T2 & O2).
  rewrite Compare_whole, S1 in S2, T2. cbn [fst snd] in S2, T2. rewrite Cc in T2.
  specialize (O2 0%nat ltac:(done)). rewrite T1 in O2.
  destruct (next_section 0 _ _ _ y2 Q2 O2) as (u0 & Au0 & x1 & R3 & Q3 & S3 & T3 & O3).
  rewrite Update_whole, S2 in S3, T3. destruct (update_works a salt ha st Hw Hs Ha) as (E3 & Salt3 & Hash3).
  unfold eval, exec in E3, Salt3, Hash3. rewrite E3 in T3. rewrite <- S3 in Salt3, Hash3.
  specialize (O3 1%nat ltac:(done)). rewrite T2 in O3.
  destruct (next_section 1 _ _ _ x1 Q3 O3) as (u1 & Au1 & x2 & R4 & Q4 & S4 & T4 & O4).
  rewrite Update_whole in S4, T4. destruct (update_works b salt hb (sy_state x1) Hw Salt3 Hb) as (E4 & Salt4 & Hash4).
  unfold eval, exec in E4, Salt4, Hash4. rewrite E4 in T4. rewrite <- S4 in Salt4, Hash4.
  exists ([Spawn 0 (prog_of (Change current a)); Spawn 1 (prog_of (Change current b))] ++ c0 ++ c1 ++ u0), u1, x1, x2.
  split_and!; [| | |exact R4|exact T3| | |exact T4|..].
  - apply Forall_app. split; [by repeat constructor; eexists|].
    apply Forall_app; split; [by eapply acts_requests|]. by apply Forall_app; split; eapply acts_requests.
  - done.
  - unfold fine in *. rewrite run_steps_app. change (run_steps fine_step _ _) with (Some x0) at 1. cbn [mbind option_bind].
    rewrite run_steps_app, R1. cbn [mbind option_bind]. by rewrite run_steps_app, R2.
  - unfold PwCompare. by rewrite Salt3, Ha, Hash3, decide_True.
  - unfold PwCompare. by rewrite Salt3, Hc, Hash3, decide_False.
  - unfold PwCompare. by rewrite Salt4, Hb, Hash4, decide_True.
  - unfold PwCompare. by rewrite Salt4, Ha, Hash4, decide_False.
Qed.
End Requests.

Module PasswordConcDemo.
Import PasswordDemo.

(** A server that was started with the default password. *)
Definition demo_store : PwStore (option (string * string)) := mkPwStore (Some ("adminsalty", "salty")) (Some "salty") "adminsalty" 1.

Local Notation demo_prog := (prog_of demo_hash (W := option (string * string))).

(** A login hashes while a change waits to update, and a second one starts afterwards. *)
Definition demo_l1 : list event :=
  [Spawn 0 (demo_prog (Login "admin")); Spawn 1 (demo_prog (Change "admin" "new")); Enter 1; Enter 0; Act 1; Act 0; Act 0; Act 1;
   Act 1; Leave 1; Act 0; Leave 0; Enter 1; Act 1; Act 1; Act 1; Act 1; Leave 1]%nat.
Definition demo_l2 : list event :=
  [Spawn 2 (demo_prog (Login "admin")); Enter 2; Act 2; Act 2; Act 2; Leave 2]%nat.

Definition demo_x1 := default (mkSys ∅ demo_store) (fine demo_l1 (mkSys ∅ demo_store)).
Definition demo_x2 := default demo_x1 (fine demo_l2 demo_x1).

Lemma password_linearizable_witness :
  answered 0 (Compared None) demo_x1 /\ answered 1 (Changed None) demo_x1 /\
  answered 2 (Compared (Some ErrInvalidPassword)) demo_x2 /\
  exists us r, explained demo_hash demo_store us 0 0 r (Compared None).
Proof.
  assert (H1 : fine demo_l1 (mkSys ∅ demo_store) = Some demo_x1) by reflexivity.
  assert (H2 : fine demo_l2 demo_x1 = Some demo_x2) by reflexivity.
  assert (Ho : of_requests demo_hash (demo_l1 ++ demo_l2)) by (repeat constructor; eexists; reflexivity).
  split_and!; [reflexivity..|].
  destruct (password_linearizable demo_hash demo_store demo_l1 demo_l2 demo_x1 demo_x2 Ho H1 H2)
    as [(us1 & us2 & _ & _ & Ha & _) _].
  destruct (Ha 0%nat (Compared None) eq_refl) as (r & _ & He). by exists us1, r.
Defined.

Lemma password_change_race_witness :
  exists x1 x2 : sys (S := PwStore (option (string * string))) (X := option string), answered 0 (Changed None) x1 /\ answered 1 (Changed None) x2 /\
    PwCompare demo_hash "first" (sy_state x1) = None /\ PwCompare demo_hash "first" (sy_state x2) = Some ErrInvalidPassword.
Proof.
  destruct (password_change_race demo_hash demo_store "admin" "first" "second" "salty" "adminsalty" "firstsalty" "secondsalty")
    as (l1 & l2 & x1 & x2 & _ & _ & _ & _ & A1 & C1 & _ & A2 & _ & C2); try reflexivity; try discriminate.
  by exists x1, x2.
Defined.
End PasswordConcDemo.
