(* ===== verification/Auth.v ===== *)
(** * Logging in and out ([pkg/server/auth.go])

    The handlers of [/auth]: the three credential logins, the session probe, and logout, with the
    middleware chain each is registered with. *)
From S2P Require Import Prelude.
From S2P Require Import GoStrings.
From S2P Require Import GoUrl.
From S2P Require Import Http.
From S2P Require Import Lru.
From S2P Require Import RateLimit.
From S2P Require Import Session.
From S2P Require Import SessionStore.
From S2P Require Import SessionFacts.
From S2P Require Import SessionOps.
From S2P Require Import SessionRefresh.
From S2P Require Import SessionInv.
From S2P Require Import SessionContext.
From S2P Require Import K8sCred.
From S2P Require Import Authn.
From S2P Require Import Oidc.

Definition maxLoginBodySize : Z := 256 * 1024.

Record serverConfig := mkServerConfig {
  BasicAuthEnabled : bool;
  OIDCAuthEnabled : bool;
  OIDCNeedsLogout : bool;
  KubeconfigAuthEnabled : bool;
  SATokenAuthEnabled : bool;
  CookieSecure : bool;
  MaxLoginsPerSecond : Z;
  AdminUserName : string;
}.

Section Auth.
Context `{P : Platform} {S : Store} {V : CredentialValidator} `{Limiter} `{LRU nat}
  `{BC : LRU bearerCacheEntry} `{GoIP} `{N : GoNet} `{C : Crypto} `{K : !KubeLib} `{O : OIDCLib}.
(** The server's fields; [passwordCompare] is [Compare] of the admin password store (see [Password]). *)
Context (cfg : serverConfig) (auth : Authenticator) (provider : OIDCProvider)
  (passwordCompare : string -> bool).

Local Notation HM := (ST (HState SrvState)).

Definition too_many_sessions : ServerError :=
  mkServerError StatusServiceUnavailable None "Too many active sessions, please try again later".
Definition session_failed (e : store_error) : ServerError :=
  mkServerError StatusInternalServerError (Some ("error when creating session: " +:+ store_error_msg e)) "".
Definition credential_rejected (e : kube_error) : ServerError :=
  mkServerError StatusUnauthorized (Some ("credential validation failed: " +:+ kube_error_msg e))
    "Kubernetes rejected this credential".

(** [createSession]: [None] is success. *)
Definition createSession (req : Request) (sp : Spec) : HM (option ServerError) :=
  match GetSessionCookie req with
  | Some oldID => lift (on_store (store_Delete oldID))
  | None => mret tt
  end;;
  r ← lift (on_store (store_Create sp));
  match r with
  | Err e =>
      lift (on_store (Spec_Zero sp));;
      mret (Some (if decide (e = ErrTooManySessions) then too_many_sessions else session_failed e))
  | Ok o =>
      s ← lift (on_store (gets (fun w => w_objs w !! o)));
      match s with
      | Some s => SetSessionCookie (s_id s) (ac_CookieSecure (a_config auth)) (SameSite_mode auth)
      | None => mret tt
      end;;
      UnsetLegacyCookies req;;
      mret None
  end.

Definition validateCredential (cred : Credential) : HM (result ServerError string) :=
  m ← lift (on_store (gets w_mem));
  r ← lift (on_kube (cv_Validate (credential_val m cred)));
  mret (match r with Ok u => Ok u | Err e => Err (credential_rejected e) end).

(** Runs a handler's body and answers its error, or [StatusOK]. *)
Definition respond (msg : string) (body : HM (option ServerError)) : HM unit :=
  e ← body;
  match e with
  | Some e => HandleError e;; LogError (Some e) msg
  | None => emit (Status StatusOK)
  end.

(** [POST /auth/login]. *)
Definition Login_body (req : Request) : HM (option ServerError) :=
  match req_BasicAuth req with
  | None => mret (Some (mkServerError StatusUnauthorized None "Basic Auth required"))
  | Some (user, password) =>
      if decide (user <> "admin") then
        mret (Some (mkServerError StatusUnauthorized None "Must authenticate as admin"))
      else if negb (passwordCompare password) then
        mret (Some (mkServerError StatusUnauthorized None "Invalid admin password"))
      else
        createSession req (mkSpec ModeAdmin
          (mkCredential KindImpersonate None None None (AdminUserName cfg) time_zero) None user None)
  end.
Definition Login (req : Request) : HM unit := respond "Failed to login" (Login_body req).

(** The common end of the two credential logins: the API server is asked first. *)
Definition login_with (req : Request) (mode : string) (v : CredVal) : HM (option ServerError) :=
  cred ← lift (on_store (alloc_credential v));
  u ← validateCredential cred;
  match u with
  | Err e => lift (on_store (Credential_Zero cred));; mret (Some e)
  | Ok username => createSession req (mkSpec mode cred None username None)
  end.

Definition bad_body : ServerError := mkServerError StatusBadRequest None "Invalid request body".

(** [POST /auth/login/token]. *)
Definition LoginWithToken_body (req : Request) (body : option string) : HM (option ServerError) :=
  token ← BindJSON body;
  match token with
  | None => mret (Some bad_body)
  | Some token =>
      match BearerCredential token with
      | Err e => mret (Some (mkServerError StatusBadRequest None e))
      | Ok v => login_with req ModeSAToken v
      end
  end.
Definition LoginWithToken (req : Request) (body : option string) : HM unit :=
  respond "Failed to login with token" (LoginWithToken_body req body).

(** [POST /auth/login/kubeconfig]. The clock, which only [certCredential] looks at, is read whether or
    not the kubeconfig holds a certificate. *)
Definition LoginWithKubeconfig_body (req : Request) (body : option string) : HM (option ServerError) :=
  kubeconfig ← BindJSON body;
  match kubeconfig with
  | None => mret (Some bad_body)
  | Some kubeconfig =>
      t ← lift (on_store now);
      match CredentialFromKubeconfig t kubeconfig with
      | Err e => mret (Some (mkServerError StatusBadRequest None e))
      | Ok v => login_with req ModeKubeconfig v
      end
  end.
Definition LoginWithKubeconfig (req : Request) (body : option string) : HM unit :=
  respond "Failed to login with kubeconfig" (LoginWithKubeconfig_body req body).

(** [GET /auth/session]: the answer's fields, [None] when there is no identity. *)
Record SessionInfo := mkSessionInfo {
  si_Mode : string; si_Username : string; si_ExpiresAt : option time }.

Definition Session_handler (req : Request) : HM (option SessionInfo) :=
  r ← Resolve auth req;
  match r with
  | Err e => HandleError e;; mret None
  | Ok ra =>
      expires ← (match ra_session ra with
                 | Some o => s ← lift (on_store (gets (fun w => w_objs w !! o)));
                             mret (s_expiresAt <$> s)
                 | None => mret None
                 end : HM (option time));
      emit (JSON StatusOK (ra_Username ra));;
      mret (Some (mkSessionInfo (ra_Mode ra) (ra_Username ra) expires))
  end.

(** *** Logout *)

(** The id_token of the caller's session, read before the session is deleted. *)
Definition logout_hint (id : string) : ST World string :=
  found ← store_Peek id;
  match found with
  | None => mret ""
  | Some o =>
      s ← gets (fun w => w_objs w !! o);
      m ← gets w_mem;
      mret (match s with
            | Some s => if decide (s_mode s = ModeOIDC)
                        then default "" (slice_bytes m (cr_Token (s_credential s))) else ""
            | None => ""
            end)
  end.

Definition Logout (req : Request) : HM unit :=
  let redirectURL := SafeRedirectURL auth req (Query req "redirect_url") in
  idToken ← (match GetSessionCookie req with
             | Some id =>
                 t ← lift (on_store (logout_hint id));
                 lift (on_store (store_Delete id));;
                 mret t
             | None => mret ""
             end : HM string);
  UnsetSessionCookie;;
  UnsetLegacyCookies req;;
  if OIDCAuthEnabled cfg && OIDCNeedsLogout cfg && negb (bool_decide (idToken = "")) then
    match BuildLogoutURL provider idToken with
    | Err e =>
        let err := mkServerError StatusInternalServerError (Some ("error when building OIDC logout URL: " +:+ e)) "" in
        HandleError err;; LogError (Some err) "Failed to logout"
    | Ok url => emit (Redirect StatusSeeOther url)
    end
  else if decide (redirectURL <> "") then emit (Redirect StatusFound redirectURL)
  else emit (Status StatusOK).

(** *** Routes *)

(** [loginRateLimitMiddleware]: no limiter for a negative limit; [None] inside is the panic. *)
Definition loginRateLimiter : option (option ClientRateLimiter) :=
  if MaxLoginsPerSecond cfg <? 0 then None
  else
    let burst := if 0 <? MaxLoginsPerSecond cfg then 1 else 0 in
    Some (NewClientRateLimiterOrDie (itoa (MaxLoginsPerSecond cfg) +:+ "/s") burst 10000 ClientKeyIP).

Inductive middleware := mw_CSRF | mw_NavigationCSRF | mw_LimitBody (n : Z) | mw_RateLimit.

Inductive route_handler := h_Login | h_LoginWithToken | h_LoginWithKubeconfig | h_Session | h_Logout
  | h_OAuth2Login | h_OAuth2Callback.

(** [loginHandlers]. *)
Definition loginHandlers (limited : bool) : list middleware :=
  [mw_CSRF; mw_LimitBody maxLoginBodySize] ++ (if limited then [mw_RateLimit] else []).

(** [AddAuthRoutes] and [AddOAuth2Routes]: method, path, middlewares, handler. *)
Definition AddOAuth2Routes : list (string * string * list middleware * route_handler) :=
  [("GET", "/auth/oauth2/login", [], h_OAuth2Login);
   ("GET", "/auth/oauth2/callback", [], h_OAuth2Callback)].

Definition auth_routes : list (string * string * list middleware * route_handler) :=
  let limited := match loginRateLimiter with Some _ => true | None => false end in
  (if BasicAuthEnabled cfg then [("POST", "/auth/login", loginHandlers limited, h_Login)] else []) ++
  (if SATokenAuthEnabled cfg then [("POST", "/auth/login/token", loginHandlers limited, h_LoginWithToken)] else []) ++
  (if KubeconfigAuthEnabled cfg
   then [("POST", "/auth/login/kubeconfig", loginHandlers limited, h_LoginWithKubeconfig)] else []) ++
  [("GET", "/auth/session", [], h_Session);
   ("GET", "/auth/logout", [mw_NavigationCSRF], h_Logout);
   ("POST", "/auth/logout", [mw_CSRF], h_Logout)] ++
  (if OIDCAuthEnabled cfg then AddOAuth2Routes else []).

(** *** Facts *)

Lemma validateCredential_run (cred : Credential) (h : HState SrvState) :
  let s := h_world h in
  let answer := cv_Validate (credential_val (w_mem (sv_store s)) cred) (sv_kube s) in
  validateCredential cred h =
    (match answer.1 with Ok u => Ok u | Err e => Err (credential_rejected e) end,
     mkH (mkSrv (sv_store s) answer.2 (sv_cache s) (sv_limiter s)) (h_out h)).
Proof. unfold validateCredential. srv_step. unfold gets. by srv_step. Qed.

(** *** Properties *)

(** The login limiter is always built: whatever the configured number of logins per second,
    printing it and parsing it back as a rate succeeds, so the server does not panic at startup. *)
Lemma login_limiter_built :
  MaxLoginsPerSecond cfg <= int64_max ->
  match loginRateLimiter with
  | None => MaxLoginsPerSecond cfg < 0
  | Some None => False
  | Some (Some l) =>
      0 <= MaxLoginsPerSecond cfg /\ ratePerSecond (rl_config l) = float64_of_Z (MaxLoginsPerSecond cfg) /\
      burstSize (rl_config l) = (if 0 <? MaxLoginsPerSecond cfg then 1 else 0)
  end.
Proof.
  unfold int64_max. intros Hmax. unfold loginRateLimiter.
  destruct (Z.ltb_spec (MaxLoginsPerSecond cfg) 0); [done|].
  unfold NewClientRateLimiterOrDie, NewClientRateLimiter, newConfig.
  rewrite rateFromStr_seconds by lia. set (burst := if 0 <? MaxLoginsPerSecond cfg then 1 else 0).
  rewrite (proj2 (Z.ltb_ge burst 0)) by (unfold burst; destruct (_ <? _); lia).
  destruct (lru_New_pos (V := nat) 10000 ltac:(lia)) as (c & -> & _). done.
Qed.

Lemma Spec_Zero_run sp w :
  exec (Spec_Zero sp) w = with_mem (zero_cells (spec_locs sp) (w_mem w)) w.
Proof.
  unfold Spec_Zero, exec, spec_locs. rewrite bind_run, Credential_Zero_run, bind_run, zeroBytes_run.
  rewrite zero_cells_app. done.
Qed.

Lemma zero_cells_all_zero ls m l b :
  l ∈ ls -> zero_cells ls m !! l = Some b -> all_zero b = true.
Proof.
  intros Hl. rewrite lookup_zero_cells, decide_True by done.
  destruct (m !! l); [|done]. intros [= <-]. apply zero_string_all_zero.
Qed.

(** The store once the session named by the request's cookie was deleted. *)
Definition after_replace (req : Request) (w : World) : World :=
  match GetSessionCookie req with Some id => exec (store_Delete id) w | None => w end.

Lemma createSession_run (req : Request) (sp : Spec) (h : HState SrvState) :
  let s := h_world h in
  let with_store w := mkSrv w (sv_kube s) (sv_cache s) (sv_limiter s) in
  createSession req sp h =
  match store_Create sp (after_replace req (sv_store s)) with
  | (Ok o, w2) => (None, mkH (with_store w2) (h_out h ++
      (match w_objs w2 !! o with
       | Some s => [SetCookie (session_cookie (s_id s) (ac_CookieSecure (a_config auth)) (SameSite_mode auth))]
       | None => []
       end) ++ legacy_effects req))
  | (Err e, w2) => (Some (if decide (e = ErrTooManySessions) then too_many_sessions else session_failed e),
      mkH (with_store (exec (Spec_Zero sp) w2)) (h_out h))
  end.
Proof.
  intros s with_store. unfold createSession.
  assert (Hdel : forall {A} (k : unit -> HM A),
    ((match GetSessionCookie req with
      | Some oldID => lift (on_store (store_Delete oldID))
      | None => mret tt
      end) ≫= k) h = k tt (mkH (with_store (after_replace req (sv_store s))) (h_out h))).
  { intros A k. rewrite bind_run. unfold after_replace, exec. destruct (GetSessionCookie req) as [id|].
    - rewrite lift_run, on_store_run. unfold with_store, s. cbn [fst snd]. by destruct (store_Delete id _) as [[] ?].
    - unfold with_store, s. cbn. by destruct h as [[] ?]. }
  rewrite Hdel. srv_step. destruct (store_Create sp _) as [[o|e] w2]; cbn [fst snd].
  - srv_step. unfold gets. cbn [fst snd h_world h_out sv_store].
    destruct (w_objs w2 !! o) as [s'|]; unfold SetSessionCookie, emit;
      repeat (rewrite bind_run; cbn [fst snd mret ST_ret]); rewrite UnsetLegacyCookies_run;
      cbn [fst snd mret ST_ret h_world h_out]; by rewrite <- ?(assoc_L (++)).
  - srv_step. reflexivity.
Qed.

(** A login either takes effect as a whole or leaves nothing behind: on success the only
    cookie set is the session cookie with the new session's id, HttpOnly and SameSite as the mode
    asks, next to the expiry of the legacy ones; when the store refuses the session, no cookie is
    set, every byte of the credential that was offered is zeroed, and the answer is 503 exactly
    when the store is full. Either way the session the caller had before is deleted first. *)
Theorem createSession_outcome (req : Request) (sp : Spec) (h : HState SrvState) :
  let h' := exec (createSession req sp) h in
  let w1 := after_replace req (sv_store (h_world h)) in
  let w2 := exec (store_Create sp) w1 in
  match eval (store_Create sp) w1 with
  | Ok o => eval (createSession req sp) h = None /\ sv_store (h_world h') = w2 /\
      forall s, w_objs w2 !! o = Some s ->
        h_out h' = h_out h ++ [SetCookie (session_cookie (s_id s) (ac_CookieSecure (a_config auth))
                                            (SameSite_mode auth))] ++ legacy_effects req
  | Err e => h_out h' = h_out h /\
      (exists err, eval (createSession req sp) h = Some err /\
         (se_Code err = StatusServiceUnavailable <-> e = ErrTooManySessions)) /\
      (forall l b, l ∈ spec_locs sp -> w_mem (sv_store (h_world h')) !! l = Some b -> all_zero b = true) /\
      w_sessions (sv_store (h_world h')) = w_sessions w2
  end.
Proof.
  intros h' w1 w2. pose proof (createSession_run req sp h) as Hrun. cbn zeta in Hrun. fold w1 in Hrun.
  unfold h', w2, exec, eval. rewrite Hrun. destruct (store_Create sp w1) as [[o|e] w2']; cbn [fst snd h_out h_world sv_store].
  - split; [done|]. split; [done|]. intros s Hs. by rewrite Hs.
  - rewrite Spec_Zero_run. split; [done|].
    split; [eexists; split; [done|]; by case_decide|]. split; [|done].
    intros l b Hl Hb. by apply (zero_cells_all_zero (spec_locs sp) (w_mem w2') l).
Qed.

Lemma fresh_credential_locs w w' c l :
  fresh_credential w w' c -> l ∈ cred_locs c -> (w_brk w <= l < w_brk w')%nat /\ is_Some (w_mem w' !! l).
Proof. intros (F1 & F2 & F3) [Hc|[Hc|Hc]]%elem_of_cred_locs; [by apply F1|by apply F2|by apply F3]. Qed.

Lemma login_with_run (req : Request) (mode : string) (v : CredVal) (h : HState SrvState) :
  let s := h_world h in
  let answer := cv_Validate v (sv_kube s) in
  let cred := eval (alloc_credential v) (sv_store s) in
  let w1 := exec (alloc_credential v) (sv_store s) in
  login_with req mode v h =
    match answer.1 with
    | Ok u => createSession req (mkSpec mode cred None u None)
                (mkH (mkSrv w1 answer.2 (sv_cache s) (sv_limiter s)) (h_out h))
    | Err e => (Some (credential_rejected e),
                mkH (mkSrv (with_mem (zero_cells (cred_locs cred) (w_mem w1)) w1) answer.2
                       (sv_cache s) (sv_limiter s)) (h_out h))
    end.
Proof.
  intros s answer cred w1. pose proof (alloc_credential_val v (sv_store s)) as Hv. fold cred w1 in Hv.
  unfold login_with. srv_step.
  change ((alloc_credential v (sv_store (h_world h))).1) with cred.
  change ((alloc_credential v (sv_store (h_world h))).2) with w1.
  rewrite bind_run, validateCredential_run. cbn [fst snd h_world h_out sv_store sv_kube sv_cache sv_limiter].
  rewrite Hv. change (cv_Validate v (sv_kube (h_world h))) with answer.
  destruct (answer.1) as [u|e]; [done|].
  srv_step. by rewrite !Credential_Zero_run.
Qed.

(** C11. A pasted token or a kubeconfig logs nobody in by itself: the API server is asked, once,
    about exactly the bytes that were pasted. If it refuses, no session is made, no cookie is set,
    and the copy of the credential the server had made is zeroed; only if it answers with a user
    name does the login go on, and the session it makes carries that name and that credential. *)
Theorem login_asks_apiserver (req : Request) (mode : string) (v : CredVal) (h : HState SrvState) :
  let s := h_world h in
  let answer := cv_Validate v (sv_kube s) in
  let h' := exec (login_with req mode v) h in
  let cred := eval (alloc_credential v) (sv_store s) in
  let w1 := exec (alloc_credential v) (sv_store s) in
  match answer.1 with
  | Err e => eval (login_with req mode v) h = Some (credential_rejected e) /\
      h_out h' = h_out h /\ sv_kube (h_world h') = answer.2 /\
      w_sessions (sv_store (h_world h')) = w_sessions (sv_store s) /\
      w_objs (sv_store (h_world h')) = w_objs (sv_store s) /\
      (forall l b, l ∈ cred_locs cred -> w_mem (sv_store (h_world h')) !! l = Some b -> all_zero b = true)
  | Ok user => credential_val (w_mem w1) cred = v /\
      login_with req mode v h =
        createSession req (mkSpec mode cred None user None)
          (mkH (mkSrv w1 answer.2 (sv_cache s) (sv_limiter s)) (h_out h))
  end.
Proof.
  intros s answer h' cred w1. pose proof (alloc_credential_val v (sv_store s)) as Hv.
  destruct (alloc_credential_grown v (sv_store s)) as (G & F & _). fold cred w1 in Hv, G, F.
  pose proof (login_with_run req mode v h) as Hlog. cbn zeta in Hlog. fold s in Hlog. fold cred w1 answer in Hlog.
  unfold h', exec, eval. rewrite Hlog. destruct (answer.1) as [u|e]; [by split|].
  cbn [fst snd h_world h_out sv_store sv_kube]. split_and!; try done.
  - apply (gr_sessions _ _ G).
  - apply (gr_objs _ _ G).
  - intros l b Hl Hb. by apply (zero_cells_all_zero (cred_locs cred) (w_mem w1) l).
Qed.

Lemma logout_hint_pure {L : StoreLaws S} id w : exec (logout_hint id) w = w.
Proof.
  unfold logout_hint, exec. rewrite bind_run. pose proof (store_Peek_pure id w) as Hp.
  unfold exec in Hp. destruct (store_Peek id w) as [[o|] w'] eqn:E; cbn [fst snd] in *; subst w'; [|done].
  unfold gets. by rewrite !bind_run.
Qed.

(** The part of [Logout] that ends the session, and what it leaves for the rest. *)
Lemma logout_session_run {L : StoreLaws S} (req : Request) (h : HState SrvState) :
  let w := sv_store (h_world h) in
  (match GetSessionCookie req with
   | Some id => t ← lift (on_store (logout_hint id)); lift (on_store (store_Delete id));; mret t
   | None => mret ""
   end : HM string) h =
  (match GetSessionCookie req with Some id => eval (logout_hint id) w | None => "" end,
   mkH (mkSrv (match GetSessionCookie req with Some id => exec (store_Delete id) w | None => w end)
          (sv_kube (h_world h)) (sv_cache (h_world h)) (sv_limiter (h_world h))) (h_out h)).
Proof.
  intros w. destruct (GetSessionCookie req) as [id|]; [|by destruct h as [[] ?]].
  pose proof (logout_hint_pure id w) as Hhint. unfold exec, eval in *. srv_step. fold w. rewrite Hhint.
  srv_step. by destruct (store_Delete id w) as [[] ?].
Qed.

(** Logging out ends the session whatever happens next: its id is unknown to the store and the
    cookie is expired before anything else is answered; and the browser is then sent only to the
    identity provider's logout URL, when the session was an OIDC one and one is configured, or to
    a target that passed the redirect filter. *)
Theorem Logout_outcome {L : StoreLaws S} (req : Request) (h : HState SrvState) :
  let h' := exec (Logout req) h in
  let target := SafeRedirectURL auth req (Query req "redirect_url") in
  store_ok (sv_store (h_world h)) ->
  (forall id, GetSessionCookie req = Some id -> eval (store_Peek id) (sv_store (h_world h')) = None) /\
  exists last, h_out h' = h_out h ++
      [SetCookie (expired_cookie SessionCookieName sessionCookiePath)] ++ legacy_effects req ++ last /\
    (forall code url, Redirect code url ∈ last ->
       (code = StatusFound /\ url = target /\ target <> "") \/
       (code = StatusSeeOther /\ OIDCAuthEnabled cfg = true /\ OIDCNeedsLogout cfg = true /\
        exists idToken, idToken <> "" /\ BuildLogoutURL provider idToken = Ok url)).
Proof.
  intros h' target Hok.
  set (w := sv_store (h_world h)) in *. unfold h', exec, Logout. fold target.
  set (hint := match GetSessionCookie req with
    | Some id => eval (logout_hint id) w | None => "" end).
  set (w1 := match GetSessionCookie req with Some id => exec (store_Delete id) w | None => w end).
  rewrite bind_run, logout_session_run. fold w. fold hint w1. rewrite bind_run. unfold UnsetSessionCookie, emit. rewrite bind_run, UnsetLegacyCookies_run.
  cbn [h_world h_out].
  assert (Hgone : forall out id, GetSessionCookie req = Some id ->
    eval (store_Peek id) (sv_store (h_world (mkH (mkSrv w1 (sv_kube (h_world h)) (sv_cache (h_world h))
      (sv_limiter (h_world h))) out))) = None).
  { intros out id Hid. cbn. unfold w1. rewrite Hid. by apply store_Delete_Peek. }
  destruct (OIDCAuthEnabled cfg && OIDCNeedsLogout cfg && negb (bool_decide (hint = ""))) eqn:Ho.
  - apply andb_true_iff in Ho as [[Ho1 Ho2]%andb_true_iff Ho3%negb_true_iff%bool_decide_eq_false].
    destruct (BuildLogoutURL provider hint) as [url|err] eqn:Hb.
    + unfold emit. cbn [snd h_world h_out]. split; [apply (Hgone [])|]. exists [Redirect StatusSeeOther url].
      split; [by rewrite <- !(assoc_L (++))|]. intros code url' He%list_elem_of_singleton. right. injection He as -> ->.
      split_and!; try done. by exists hint.
    + set (err0 := mkServerError StatusInternalServerError _ "").
      rewrite bind_run, HandleError_run. unfold LogError, emit. change (se_Err err0) with (Some ("error when building OIDC logout URL: " +:+ err)); cbn [snd h_world h_out].
      split; [apply (Hgone [])|].
       exists (error_effects err0 ++ [LogErr ("Failed to logout" +:+ ": " +:+ ("error when building OIDC logout URL: " +:+ err))%string]).
      split; [by rewrite <- !(assoc_L (++))|].
      intros code url' He. cbn in He. rewrite !elem_of_cons in He.
      destruct He as [He|[He|[He|He]]]; try done. set_solver.
  - unfold emit. destruct (decide (target <> "")) as [Ht|Ht]; cbn [snd h_world h_out]; (split; [apply (Hgone [])|]).
    + exists [Redirect StatusFound target]. split; [by rewrite <- !(assoc_L (++))|].
      intros code url' He%list_elem_of_singleton. left. by injection He as -> ->.
    + exists [Status StatusOK]. split; [by rewrite <- !(assoc_L (++))|].
      by intros code url' He%list_elem_of_singleton.
Qed.

(** The static password logs in only the user "admin", and only with the right password; such
    a login never asks the API server, and its session impersonates the configured identity
    without being counted against any user's cap. *)
Theorem Login_password (req : Request) (h : HState SrvState) :
  match req_BasicAuth req with
  | Some (user, password) =>
      if bool_decide (user = "admin") && passwordCompare password then
        Login_body req h = createSession req
          (mkSpec ModeAdmin (mkCredential KindImpersonate None None None (AdminUserName cfg) 0) None "admin" None) h /\
        perUserCapKey (mkSpec ModeAdmin (mkCredential KindImpersonate None None None (AdminUserName cfg) 0)
          None "admin" None) = ""
      else exists e, Login_body req h = (Some e, h) /\ se_Code e = StatusUnauthorized
  | None => exists e, Login_body req h = (Some e, h) /\ se_Code e = StatusUnauthorized
  end.
Proof.
  unfold Login_body. destruct (req_BasicAuth req) as [[user password]|]; [|by eexists].
  case_decide as Hu.
  - rewrite bool_decide_false by done. cbn [andb]. by eexists.
  - destruct (decide (user = "admin")) as [->|]; [|done]. rewrite bool_decide_true by done. cbn [andb].
    destruct (passwordCompare password); [done|by eexists].
Qed.
End Auth.
