(* ===== verification/OAuth2.v ===== *)
(** * OIDC login ([pkg/server/oauth2.go], the handlers)

    The two legs of the authorization code flow: [OAuth2Login] sends the browser to the identity
    provider with a signed state, [OAuth2Callback] receives it back, and turns a verified id_token
    into a session once the API server accepts it. *)
From S2P Require Import Prelude.
From S2P Require Import GoStrings.
From S2P Require Import GoUrl.
From S2P Require Import Base64.
From S2P Require Import Http.
From S2P Require Import Lru.
From S2P Require Import RateLimit.
From S2P Require Import Session.
From S2P Require Import SessionStore.
From S2P Require Import SessionFacts.
From S2P Require Import SessionOps.
From S2P Require Import SessionRefresh.
From S2P Require Import SessionInv.
From S2P Require Import SessionContext.
From S2P Require Import K8sCred.
From S2P Require Import Authn.
From S2P Require Import Oidc.
From S2P Require Import Auth.

Definition oauth2StateCookieName : string := "antrea-ui-oauth2-state".
Definition oidcNonceCookieName : string := "antrea-ui-oidc-nonce".
Definition oauth2CookiePath : string := "/auth/oauth2".

(** The platform of a server with an OIDC provider: its sessions have one refresher, the
    provider's, and the rest is as [P] has it. *)
Definition oidc_platform `{P : Platform} `{O : OIDCLib} : Platform :=
  {| RoundTripper := RoundTripper; Cleanup := Cleanup; Refresher := unit;
     clock_Now := clock_Now; rand_Read := rand_Read;
     refresher_Refresh _ i tok := oidcRefresher_Refresh i tok |}.

Section OAuth2.
Context `{P : Platform} {S : Store} {V : CredentialValidator} `{Limiter} `{LRU nat}
  `{BC : LRU bearerCacheEntry} `{GoIP} `{N : GoNet} `{C : Crypto} `{K : !KubeLib} `{O : OIDCLib}.
(** [refresher] is the one [Refresher()] returns. *)
Context (cfg : serverConfig) (auth : Authenticator) (provider : OIDCProvider) (refresher : Refresher).

Local Notation HM := (ST (HState SrvState)).

Definition oauth2_cookie (name value : string) : Cookie :=
  mkCookie name value oauth2CookiePath 0 (CookieSecure cfg) true SameSiteLax.
Definition oauth2_cookie_gone (name : string) : Cookie :=
  mkCookie name "" oauth2CookiePath (-1) false false SameSiteDefault.

Definition internal (msg : string) : ServerError := mkServerError StatusInternalServerError (Some msg) "".
Definition bad_request (msg : string) : ServerError := mkServerError StatusBadRequest None msg.

(** [GET /auth/oauth2/login]: [None] once the redirect is sent. *)
Definition OAuth2Login_body (req : Request) : HM (option ServerError) :=
  let redirectURL := SafeRedirectURL auth req (Query req "redirect_url") in
  st ← lift (on_store (GetOAuth2State provider redirectURL));
  match st with
  | Err e => mret (Some (internal ("error when generating OAuth2 state: " +:+ e)))
  | Ok (state, raw) =>
      emit (SetCookie (oauth2_cookie oauth2StateCookieName raw));;
      nonce ← lift (on_store genNonce);
      match nonce with
      | Err e => mret (Some (internal ("error when generating OIDC nonce: " +:+ e)))
      | Ok oidcNonce =>
          emit (SetCookie (oauth2_cookie oidcNonceCookieName oidcNonce));;
          emit (Redirect StatusSeeOther (oauth2_AuthCodeURL (st_Nonce state) (hashOIDCNonce oidcNonce)));;
          mret None
      end
  end.

Definition oauth2_respond (body : HM (option ServerError)) : HM unit :=
  e ← body;
  match e with
  | Some e => HandleError e;; LogError (Some e) "Failed to login"
  | None => mret tt
  end.

Definition OAuth2Login (req : Request) : HM unit := oauth2_respond (OAuth2Login_body req).

(** The target of the last redirect: the signed one, or the root, marked with the login method. *)
Definition callback_redirect (st : oauth2State) : string :=
  let base := if decide (st_RedirectURL st <> "")
              then match url_Parse (st_RedirectURL st) with
                   | Some _ => st_RedirectURL st
                   | None => "/"
                   end
              else "/" in
  url_SetQuery base "auth_method" "oidc".

(** The checks of [OAuth2Callback] before it builds the credential, in their order: the signed
    state, the provider's token response, its raw id_token and the verified one, or the error. [i]
    numbers the exchange with the provider. *)
Definition callback_checks (i : nat) (req : Request)
    : result ServerError (oauth2State * TokenResponse * string * IDToken) :=
  match GetQuery req "state" with
  | None => Err (bad_request "Missing state query param")
  | Some state =>
  match req_Cookie req oauth2StateCookieName with
  | None => Err (bad_request "Missing OAuth2 state cookie")
  | Some stateCookie =>
  match ParseOAuth2State provider stateCookie with
  | Err e => Err (mkServerError StatusBadRequest (Some e) "Invalid OAuth2 state cookie")
  | Ok cs =>
  if decide (state <> st_Nonce cs) then Err (bad_request "OAuth2 state mismatch") else
  match GetQuery req "code" with
  | None => Err (bad_request "Missing code query param")
  | Some code =>
  match oauth2_Exchange i code with
  | Err e => Err (internal ("error when exchanging Code: " +:+ e))
  | Ok tok =>
  match tr_IDToken tok with
  | None => Err (internal "no id_token in token response")
  | Some rawIDToken =>
  match oidc_Verify rawIDToken with
  | Err e => Err (internal ("failed to verify id_token: " +:+ e))
  | Ok idToken =>
  match req_Cookie req oidcNonceCookieName with
  | None => Err (bad_request "Missing OIDC nonce cookie")
  | Some oidcNonce =>
      if decide (id_Nonce idToken <> hashOIDCNonce oidcNonce) then Err (internal "invalid OIDC nonce")
      else Ok (cs, tok, rawIDToken, idToken)
  end end end end end end end end.

Definition untrusted_issuer : string :=
  "Kubernetes rejected the id_token issued by the OIDC provider. " +:+
  "The kube-apiserver must be configured to trust the same issuer and client ID " +:+
  "as Antrea UI (--oidc-issuer-url / --oidc-client-id, or the equivalent " +:+
  "structured authentication configuration). See docs/oidc.md.".

(** [GET /auth/oauth2/callback]. *)
Definition OAuth2Callback_body (i : nat) (req : Request) : HM (option ServerError) :=
  match callback_checks i req with
  | Err e => mret (Some e)
  | Ok (cs, tok, rawIDToken, idToken) =>
      refreshTokenBytes ← lift (on_store
        (if decide (tr_RefreshToken tok <> "") then alloc (Some (tr_RefreshToken tok)) else mret None));
      cred ← lift (on_store (alloc_credential (bearer_val rawIDToken (id_Expiry idToken))));
      u ← validateCredential cred;
      match u with
      | Err e =>
          lift (on_store (Spec_Zero (mkSpec ModeOIDC cred refreshTokenBytes "" (Some refresher))));;
          mret (Some (mkServerError (se_Code e) (se_Err e) untrusted_issuer))
      | Ok username =>
          e ← createSession auth req (mkSpec ModeOIDC cred refreshTokenBytes username (Some refresher));
          match e with
          | Some e => mret (Some e)
          | None =>
              emit (SetCookie (oauth2_cookie_gone oauth2StateCookieName));;
              emit (SetCookie (oauth2_cookie_gone oidcNonceCookieName));;
              emit (Redirect StatusFound (callback_redirect cs));;
              mret None
          end
      end
  end.

Definition OAuth2Callback (i : nat) (req : Request) : HM unit := oauth2_respond (OAuth2Callback_body i req).

(** *** Properties *)

(** What a callback must have carried: a state cookie signed by this server with the state of the
    URL in it, a code the provider took, an id_token the provider's keys verify, and the nonce
    this browser was given. *)
Record admissible (i : nat) (req : Request) (cs : oauth2State) (tok : TokenResponse) (raw : string)
    (idt : IDToken) : Prop := {
  ad_cookie : exists sc s0 s1 data, req_Cookie req oauth2StateCookieName = Some sc /\
    strings_Split sc "." = [s0; s1] /\
    b64_DecodeString URLEncoding s1 = Some (hmac_sha256 (p_oauth2StateSecret provider) s0) /\
    b64_DecodeString URLEncoding s0 = Some data /\ json_UnmarshalState data = Some cs;
  ad_state : GetQuery req "state" = Some (st_Nonce cs);
  ad_code : exists code, GetQuery req "code" = Some code /\ oauth2_Exchange i code = Ok tok;
  ad_token : tr_IDToken tok = Some raw /\ oidc_Verify raw = Ok idt;
  ad_nonce : exists nonce, req_Cookie req oidcNonceCookieName = Some nonce /\ id_Nonce idt = hashOIDCNonce nonce;
}.

Lemma callback_checks_admissible i req cs tok raw idt :
  callback_checks i req = Ok (cs, tok, raw, idt) <-> admissible i req cs tok raw idt.
Proof.
  unfold callback_checks. split.
  - destruct (GetQuery req "state") as [state|] eqn:E1; [|done].
    destruct (req_Cookie req oauth2StateCookieName) as [sc|] eqn:E2; [|done].
    destruct (ParseOAuth2State provider sc) as [cs'|] eqn:E3; [|done].
    case_decide as E4; [done|]. destruct (GetQuery req "code") as [code|] eqn:E5; [|done].
    destruct (oauth2_Exchange i code) as [tok'|] eqn:E6; [|done].
    destruct (tr_IDToken tok') as [raw'|] eqn:E7; [|done].
    destruct (oidc_Verify raw') as [idt'|] eqn:E8; [|done].
    destruct (req_Cookie req oidcNonceCookieName) as [nonce|] eqn:E9; [|done].
    case_decide as E10; [done|]. intros [= -> -> -> ->].
    destruct (ParseOAuth2State_signed _ _ _ E3) as (s0 & s1 & data & ?).
    split; [by exists sc, s0, s1, data|by rewrite <- E4|by exists code|done|by exists nonce].
  - intros [(sc & s0 & s1 & data & E2 & Es & Eh & Ed & Ej) E1 (code & E5 & E6) [E7 E8] (nonce & E9 & E10)].
    rewrite E1, E2. unfold ParseOAuth2State. rewrite Es, Ed, Eh, decide_True, Ej by done.
    rewrite decide_False by (intros Hn; by apply Hn). rewrite E5, E6, E7, E8, E9.
    by rewrite decide_False by (intros Hn; by apply Hn).
Qed.

Lemma callback_checks_code i req e :
  callback_checks i req = Err e -> se_Code e = StatusBadRequest \/ se_Code e = StatusInternalServerError.
Proof.
  unfold callback_checks. intros E.
  repeat (match type of E with context [match ?x with _ => _ end] => destruct x end;
          try (injection E as <-; cbn; auto; fail)); done.
Qed.

(** A cell that appears in memory is the one that was allocated. *)
Lemma alloc_new b (w : World) l x :
  w_mem w !! l = None -> w_mem (exec (alloc b) w) !! l = Some x -> eval (alloc b) w = Some l.
Proof.
  destruct b as [y|]; unfold exec, eval; cbn; [|congruence].
  intros Hn Hs. destruct (decide (l = w_brk w)) as [->|]; [done|].
  rewrite lookup_insert_ne in Hs by done. congruence.
Qed.

Lemma alloc_bearer_new t e (w : World) l x :
  w_mem w !! l = None -> w_mem (exec (alloc_credential (bearer_val t e)) w) !! l = Some x ->
  l ∈ cred_locs (eval (alloc_credential (bearer_val t e)) w).
Proof.
  intros Hn Hs. pose proof (alloc_new (Some t) w l x Hn Hs) as [= <-].
  unfold cred_locs, eval, alloc_credential. cbn. set_solver.
Qed.

(** The bytes a callback puts in memory, the refresh token first. *)
Lemma callback_alloc tok raw idt (w : World) :
  let rt := if decide (tr_RefreshToken tok <> "") then Some (tr_RefreshToken tok) else None in
  let w0 := exec (alloc rt) w in
  let w1 := exec (alloc_credential (bearer_val raw (id_Expiry idt))) w0 in
  let cred := eval (alloc_credential (bearer_val raw (id_Expiry idt))) w0 in
  credential_val (w_mem w1) cred = bearer_val raw (id_Expiry idt) /\
  slice_bytes (w_mem w1) (eval (alloc rt) w) = rt /\ grown w w1 /\
  (forall l x, w_mem w !! l = None -> w_mem w1 !! l = Some x ->
     l ∈ spec_locs (mkSpec ModeOIDC cred (eval (alloc rt) w) "" (Some refresher))).
Proof.
  intros rt w0 w1 cred. destruct (alloc_grown rt w) as [G0 F0].
  destruct (alloc_credential_grown (bearer_val raw (id_Expiry idt)) w0) as (G1 & _ & _).
  split; [apply alloc_credential_val|]. split; [|split; [by eapply grown_trans|]].
  - rewrite (slice_bytes_grown w0 w1) by (done || intros l Hl; apply (F0 l Hl)). apply alloc_bytes.
  - intros l x Hn Hs. unfold spec_locs. cbn [sp_Credential sp_RefreshToken].
    destruct (w_mem w0 !! l) as [y|] eqn:E0.
    + apply elem_of_app; right. rewrite (alloc_new rt w l y Hn E0). cbn. set_solver.
    + apply elem_of_app; left. by eapply alloc_bearer_new.
Qed.

(** C10. The callback of an OIDC login makes a session only for an admissible request, and only
    once the API server itself accepts the id_token. A request that is not admissible is refused
    with 400 or 500 and changes nothing at all. When the API server refuses, the answer is 401, the
    sessions are as before, no cookie is set, and every byte the callback had put in memory, the
    refresh token included, is zeroed. Otherwise the session that is asked for carries exactly the
    verified id_token, its expiry, the provider's refresh token and the name the API server gave,
    and only if it is created are the two flow cookies dropped and the browser sent on, to the
    target that was signed. *)
Theorem OAuth2Callback_outcome (i : nat) (req : Request) (h : HState SrvState) :
  (forall cs tok raw idt, admissible i req cs tok raw idt ->
     let s := h_world h in
     let answer := cv_Validate (bearer_val raw (id_Expiry idt)) (sv_kube s) in
     exists cred rt w1,
       credential_val (w_mem w1) cred = bearer_val raw (id_Expiry idt) /\
       slice_bytes (w_mem w1) rt =
         (if decide (tr_RefreshToken tok <> "") then Some (tr_RefreshToken tok) else None) /\
       w_sessions w1 = w_sessions (sv_store s) /\ w_objs w1 = w_objs (sv_store s) /\
       match answer.1 with
       | Ok user =>
           let created := createSession auth req (mkSpec ModeOIDC cred rt user (Some refresher))
             (mkH (mkSrv w1 answer.2 (sv_cache s) (sv_limiter s)) (h_out h)) in
           OAuth2Callback_body i req h =
             match created.1 with
             | Some e => (Some e, created.2)
             | None => (None, mkH (h_world created.2) (h_out created.2 ++
                 [SetCookie (oauth2_cookie_gone oauth2StateCookieName);
                  SetCookie (oauth2_cookie_gone oidcNonceCookieName);
                  Redirect StatusFound (callback_redirect cs)]))
             end
       | Err _ => exists e w2,
           OAuth2Callback_body i req h =
             (Some e, mkH (mkSrv w2 answer.2 (sv_cache s) (sv_limiter s)) (h_out h)) /\
           se_Code e = StatusUnauthorized /\
           w_sessions w2 = w_sessions (sv_store s) /\ w_objs w2 = w_objs (sv_store s) /\
           (forall l b, w_mem (sv_store s) !! l = None -> w_mem w2 !! l = Some b -> all_zero b = true)
       end) /\
  ((forall cs tok raw idt, ~ admissible i req cs tok raw idt) ->
     exists e, OAuth2Callback_body i req h = (Some e, h) /\
       (se_Code e = StatusBadRequest \/ se_Code e = StatusInternalServerError)).
Proof.
  split.
  - intros cs tok raw idt Ha s answer. apply callback_checks_admissible in Ha.
    destruct (callback_alloc tok raw idt (sv_store s)) as (Hv & Hr & G & Hnew). cbn zeta in Hv, Hr, G, Hnew.
    set (rt := if decide _ then _ else _) in *. set (w0 := exec (alloc rt) (sv_store s)) in *.
    set (w1 := exec (alloc_credential _) w0) in *. set (cred := eval (alloc_credential _) w0) in *.
    exists cred, (eval (alloc rt) (sv_store s)), w1.
    split; [done|]. split; [done|]. split; [apply (gr_sessions _ _ G)|]. split; [apply (gr_objs _ _ G)|].
    assert (Hrt : (if decide (tr_RefreshToken tok <> "") then alloc (Some (tr_RefreshToken tok)) else mret None)
                  (sv_store s) = (eval (alloc rt) (sv_store s), w0)).
    { unfold rt, w0, rt, exec, eval. case_decide; [by destruct (alloc _ _)|done]. }
    unfold OAuth2Callback_body. rewrite Ha, bind_run, lift_run, on_store_run. fold s. rewrite Hrt. cbn [fst snd].
    srv_step.
    change ((alloc_credential (bearer_val raw (id_Expiry idt)) w0).1) with cred.
    change ((alloc_credential (bearer_val raw (id_Expiry idt)) w0).2) with w1.
    rewrite bind_run, validateCredential_run. cbn [fst snd h_world h_out sv_store sv_kube sv_cache sv_limiter].
    rewrite Hv.
    change (cv_Validate _ (sv_kube s)) with answer. destruct (answer.1) as [u|e].
    + cbn zeta. rewrite bind_run. destruct (createSession _ _ _ _) as [[e'|] h2]; cbn [fst snd]; [done|].
      unfold emit. rewrite !bind_run. cbn [h_world h_out mret ST_ret]. by rewrite <- !(assoc_L (++)).
    + srv_step.
      set (sp := mkSpec _ _ _ _ _). pose proof (Spec_Zero_run sp w1) as Z. unfold exec in Z. rewrite Z.
      eexists _, _. split; [done|]. split; [done|]. cbn [with_mem w_sessions w_objs w_mem].
      split; [apply (gr_sessions _ _ G)|]. split; [apply (gr_objs _ _ G)|].
      intros l b Hn Hb. destruct (w_mem w1 !! l) as [x|] eqn:E.
      * apply (zero_cells_all_zero (spec_locs sp) (w_mem w1) l b); [|done]. by apply (Hnew l x).
      * rewrite lookup_zero_cells, E in Hb. done.
  - intros Hn. unfold OAuth2Callback_body.
    destruct (callback_checks i req) as [[[[cs tok] raw] idt]|e] eqn:E.
    + by destruct (Hn cs tok raw idt), (proj1 (callback_checks_admissible _ _ _ _ _ _) E).
    + exists e. split; [done|]. by eapply callback_checks_code.
Qed.

(** C34. An honest login goes through: the browser that leaves with the state and nonce cookies
    [OAuth2Login] set, and comes back from the provider with that state, a code, and an id_token
    that repeats the nonce it was sent with, passes every check of the callback, which then
    redirects to the target the request had asked for, as the redirect filter let it through. *)
Theorem OIDC_honest_flow (req back : Request) (h : HState SrvState) (st : oauth2State) (raw nonce : string)
    (i : nat) (code : string) (tok : TokenResponse) (rawID : string) (idt : IDToken) :
  let target := SafeRedirectURL auth req (Query req "redirect_url") in
  let w1 := exec (GetOAuth2State provider target) (sv_store (h_world h)) in
  eval (GetOAuth2State provider target) (sv_store (h_world h)) = Ok (st, raw) ->
  eval genNonce w1 = Ok nonce ->
  json_UnmarshalState (json_MarshalState st) = Some st ->
  req_Cookie back oauth2StateCookieName = Some raw -> req_Cookie back oidcNonceCookieName = Some nonce ->
  GetQuery back "state" = Some (st_Nonce st) -> GetQuery back "code" = Some code ->
  oauth2_Exchange i code = Ok tok -> tr_IDToken tok = Some rawID -> oidc_Verify rawID = Ok idt ->
  id_Nonce idt = hashOIDCNonce nonce ->
  eval (OAuth2Login_body req) h = None /\
  h_out (exec (OAuth2Login_body req) h) = h_out h ++
    [SetCookie (oauth2_cookie oauth2StateCookieName raw); SetCookie (oauth2_cookie oidcNonceCookieName nonce);
     Redirect StatusSeeOther (oauth2_AuthCodeURL (st_Nonce st) (id_Nonce idt))] /\
  callback_checks i back = Ok (st, tok, rawID, idt) /\
  (target <> "" -> url_Parse target <> None -> callback_redirect st = url_SetQuery target "auth_method" "oidc").
Proof.
  intros target w1 Hg Hnc Hj C1 C2 Q1 Q2 E1 E2 E3 E4.
  destruct (GetOAuth2State_parses provider target _ st raw Hj Hg) as [Hp Hr].
  unfold eval in Hg, Hnc |- *. unfold exec. unfold w1, exec in Hnc.
  assert (Hrun : OAuth2Login_body req h = (None, mkH
     (mkSrv (genNonce (GetOAuth2State provider target (sv_store (h_world h))).2).2 (sv_kube (h_world h))
        (sv_cache (h_world h)) (sv_limiter (h_world h)))
     (h_out h ++ [SetCookie (oauth2_cookie oauth2StateCookieName raw);
        SetCookie (oauth2_cookie oidcNonceCookieName nonce);
        Redirect StatusSeeOther (oauth2_AuthCodeURL (st_Nonce st) (id_Nonce idt))]))).
  { unfold OAuth2Login_body. fold target. rewrite bind_run, lift_run, on_store_run. rewrite Hg.
    cbn [fst snd]. unfold emit. rewrite bind_run, bind_run, lift_run, on_store_run.
    cbn [fst snd h_world h_out sv_store sv_kube sv_cache sv_limiter]. rewrite Hnc, !bind_run.
    cbn [fst snd h_world h_out mret ST_ret]. rewrite E4. by rewrite <- !(assoc_L (++)). }
  rewrite Hrun. split; [done|]. split; [done|]. split.
  - unfold callback_checks. rewrite Q1, C1, Hp, decide_False by (intros Hn; by apply Hn).
    rewrite Q2, E1, E2, E3, C2, decide_False by (intros Hn; by apply Hn). done.
  - intros Ht Hu. unfold callback_redirect. rewrite Hr, decide_True by done. by destruct (url_Parse target).
Qed.
End OAuth2.
