(* ===== verification/AuthDemo.v ===== *)
(** * Concrete instances for the authentication theorems

    A server over the in-memory store, a list LRU and toy instances of the libraries (a hash that
    is the identity, JSON that joins its two fields with a bar, an API server that knows one
    token), at which the theorems of [Authn], [Oidc], [Auth] and [OAuth2] are applied. *)
From S2P Require Import Prelude.
From S2P Require Import GoStrings.
From S2P Require Import GoUrl.
From S2P Require Import Browser.
From S2P Require Import Base64.
From S2P Require Import Http.
From S2P Require Import Lru.
From S2P Require Import RateLimit.
From S2P Require Import Session.
From S2P Require Import SessionStore.
From S2P Require Import SessionFacts.
From S2P Require Import SessionOps.
From S2P Require Import SessionRefresh.
From S2P Require Import SessionInv.
From S2P Require Import SessionProps.
From S2P Require Import SessionContext.
From S2P Require Import K8sCred.
From S2P Require Import Authn.
From S2P Require Import Oidc.
From S2P Require Import Auth.
From S2P Require Import OAuth2.

Module AuthDemo.
Import Demo.

#[export] Instance demo_net : GoNet := {| netip_is_6 _ := false |}.

#[export] Instance demo_crypto : Crypto := {|
  sha256_Sum256 s := s;
  hmac_sha256 k s := k +:+ s;
|}.

#[export] Instance demo_oidc : OIDCLib := {|
  json_MarshalState st := st_Nonce st +:+ "|" +:+ st_RedirectURL st;
  json_UnmarshalState s := let '(n, u, ok) := strings_Cut s "|" in if ok then Some (mkState n u) else None;
  oauth2_RefreshGrant _ tok := Some (mkTokenResponse tok (Some ("id-" +:+ tok)));
  oauth2_Exchange _ code := Ok (mkTokenResponse "rt" (Some code));
  oidc_Verify raw := Ok (mkIDToken (time_Unix 0) raw);
  oauth2_AuthCodeURL state nonce := "https://idp/auth?state=" +:+ state +:+ "&nonce=" +:+ nonce;
  url_JoinPath u ps := foldl (fun u p => u +:+ "/" +:+ p) u ps;
  url_WithQuery u k v := u +:+ "?" +:+ k +:+ "=" +:+ v;
  url_SetQuery u k v := u +:+ "?" +:+ k +:+ "=" +:+ v;
  oidc_Discover i _ := (2 <=? i)%nat;
|}.

Definition demo_config : RestConfig := mkRestConfig "https://10.0.0.1" None "" "" "" None None "".

#[export] Instance demo_kube : KubeLib := {|
  clientcmd_Load _ := None;
  pem_Decode s := Some s;
  x509_NotAfter _ := None;
  json_exp _ := None;
  NewBearerAuthRoundTripper tok base := if decide (tok = "good") then 1%nat else 2%nat;
  rest_TransportFor c := if rc_CertData c then Err "no certificates" else Ok 0%nat;
  AnonymousClientConfig c := c;
  kubernetes_NewForConfigAndClient _ _ := None;
  NewImpersonatingRoundTripper _ base := 0%nat;
  CloseIdleConnectionsFor rt := rt;
  SelfSubjectReview _ rt := if decide (rt = 1%nat) then Ok "alice" else Err (KubeUnauthorized "Unauthorized");
|}.

#[export] Instance demo_limiter : Limiter := {|
  limiter := Z;
  NewLimiter _ burst := burst;
  AllowN _ := fun b => (0 <? b, Z.max 0 (b - 1));
|}.

#[export] Instance demo_ip : GoIP := {|
  IP := string; ParseIP s := Some s; IP_String s := s; IP_IsPrivate _ := false |}.

Definition demo_authn : AuthnConfig := mkAuthnConfig "https://ui" false true true false.
Definition demo_auth : Authenticator := mkAuthenticator demo_authn "https://ui".

Definition demo_cfg : serverConfig := mkServerConfig true true true true true true 5 "antrea-ui-admin".

Definition demo_req (header query : gmap string (list string)) (cookies : list (string * string)) : Request :=
  mkRequest "GET" "ui" "1.1.1.1:80" header cookies query None.

Lemma demo_auth_new : Authenticator_New demo_authn = Ok demo_auth.
Proof. vm_compute. reflexivity. Qed.

(** An absolute target on the server, with credentials and in other case. *)
Lemma SafeRedirectURL_safe_witness :
  let req := demo_req ∅ ∅ [] in
  let target := "HTTPS://someone@UI/summary" in
  SafeRedirectURL demo_auth req target = target /\
  exists scheme host, browser_origin target = Some (scheme, host) /\ own_origin demo_authn req scheme host.
Proof.
  destruct (SafeRedirectURL_safe demo_authn demo_auth (demo_req ∅ ∅ []) "HTTPS://someone@UI/summary" demo_auth_new)
    as [E [Hs|(scheme & host & Hb & Ho)]]; [vm_compute; discriminate|discriminate Hs|].
  split; [exact E|]. exists scheme, host. split; [exact Hb|]. apply Ho.
  vm_compute in Hb. injection Hb as <- <-. reflexivity.
Defined.

(** A cross-site form post is refused, and without [Sec-Fetch-Site] a post from a page of another
    origin whose name begins with the server's. *)
Lemma checkCrossOrigin_gate_witness :
  checkCrossOrigin demo_auth (demo_req {["Sec-Fetch-Site" := ["cross-site"]]} ∅ []) false <> None /\
  checkCrossOrigin demo_auth (demo_req {["Origin" := ["https://ui.evil.com"]]} ∅ []) false <> None /\
  checkCrossOrigin demo_auth (demo_req {["Origin" := ["https://ui"]]} ∅ []) false = None.
Proof.
  split_and!.
  - destruct (checkCrossOrigin_gate demo_authn demo_auth (demo_req {["Sec-Fetch-Site" := ["cross-site"]]} ∅ [])
      false demo_auth_new eq_refl) as (G & _).
    intros E. apply G in E; [|vm_compute; discriminate]. destruct E as [E|[E|[E _]]]; vm_compute in E; discriminate.
  - destruct (checkCrossOrigin_gate demo_authn demo_auth (demo_req {["Origin" := ["https://ui.evil.com"]]} ∅ [])
      false demo_auth_new eq_refl) as (_ & _ & G & _).
    intros E. apply (G eq_refl "https" "ui.evil.com") in E; [|by right|split_and!; [discriminate|reflexivity..]|reflexivity].
    destruct E as (su & Hsu & _ & He). vm_compute in Hsu. injection Hsu as <-. vm_compute in He. discriminate.
  - destruct (checkCrossOrigin_gate demo_authn demo_auth (demo_req {["Origin" := ["https://ui"]]} ∅ [])
      false demo_auth_new eq_refl) as (_ & _ & G & _).
    apply (G eq_refl "https" "ui"); [by right|split_and!; [discriminate|reflexivity..]|reflexivity|].
    eexists. split; [vm_compute; reflexivity|]. by vm_compute.
Defined.

Definition demo_template : string := "https://idp/logout?id_token_hint={{Token}}&to={{LogoutReturnURL}}".
Definition demo_tm : Template :=
  match Template_New demo_template logout_vars with Ok t => t | Err _ => mkTemplate "" [] end.
Definition demo_provider : OIDCProvider :=
  mkOIDCProvider "https://ui" "https://idp" "" "ui" "s3cret" "https://ui/auth/oauth2/callback" demo_tm
    "https://ui?msg=bye" DefaultOIDCScopes "key".

Lemma logout_template_total_witness :
  (BuildLogoutURL demo_provider "a&b" = Err "x" -> "x" = "invalid logout URL") /\
  string_forallb query_safe (url_QueryEscape "a&b") = true.
Proof.
  apply (logout_template_total demo_template demo_tm demo_provider "a&b" "x"); vm_compute; reflexivity.
Defined.

(** *** A server with alice and bob logged in *)

Definition demo_store : Store := mem_store demo_opts demo_order.
Definition demo_validator : CredentialValidator :=
  factory_validator (mkClientFactory demo_config (0%nat : RoundTripper) (0%nat : RoundTripper) "k8s").
#[export] Existing Instance demo_store.
#[export] Existing Instance demo_validator.

Definition demo_srv (w : World) : SrvState :=
  mkSrv w (mkKubeState 0 []) (mkLruList 4 []) (mkClientRateLimiter (mkConfig (float64_of_Z 1) 1) (mkLruList 3 []) ∅ 0 ClientKeyIP).

Definition logout_req : Request :=
  demo_req ∅ {["redirect_url" := ["/login"]]} [(SessionCookieName, id_alice)].

Definition logout_world (w : World) : World :=
  sv_store (h_world (exec (Logout demo_cfg demo_auth demo_provider logout_req) (mkH (demo_srv w) []))).

Lemma Logout_outcome_witness : eval (store_Peek id_alice) (logout_world w_both) = None.
Proof.
  destruct (Logout_outcome (L := mem_store_laws demo_opts demo_order) demo_cfg demo_auth demo_provider
    logout_req (mkH (demo_srv w_both) [])) as [Hgone _].
  - apply Inv_reachable; [apply setDefaults_ok|apply reachable_both].
  - apply (Hgone id_alice). reflexivity.
Defined.

(** *** A login through the identity provider *)

Definition login_req : Request := demo_req ∅ {["redirect_url" := ["/flows"]]} [].

Definition demo_flow : oauth2State * string :=
  match eval (GetOAuth2State demo_provider "/flows") world0 with Ok p => p | Err _ => (mkState "" "", "") end.
Definition demo_nonce : string :=
  match eval genNonce (exec (GetOAuth2State demo_provider "/flows") world0) with Ok n => n | Err _ => "" end.

Definition back_req : Request :=
  demo_req ∅ {["state" := [st_Nonce demo_flow.1]; "code" := [hashOIDCNonce demo_nonce]]}
    [(oauth2StateCookieName, demo_flow.2); (oidcNonceCookieName, demo_nonce)].

Definition demo_idt : IDToken := mkIDToken (time_Unix 0) (hashOIDCNonce demo_nonce).
Definition demo_tok : TokenResponse := mkTokenResponse "rt" (Some (hashOIDCNonce demo_nonce)).

Lemma OIDC_honest_flow_witness :
  callback_checks demo_provider 0 back_req = Ok (demo_flow.1, demo_tok, hashOIDCNonce demo_nonce, demo_idt) /\
  callback_redirect demo_flow.1 = "/flows?auth_method=oidc".
Proof.
  destruct (OIDC_honest_flow demo_cfg demo_auth demo_provider login_req back_req (mkH (demo_srv world0) [])
    demo_flow.1 demo_flow.2 demo_nonce 0 (hashOIDCNonce demo_nonce) demo_tok (hashOIDCNonce demo_nonce) demo_idt)
    as (_ & _ & Hc & Hr); [vm_compute; reflexivity..|].
  split; [exact Hc|]. apply Hr; vm_compute; discriminate.
Defined.
End AuthDemo.
