(* ===== verification/Flowpb.v ===== *)
(** * The messages of the Flow Aggregator ([pkg/flowpb])

    The protobuf messages and enumerations the program reads and writes, as [protoc] generated them
    for Go: a message is a record, a pointer to one is an [option], and a getter answers the zero
    value of its field for a nil message. An enumeration is open, as it is on the wire: its values
    are int32 numbers, of which some have names. [uint32] and [uint64] fields are non-negative
    integers, a nil map or slice is an empty one, a timestamp is seconds and nanoseconds. *)
From S2P Require Import Prelude.
From S2P Require Import Session.

(** ** Enumerations

    The constants, and the two tables of each: from numbers to names and back. *)

Definition FlowEndReason_FLOW_END_REASON_UNSPECIFIED : Z := 0.
Definition FlowEndReason_FLOW_END_REASON_IDLE_TIMEOUT : Z := 1.
Definition FlowEndReason_FLOW_END_REASON_ACTIVE_TIMEOUT : Z := 2.
Definition FlowEndReason_FLOW_END_REASON_END_OF_FLOW : Z := 3.
Definition FlowEndReason_FLOW_END_REASON_FORCED_END : Z := 4.
Definition FlowEndReason_FLOW_END_REASON_LACK_OF_RESOURCES : Z := 5.
Definition FlowEndReason_name : gmap Z string :=
  {[0 := "FLOW_END_REASON_UNSPECIFIED"; 1 := "FLOW_END_REASON_IDLE_TIMEOUT";
    2 := "FLOW_END_REASON_ACTIVE_TIMEOUT"; 3 := "FLOW_END_REASON_END_OF_FLOW";
    4 := "FLOW_END_REASON_FORCED_END"; 5 := "FLOW_END_REASON_LACK_OF_RESOURCES"]}.
Definition FlowEndReason_value : gmap string Z :=
  {["FLOW_END_REASON_UNSPECIFIED" := 0; "FLOW_END_REASON_IDLE_TIMEOUT" := 1;
    "FLOW_END_REASON_ACTIVE_TIMEOUT" := 2; "FLOW_END_REASON_END_OF_FLOW" := 3;
    "FLOW_END_REASON_FORCED_END" := 4; "FLOW_END_REASON_LACK_OF_RESOURCES" := 5]}.

Definition IPVersion_IP_VERSION_UNSPECIFIED : Z := 0.
Definition IPVersion_IP_VERSION_4 : Z := 4.
Definition IPVersion_IP_VERSION_6 : Z := 6.
Definition IPVersion_name : gmap Z string :=
  {[0 := "IP_VERSION_UNSPECIFIED"; 4 := "IP_VERSION_4"; 6 := "IP_VERSION_6"]}.
Definition IPVersion_value : gmap string Z :=
  {["IP_VERSION_UNSPECIFIED" := 0; "IP_VERSION_4" := 4; "IP_VERSION_6" := 6]}.

Definition FlowType_FLOW_TYPE_UNSPECIFIED : Z := 0.
Definition FlowType_FLOW_TYPE_INTRA_NODE : Z := 1.
Definition FlowType_FLOW_TYPE_INTER_NODE : Z := 2.
Definition FlowType_FLOW_TYPE_TO_EXTERNAL : Z := 3.
Definition FlowType_FLOW_TYPE_FROM_EXTERNAL : Z := 4.
Definition FlowType_name : gmap Z string :=
  {[0 := "FLOW_TYPE_UNSPECIFIED"; 1 := "FLOW_TYPE_INTRA_NODE"; 2 := "FLOW_TYPE_INTER_NODE";
    3 := "FLOW_TYPE_TO_EXTERNAL"; 4 := "FLOW_TYPE_FROM_EXTERNAL"]}.
Definition FlowType_value : gmap string Z :=
  {["FLOW_TYPE_UNSPECIFIED" := 0; "FLOW_TYPE_INTRA_NODE" := 1; "FLOW_TYPE_INTER_NODE" := 2;
    "FLOW_TYPE_TO_EXTERNAL" := 3; "FLOW_TYPE_FROM_EXTERNAL" := 4]}.

Definition NetworkPolicyType_NETWORK_POLICY_TYPE_UNSPECIFIED : Z := 0.
Definition NetworkPolicyType_NETWORK_POLICY_TYPE_K8S : Z := 1.
Definition NetworkPolicyType_NETWORK_POLICY_TYPE_ANP : Z := 2.
Definition NetworkPolicyType_NETWORK_POLICY_TYPE_ACNP : Z := 3.
Definition NetworkPolicyType_name : gmap Z string :=
  {[0 := "NETWORK_POLICY_TYPE_UNSPECIFIED"; 1 := "NETWORK_POLICY_TYPE_K8S"; 2 := "NETWORK_POLICY_TYPE_ANP";
    3 := "NETWORK_POLICY_TYPE_ACNP"]}.
Definition NetworkPolicyType_value : gmap string Z :=
  {["NETWORK_POLICY_TYPE_UNSPECIFIED" := 0; "NETWORK_POLICY_TYPE_K8S" := 1; "NETWORK_POLICY_TYPE_ANP" := 2;
    "NETWORK_POLICY_TYPE_ACNP" := 3]}.

Definition NetworkPolicyRuleAction_NETWORK_POLICY_RULE_ACTION_NO_ACTION : Z := 0.
Definition NetworkPolicyRuleAction_NETWORK_POLICY_RULE_ACTION_ALLOW : Z := 1.
Definition NetworkPolicyRuleAction_NETWORK_POLICY_RULE_ACTION_DROP : Z := 2.
Definition NetworkPolicyRuleAction_NETWORK_POLICY_RULE_ACTION_REJECT : Z := 3.
Definition NetworkPolicyRuleAction_name : gmap Z string :=
  {[0 := "NETWORK_POLICY_RULE_ACTION_NO_ACTION"; 1 := "NETWORK_POLICY_RULE_ACTION_ALLOW";
    2 := "NETWORK_POLICY_RULE_ACTION_DROP"; 3 := "NETWORK_POLICY_RULE_ACTION_REJECT"]}.
Definition NetworkPolicyRuleAction_value : gmap string Z :=
  {["NETWORK_POLICY_RULE_ACTION_NO_ACTION" := 0; "NETWORK_POLICY_RULE_ACTION_ALLOW" := 1;
    "NETWORK_POLICY_RULE_ACTION_DROP" := 2; "NETWORK_POLICY_RULE_ACTION_REJECT" := 3]}.

Definition FlowDirection_FLOW_DIRECTION_INGRESS : Z := 0.
Definition FlowDirection_FLOW_DIRECTION_EGRESS : Z := 1.
Definition FlowDirection_FLOW_DIRECTION_UNKNOWN : Z := 255.
Definition FlowDirection_name : gmap Z string :=
  {[0 := "FLOW_DIRECTION_INGRESS"; 1 := "FLOW_DIRECTION_EGRESS"; 255 := "FLOW_DIRECTION_UNKNOWN"]}.
Definition FlowDirection_value : gmap string Z :=
  {["FLOW_DIRECTION_INGRESS" := 0; "FLOW_DIRECTION_EGRESS" := 1; "FLOW_DIRECTION_UNKNOWN" := 255]}.

Definition FlowFilterDirection_FLOW_FILTER_DIRECTION_BOTH : Z := 0.
Definition FlowFilterDirection_FLOW_FILTER_DIRECTION_FROM : Z := 1.
Definition FlowFilterDirection_FLOW_FILTER_DIRECTION_TO : Z := 2.
Definition FlowFilterDirection_name : gmap Z string :=
  {[0 := "FLOW_FILTER_DIRECTION_BOTH"; 1 := "FLOW_FILTER_DIRECTION_FROM"; 2 := "FLOW_FILTER_DIRECTION_TO"]}.
Definition FlowFilterDirection_value : gmap string Z :=
  {["FLOW_FILTER_DIRECTION_BOTH" := 0; "FLOW_FILTER_DIRECTION_FROM" := 1; "FLOW_FILTER_DIRECTION_TO" := 2]}.

(** ** Messages *)

Record pb_IPFIX := mk_pb_IPFIX {
  px_ExportTime : option (Z * Z);
  px_SequenceNumber : Z;
  px_ObservationDomainId : Z;
  px_ExporterIp : string;
}.

Record pb_IP := mk_pb_IP {
  pip_Version : Z;
  pip_Source : string;
  pip_Destination : string;
}.

Record pb_TCP := mk_pb_TCP {
  ptcp_StateName : string;
}.

(** The one protocol the [oneof] has. *)
Inductive isTransport_Protocol := Transport_TCP (TCP : option pb_TCP).

Record pb_Transport := mk_pb_Transport {
  pt_ProtocolNumber : Z;
  pt_SourcePort : Z;
  pt_DestinationPort : Z;
  pt_Protocol : option isTransport_Protocol;
}.

Record pb_Stats := mk_pb_Stats {
  ps_PacketTotalCount : Z;
  ps_PacketDeltaCount : Z;
  ps_OctetTotalCount : Z;
  ps_OctetDeltaCount : Z;
}.

Record pb_Labels := mk_pb_Labels {
  plb_Labels : gmap string string;
}.

Record pb_Kubernetes := mk_pb_Kubernetes {
  pk_FlowType : Z;
  pk_SourcePodNamespace : string;
  pk_SourcePodName : string;
  pk_SourcePodUid : string;
  pk_SourcePodLabels : option pb_Labels;
  pk_SourceNodeName : string;
  pk_SourceNodeUid : string;
  pk_DestinationPodNamespace : string;
  pk_DestinationPodName : string;
  pk_DestinationPodUid : string;
  pk_DestinationPodLabels : option pb_Labels;
  pk_DestinationNodeName : string;
  pk_DestinationNodeUid : string;
  pk_DestinationClusterIp : string;
  pk_DestinationServicePort : Z;
  pk_DestinationServicePortName : string;
  pk_DestinationServiceUid : string;
  pk_IngressNetworkPolicyType : Z;
  pk_IngressNetworkPolicyNamespace : string;
  pk_IngressNetworkPolicyName : string;
  pk_IngressNetworkPolicyUid : string;
  pk_IngressNetworkPolicyRuleName : string;
  pk_IngressNetworkPolicyRuleAction : Z;
  pk_EgressNetworkPolicyType : Z;
  pk_EgressNetworkPolicyNamespace : string;
  pk_EgressNetworkPolicyName : string;
  pk_EgressNetworkPolicyUid : string;
  pk_EgressNetworkPolicyRuleName : string;
  pk_EgressNetworkPolicyRuleAction : Z;
  pk_EgressName : string;
  pk_EgressIp : string;
  pk_EgressNodeName : string;
  pk_EgressNodeUid : string;
  pk_EgressUid : string;
}.

Record pb_App := mk_pb_App {
  papp_ProtocolName : string;
  papp_HttpVals : string;
}.

Record pb_Aggregation := mk_pb_Aggregation {
  pa_EndTsFromSource : option (Z * Z);
  pa_EndTsFromDestination : option (Z * Z);
  pa_StatsFromSource : option pb_Stats;
  pa_ReverseStatsFromSource : option pb_Stats;
  pa_StatsFromDestination : option pb_Stats;
  pa_ReverseStatsFromDestination : option pb_Stats;
  pa_ThroughputFromSource : Z;
  pa_ReverseThroughputFromSource : Z;
  pa_ThroughputFromDestination : Z;
  pa_ReverseThroughputFromDestination : Z;
  pa_Throughput : Z;
  pa_ReverseThroughput : Z;
}.

Record pb_Flow := mk_pb_Flow {
  pf_Id : string;
  pf_Ipfix : option pb_IPFIX;
  pf_StartTs : option (Z * Z);
  pf_EndTs : option (Z * Z);
  pf_EndReason : Z;
  pf_Ip : option pb_IP;
  pf_Transport : option pb_Transport;
  pf_K8S : option pb_Kubernetes;
  pf_Stats : option pb_Stats;
  pf_ReverseStats : option pb_Stats;
  pf_App : option pb_App;
  pf_FlowDirection : Z;
  pf_Aggregation : option pb_Aggregation;
}.

Record pb_FlowFilter := mk_pb_FlowFilter {
  pff_Namespaces : list string;
  pff_PodNames : list string;
  pff_PodLabelSelector : string;
  pff_ServiceNames : list string;
  pff_FlowTypes : list Z;
  pff_Ips : list string;
  pff_Direction : Z;
}.

Record GetFlowsRequest := mkGetFlowsRequest {
  gq_Filters : list (option pb_FlowFilter);
  gq_Since : option (Z * Z);
  gq_MaxCount : Z;
  gq_Follow : bool;
}.

Record GetFlowsResponse := mkGetFlowsResponse {
  gr_Flows : list (option pb_Flow);
  gr_DroppedCount : Z;
}.

(** ** Getters *)

(** A getter: the field of a message, or its zero value for a nil pointer. *)
Definition getter {M A} (field : M -> A) (zero : A) (x : option M) : A :=
  match x with Some m => field m | None => zero end.

Definition IPFIX_GetExportTime : option pb_IPFIX -> option (Z * Z) := getter px_ExportTime None.
Definition IPFIX_GetSequenceNumber : option pb_IPFIX -> Z := getter px_SequenceNumber 0.
Definition IPFIX_GetObservationDomainId : option pb_IPFIX -> Z := getter px_ObservationDomainId 0.
Definition IPFIX_GetExporterIp : option pb_IPFIX -> string := getter px_ExporterIp "".

Definition IP_GetVersion : option pb_IP -> Z := getter pip_Version 0.
Definition IP_GetSource : option pb_IP -> string := getter pip_Source "".
Definition IP_GetDestination : option pb_IP -> string := getter pip_Destination "".

Definition TCP_GetStateName : option pb_TCP -> string := getter ptcp_StateName "".

Definition Transport_GetProtocolNumber : option pb_Transport -> Z := getter pt_ProtocolNumber 0.
Definition Transport_GetSourcePort : option pb_Transport -> Z := getter pt_SourcePort 0.
Definition Transport_GetDestinationPort : option pb_Transport -> Z := getter pt_DestinationPort 0.
Definition Transport_GetProtocol : option pb_Transport -> option isTransport_Protocol := getter pt_Protocol None.
Definition Transport_GetTCP (x : option pb_Transport) : option pb_TCP :=
  match x with
  | Some t => match pt_Protocol t with Some (Transport_TCP tcp) => tcp | None => None end
  | None => None
  end.

Definition Stats_GetPacketTotalCount : option pb_Stats -> Z := getter ps_PacketTotalCount 0.
Definition Stats_GetPacketDeltaCount : option pb_Stats -> Z := getter ps_PacketDeltaCount 0.
Definition Stats_GetOctetTotalCount : option pb_Stats -> Z := getter ps_OctetTotalCount 0.
Definition Stats_GetOctetDeltaCount : option pb_Stats -> Z := getter ps_OctetDeltaCount 0.

Definition Labels_GetLabels : option pb_Labels -> gmap string string := getter plb_Labels ∅.

Definition Kubernetes_GetFlowType : option pb_Kubernetes -> Z := getter pk_FlowType 0.
Definition Kubernetes_GetSourcePodNamespace : option pb_Kubernetes -> string := getter pk_SourcePodNamespace "".
Definition Kubernetes_GetSourcePodName : option pb_Kubernetes -> string := getter pk_SourcePodName "".
Definition Kubernetes_GetSourcePodUid : option pb_Kubernetes -> string := getter pk_SourcePodUid "".
Definition Kubernetes_GetSourcePodLabels : option pb_Kubernetes -> option pb_Labels := getter pk_SourcePodLabels None.
Definition Kubernetes_GetSourceNodeName : option pb_Kubernetes -> string := getter pk_SourceNodeName "".
Definition Kubernetes_GetSourceNodeUid : option pb_Kubernetes -> string := getter pk_SourceNodeUid "".
Definition Kubernetes_GetDestinationPodNamespace : option pb_Kubernetes -> string := getter pk_DestinationPodNamespace "".
Definition Kubernetes_GetDestinationPodName : option pb_Kubernetes -> string := getter pk_DestinationPodName "".
Definition Kubernetes_GetDestinationPodUid : option pb_Kubernetes -> string := getter pk_DestinationPodUid "".
Definition Kubernetes_GetDestinationPodLabels : option pb_Kubernetes -> option pb_Labels := getter pk_DestinationPodLabels None.
Definition Kubernetes_GetDestinationNodeName : option pb_Kubernetes -> string := getter pk_DestinationNodeName "".
Definition Kubernetes_GetDestinationNodeUid : option pb_Kubernetes -> string := getter pk_DestinationNodeUid "".
Definition Kubernetes_GetDestinationClusterIp : option pb_Kubernetes -> string := getter pk_DestinationClusterIp "".
Definition Kubernetes_GetDestinationServicePort : option pb_Kubernetes -> Z := getter pk_DestinationServicePort 0.
Definition Kubernetes_GetDestinationServicePortName : option pb_Kubernetes -> string := getter pk_DestinationServicePortName "".
Definition Kubernetes_GetDestinationServiceUid : option pb_Kubernetes -> string := getter pk_DestinationServiceUid "".
Definition Kubernetes_GetIngressNetworkPolicyType : option pb_Kubernetes -> Z := getter pk_IngressNetworkPolicyType 0.
Definition Kubernetes_GetIngressNetworkPolicyNamespace : option pb_Kubernetes -> string := getter pk_IngressNetworkPolicyNamespace "".
Definition Kubernetes_GetIngressNetworkPolicyName : option pb_Kubernetes -> string := getter pk_IngressNetworkPolicyName "".
Definition Kubernetes_GetIngressNetworkPolicyUid : option pb_Kubernetes -> string := getter pk_IngressNetworkPolicyUid "".
Definition Kubernetes_GetIngressNetworkPolicyRuleName : option pb_Kubernetes -> string := getter pk_IngressNetworkPolicyRuleName "".
Definition Kubernetes_GetIngressNetworkPolicyRuleAction : option pb_Kubernetes -> Z := getter pk_IngressNetworkPolicyRuleAction 0.
Definition Kubernetes_GetEgressNetworkPolicyType : option pb_Kubernetes -> Z := getter pk_EgressNetworkPolicyType 0.
Definition Kubernetes_GetEgressNetworkPolicyNamespace : option pb_Kubernetes -> string := getter pk_EgressNetworkPolicyNamespace "".
Definition Kubernetes_GetEgressNetworkPolicyName : option pb_Kubernetes -> string := getter pk_EgressNetworkPolicyName "".
Definition Kubernetes_GetEgressNetworkPolicyUid : option pb_Kubernetes -> string := getter pk_EgressNetworkPolicyUid "".
Definition Kubernetes_GetEgressNetworkPolicyRuleName : option pb_Kubernetes -> string := getter pk_EgressNetworkPolicyRuleName "".
Definition Kubernetes_GetEgressNetworkPolicyRuleAction : option pb_Kubernetes -> Z := getter pk_EgressNetworkPolicyRuleAction 0.
Definition Kubernetes_GetEgressName : option pb_Kubernetes -> string := getter pk_EgressName "".
Definition Kubernetes_GetEgressIp : option pb_Kubernetes -> string := getter pk_EgressIp "".
Definition Kubernetes_GetEgressNodeName : option pb_Kubernetes -> string := getter pk_EgressNodeName "".
Definition Kubernetes_GetEgressNodeUid : option pb_Kubernetes -> string := getter pk_EgressNodeUid "".
Definition Kubernetes_GetEgressUid : option pb_Kubernetes -> string := getter pk_EgressUid "".

Definition App_GetProtocolName : option pb_App -> string := getter papp_ProtocolName "".
Definition App_GetHttpVals : option pb_App -> string := getter papp_HttpVals "".

Definition Aggregation_GetEndTsFromSource : option pb_Aggregation -> option (Z * Z) := getter pa_EndTsFromSource None.
Definition Aggregation_GetEndTsFromDestination : option pb_Aggregation -> option (Z * Z) := getter pa_EndTsFromDestination None.
Definition Aggregation_GetStatsFromSource : option pb_Aggregation -> option pb_Stats := getter pa_StatsFromSource None.
Definition Aggregation_GetReverseStatsFromSource : option pb_Aggregation -> option pb_Stats := getter pa_ReverseStatsFromSource None.
Definition Aggregation_GetStatsFromDestination : option pb_Aggregation -> option pb_Stats := getter pa_StatsFromDestination None.
Definition Aggregation_GetReverseStatsFromDestination : option pb_Aggregation -> option pb_Stats := getter pa_ReverseStatsFromDestination None.
Definition Aggregation_GetThroughputFromSource : option pb_Aggregation -> Z := getter pa_ThroughputFromSource 0.
Definition Aggregation_GetReverseThroughputFromSource : option pb_Aggregation -> Z := getter pa_ReverseThroughputFromSource 0.
Definition Aggregation_GetThroughputFromDestination : option pb_Aggregation -> Z := getter pa_ThroughputFromDestination 0.
Definition Aggregation_GetReverseThroughputFromDestination : option pb_Aggregation -> Z := getter pa_ReverseThroughputFromDestination 0.
Definition Aggregation_GetThroughput : option pb_Aggregation -> Z := getter pa_Throughput 0.
Definition Aggregation_GetReverseThroughput : option pb_Aggregation -> Z := getter pa_ReverseThroughput 0.

Definition Flow_GetId : option pb_Flow -> string := getter pf_Id "".
Definition Flow_GetIpfix : option pb_Flow -> option pb_IPFIX := getter pf_Ipfix None.
Definition Flow_GetStartTs : option pb_Flow -> option (Z * Z) := getter pf_StartTs None.
Definition Flow_GetEndTs : option pb_Flow -> option (Z * Z) := getter pf_EndTs None.
Definition Flow_GetEndReason : option pb_Flow -> Z := getter pf_EndReason 0.
Definition Flow_GetIp : option pb_Flow -> option pb_IP := getter pf_Ip None.
Definition Flow_GetTransport : option pb_Flow -> option pb_Transport := getter pf_Transport None.
Definition Flow_GetK8S : option pb_Flow -> option pb_Kubernetes := getter pf_K8S None.
Definition Flow_GetStats : option pb_Flow -> option pb_Stats := getter pf_Stats None.
Definition Flow_GetReverseStats : option pb_Flow -> option pb_Stats := getter pf_ReverseStats None.
Definition Flow_GetApp : option pb_Flow -> option pb_App := getter pf_App None.
Definition Flow_GetFlowDirection : option pb_Flow -> Z := getter pf_FlowDirection 0.
Definition Flow_GetAggregation : option pb_Flow -> option pb_Aggregation := getter pf_Aggregation None.

Definition FlowFilter_GetNamespaces : option pb_FlowFilter -> list string := getter pff_Namespaces [].
Definition FlowFilter_GetPodNames : option pb_FlowFilter -> list string := getter pff_PodNames [].
Definition FlowFilter_GetPodLabelSelector : option pb_FlowFilter -> string := getter pff_PodLabelSelector "".
Definition FlowFilter_GetServiceNames : option pb_FlowFilter -> list string := getter pff_ServiceNames [].
Definition FlowFilter_GetFlowTypes : option pb_FlowFilter -> list Z := getter pff_FlowTypes [].
Definition FlowFilter_GetIps : option pb_FlowFilter -> list string := getter pff_Ips [].
Definition FlowFilter_GetDirection : option pb_FlowFilter -> Z := getter pff_Direction 0.

Definition GetFlowsRequest_GetFilters : option GetFlowsRequest -> list (option pb_FlowFilter) := getter gq_Filters [].
Definition GetFlowsRequest_GetSince : option GetFlowsRequest -> option (Z * Z) := getter gq_Since None.
Definition GetFlowsRequest_GetMaxCount : option GetFlowsRequest -> Z := getter gq_MaxCount 0.
Definition GetFlowsRequest_GetFollow : option GetFlowsRequest -> bool := getter gq_Follow false.

Definition GetFlowsResponse_GetFlows : option GetFlowsResponse -> list (option pb_Flow) := getter gr_Flows [].
Definition GetFlowsResponse_GetDroppedCount : option GetFlowsResponse -> Z := getter gr_DroppedCount 0.

(** ** The tables agree *)

(** [name] and [value] are inverse to each other. *)
Definition tables_inverse (name : gmap Z string) (value : gmap string Z) : bool :=
  bool_decide (map_Forall (fun n s => value !! s = Some n) name) &&
  bool_decide (map_Forall (fun s n => name !! n = Some s) value).

Lemma tables_inverse_spec name value n s :
  tables_inverse name value = true -> name !! n = Some s <-> value !! s = Some n.
Proof.
  unfold tables_inverse. rewrite andb_true_iff, !bool_decide_eq_true. intros [H1 H2]. split; [apply H1|apply H2].
Qed.
