(* ===== verification/Flow.v ===== *)
(** * Flow records ([apis/v1/flow.go], [pkg/handlers/flowstream/grpc.go])

    The JSON records that the program makes of the Flow Aggregator's messages ([Flowpb]), and the
    conversion, which reads the messages through their getters. An enumeration is converted by a
    cast: [api_enums_are_wire_enums] says that the numbers mean the same on both sides. *)
From S2P Require Import Prelude.
From S2P Require Import GoStrings.
From S2P Require Import Base64.
From S2P Require Import Session.
From S2P Require Import SessionStore.
From S2P Require Import RateLimit.
From S2P Require Import Flowpb.

(** *** The enumerations of the API *)

Definition FlowTypeUnspecified : Z := 0.
Definition FlowTypeIntraNode : Z := 1.
Definition FlowTypeInterNode : Z := 2.
Definition FlowTypeToExternal : Z := 3.
Definition FlowTypeFromExternal : Z := 4.

Definition NetworkPolicyTypeUnspecified : Z := 0.
Definition NetworkPolicyTypeK8s : Z := 1.
Definition NetworkPolicyTypeANP : Z := 2.
Definition NetworkPolicyTypeACNP : Z := 3.

Definition NetworkPolicyRuleActionNoAction : Z := 0.
Definition NetworkPolicyRuleActionAllow : Z := 1.
Definition NetworkPolicyRuleActionDrop : Z := 2.
Definition NetworkPolicyRuleActionReject : Z := 3.

Definition IPVersionUnspecified : Z := 0.
Definition IPVersionIPv4 : Z := 4.
Definition IPVersionIPv6 : Z := 6.

Definition FlowEndReasonUnspecified : Z := 0.
Definition FlowEndReasonIdleTimeout : Z := 1.
Definition FlowEndReasonActiveTimeout : Z := 2.
Definition FlowEndReasonEndOfFlow : Z := 3.
Definition FlowEndReasonForcedEnd : Z := 4.
Definition FlowEndReasonLackOfResources : Z := 5.

(** *** The records of the API *)

Record FlowStats := mkFlowStats {
  fs_PacketTotalCount : Z; fs_PacketDeltaCount : Z; fs_OctetTotalCount : Z; fs_OctetDeltaCount : Z;
  fs_Throughput : Z;
}.
Record FlowTransport := mkFlowTransport {
  ft_ProtocolNumber : Z; ft_SourcePort : Z; ft_DestinationPort : Z; ft_TCP : option string;
}.
Record FlowIP := mkFlowIP { fip_Version : Z; fip_Source : string; fip_Destination : string }.

Record FlowKubernetes := mkFlowKubernetes {
  fk_FlowType : Z;
  fk_SourcePodNamespace : string;
  fk_SourcePodName : string;
  fk_SourcePodUid : string;
  fk_SourcePodLabels : gmap string string;
  fk_SourceNodeName : string;
  fk_SourceNodeUid : string;
  fk_DestinationPodNamespace : string;
  fk_DestinationPodName : string;
  fk_DestinationPodUid : string;
  fk_DestinationPodLabels : gmap string string;
  fk_DestinationNodeName : string;
  fk_DestinationNodeUid : string;
  fk_DestinationClusterIp : string;
  fk_DestinationServicePort : Z;
  fk_DestinationServicePortName : string;
  fk_DestinationServiceUid : string;
  fk_IngressNetworkPolicyType : Z;
  fk_IngressNetworkPolicyNamespace : string;
  fk_IngressNetworkPolicyName : string;
  fk_IngressNetworkPolicyUid : string;
  fk_IngressNetworkPolicyRuleName : string;
  fk_IngressNetworkPolicyRuleAction : Z;
  fk_EgressNetworkPolicyType : Z;
  fk_EgressNetworkPolicyNamespace : string;
  fk_EgressNetworkPolicyName : string;
  fk_EgressNetworkPolicyUid : string;
  fk_EgressNetworkPolicyRuleName : string;
  fk_EgressNetworkPolicyRuleAction : Z;
  fk_EgressName : string;
  fk_EgressIp : string;
  fk_EgressNodeName : string;
  fk_EgressNodeUid : string;
  fk_EgressUid : string;
}.

Record Flow := mkFlow {
  f_ID : string;
  f_StartTs : string;
  f_EndTs : string;
  f_EndReason : Z;
  f_IP : FlowIP;
  f_Transport : FlowTransport;
  f_K8s : FlowKubernetes;
  f_Stats : FlowStats;
  f_ReverseStats : FlowStats;
}.

(** The zero values of the nested records. *)
Definition FlowStats_zero : FlowStats := mkFlowStats 0 0 0 0 0.
Definition FlowTransport_zero : FlowTransport := mkFlowTransport 0 0 0 None.
Definition FlowIP_zero : FlowIP := mkFlowIP 0 "" "".
Definition FlowKubernetes_zero : FlowKubernetes :=
  mkFlowKubernetes 0 "" "" "" ∅ "" "" "" "" "" ∅ "" "" "" 0 "" "" 0 "" "" "" "" 0 0 "" "" "" "" 0 "" "" "" "" "".

(** *** The conversion *)

(** What the standard library prints: a time in RFC 3339 with nanoseconds, and the text of a
    16-byte IP address. *)
Class GoText := {
  time_RFC3339Nano : Z * Z -> string;
  netip_String16 : string -> string;
}.

Definition dotted_quad (b : string) : string :=
  match b with
  | String a (String b (String c (String d EmptyString))) =>
      itoa (Z.of_nat (nat_of_ascii a)) +:+ "." +:+ itoa (Z.of_nat (nat_of_ascii b)) +:+ "." +:+
      itoa (Z.of_nat (nat_of_ascii c)) +:+ "." +:+ itoa (Z.of_nat (nat_of_ascii d))
  | _ => ""
  end.

Section Convert.
Context `{GoText}.

(** [netip.AddrFromSlice] takes 4 or 16 bytes. *)
Definition ipBytesToString (b : string) : string :=
  match String.length b with
  | 0%nat => ""
  | 4%nat => dotted_quad b
  | 16%nat => netip_String16 b
  | _ => "<invalid-ip:" +:+ hex_EncodeToString b +:+ ">"
  end.

Definition convert_stats (s : option pb_Stats) (throughput : option Z) : FlowStats :=
  match s with
  | None => FlowStats_zero
  | s => mkFlowStats (Stats_GetPacketTotalCount s) (Stats_GetPacketDeltaCount s) (Stats_GetOctetTotalCount s)
           (Stats_GetOctetDeltaCount s) (default 0 throughput)
  end.

Definition convert_k8s (k : option pb_Kubernetes) : FlowKubernetes := {|
  fk_FlowType := Kubernetes_GetFlowType k;
  fk_SourcePodNamespace := Kubernetes_GetSourcePodNamespace k;
  fk_SourcePodName := Kubernetes_GetSourcePodName k;
  fk_SourcePodUid := Kubernetes_GetSourcePodUid k;
  fk_SourcePodLabels := Labels_GetLabels (Kubernetes_GetSourcePodLabels k);
  fk_SourceNodeName := Kubernetes_GetSourceNodeName k;
  fk_SourceNodeUid := Kubernetes_GetSourceNodeUid k;
  fk_DestinationPodNamespace := Kubernetes_GetDestinationPodNamespace k;
  fk_DestinationPodName := Kubernetes_GetDestinationPodName k;
  fk_DestinationPodUid := Kubernetes_GetDestinationPodUid k;
  fk_DestinationPodLabels := Labels_GetLabels (Kubernetes_GetDestinationPodLabels k);
  fk_DestinationNodeName := Kubernetes_GetDestinationNodeName k;
  fk_DestinationNodeUid := Kubernetes_GetDestinationNodeUid k;
  fk_DestinationClusterIp := ipBytesToString (Kubernetes_GetDestinationClusterIp k);
  fk_DestinationServicePort := Kubernetes_GetDestinationServicePort k;
  fk_DestinationServicePortName := Kubernetes_GetDestinationServicePortName k;
  fk_DestinationServiceUid := Kubernetes_GetDestinationServiceUid k;
  fk_IngressNetworkPolicyType := Kubernetes_GetIngressNetworkPolicyType k;
  fk_IngressNetworkPolicyNamespace := Kubernetes_GetIngressNetworkPolicyNamespace k;
  fk_IngressNetworkPolicyName := Kubernetes_GetIngressNetworkPolicyName k;
  fk_IngressNetworkPolicyUid := Kubernetes_GetIngressNetworkPolicyUid k;
  fk_IngressNetworkPolicyRuleName := Kubernetes_GetIngressNetworkPolicyRuleName k;
  fk_IngressNetworkPolicyRuleAction := Kubernetes_GetIngressNetworkPolicyRuleAction k;
  fk_EgressNetworkPolicyType := Kubernetes_GetEgressNetworkPolicyType k;
  fk_EgressNetworkPolicyNamespace := Kubernetes_GetEgressNetworkPolicyNamespace k;
  fk_EgressNetworkPolicyName := Kubernetes_GetEgressNetworkPolicyName k;
  fk_EgressNetworkPolicyUid := Kubernetes_GetEgressNetworkPolicyUid k;
  fk_EgressNetworkPolicyRuleName := Kubernetes_GetEgressNetworkPolicyRuleName k;
  fk_EgressNetworkPolicyRuleAction := Kubernetes_GetEgressNetworkPolicyRuleAction k;
  fk_EgressName := Kubernetes_GetEgressName k;
  fk_EgressIp := ipBytesToString (Kubernetes_GetEgressIp k);
  fk_EgressNodeName := Kubernetes_GetEgressNodeName k;
  fk_EgressNodeUid := Kubernetes_GetEgressNodeUid k;
  fk_EgressUid := Kubernetes_GetEgressUid k;
|}.

Definition protoFlowToAPI (pb : option pb_Flow) : Flow := {|
  f_ID := Flow_GetId pb;
  f_StartTs := match Flow_GetStartTs pb with Some ts => time_RFC3339Nano ts | None => "" end;
  f_EndTs := match Flow_GetEndTs pb with Some ts => time_RFC3339Nano ts | None => "" end;
  f_EndReason := Flow_GetEndReason pb;
  f_IP := match Flow_GetIp pb with
          | None => FlowIP_zero
          | ip => mkFlowIP (IP_GetVersion ip) (ipBytesToString (IP_GetSource ip)) (ipBytesToString (IP_GetDestination ip))
          end;
  f_Transport := match Flow_GetTransport pb with
                 | None => FlowTransport_zero
                 | t => mkFlowTransport (Transport_GetProtocolNumber t) (Transport_GetSourcePort t)
                          (Transport_GetDestinationPort t)
                          (match Transport_GetTCP t with None => None | tcp => Some (TCP_GetStateName tcp) end)
                 end;
  f_K8s := match Flow_GetK8S pb with None => FlowKubernetes_zero | k => convert_k8s k end;
  f_Stats := convert_stats (Flow_GetStats pb) (pa_Throughput <$> Flow_GetAggregation pb);
  f_ReverseStats := convert_stats (Flow_GetReverseStats pb) (pa_ReverseThroughput <$> Flow_GetAggregation pb);
|}.
End Convert.

(** A nil message and the zero message convert to the zero record. *)
Definition pb_Flow_zero : pb_Flow :=
  mk_pb_Flow "" None None None 0 None None None None None None 0 None.

Example empty_flow `{GoText} :
  protoFlowToAPI None = mkFlow "" "" "" 0 FlowIP_zero FlowTransport_zero FlowKubernetes_zero FlowStats_zero FlowStats_zero /\
  protoFlowToAPI (Some pb_Flow_zero) = protoFlowToAPI None.
Proof. split; reflexivity. Qed.

Example ip_ex `{GoText} :
  ipBytesToString (utf8 [10; 0; 255; 7]%nat) = "10.0.255.7" /\ ipBytesToString "abc" = "<invalid-ip:616263>".
Proof. split; vm_compute; reflexivity. Qed.

(** ** The casts between enumerations *)

(** Each constant of the API is the number that protobuf gives to the constant of that name, and
    the tables protobuf keeps of each enumeration are inverse to each other: casting a number from
    one side to the other, as [protoFlowToAPI] and [filterToGetFlowsRequest] do, keeps its meaning. *)
Theorem api_enums_are_wire_enums :
  (FlowTypeUnspecified, FlowTypeIntraNode, FlowTypeInterNode, FlowTypeToExternal, FlowTypeFromExternal) =
    (FlowType_FLOW_TYPE_UNSPECIFIED, FlowType_FLOW_TYPE_INTRA_NODE, FlowType_FLOW_TYPE_INTER_NODE,
     FlowType_FLOW_TYPE_TO_EXTERNAL, FlowType_FLOW_TYPE_FROM_EXTERNAL) /\
  (NetworkPolicyTypeUnspecified, NetworkPolicyTypeK8s, NetworkPolicyTypeANP, NetworkPolicyTypeACNP) =
    (NetworkPolicyType_NETWORK_POLICY_TYPE_UNSPECIFIED, NetworkPolicyType_NETWORK_POLICY_TYPE_K8S,
     NetworkPolicyType_NETWORK_POLICY_TYPE_ANP, NetworkPolicyType_NETWORK_POLICY_TYPE_ACNP) /\
  (NetworkPolicyRuleActionNoAction, NetworkPolicyRuleActionAllow, NetworkPolicyRuleActionDrop,
   NetworkPolicyRuleActionReject) =
    (NetworkPolicyRuleAction_NETWORK_POLICY_RULE_ACTION_NO_ACTION,
     NetworkPolicyRuleAction_NETWORK_POLICY_RULE_ACTION_ALLOW,
     NetworkPolicyRuleAction_NETWORK_POLICY_RULE_ACTION_DROP,
     NetworkPolicyRuleAction_NETWORK_POLICY_RULE_ACTION_REJECT) /\
  (IPVersionUnspecified, IPVersionIPv4, IPVersionIPv6) =
    (IPVersion_IP_VERSION_UNSPECIFIED, IPVersion_IP_VERSION_4, IPVersion_IP_VERSION_6) /\
  (FlowEndReasonUnspecified, FlowEndReasonIdleTimeout, FlowEndReasonActiveTimeout, FlowEndReasonEndOfFlow,
   FlowEndReasonForcedEnd, FlowEndReasonLackOfResources) =
    (FlowEndReason_FLOW_END_REASON_UNSPECIFIED, FlowEndReason_FLOW_END_REASON_IDLE_TIMEOUT,
     FlowEndReason_FLOW_END_REASON_ACTIVE_TIMEOUT, FlowEndReason_FLOW_END_REASON_END_OF_FLOW,
     FlowEndReason_FLOW_END_REASON_FORCED_END, FlowEndReason_FLOW_END_REASON_LACK_OF_RESOURCES) /\
  forall name value, (name, value) ∈
    [(FlowType_name, FlowType_value); (NetworkPolicyType_name, NetworkPolicyType_value);
     (NetworkPolicyRuleAction_name, NetworkPolicyRuleAction_value); (IPVersion_name, IPVersion_value);
     (FlowEndReason_name, FlowEndReason_value); (FlowDirection_name, FlowDirection_value);
     (FlowFilterDirection_name, FlowFilterDirection_value)] ->
    forall n s, name !! n = Some s <-> value !! s = Some n.
Proof.
  do 5 (split; [reflexivity|]). intros name value Hin n s. apply tables_inverse_spec.
  repeat (apply elem_of_cons in Hin as [[= -> ->]|Hin]; [vm_compute; reflexivity|]). by apply elem_of_nil in Hin.
Qed.
