(* ===== verification/FlowFilter.v ===== *)
(** * The request of a flow stream ([pkg/handlers/flowstream])

    From the query string to the Flow Aggregator: the filter that the endpoint parses, the protobuf
    request made of it, and the call of the generated client that sends it. *)
From S2P Require Import Prelude.
From S2P Require Import GoStrings.
From S2P Require Import Http.
From S2P Require Import Session.
From S2P Require Import Flowpb.
From S2P Require Import Flow.

(** *** Filters ([handler.go], [grpc.go]) *)

Inductive FlowFilterDirection := DirectionBoth | DirectionFrom | DirectionTo.

Record FlowStreamFilter := mkFilter {
  ff_Namespaces : list string;
  ff_PodNames : list string;
  ff_PodLabelSelector : string;
  ff_ServiceNames : list string;
  ff_FlowTypes : list Z;
  ff_IPs : list string;
  ff_Direction : FlowFilterDirection;
}.

Definition splitTrimmed (s : string) : list string :=
  filter (fun t => t <> "") (strings_TrimSpace <$> strings_Split s ",").

Definition flowTypeByName : gmap string Z :=
  {["intra-node" := FlowTypeIntraNode; "inter-node" := FlowTypeInterNode;
    "to-external" := FlowTypeToExternal; "from-external" := FlowTypeFromExternal]}.

Definition parseFlowType (s : string) : result string Z :=
  match flowTypeByName !! strings_ToLower s with
  | Some v => Ok v
  | None => Err ("invalid flowType value " +:+ quote s +:+
      ": expected one of intra-node, inter-node, to-external, from-external")
  end.

(** The loop over the flow types stops at the first that does not parse. *)
Fixpoint parseFlowTypes (l : list string) : result string (list Z) :=
  match l with
  | [] => Ok []
  | p :: l' =>
      match parseFlowType p with
      | Err e => Err e
      | Ok v => match parseFlowTypes l' with Ok vs => Ok (v :: vs) | Err e => Err e end
      end
  end.

Definition split_param (req : Request) (key : string) : list string :=
  let v := Query req key in if decide (v = "") then [] else splitTrimmed v.

Definition parse_direction (dir : string) : FlowFilterDirection :=
  if decide (strings_ToLower dir = "from") then DirectionFrom
  else if decide (strings_ToLower dir = "to") then DirectionTo
  else DirectionBoth.

Definition parseFlowStreamFilter (req : Request) : result string FlowStreamFilter :=
  match parseFlowTypes (split_param req "flowTypes") with
  | Err e => Err e
  | Ok types => Ok (mkFilter (split_param req "namespaces") (split_param req "pods")
      (Query req "podLabelSelector") (split_param req "services") types (split_param req "ips")
      (parse_direction (Query req "direction")))
  end.

Definition filterDirectionToProto (d : FlowFilterDirection) : Z :=
  match d with
  | DirectionBoth => FlowFilterDirection_FLOW_FILTER_DIRECTION_BOTH
  | DirectionFrom => FlowFilterDirection_FLOW_FILTER_DIRECTION_FROM
  | DirectionTo => FlowFilterDirection_FLOW_FILTER_DIRECTION_TO
  end.

Definition filterToGetFlowsRequest (f : FlowStreamFilter) : GetFlowsRequest :=
  mkGetFlowsRequest
    [Some (mk_pb_FlowFilter (ff_Namespaces f) (ff_PodNames f) (ff_PodLabelSelector f) (ff_ServiceNames f)
       (ff_FlowTypes f) (ff_IPs f) (filterDirectionToProto (ff_Direction f)))] None 0 true.

(** ** The call ([NewFlowStreamServiceClient], [GetFlows] of [service_grpc.pb.go]) *)

(** A gRPC connection: opening a stream for a method, sending a message on it, closing the sending
    side; each can fail. *)
Class GrpcConn := {
  grpc_Stream : Type;
  grpc_NewStream : string -> result string grpc_Stream;
  grpc_SendMsg : grpc_Stream -> GetFlowsRequest -> option string;
  grpc_CloseSend : grpc_Stream -> option string;
}.

Definition FlowStreamService_GetFlows_FullMethodName : string :=
  "/antrea_io.antrea.pkg.apis.flow.v1alpha1.FlowStreamService/GetFlows".

Definition GetFlows `{GrpcConn} (in_ : GetFlowsRequest) : result string grpc_Stream :=
  match grpc_NewStream FlowStreamService_GetFlows_FullMethodName with
  | Err e => Err e
  | Ok stream =>
      match grpc_SendMsg stream in_ with
      | Some e => Err e
      | None => match grpc_CloseSend stream with Some e => Err e | None => Ok stream end
      end
  end.

(** ** Properties *)

(** The name protobuf gives to a flow type of the query string. *)
Definition wire_name (p : string) : string :=
  "FLOW_TYPE_" +:+ string_map (fun c =>
    if decide (c = "-"%char) then "_"%char
    else if decide (97 <= nat_of_ascii c <= 122)%nat then ascii_of_nat (nat_of_ascii c - 32) else c) (strings_ToLower p).

Lemma parseFlowType_named p v : parseFlowType p = Ok v -> FlowType_value !! wire_name p = Some v.
Proof.
  assert (T : bool_decide (map_Forall (fun k v => FlowType_value !! wire_name k = Some v /\ strings_ToLower k = k)
                flowTypeByName) = true) by (vm_compute; reflexivity).
  apply bool_decide_eq_true in T. unfold parseFlowType.
  destruct (flowTypeByName !! strings_ToLower p) as [v'|] eqn:E; [|done]. intros [= <-].
  destruct (T _ _ E) as [H1 H2]. unfold wire_name in *. by rewrite H2 in H1.
Qed.

Lemma parseFlowTypes_spec l :
  match parseFlowTypes l with
  | Ok vs => Forall2 (fun p v => parseFlowType p = Ok v) l vs
  | Err e => exists l1 p l2, l = l1 ++ p :: l2 /\ parseFlowType p = Err e /\
      Forall (fun p => exists v, parseFlowType p = Ok v) l1
  end.
Proof.
  induction l as [|p l IH]; cbn [parseFlowTypes]; [constructor|].
  destruct (parseFlowType p) as [v|e] eqn:Ep.
  - destruct (parseFlowTypes l) as [vs|e].
    + by constructor.
    + destruct IH as (l1 & q & l2 & -> & Hq & Hl). exists (p :: l1), q, l2. split; [done|]. split; [done|].
      constructor; [by exists v|done].
  - exists [], p, l. by split_and!; [| |constructor].
Qed.

Lemma elem_of_split_param req key p :
  p ∈ split_param req key <->
  p <> "" /\ exists part, part ∈ strings_Split (Query req key) "," /\ p = strings_TrimSpace part.
Proof.
  unfold split_param, splitTrimmed. case_decide as Hv.
  - rewrite Hv. split; [by intros ?%elem_of_nil|]. intros [Hp (part & Hin & ->)].
    apply list_elem_of_singleton in Hin as ->. by destruct Hp.
  - rewrite list_elem_of_filter, list_elem_of_fmap. naive_solver.
Qed.

(** The Flow Aggregator is asked for exactly what the query string says. A flow type that has
    no name ends the request with an error that quotes the first such one. Otherwise the request
    follows new flows without limit and carries one filter: its namespaces, Pods, Services and
    addresses are the trimmed non-empty parts of their parameters, its flow types are, one by one,
    the values that protobuf's table gives to the names in the query, whatever their case, and its
    direction is that of the parameter, both ways unless it is from or to. *)
Theorem stream_request_faithful (req : Request) :
  match parseFlowStreamFilter req with
  | Err e => exists l1 p l2, split_param req "flowTypes" = l1 ++ p :: l2 /\
      flowTypeByName !! strings_ToLower p = None /\ Forall (fun q => is_Some (flowTypeByName !! strings_ToLower q)) l1 /\
      e = "invalid flowType value " +:+ quote p +:+
            ": expected one of intra-node, inter-node, to-external, from-external"
  | Ok f =>
      let sent := Some (filterToGetFlowsRequest f) in
      GetFlowsRequest_GetFollow sent = true /\ GetFlowsRequest_GetMaxCount sent = 0 /\
      GetFlowsRequest_GetSince sent = None /\
      exists filter, GetFlowsRequest_GetFilters sent = [filter] /\
        (forall p key field, (key, field) ∈
           [("namespaces", FlowFilter_GetNamespaces); ("pods", FlowFilter_GetPodNames);
            ("services", FlowFilter_GetServiceNames); ("ips", FlowFilter_GetIps)] ->
           p ∈ field filter <->
           p <> "" /\ exists part, part ∈ strings_Split (Query req key) "," /\ p = strings_TrimSpace part) /\
        FlowFilter_GetPodLabelSelector filter = Query req "podLabelSelector" /\
        Forall2 (fun p n => FlowType_value !! wire_name p = Some n)
          (split_param req "flowTypes") (FlowFilter_GetFlowTypes filter) /\
        FlowFilterDirection_name !! FlowFilter_GetDirection filter =
          Some (if decide (strings_ToLower (Query req "direction") = "from") then "FLOW_FILTER_DIRECTION_FROM"
                else if decide (strings_ToLower (Query req "direction") = "to") then "FLOW_FILTER_DIRECTION_TO"
                else "FLOW_FILTER_DIRECTION_BOTH")
  end.
Proof.
  unfold parseFlowStreamFilter. pose proof (parseFlowTypes_spec (split_param req "flowTypes")) as T.
  destruct (parseFlowTypes _) as [types|e].
  - cbn zeta. split_and!; [done..|]. eexists. split; [reflexivity|]. split_and!.
    + intros p key field Hin.
      repeat (apply elem_of_cons in Hin as [[= -> ->]|Hin]; [apply elem_of_split_param|]). by apply elem_of_nil in Hin.
    + done.
    + cbn. eapply Forall2_impl; [exact T|]. intros p v. apply parseFlowType_named.
    + cbn. unfold parse_direction. repeat case_decide; reflexivity.
  - destruct T as (l1 & p & l2 & E & Hp & Hl). exists l1, p, l2. split; [done|]. unfold parseFlowType in Hp.
    destruct (flowTypeByName !! strings_ToLower p) eqn:Ep; [done|]. injection Hp as <-. split_and!; [done| |done].
    eapply Forall_impl; [exact Hl|]. intros q [v Hq]. unfold parseFlowType in Hq.
    by destruct (flowTypeByName !! strings_ToLower q).
Qed.
