(* ===== verification/FlowStream.v ===== *)
(** * Flow streaming ([pkg/handlers/flowstream])

    The goroutine of [Subscribe] that reads the Flow Aggregator's stream and fills a channel, and
    the [StreamFlows] loop that empties it into server-sent events. The two run concurrently,
    connected by a buffered channel of events and one of errors: [step] performs one action of
    either, so an interleaving is a sequence of actions. The choice that Go's [select] makes among the ready cases is the choice of action. *)
From S2P Require Import Prelude.
From S2P Require Import GoStrings.
From S2P Require Import Http.
From S2P Require Import Session.
From S2P Require Import SessionContext.
From S2P Require Import Flow.
From S2P Require Import Flowpb.
From S2P Require Import FlowFilter.
From S2P Require Import Steps.

(** *** Events *)

Record FlowStreamEvent := mkEvent { ev_Flows : list Flow; ev_DroppedCount : Z }.

(** What is written to the browser. *)
Inductive sse :=
| Comment (text : string)
| EvDropped (count : Z)
| EvFlow (flows : list Flow)
| EvError (msg : string).

(** The events one [FlowStreamEvent] becomes. Marshalling these records to JSON does not fail. *)
Definition emits (e : FlowStreamEvent) : list sse :=
  (if 0 <? ev_DroppedCount e then [EvDropped (ev_DroppedCount e)] else []) ++
  (if decide (ev_Flows e = []) then [] else [EvFlow (ev_Flows e)]).

(** *** The two loops *)

Inductive recv := RecvOk (r : GetFlowsResponse) | RecvEOF | RecvErr (msg : string).

(** Where the subscriber's goroutine is. *)
Inductive ppc := PStart | PRecv | PSend (e : FlowStreamEvent) | PExit | PCloseErr | PEnd.

Inductive action :=
| Cancel                          (* the request's context is done *)
| Start (err : option string)     (* GetFlows *)
| Recv (r : recv)
| Send | SendDone                 (* the two cases of the goroutine's select *)
| CloseFlows | CloseErrs          (* its deferred calls *)
| OnCall (written : bool)         (* the function given to c.Stream is called the first time *)
| OnDone | OnTick (written : bool) | OnFlow | OnErr. (* the four cases of its select *)

Definition flowsCap : nat := 16.
Definition errsCap : nat := 1.

(** The first thing the goroutine of [Subscribe] does: the call of [GetFlows] for its filter. *)
Definition Subscribe_start `{GrpcConn} (f : FlowStreamFilter) : action :=
  Start (match GetFlows (filterToGetFlowsRequest f) with Ok _ => None | Err e => Some e end).

Section Stream.
(** [W] is what the session check reads and writes. *)
Context {W : Type} `{GoText} (sessionAlive : ST W bool).

Record Sys := mkSys {
  y_world : W;
  y_cancelled : bool;
  y_pc : ppc;
  y_lastDropped : Z;
  y_flows : list FlowStreamEvent;
  y_flowsClosed : bool;
  y_errs : list string;
  y_errsClosed : bool;
  (** The handler's [errCh] is still the channel, not nil. *)
  y_errCh : bool;
  y_preamble : bool;
  y_out : list sse;
  y_stopped : bool;
  (** The responses received, in order; no code reads it. *)
  y_received : list GetFlowsResponse;
}.

Definition sys0 (w : W) : Sys :=
  mkSys w false PStart 0 [] false [] false true false [] false [].

(** The event of a response, given the dropped count already forwarded. *)
Definition response_event (last : Z) (r : GetFlowsResponse) : FlowStreamEvent :=
  mkEvent (protoFlowToAPI <$> gr_Flows r) (if last <? gr_DroppedCount r then gr_DroppedCount r else 0).

Definition worth_sending (e : FlowStreamEvent) : bool :=
  (0 <? ev_DroppedCount e) || negb (bool_decide (ev_Flows e = [])).

Definition set_pc (pc : ppc) (s : Sys) : Sys :=
  mkSys (y_world s) (y_cancelled s) pc (y_lastDropped s) (y_flows s) (y_flowsClosed s) (y_errs s)
    (y_errsClosed s) (y_errCh s) (y_preamble s) (y_out s) (y_stopped s) (y_received s).
Definition set_flows (l : list FlowStreamEvent) (s : Sys) : Sys :=
  mkSys (y_world s) (y_cancelled s) (y_pc s) (y_lastDropped s) l (y_flowsClosed s) (y_errs s)
    (y_errsClosed s) (y_errCh s) (y_preamble s) (y_out s) (y_stopped s) (y_received s).
Definition set_errs (l : list string) (s : Sys) : Sys :=
  mkSys (y_world s) (y_cancelled s) (y_pc s) (y_lastDropped s) (y_flows s) (y_flowsClosed s) l
    (y_errsClosed s) (y_errCh s) (y_preamble s) (y_out s) (y_stopped s) (y_received s).
Definition set_closed_flag (f e : bool) (s : Sys) : Sys :=
  mkSys (y_world s) (y_cancelled s) (y_pc s) (y_lastDropped s) (y_flows s) f (y_errs s)
    e (y_errCh s) (y_preamble s) (y_out s) (y_stopped s) (y_received s).
Definition set_errCh_nil (s : Sys) : Sys :=
  mkSys (y_world s) (y_cancelled s) (y_pc s) (y_lastDropped s) (y_flows s) (y_flowsClosed s) (y_errs s)
    (y_errsClosed s) false (y_preamble s) (y_out s) (y_stopped s) (y_received s).
Definition set_cancelled (s : Sys) : Sys :=
  mkSys (y_world s) true (y_pc s) (y_lastDropped s) (y_flows s) (y_flowsClosed s) (y_errs s)
    (y_errsClosed s) (y_errCh s) (y_preamble s) (y_out s) (y_stopped s) (y_received s).
Definition set_stopped (s : Sys) : Sys :=
  mkSys (y_world s) (y_cancelled s) (y_pc s) (y_lastDropped s) (y_flows s) (y_flowsClosed s) (y_errs s)
    (y_errsClosed s) (y_errCh s) (y_preamble s) (y_out s) true (y_received s).
Definition set_world (w : W) (s : Sys) : Sys :=
  mkSys w (y_cancelled s) (y_pc s) (y_lastDropped s) (y_flows s) (y_flowsClosed s) (y_errs s)
    (y_errsClosed s) (y_errCh s) (y_preamble s) (y_out s) (y_stopped s) (y_received s).
Definition write (l : list sse) (s : Sys) : Sys :=
  mkSys (y_world s) (y_cancelled s) (y_pc s) (y_lastDropped s) (y_flows s) (y_flowsClosed s) (y_errs s)
    (y_errsClosed s) (y_errCh s) (y_preamble s) (y_out s ++ l) (y_stopped s) (y_received s).
Definition receive (r : GetFlowsResponse) (last : Z) (s : Sys) : Sys :=
  mkSys (y_world s) (y_cancelled s) (y_pc s) last (y_flows s) (y_flowsClosed s) (y_errs s)
    (y_errsClosed s) (y_errCh s) (y_preamble s) (y_out s) (y_stopped s) (y_received s ++ [r]).

(** [writePreamble], the first time: a failed write is only logged. *)
Definition writePreamble (written : bool) (s : Sys) : Sys :=
  mkSys (y_world s) (y_cancelled s) (y_pc s) (y_lastDropped s) (y_flows s) (y_flowsClosed s) (y_errs s)
    (y_errsClosed s) (y_errCh s) true (y_out s ++ if written then [Comment "stream-open"] else [])
    (y_stopped s) (y_received s).

(** An error is sent on [errCh], which blocks when it is full. *)
Definition send_err (msg : string) (s : Sys) : option Sys :=
  if (length (y_errs s) <? errsCap)%nat then Some (set_pc PExit (set_errs (y_errs s ++ [msg]) s)) else None.

(** The goroutine of [Subscribe]. *)
Definition producer (a : action) (s : Sys) : option Sys :=
  match a, y_pc s with
  | Start (Some e), PStart => send_err ("failed to start flow stream: " +:+ e) s
  | Start None, PStart => Some (set_pc PRecv s)
  | Recv RecvEOF, PRecv => Some (set_pc PExit s)
  | Recv (RecvErr e), PRecv =>
      if y_cancelled s then Some (set_pc PExit s) else send_err ("flow stream error: " +:+ e) s
  | Recv (RecvOk r), PRecv =>
      let evt := response_event (y_lastDropped s) r in
      let last := if y_lastDropped s <? gr_DroppedCount r then gr_DroppedCount r else y_lastDropped s in
      Some (set_pc (if worth_sending evt then PSend evt else PRecv) (receive r last s))
  | Send, PSend e =>
      if (length (y_flows s) <? flowsCap)%nat then Some (set_pc PRecv (set_flows (y_flows s ++ [e]) s)) else None
  | SendDone, PSend e => if y_cancelled s then Some (set_pc PExit s) else None
  | CloseFlows, PExit => Some (set_pc PCloseErr (set_closed_flag true (y_errsClosed s) s))
  | CloseErrs, PCloseErr => Some (set_pc PEnd (set_closed_flag (y_flowsClosed s) true s))
  | _, _ => None
  end.

(** The function given to [c.Stream], which is called until it answers false: it writes the
    preamble before its first select, so without waiting for an event. *)
Definition consumer (a : action) (s : Sys) : option Sys :=
  if y_stopped s then None
  else if negb (y_preamble s) then
    match a with OnCall written => Some (writePreamble written s) | _ => None end
  else match a with
  | OnDone => if y_cancelled s then Some (set_stopped s) else None
  | OnTick written =>
      let '(alive, w) := sessionAlive (y_world s) in
      let s := set_world w s in
      if negb alive then Some (set_stopped s)
      else if written then Some (write [Comment "keepalive"] s)
      else Some (set_stopped s)
  | OnFlow =>
      match y_flows s with
      | e :: l => Some (write (emits e) (set_flows l s))
      | [] => if y_flowsClosed s then Some (set_stopped s) else None
      end
  | OnErr =>
      if y_errCh s then
        match y_errs s with
        | e :: l => Some (set_stopped (write [EvError e] (set_errs l s)))
        | [] => if y_errsClosed s then Some (set_errCh_nil s) else None
        end
      else None
  | _ => None
  end.

Definition step (a : action) (s : Sys) : option Sys :=
  match a with
  | Cancel => Some (set_cancelled s)
  | OnCall _ | OnDone | OnTick _ | OnFlow | OnErr => consumer a s
  | _ => producer a s
  end.

Definition run : list action -> Sys -> option Sys := run_steps step.

Definition reachable_stream (w : W) (s : Sys) : Prop := exists l, run l (sys0 w) = Some s.

(** *** What the stream delivers *)

Definition is_data (x : sse) : bool := match x with EvDropped _ | EvFlow _ => true | _ => false end.
Definition data (l : list sse) : list sse := filter (fun x => is_data x = true) l.

Definition pending (pc : ppc) : list FlowStreamEvent := match pc with PSend e => [e] | _ => [] end.

Definition next_dropped (last : Z) (r : GetFlowsResponse) : Z :=
  if last <? gr_DroppedCount r then gr_DroppedCount r else last.

(** The specification: the events of the responses, in order. *)
Fixpoint events_of (last : Z) (rs : list GetFlowsResponse) : list FlowStreamEvent :=
  match rs with
  | [] => []
  | r :: rs' => response_event last r :: events_of (next_dropped last r) rs'
  end.

Definition all_emits (l : list FlowStreamEvent) : list sse := l ≫= emits.

Lemma all_emits_app l1 l2 : all_emits (l1 ++ l2) = all_emits l1 ++ all_emits l2.
Proof. apply bind_app. Qed.

Lemma events_of_snoc last rs r :
  events_of last (rs ++ [r]) = events_of last rs ++ [response_event (foldl next_dropped last rs) r].
Proof. revert last. induction rs as [|r' rs IH]; intros last; cbn; [done|]. by rewrite IH. Qed.

#[local] Arguments all_emits : simpl never.
#[local] Arguments data : simpl never.
#[local] Arguments response_event : simpl never.

Lemma data_app l1 l2 : data (l1 ++ l2) = data l1 ++ data l2.
Proof. apply filter_app. Qed.

Lemma data_emits e : data (emits e) = emits e.
Proof. unfold emits. destruct (0 <? _), (decide _); done. Qed.

Lemma worthless_emits e : worth_sending e = false -> emits e = [].
Proof.
  unfold worth_sending, emits. intros [-> Hf%negb_false_iff%bool_decide_eq_true]%orb_false_iff.
  by rewrite Hf, decide_True.
Qed.

Definition finished (pc : ppc) : bool := match pc with PExit | PCloseErr | PEnd => true | _ => false end.

Record stream_inv (s : Sys) : Prop := {
  si_last : y_lastDropped s = foldl next_dropped 0 (y_received s);
  si_cap : (length (y_flows s) <= flowsCap)%nat /\ (length (y_errs s) <= errsCap)%nat;
  (** Only a send given up for a cancelled request loses an event, and it is the last one. *)
  si_data : exists lost,
    data (y_out s) ++ all_emits (y_flows s ++ pending (y_pc s)) ++ lost = all_emits (events_of 0 (y_received s)) /\
    (lost = [] \/ (y_cancelled s = true /\ finished (y_pc s) = true));
  si_error : forall m, EvError m ∈ y_out s -> y_stopped s = true;
}.

Lemma stream_inv_send_err msg s s' :
  stream_inv s -> finished (y_pc s) = false -> pending (y_pc s) = [] ->
  send_err msg s = Some s' -> stream_inv s'.
Proof.
  intros [L [C1 C2] (lost & D & Hl) E] Hf Hp. unfold send_err.
  destruct (Nat.ltb_spec (length (y_errs s)) errsCap) as [Hlt|]; [|done]. intros [= <-].
  split; cbn; [done| |by exists lost; rewrite Hp in D; split; [|destruct Hl as [|[? ?]]; auto]|done].
  split; [done|]. rewrite length_app. cbn. unfold errsCap in *. lia.
Qed.

Lemma producer_inv a s s' : stream_inv s -> producer a s = Some s' -> stream_inv s'.
Proof.
  intros I. pose proof I as [L [C1 C2] (lost & D & Hl) E]. unfold producer.
  destruct a as [|[e|]|[r| |e]| | | | | | | | |]; try done; destruct (y_pc s) as [| |ev| | |] eqn:Hpc; try done.
  - intros Hs. eapply (stream_inv_send_err _ s s'); rewrite ?Hpc; done.
  - intros [= <-]. split; cbn; [done..| |done]. exists lost. split; [done|]. destruct Hl as [|[? ?]]; auto.
  - intros [= <-]. destruct Hl as [->|[? ?]]; [|done].
    split; cbn; [|done| |done].
    + by rewrite foldl_app, L.
    + exists []. split; [|by left]. rewrite events_of_snoc, (all_emits_app (events_of _ _)), <- L, <- D.
      cbn [pending]. rewrite !app_nil_r.
      destruct (worth_sending (response_event (y_lastDropped s) r)) eqn:Hw; cbn [pending].
      * by rewrite all_emits_app, <- (assoc_L (++)).
      * rewrite app_nil_r. unfold all_emits at 3. cbn. by rewrite worthless_emits, !app_nil_r.
  - intros [= <-]. split; cbn; [done..| |done]. exists lost. split; [done|]. destruct Hl as [|[? ?]]; auto.
  - destruct (y_cancelled s) eqn:Hc; intros Hs.
    + injection Hs as <-. split; cbn; [done..| |done]. exists lost. rewrite Hc. split; [done|]. destruct Hl as [|[? ?]]; auto.
    + eapply (stream_inv_send_err _ s s'); rewrite ?Hpc; done.
  - destruct (Nat.ltb_spec (length (y_flows s)) flowsCap) as [Hlt|]; [|done]. intros [= <-].
    split; cbn; [done| | |done].
    + split; [|done]. rewrite length_app. cbn. unfold flowsCap in *. lia.
    + exists lost. cbn [pending] in *. rewrite app_nil_r. split; [done|]. destruct Hl as [|[? ?]]; auto.
  - destruct (y_cancelled s) eqn:Hc; [|done]. intros [= <-]. destruct Hl as [->|[? ?]]; [|done].
    split; cbn; [done..| |done]. exists (all_emits [ev]). rewrite Hc. split; [|by right].
    rewrite app_nil_r, <- all_emits_app. cbn [pending] in D. by rewrite app_nil_r in D.
  - intros [= <-]. split; cbn; [done..| |done]. exists lost. split; [done|]. destruct Hl as [|[? ?]]; auto.
  - intros [= <-]. split; cbn; [done..| |done]. exists lost. split; [done|]. destruct Hl as [|[? ?]]; auto.
Qed.

Lemma writePreamble_inv written s : stream_inv s -> stream_inv (writePreamble written s).
Proof.
  intros [L C (lost & D & Hl) E]. split; cbn; [done|done| |].
  - exists lost. split; [|done]. rewrite data_app. destruct written; by rewrite app_nil_r.
  - intros m [Hm|Hm]%elem_of_app; [by apply (E m)|]. destruct written; [by apply list_elem_of_singleton in Hm|by apply elem_of_nil in Hm].
Qed.

Lemma consumer_inv a s s' : stream_inv s -> consumer a s = Some s' -> stream_inv s'.
Proof.
  intros I. unfold consumer. destruct (y_stopped s) eqn:Hst; [done|]. destruct (y_preamble s); cbn [negb].
  2: { destruct a; try done. intros [= <-]. by apply writePreamble_inv. }
  destruct I as [L [C1 C2] (lost & D & Hl) E].
  destruct a as [| | | | | | | | |written| |]; try done.
  - destruct (y_cancelled s) eqn:Hc; [|done]. intros [= <-].
    split; cbn; [done|done| |done]. exists lost. by rewrite Hc.
  - destruct (sessionAlive (y_world s)) as [[] w]; cbn [negb]; [destruct written|]; intros [= <-];
      (split; cbn; [done|done| |]); try (by exists lost); try done.
    + exists lost. split; [|done]. rewrite data_app. unfold data at 2. cbn. by rewrite app_nil_r.
    + intros m [Hm|Hm]%elem_of_app; [by apply (E m)|]. by apply list_elem_of_singleton in Hm.
  - destruct (y_flows s) as [|e l] eqn:Hf.
    + destruct (y_flowsClosed s); [|done]. intros [= <-].
      split; cbn; rewrite ?Hf; [done|done| |done]. by exists lost.
    + intros [= <-]. split; cbn; [done| | |].
      * split; [|done]. cbn in C1. lia.
      * exists lost. split; [|done]. rewrite data_app, data_emits, <- D.
        change ((e :: l) ++ pending (y_pc s)) with ([e] ++ (l ++ pending (y_pc s))).
        rewrite (all_emits_app [e]). unfold all_emits at 2. cbn. by rewrite app_nil_r, <- !(assoc_L (++)).
      * intros m [Hm|Hm]%elem_of_app; [by apply (E m)|]. unfold emits in Hm.
        destruct (0 <? _), (decide _); set_solver.
  - destruct (y_errCh s); [|done]. destruct (y_errs s) as [|e l] eqn:He.
    + destruct (y_errsClosed s); [|done]. intros [= <-]. split; cbn; rewrite ?He; [done|done| |done]. by exists lost.
    + intros [= <-]. split; cbn; [done|split; [done|cbn in C2; lia]| |done].
      exists lost. split; [|done]. rewrite data_app. unfold data at 2. cbn. by rewrite app_nil_r.
Qed.

Lemma step_inv a s s' : stream_inv s -> step a s = Some s' -> stream_inv s'.
Proof.
  intros I. destruct a; cbn [step]; intros Hs;
    try (by apply (producer_inv _ _ _ I Hs)); try (by apply (consumer_inv _ _ _ I Hs)).
  injection Hs as <-. destruct I as [L C (lost & D & Hl) E]. split; cbn; [done..| |done].
  exists lost. split; [done|]. destruct Hl as [|[? ?]]; auto.
Qed.

Lemma run_inv l s s' : stream_inv s -> run l s = Some s' -> stream_inv s'.
Proof. apply run_steps_inv. intros a s1 s2. apply step_inv. Qed.

Lemma reachable_stream_inv w s : reachable_stream w s -> stream_inv s.
Proof.
  intros [l Hl]. apply (run_inv l (sys0 w)); [|done].
  split; cbn; [done|split; unfold flowsCap, errsCap; lia| |set_solver]. exists []. split; [done|by left].
Qed.

(** *** Dropped counts *)

Definition dropped_of (x : sse) : option Z := match x with EvDropped n => Some n | _ => None end.

Lemma emits_dropped e : omap dropped_of (emits e) = if 0 <? ev_DroppedCount e then [ev_DroppedCount e] else [].
Proof. unfold emits. by destruct (0 <? _), (decide _). Qed.

Lemma events_dropped_sorted last rs :
  0 <= last ->
  StronglySorted Z.lt (omap dropped_of (all_emits (events_of last rs))) /\
  Forall (fun n => last < n) (omap dropped_of (all_emits (events_of last rs))).
Proof.
  revert last. induction rs as [|r rs IH]; intros last Hl; [split; constructor|].
  cbn [events_of]. change (response_event last r :: events_of (next_dropped last r) rs)
    with ([response_event last r] ++ events_of (next_dropped last r) rs).
  rewrite all_emits_app, omap_app. unfold all_emits at 1 3. cbn [mbind list_bind].
  rewrite app_nil_r, emits_dropped. unfold response_event at 1 2 3 4. cbn [ev_DroppedCount].
  unfold next_dropped. destruct (Z.ltb_spec last (gr_DroppedCount r)) as [Hlt|Hge].
  - rewrite (proj2 (Z.ltb_lt 0 _)) by lia. destruct (IH (gr_DroppedCount r) ltac:(lia)) as [S F]. cbn [app].
    split; [by constructor|]. constructor; [done|]. eapply Forall_impl; [exact F|]. cbn. lia.
  - cbn [app Z.ltb Z.compare]. by apply IH.
Qed.

Lemma omap_dropped_data l : omap dropped_of (data l) = omap dropped_of l.
Proof.
  induction l as [|x l IH]; [done|]. unfold data in *. rewrite filter_cons. case_decide as Hx.
  - cbn. destruct (dropped_of x); by rewrite IH.
  - rewrite IH. by destruct x.
Qed.

Lemma StronglySorted_prefix {A} (Q : A -> A -> Prop) (l1 l2 : list A) :
  StronglySorted Q (l1 ++ l2) -> StronglySorted Q l1.
Proof.
  induction l1 as [|x l1 IH]; cbn; intros Hs; [constructor|]. inversion Hs as [|? ? Hs' Hf]; subst.
  constructor; [by apply IH|]. by apply Forall_app in Hf as [? _].
Qed.

(** *** Properties *)

(** C24. However the subscriber, the handler and the client's cancellation interleave, the browser
    is sent a prefix of the events of the responses, in order and each once, nothing is dropped
    while the request lives (what is missing is in the channel or in the goroutine's hand), the
    channels stay within their buffers, the dropped counts that are reported strictly increase,
    and the stream has stopped when an error was sent. *)
Theorem stream_in_order (w : W) (s : Sys) :
  reachable_stream w s ->
  data (y_out s) `prefix_of` all_emits (events_of 0 (y_received s)) /\
  (y_cancelled s = false ->
     data (y_out s) ++ all_emits (y_flows s ++ pending (y_pc s)) = all_emits (events_of 0 (y_received s))) /\
  (length (y_flows s) <= flowsCap)%nat /\ (length (y_errs s) <= errsCap)%nat /\
  StronglySorted Z.lt (omap dropped_of (y_out s)) /\
  (forall m, EvError m ∈ y_out s -> y_stopped s = true).
Proof.
  intros Hr. destruct (reachable_stream_inv w s Hr) as [L [C1 C2] (lost & D & Hl) E].
  assert (Hp : data (y_out s) `prefix_of` all_emits (events_of 0 (y_received s))) by by eexists.
  split_and!; try done.
  - intros Hc. destruct Hl as [->|[Hc' _]]; [by rewrite app_nil_r in D|congruence].
  - rewrite <- omap_dropped_data. destruct Hp as [k Hk].
    apply (StronglySorted_prefix _ _ (omap dropped_of k)). rewrite <- omap_app, <- Hk.
    apply events_dropped_sorted. lia.
Qed.

Lemma stopped_step a s s' : y_stopped s = true -> step a s = Some s' -> y_stopped s' = true /\ y_out s' = y_out s.
Proof.
  intros Hs. destruct a; cbn [step]; unfold consumer; rewrite ?Hs; try done; try (by intros [= <-]);
    unfold producer, send_err; destruct (y_pc s);
    repeat (match goal with |- context [match ?x with _ => _ end] => destruct x end); try done; by intros [= <-].
Qed.

Lemma stopped_run l s s' : y_stopped s = true -> run l s = Some s' -> y_out s' = y_out s.
Proof.
  intros Hs Hr. enough (y_stopped s' = true /\ y_out s' = y_out s) by tauto. revert Hr.
  apply (run_steps_inv step (fun x => y_stopped x = true /\ y_out x = y_out s)); [|done].
  intros a s1 s2 [H1 H2] Hst. destruct (stopped_step a s1 s2 H1 Hst) as [? ->]. done.
Qed.

(** C37. When the aggregator's stream breaks, whether the browser hears of it is a race: from the
    same channels, one interleaving sends the error, another ends the stream without it, because
    the closed channel of events is found first; and an error that is found first discards the
    events still in the channel. *)
Theorem stream_error_race (w : W) (msg : string) (r : GetFlowsResponse) :
  let broken := run [OnCall true; Start None; Recv (RecvErr msg); CloseFlows] (sys0 w) in
  (exists s, (s0 ← broken; step OnErr s0) = Some s /\ y_stopped s = true /\
     EvError ("flow stream error: " +:+ msg) ∈ y_out s) /\
  (exists s, (s0 ← broken; step OnFlow s0) = Some s /\ y_stopped s = true /\
     y_errs s = ["flow stream error: " +:+ msg] /\
     forall l s' m, run l s = Some s' -> EvError m ∉ y_out s') /\
  (worth_sending (response_event 0 r) = true ->
   exists s, run [OnCall true; Start None; Recv (RecvOk r); Send; Recv (RecvErr msg); OnErr] (sys0 w) = Some s /\
     y_stopped s = true /\ y_flows s = [response_event 0 r] /\ data (y_out s) = []).
Proof.
  set (err := "flow stream error: " +:+ msg).
  set (s1 := mkSys w false PCloseErr 0 [] true [err] false true true [Comment "stream-open"] false []).
  assert (Hb : run [OnCall true; Start None; Recv (RecvErr msg); CloseFlows] (sys0 w) = Some s1) by reflexivity.
  cbn zeta. rewrite Hb. cbn [mbind option_bind]. split; [|split].
  - exists (mkSys w false PCloseErr 0 [] true [] false true true [Comment "stream-open"; EvError err] true []).
    split; [reflexivity|]. split; [done|]. cbn [y_out]. right. left.
  - set (s2 := mkSys w false PCloseErr 0 [] true [err] false true true [Comment "stream-open"] true []).
    exists s2. split; [reflexivity|]. split; [done|]. split; [done|]. intros l s' m Hl.
    apply (stopped_run l s2 s' eq_refl) in Hl. rewrite Hl. cbn [s2 y_out].
    by intros Hm%list_elem_of_singleton.
  - intros Hw. set (e := response_event 0 r) in *. set (n := next_dropped 0 r).
    exists (mkSys w false PExit n [e] false [] false true true [Comment "stream-open"; EvError err] true [r]).
    split; [|done].
    assert (H1 : run [OnCall true; Start None; Recv (RecvOk r)] (sys0 w) =
      Some (mkSys w false (PSend e) n [] false [] false true true [Comment "stream-open"] false [r])).
    { cbn [run run_steps step consumer producer sys0 writePreamble y_stopped y_preamble negb y_pc set_pc mbind option_bind y_lastDropped]. fold e. by rewrite Hw. }
    change (run _ (sys0 w)) with
      (s0 ← run [OnCall true; Start None; Recv (RecvOk r)] (sys0 w); run [Send; Recv (RecvErr msg); OnErr] s0).
    rewrite H1. reflexivity.
Qed.
End Stream.

(** [StreamFlows], up to its loop: a bad filter is answered at once, otherwise the headers of
    server-sent events are set and the loop runs from [sys0] with this request's session check. A
    request without an identity is never alive. *)
Definition stream_session_alive `{P : Platform} {S : Store} (ra : option RequestAuth) : ST World bool :=
  match ra with Some ra => KeepAlive ra | None => mret false end.

Definition sse_headers : list (string * string) :=
  [("Content-Type", "text/event-stream"); ("Cache-Control", "no-cache"); ("Connection", "keep-alive");
   ("X-Accel-Buffering", "no")].

Definition StreamFlows {W} (req : Request) : ST (HState W) (option GetFlowsRequest) :=
  match parseFlowStreamFilter req with
  | Err e => emit (JSON StatusBadRequest e);; mret None
  | Ok f =>
      mfor sse_headers (fun h => emit (SetHeader h.1 h.2));;
      mret (Some (filterToGetFlowsRequest f))
  end.

(** C28. A logged-out browser stops receiving flows: against any store that keeps its laws, once
    the session of a stream was deleted, by a logout in another tab or an upstream 401, the next
    tick ends the stream: nothing is written in that step, not even the comment that keeps the
    connection alive, nor after it. *)
Theorem logout_ends_stream `{P : Platform} {S : Store} {L : StoreLaws S} `{GoText} (ra : RequestAuth)
    (o : nat) (sess : Session) (w : World) (s s' : Sys) (written : bool) (l : list action) (s'' : Sys) :
  store_ok w -> ra_session ra = Some o -> w_objs w !! o = Some sess ->
  y_world s = exec (store_Delete (s_id sess)) w ->
  step (stream_session_alive (Some ra)) (OnTick written) s = Some s' ->
  run (stream_session_alive (Some ra)) l s' = Some s'' ->
  y_stopped s' = true /\ y_out s' = y_out s /\ y_out s'' = y_out s.
Proof.
  intros Hok Hr Ho Hw Hs Hl.
  destruct (KeepAlive_deleted ra o sess w Hok Hr Ho) as [Hk _]. rewrite <- Hw in Hk.
  cbn [step] in Hs. unfold consumer in Hs. destruct (y_stopped s); [done|].
  destruct (y_preamble s); [|done]. cbn [negb] in Hs. cbn [stream_session_alive] in Hs. unfold eval in Hk.
  destruct (KeepAlive ra (y_world s)) as [alive w2]. cbn [fst] in Hk. subst alive. cbn [negb] in Hs.
  injection Hs as <-. split; [done|]. split; [done|].
  by apply (stopped_run (stream_session_alive (Some ra)) l) in Hl.
Qed.
