(* ===== verification/FlowStreamEnd.v ===== *)
(** * The end of a flow stream ([pkg/handlers/flowstream])

    A stream runs for hours, so its goroutine must not be left behind, and two goroutines share its
    channels, so none may send on a closed one. Both are shown on the runs of [FlowStream], whatever
    the interleaving and whatever gRPC answers: the goroutine of [Subscribe] never waits for
    anything but the Flow Aggregator, once its request is cancelled. *)
From S2P Require Import Prelude.
From S2P Require Import Steps.
From S2P Require Import Flow.
From S2P Require Import FlowStream.

Section End_.
Context {W : Type} `{GoText} (sessionAlive : ST W bool).
Implicit Types (a : action).

Local Notation Sys := (Sys (W := W)).
Local Notation step := (step sessionAlive).
Local Notation run := (run sessionAlive).

(** The actions of the goroutine of [Subscribe]. *)
Definition goroutine (a : action) : bool :=
  match a with Start _ | Recv _ | Send | SendDone | CloseFlows | CloseErrs => true | _ => false end.

(** Those that do not wait for gRPC. *)
Definition unprompted (a : action) : bool :=
  match a with Send | SendDone | CloseFlows | CloseErrs => true | _ => false end.

Definition goroutine_steps : list action -> nat := total (fun a => if goroutine a then 1%nat else 0%nat).
Definition responses : list action -> nat := total (fun a => match a with Recv (RecvOk _) => 1%nat | _ => 0%nat end).

(** What is left to do, but for further responses. *)
Definition pc_rank (pc : ppc) : nat :=
  match pc with PStart => 4 | PRecv => 3 | PSend _ => 4 | PExit => 2 | PCloseErr => 1 | PEnd => 0 end.

(** The channels, from the goroutine's side: [errCh] has room until the goroutine is done, and each
    channel is closed by the deferred call of its own. *)
Record channels (s : Sys) : Prop := mkChannels {
  ch_errs : finished (y_pc s) = false -> y_errs s = [];
  ch_flows : y_flowsClosed s = true <-> (y_pc s = PCloseErr \/ y_pc s = PEnd);
  ch_closed : y_errsClosed s = true <-> y_pc s = PEnd;
}.

Lemma channels0 w : channels (sys0 w).
Proof. split; cbn; naive_solver. Qed.

Lemma producer_channels a (s s' : Sys) :
  channels s -> producer a s = Some s' ->
  channels s' /\ (1 + pc_rank (y_pc s') <= pc_rank (y_pc s) + 2 * responses [a])%nat.
Proof.
  intros [C1 C2 C3] Hp. unfold producer, send_err in Hp.
  destruct a as [|[e|]|[r| |e]| | | | | | | | |]; try done; destruct (y_pc s) as [| |ev| | |] eqn:Hpc; try done;
    repeat (match type of Hp with context [if ?b then _ else _] => destruct b eqn:? end); try done;
    injection Hp as <-; cbn; (split; [split; cbn; rewrite ?C2, ?C3; try done; naive_solver|]); try lia.
Qed.

(** The handler only ever takes from the channels. *)
Lemma consumer_channels a (s s' : Sys) :
  channels s -> consumer sessionAlive a s = Some s' -> channels s' /\ y_pc s' = y_pc s.
Proof.
  intros [C1 C2 C3] Hs. unfold consumer in Hs. destruct (y_stopped s); [done|].
  destruct (y_preamble s); cbn [negb] in Hs; [|by destruct a; try done; injection Hs as <-].
  destruct a as [| | | | | | | | |b| |]; try done.
  - destruct (y_cancelled s) eqn:?; [|done]. by injection Hs as <-.
  - destruct (sessionAlive _) as [al w']. destruct al, b; cbn in Hs; by injection Hs as <-.
  - destruct (y_flows s) eqn:?; [destruct (y_flowsClosed s) eqn:?; [|done]|]; injection Hs as <-; (split; [split|]); cbn; try done; by rewrite Heqb.
  - destruct (y_errCh s); [|done]. destruct (y_errs s) as [|e l] eqn:Ee.
    + destruct (y_errsClosed s) eqn:Ec; [|done]. by injection Hs as <-; split; [split; cbn; rewrite ?Ee, ?Ec|].
    + injection Hs as <-. split; [|done]. split; cbn; [|done..]. intros Hf. by specialize (C1 Hf).
Qed.

Lemma step_channels a (s s' : Sys) :
  channels s -> step a s = Some s' ->
  channels s' /\ ((if goroutine a then 1 else 0) + pc_rank (y_pc s') <= pc_rank (y_pc s) + 2 * responses [a])%nat.
Proof.
  intros C Hs. destruct a; cbn [FlowStream.step] in Hs;
    try (apply (producer_channels _ s s' C Hs));
    try (apply (consumer_channels _ s s' C) in Hs as [? ->]; split; [done|cbn; lia]).
  injection Hs as <-. destruct C. split; [by split|cbn; lia].
Qed.

Lemma total_double (f : action -> nat) l : total (fun a => (2 * f a)%nat) l = (2 * total f l)%nat.
Proof. induction l as [|a l IH]; cbn [total]; lia. Qed.

Lemma responses_each l : total (fun a => responses [a]) l = responses l.
Proof. unfold responses. induction l as [|a l IH]; cbn [total] in *; [done|]. lia. Qed.

Lemma run_channels l w (s : Sys) :
  run l (sys0 w) = Some s ->
  channels s /\ (goroutine_steps l + pc_rank (y_pc s) <= 4 + 2 * responses l)%nat.
Proof.
  intros Hr. destruct (run_steps_budget step channels (fun s => pc_rank (y_pc s)) (fun a => if goroutine a then 1%nat else 0%nat)
    (fun a => (2 * responses [a])%nat) l (sys0 w) s) as [C Hb]; [|apply channels0|exact Hr|].
  - intros a s1 s2 C Hs. by apply step_channels.
  - split; [done|]. rewrite total_double, responses_each in Hb.
    change (pc_rank (y_pc (sys0 w))) with 4%nat in Hb. done.
Qed.

(** C25. The goroutine of a stream is never left behind, and never panics on a closed channel. In
    every interleaving it takes at most four steps and two for each response of the aggregator; it
    is ready for whatever gRPC answers, since the channel of errors has room when it needs it; once
    the request is cancelled, it waits for nothing but gRPC, so when gRPC answers a cancelled
    stream with an error or its end, the goroutine ends; and each channel is closed by it, once,
    after its last send. *)
Theorem subscriber_ends (l : list action) (w : W) (s : Sys) :
  run l (sys0 w) = Some s ->
  (goroutine_steps l <= 4 + 2 * responses l)%nat /\
  (y_pc s = PStart -> forall err, is_Some (step (Start err) s)) /\
  (y_pc s = PRecv -> forall r, is_Some (step (Recv r) s)) /\
  (y_cancelled s = true -> (forall a, unprompted a = true -> step a s = None) ->
     y_pc s = PStart \/ y_pc s = PRecv \/ y_pc s = PEnd) /\
  (y_flowsClosed s = true -> forall a s', step a s = Some s' -> a <> Send /\ a <> CloseFlows) /\
  (y_errsClosed s = true -> forall a, goroutine a = true -> step a s = None).
Proof.
  intros Hr. destruct (run_channels l w s Hr) as [[C1 C2 C3] Hb]. split_and!.
  - lia.
  - intros Hpc [e|]; cbn; unfold producer; rewrite Hpc; [|by eexists].
    unfold send_err. rewrite C1 by (by rewrite Hpc). by eexists.
  - intros Hpc [r| |e]; cbn; unfold producer; rewrite Hpc; [by eexists..|].
    destruct (y_cancelled s); [by eexists|]. unfold send_err. rewrite C1 by (by rewrite Hpc). by eexists.
  - intros Hc Hnone. destruct (y_pc s) as [| |ev| | |] eqn:Hpc; auto; exfalso.
    + specialize (Hnone SendDone eq_refl). cbn in Hnone. unfold producer in Hnone. by rewrite Hpc, Hc in Hnone.
    + specialize (Hnone CloseFlows eq_refl). cbn in Hnone. unfold producer in Hnone. by rewrite Hpc in Hnone.
    + specialize (Hnone CloseErrs eq_refl). cbn in Hnone. unfold producer in Hnone. by rewrite Hpc in Hnone.
  - intros Hf a s' Hs. apply C2 in Hf. split; intros ->; cbn in Hs; unfold producer in Hs;
      destruct Hf as [Hpc|Hpc]; by rewrite Hpc in Hs.
  - intros Hf a Ha. apply C3 in Hf. destruct a as [|[]|[]| | | | | | | | |]; try done; cbn; unfold producer; by rewrite Hf.
Qed.
End End_.
