(* ===== verification/Access.v ===== *)
(** * Namespace discovery ([pkg/handlers/access/handler.go])

    The resolver that watches RoleBindings: which namespaces a user is bound in, and whether the
    namespace that cluster-scoped rules are evaluated against is still free of bindings. The
    informer is client-go's: its index of objects, the notifications it has yet to deliver, and
    the lister over that index. *)
From S2P Require Import Prelude.
From S2P Require Import GoStrings.

Definition ClusterScopeProbeNamespace : string := "antrea-ui-cluster-scope-probe".

Definition UserKind : string := "User".
Definition GroupKind : string := "Group".
Definition ServiceAccountKind : string := "ServiceAccount".

Record Subject := mkSubject { sub_Kind : string; sub_Name : string; sub_Namespace : string }.

Record RoleBinding := mkRoleBinding {
  rb_Namespace : string; rb_Name : string; rb_Subjects : list Subject;
  rb_ManagedFields : list string; rb_Annotations : gmap string string }.

#[export] Instance Subject_eq_dec : EqDecision Subject.
Proof. solve_decision. Defined.

(** The index of the informer: RoleBindings by namespace and name. *)
Notation index := (gmap (string * string) RoleBinding).
Definition rb_key (rb : RoleBinding) : string * string := (rb_Namespace rb, rb_Name rb).

(** client-go's lister over the index: all objects, and those of a namespace. *)
Class Lister := {
  lister_List : index -> result string (list RoleBinding);
  lister_ListNS : index -> string -> result string (list RoleBinding);
}.

Class ListerLaws (L : Lister) := {
  lister_List_ok : forall i, exists l, lister_List i = Ok l /\ l ≡ₚ (map_to_list i).*2;
  lister_ListNS_ok : forall i ns, exists l, lister_ListNS i ns = Ok l /\
    l ≡ₚ filter (fun rb => rb_Namespace rb = ns) (map_to_list i).*2;
}.

(** What a notification carries: an object, the tombstone of a missed deletion, or neither. *)
Inductive obj := ObjRoleBinding (rb : RoleBinding) | ObjTombstone (o : option RoleBinding) | ObjOther.

(** The transform the informer applies before it indexes and announces an object. *)
Definition trimRoleBinding (rb : RoleBinding) : RoleBinding :=
  mkRoleBinding (rb_Namespace rb) (rb_Name rb) (rb_Subjects rb) [] ∅.

Section Resolver.
Context `{L : Lister} `{R : RangeOrder}.

(** [rs_index] and [rs_queue] belong to the informer; [rs_lister] says that the lister field is
    set, [rs_recheck] that [Run] is still to recheck after the first synchronisation. *)
Record resolver := mkResolver {
  rs_index : index;
  rs_queue : list obj;
  rs_lister : bool;
  rs_synced : bool;
  rs_probeUsable : bool;
  rs_recheck : bool;
  rs_log : list (list string);
}.

Definition NewResolver : resolver := mkResolver ∅ [] false false true false [].

Definition set_index (i : index) (q : list obj) (r : resolver) : resolver :=
  mkResolver i q (rs_lister r) (rs_synced r) (rs_probeUsable r) (rs_recheck r) (rs_log r).
Definition set_probe (u : bool) (log : list (list string)) (r : resolver) : resolver :=
  mkResolver (rs_index r) (rs_queue r) (rs_lister r) (rs_synced r) u (rs_recheck r) log.

(** Logs the offending names, once per loss of the invariant. *)
Definition recheckClusterScopeProbe (r : resolver) : resolver :=
  if negb (rs_lister r) then r
  else match lister_ListNS (rs_index r) ClusterScopeProbeNamespace with
       | Err _ => r
       | Ok rbs =>
           let usable := (length rbs =? 0)%nat in
           set_probe usable
             (if rs_probeUsable r && negb usable then rs_log r ++ [rb_Name <$> rbs] else rs_log r) r
       end.

Definition handleRoleBindingEvent (o : obj) (r : resolver) : resolver :=
  match o with
  | ObjRoleBinding rb | ObjTombstone (Some rb) =>
      if decide (rb_Namespace rb = ClusterScopeProbeNamespace) then recheckClusterScopeProbe r else r
  | ObjTombstone None | ObjOther => r
  end.

Definition ClusterScopeProbeUsable (r : resolver) : bool :=
  if negb (rs_synced r) then true else rs_probeUsable r.

(** [matchesSubject]: the loop over the subjects. *)
Fixpoint matchesSubject (subjects : list Subject) (rbNamespace username : string) (groupSet : gset string) : bool :=
  match subjects with
  | [] => false
  | sub :: rest =>
      let here :=
        if decide (sub_Kind sub = UserKind) then bool_decide (sub_Name sub = username)
        else if decide (sub_Kind sub = GroupKind) then bool_decide (sub_Name sub ∈ groupSet)
        else if decide (sub_Kind sub = ServiceAccountKind) then
          let saNamespace := if decide (sub_Namespace sub = "") then rbNamespace else sub_Namespace sub in
          bool_decide (("system:serviceaccount:" +:+ saNamespace +:+ ":" +:+ sub_Name sub)%string = username)
        else false in
      if here then true else matchesSubject rest rbNamespace username groupSet
  end.

Definition NamespacesFor (username : string) (groups : list string) (r : resolver)
    : result string (list string) :=
  if negb (rs_synced r) || negb (rs_lister r) then Err "RoleBinding cache is not synced"
  else match lister_List (rs_index r) with
       | Err e => Err ("failed to list RoleBindings: " +:+ e)
       | Ok rbs =>
           let groupSet : gset string := list_to_set groups in
           let nsSet : gmap string bool :=
             foldl (fun m rb => if matchesSubject (rb_Subjects rb) (rb_Namespace rb) username groupSet
                                then <[rb_Namespace rb := true]> m else m) ∅ rbs in
           Ok (sort_Strings (range_map nsSet).*1)
       end.

(** ** The informer and [Run] *)

(** One step: the index changes and a notification is queued, the next one is delivered, the first
    synchronisation is noticed, or [Run] rechecks after it. *)
Inductive rs_step : resolver -> resolver -> Prop :=
| rs_upsert r rb : rs_step r (set_index (<[rb_key rb := trimRoleBinding rb]> (rs_index r))
                                (rs_queue r ++ [ObjRoleBinding (trimRoleBinding rb)]) r)
| rs_delete r rb o : rs_index r !! rb_key rb = Some rb ->
    o = ObjRoleBinding rb \/ o = ObjTombstone (Some rb) ->
    rs_step r (set_index (delete (rb_key rb) (rs_index r)) (rs_queue r ++ [o]) r)
| rs_deliver r o q : rs_queue r = o :: q ->
    rs_step r (handleRoleBindingEvent o (set_index (rs_index r) q r))
| rs_sync r : rs_synced r = false ->
    rs_step r (mkResolver (rs_index r) (rs_queue r) true true (rs_probeUsable r) true (rs_log r))
| rs_recheck_step r : rs_recheck r = true ->
    rs_step r (recheckClusterScopeProbe
      (mkResolver (rs_index r) (rs_queue r) (rs_lister r) (rs_synced r) (rs_probeUsable r) false (rs_log r))).

Definition rs_reachable (r : resolver) : Prop := rtc rs_step NewResolver r.

(** ** Specification *)

(** Kubernetes' rule: whom a subject of a RoleBinding in [ns] stands for. *)
Inductive stands_for (ns username : string) (groups : list string) : Subject -> Prop :=
| sf_user : forall n, stands_for ns username groups (mkSubject UserKind username n)
| sf_group : forall g n, g ∈ groups -> stands_for ns username groups (mkSubject GroupKind g n)
| sf_sa : forall n name saNs, saNs = (if decide (n = "") then ns else n) ->
    username = ("system:serviceaccount:" +:+ saNs +:+ ":" +:+ name)%string ->
    stands_for ns username groups (mkSubject ServiceAccountKind name n).

Lemma matchesSubject_spec subjects ns username groups :
  matchesSubject subjects ns username (list_to_set groups) = true <->
  exists s, s ∈ subjects /\ stands_for ns username groups s.
Proof.
  induction subjects as [|s l IH]; cbn [matchesSubject]; [split; [done|intros (? & ? & ?); set_solver]|].
  assert (Hhere : (if decide (sub_Kind s = UserKind) then bool_decide (sub_Name s = username)
    else if decide (sub_Kind s = GroupKind) then bool_decide (sub_Name s ∈ (list_to_set groups : gset string))
    else if decide (sub_Kind s = ServiceAccountKind) then
      bool_decide (("system:serviceaccount:" +:+ (if decide (sub_Namespace s = "") then ns else sub_Namespace s)
        +:+ ":" +:+ sub_Name s)%string = username) else false) = true <-> stands_for ns username groups s).
  { destruct s as [k n sns]. cbn [sub_Kind sub_Name sub_Namespace]. split.
    - case_decide as Hk; [subst|case_decide as Hg; [subst|case_decide as Ha; [subst|done]]];
        rewrite bool_decide_eq_true; rewrite ?elem_of_list_to_set; intros; subst; by econstructor.
    - intros St. inversion St; subst.
      + rewrite decide_True by done. by apply bool_decide_eq_true.
      + rewrite decide_False, decide_True by done. apply bool_decide_eq_true. by apply elem_of_list_to_set.
      + rewrite !decide_False, decide_True by done. by apply bool_decide_eq_true. }
  match goal with |- (if ?b then _ else _) = _ <-> _ => destruct b eqn:Hb end.
  - split; [|done]. intros _. exists s. split; [left|by apply Hhere].
  - rewrite IH. split; intros (x & Hx & Hs); exists x; [split; [by right|done]|].
    apply elem_of_cons in Hx as [->|Hx]; [|done]. apply Hhere in Hs. congruence.
Qed.

(** ** Properties *)

Lemma elem_of_index (i : index) rb : rb ∈ (map_to_list i).*2 <-> exists k, i !! k = Some rb.
Proof.
  rewrite list_elem_of_fmap. split.
  - intros ([k rb'] & -> & Hk%elem_of_map_to_list). by exists k.
  - intros [k Hk]. exists (k, rb). split; [done|]. by apply elem_of_map_to_list.
Qed.

Lemma nsSet_spec username groupSet (rbs : list RoleBinding) (m : gmap string bool) ns :
  is_Some (foldl (fun m rb => if matchesSubject (rb_Subjects rb) (rb_Namespace rb) username groupSet
                              then <[rb_Namespace rb := true]> m else m) m rbs !! ns) <->
  is_Some (m !! ns) \/ exists rb, rb ∈ rbs /\ rb_Namespace rb = ns /\
    matchesSubject (rb_Subjects rb) (rb_Namespace rb) username groupSet = true.
Proof.
  revert m. induction rbs as [|rb rbs IH]; intros m; cbn [foldl]; [set_solver|].
  rewrite IH. destruct (matchesSubject (rb_Subjects rb) (rb_Namespace rb) username groupSet) eqn:Hm.
  - rewrite lookup_insert_is_Some'. set_solver.
  - split; [intros [?|?]; set_solver|]. intros [?|(x & [->|Hx]%elem_of_cons & Hn & Hs)]; [by left|congruence|].
    right. by exists x.
Qed.

(** C26. Namespace discovery is exact: once the cache is synced, the answer lists, in order and each
    once, precisely the namespaces that hold a RoleBinding one of whose subjects stands for the
    user or a group of theirs by Kubernetes' own rule; before that it is an error, never an empty
    list; and the order Go ranges over a map in does not show. *)
Theorem NamespacesFor_exact {LL : ListerLaws L} (username : string) (groups : list string) (r : resolver) :
  (rs_synced r && rs_lister r = false -> exists e, NamespacesFor username groups r = Err e) /\
  (rs_synced r = true -> rs_lister r = true ->
   exists l, NamespacesFor username groups r = Ok l /\ StronglySorted String.le l /\ NoDup l /\
     forall ns, ns ∈ l <-> exists k rb s, rs_index r !! k = Some rb /\ rb_Namespace rb = ns /\
       s ∈ rb_Subjects rb /\ stands_for ns username groups s).
Proof.
  unfold NamespacesFor. split.
  - intros Hs. destruct (rs_synced r), (rs_lister r); try done; by eexists.
  - intros -> ->. cbn [negb orb]. destruct (lister_List_ok (rs_index r)) as (rbs & -> & Hp).
    eexists. split; [done|]. set (m := foldl _ _ _). split; [apply sort_Strings_sorted|].
    split; [rewrite sort_Strings_perm; apply range_NoDup|]. intros ns. rewrite sort_Strings_perm.
    assert (Hr : ns ∈ (range_map m).*1 <-> is_Some (m !! ns)).
    { rewrite list_elem_of_fmap. split.
      - intros ([k v] & -> & Hk%elem_of_range). by eexists.
      - intros [v Hv]. exists (ns, v). split; [done|]. by apply elem_of_range. }
    rewrite Hr. unfold m. rewrite nsSet_spec, lookup_empty. split.
    + intros [[? ?]|(rb & Hrb & Hn & (s & Hs & St)%matchesSubject_spec)]; [done|].
      rewrite Hp in Hrb. apply elem_of_index in Hrb as [k Hk]. exists k, rb, s. by rewrite <- Hn.
    + intros (k & rb & s & Hk & Hn & Hs & St). right. exists rb. split_and!; [|done|].
      * rewrite Hp. apply elem_of_index. by exists k.
      * apply matchesSubject_spec. exists s. by rewrite Hn.
Qed.

Definition probe_free (i : index) : Prop := forall k rb, i !! k = Some rb -> rb_Namespace rb <> ClusterScopeProbeNamespace.

Definition about_probe (o : obj) : Prop :=
  match o with ObjRoleBinding rb | ObjTombstone (Some rb) => rb_Namespace rb = ClusterScopeProbeNamespace | _ => False end.

Record probe_inv (r : resolver) : Prop := {
  pi_lister : rs_synced r = rs_lister r;
  pi_keys : forall k rb, rs_index r !! k = Some rb -> k = rb_key rb;
  pi_probe : rs_synced r = true -> rs_recheck r = false -> (forall o, o ∈ rs_queue r -> ~ about_probe o) ->
    (rs_probeUsable r = true <-> probe_free (rs_index r));
}.

Lemma recheck_probe {LL : ListerLaws L} r :
  rs_lister r = true ->
  (rs_probeUsable (recheckClusterScopeProbe r) = true <-> probe_free (rs_index r)) /\
  rs_index (recheckClusterScopeProbe r) = rs_index r /\ rs_queue (recheckClusterScopeProbe r) = rs_queue r /\
  rs_synced (recheckClusterScopeProbe r) = rs_synced r /\ rs_lister (recheckClusterScopeProbe r) = rs_lister r.
Proof.
  intros Hl. unfold recheckClusterScopeProbe. rewrite Hl. cbn [negb].
  destruct (lister_ListNS_ok (rs_index r) ClusterScopeProbeNamespace) as (l & -> & Hp).
  cbn [set_probe rs_probeUsable rs_index rs_queue rs_synced rs_lister]. split; [|done].
  rewrite Nat.eqb_eq, Hp. split.
  - intros Hn%nil_length_inv k rb Hk Hns.
    assert (rb ∈ filter (fun rb => rb_Namespace rb = ClusterScopeProbeNamespace) (map_to_list (rs_index r)).*2) as Hin.
    { apply list_elem_of_filter. split; [done|]. apply elem_of_index. by exists k. }
    rewrite Hn in Hin. set_solver.
  - intros Hf. destruct (filter _ _) as [|rb l'] eqn:E; [done|].
    assert (rb ∈ filter (fun rb => rb_Namespace rb = ClusterScopeProbeNamespace) (map_to_list (rs_index r)).*2) as Hin
      by (rewrite E; left).
    apply list_elem_of_filter in Hin as [Hns [k Hk]%elem_of_index]. by destruct (Hf k rb Hk).
Qed.

Lemma probe_free_insert (i : index) rb :
  (forall k rb, i !! k = Some rb -> k = rb_key rb) -> rb_Namespace rb <> ClusterScopeProbeNamespace ->
  probe_free (<[rb_key rb := trimRoleBinding rb]> i) <-> probe_free i.
Proof.
  intros Hk Hne. unfold probe_free. split; intros Hf k rb' Hl.
  - destruct (decide (k = rb_key rb)) as [->|Hd].
    + pose proof (Hk _ _ Hl) as Hkk. unfold rb_key in Hkk. injection Hkk as Hn _. congruence.
    + apply (Hf k). by rewrite lookup_insert_ne.
  - apply lookup_insert_Some in Hl as [[<- <-]|[_ Hl]]; [done|by apply (Hf k)].
Qed.

Lemma probe_free_delete (i : index) rb :
  i !! rb_key rb = Some rb -> rb_Namespace rb <> ClusterScopeProbeNamespace ->
  probe_free (delete (rb_key rb) i) <-> probe_free i.
Proof.
  intros Hi Hne. unfold probe_free. split; intros Hf k rb' Hl.
  - destruct (decide (k = rb_key rb)) as [->|Hd]; [congruence|]. apply (Hf k). by rewrite lookup_delete_ne.
  - apply lookup_delete_Some in Hl as [_ Hl]. by apply (Hf k).
Qed.

Lemma probe_inv_step {LL : ListerLaws L} r r' : probe_inv r -> rs_step r r' -> probe_inv r'.
Proof.
  intros [Hl Hk Hp] St. inversion St as [? rb|? rb o Hi Ho|? o q Hq|? Hs|? Hr]; subst.
  - split; cbn; [done| |].
    + intros k rb' [[<- <-]|[_ Hx]]%lookup_insert_Some; [done|by apply Hk].
    + intros H1 H2 Hq. rewrite probe_free_insert; [|done|].
      * apply Hp; [done..|]. intros o Ho. apply Hq, elem_of_app. by left.
      * intros E. apply (Hq (ObjRoleBinding (trimRoleBinding rb))); [|done]. apply elem_of_app. right. left.
  - split; cbn; [done| |].
    + intros k rb' [_ Hx]%lookup_delete_Some. by apply Hk.
    + intros H1 H2 Hq. rewrite probe_free_delete; [|done|].
      * apply Hp; [done..|]. intros o' Ho'. apply Hq, elem_of_app. by left.
      * intros E. apply (Hq o); [apply elem_of_app; right; left|]. by destruct Ho as [->| ->].
  - set (r1 := set_index (rs_index r) q r).
    assert (Hcase : handleRoleBindingEvent o r1 = recheckClusterScopeProbe r1 \/
                    (handleRoleBindingEvent o r1 = r1 /\ ~ about_probe o)).
    { destruct o as [rb|[rb|]|]; cbn; try (by right; split; auto); case_decide; auto. }
    destruct Hcase as [->|[-> Hna]].
    + destruct (rs_lister r) eqn:El.
      * destruct (recheck_probe r1 El) as (E1 & E2 & E3 & E4 & E5).
        split; rewrite ?E2, ?E4, ?E5; [cbn; congruence|apply Hk|done].
      * unfold recheckClusterScopeProbe. cbn [r1 set_index rs_lister]. rewrite El. cbn [negb].
        split; cbn; [congruence|done|congruence].
    + split; cbn; [done|done|]. intros H1 H2 Hn. apply Hp; [done..|]. rewrite Hq.
      intros o' [->|Ho]%elem_of_cons; [done|by apply Hn].
  - by split.
  - set (r1 := mkResolver _ _ _ _ _ _ _). destruct (rs_lister r) eqn:El.
    + destruct (recheck_probe r1 eq_refl) as (E1 & E2 & E3 & E4 & E5).
      split; rewrite ?E2, ?E4, ?E5; [done|apply Hk|done].
    + unfold recheckClusterScopeProbe, r1. cbn [rs_lister negb].
      split; cbn; [done|done|congruence].
Qed.

(** The cluster-scope probe does not miss a binding: in every state the watch can reach, once
    the cache is synced, [Run] has rechecked, and no notification about the probe namespace is
    still to be delivered, the probe is reported usable exactly when that namespace holds no
    RoleBinding; until the cache is synced it is reported usable. *)
Theorem probe_consistent {LL : ListerLaws L} (r : resolver) :
  rs_reachable r ->
  (rs_synced r = false -> ClusterScopeProbeUsable r = true) /\
  (rs_synced r = true -> rs_recheck r = false -> (forall o, o ∈ rs_queue r -> ~ about_probe o) ->
   (ClusterScopeProbeUsable r = true <-> probe_free (rs_index r))).
Proof.
  intros Hr. assert (I : probe_inv r).
  { assert (I0 : probe_inv NewResolver) by (split; cbn; [done|set_solver|done]).
    unfold rs_reachable in Hr. induction Hr; [done|]. apply IHHr. by eapply probe_inv_step. }
  unfold ClusterScopeProbeUsable. split; [by intros ->|].
  intros Hs H1 H2. rewrite Hs. cbn [negb]. by apply (pi_probe r I).
Qed.
End Resolver.

Module AccessDemo.

#[local] Instance demo_lister : Lister := {|
  lister_List i := Ok (map_to_list i).*2;
  lister_ListNS i ns := Ok (filter (fun rb => rb_Namespace rb = ns) (map_to_list i).*2);
|}.

#[local] Instance demo_lister_laws : ListerLaws demo_lister.
Proof. split; intros; eexists; (split; [reflexivity|done]). Qed.

#[local] Instance demo_range : RangeOrder := range_default.

(** A binding appears in the probe namespace after the first synchronisation. *)
Definition rogue : RoleBinding := mkRoleBinding ClusterScopeProbeNamespace "rogue" [] [] ∅.
Definition r_synced : resolver :=
  recheckClusterScopeProbe (mkResolver ∅ [] true true true false []).
Definition r_rogue : resolver :=
  set_index (<[rb_key rogue := trimRoleBinding rogue]> (rs_index r_synced))
    (rs_queue r_synced ++ [ObjRoleBinding (trimRoleBinding rogue)]) r_synced.
Definition r_seen : resolver :=
  handleRoleBindingEvent (ObjRoleBinding (trimRoleBinding rogue)) (set_index (rs_index r_rogue) [] r_rogue).

Lemma probe_consistent_witness : ClusterScopeProbeUsable r_seen = true <-> probe_free (rs_index r_seen).
Proof.
  apply (probe_consistent r_seen).
  - eapply rtc_l; [apply (rs_sync NewResolver); reflexivity|].
    eapply rtc_l; [apply rs_recheck_step; reflexivity|].
    eapply rtc_l; [apply (rs_upsert r_synced rogue)|].
    eapply rtc_l; [apply (rs_deliver r_rogue (ObjRoleBinding (trimRoleBinding rogue)) []); reflexivity|].
    apply rtc_refl.
  - reflexivity.
  - reflexivity.
  - intros o Ho. apply elem_of_nil in Ho as [].
Defined.

Example rogue_reported : ClusterScopeProbeUsable r_seen = false /\ rs_log r_seen = [["rogue"]].
Proof. vm_compute. split; reflexivity. Qed.
End AccessDemo.
