(* ===== verification/Plugins.v ===== *)
(** * Frontend plugins ([pkg/plugins/registry.go], [pkg/server/api/plugins.go])

    The registry of plugin bundles found in ConfigMaps, kept by the informer's notifications, and
    the two routes that serve it. *)
From S2P Require Import Prelude.
From S2P Require Import GoStrings.
From S2P Require Import Http.

Definition manifestFileName : string := "manifest.json".

Record PluginManifest := mkManifest { pm_Name : string; pm_Version : string; pm_Entry : string }.

#[export] Instance PluginManifest_eq_dec : EqDecision PluginManifest.
Proof. solve_decision. Defined.

Record pluginEntry := mkEntry { pe_manifest : PluginManifest; pe_files : gmap string string }.

Record ConfigMap := mkConfigMap {
  cm_Name : string; cm_Data : gmap string string; cm_BinaryData : gmap string string }.

(** What a notification carries. *)
Inductive cm_obj := ObjConfigMap (cm : ConfigMap) | ObjTombstone (cm : option ConfigMap) | ObjOther.

Section Plugins.
(** [json.Unmarshal] of a manifest, whose missing fields are empty; the order Go ranges over maps. *)
Context (json_manifest : string -> result string PluginManifest) `{R : RangeOrder}.

(** [Registry.plugins]: entries by the name of their ConfigMap. *)
Local Notation Registry := (gmap string pluginEntry).

Definition asConfigMap (o : cm_obj) : option ConfigMap :=
  match o with ObjConfigMap cm => Some cm | ObjTombstone cm => cm | ObjOther => None end.

Definition copy_files (m : gmap string string) (files : gmap string string) : gmap string string :=
  foldl (fun files kv => <[kv.1 := kv.2]> files) files (range_map m).

Definition parsePluginConfigMap (cm : ConfigMap) : result string pluginEntry :=
  let files := copy_files (cm_BinaryData cm) (copy_files (cm_Data cm) ∅) in
  match files !! manifestFileName with
  | None => Err ("missing " +:+ manifestFileName)
  | Some manifestData =>
      match json_manifest manifestData with
      | Err e => Err ("invalid " +:+ manifestFileName +:+ ": " +:+ e)
      | Ok manifest =>
          if decide (pm_Name manifest = "") then Err "manifest is missing 'name'"
          else if decide (pm_Entry manifest = "") then Err "manifest is missing 'entry'"
          else match files !! pm_Entry manifest with
               | None => Err ("entry file " +:+ quote (pm_Entry manifest) +:+ " referenced by manifest not found in ConfigMap")
               | Some _ => Ok (mkEntry manifest files)
               end
      end
  end.

(** An invalid ConfigMap is skipped: what the registry had under its name stays. *)
Definition handleUpsert (o : cm_obj) (r : Registry) : Registry :=
  match asConfigMap o with
  | None => r
  | Some cm =>
      match parsePluginConfigMap cm with
      | Err _ => r
      | Ok entry => <[cm_Name cm := entry]> r
      end
  end.

Definition handleDelete (o : cm_obj) (r : Registry) : Registry :=
  match asConfigMap o with None => r | Some cm => delete (cm_Name cm) r end.

Definition sortedConfigMapNames (r : Registry) : list string := sort_Strings (range_map r).*1.

(** The zero entry a map lookup answers for a missing key; the names looked up are the map's own. *)
Definition pluginEntry_zero : pluginEntry := mkEntry (mkManifest "" "" "") ∅.
Definition entry_at (r : Registry) (cmName : string) : pluginEntry := default pluginEntry_zero (r !! cmName).

Fixpoint index_loop (r : Registry) (names : list string) (seen : gmap string string) : list PluginManifest :=
  match names with
  | [] => []
  | cmName :: rest =>
      let m := pe_manifest (entry_at r cmName) in
      match seen !! pm_Name m with
      | Some _ => index_loop r rest seen
      | None => m :: index_loop r rest (<[pm_Name m := cmName]> seen)
      end
  end.

Definition Index (r : Registry) : list PluginManifest := index_loop r (sortedConfigMapNames r) ∅.

Fixpoint file_loop (r : Registry) (names : list string) (pluginName filename : string) : option string :=
  match names with
  | [] => None
  | cmName :: rest =>
      let entry := entry_at r cmName in
      if decide (pm_Name (pe_manifest entry) <> pluginName) then file_loop r rest pluginName filename
      else pe_files entry !! filename
  end.

Definition File (r : Registry) (pluginName filename : string) : option string :=
  file_loop r (sortedConfigMapNames r) pluginName filename.

(** ** The registry's life *)

Inductive cm_event := Upsert (o : cm_obj) | Delete_event (o : cm_obj).

Definition handle_event (r : Registry) (e : cm_event) : Registry :=
  match e with Upsert o => handleUpsert o r | Delete_event o => handleDelete o r end.

Definition registry_after (evs : list cm_event) : Registry := foldl handle_event ∅ evs.

(** A plugin can be imported: it has a name, and its entry file is there. *)
Definition importable (e : pluginEntry) : Prop :=
  pm_Name (pe_manifest e) <> "" /\ is_Some (pe_files e !! pm_Entry (pe_manifest e)).

Lemma parse_importable cm e : parsePluginConfigMap cm = Ok e -> importable e.
Proof.
  unfold parsePluginConfigMap. destruct (_ !! manifestFileName) as [d|]; [|done].
  destruct (json_manifest d) as [m|]; [|done]. do 2 (case_decide; [done|]).
  destruct (_ !! pm_Entry m) eqn:E; [|done]. intros [= <-]. split; cbn; [done|]. by rewrite E.
Qed.

Lemma registry_importable evs cm e : registry_after evs !! cm = Some e -> importable e.
Proof.
  unfold registry_after.
  assert (Hg : forall r, (forall cm e, r !! cm = Some e -> importable e) ->
    forall cm e, foldl handle_event r evs !! cm = Some e -> importable e).
  { induction evs as [|[o|o] evs IH]; cbn [foldl]; [done|..]; intros r Hr; apply IH; intros cm' e';
      cbn [handle_event]; unfold handleUpsert, handleDelete; destruct (asConfigMap o) as [c|]; try apply Hr.
    - destruct (parsePluginConfigMap c) as [ent|] eqn:Hp; [|apply Hr].
      intros [[_ <-]|[_ Hx]]%lookup_insert_Some; [by apply (parse_importable c)|by apply (Hr cm')].
    - intros [_ Hx]%lookup_delete_Some. by apply (Hr cm'). }
  apply Hg. intros ? ?. by rewrite lookup_empty.
Qed.

(** ** Lookup by plugin name *)

Lemma elem_of_names r cm : cm ∈ sortedConfigMapNames r <-> is_Some (r !! cm).
Proof.
  unfold sortedConfigMapNames. rewrite sort_Strings_perm, list_elem_of_fmap. split.
  - intros ([k v] & -> & Hk%elem_of_range). by eexists.
  - intros [v Hv]. exists (cm, v). split; [done|]. by apply elem_of_range.
Qed.

Lemma names_NoDup r : NoDup (sortedConfigMapNames r).
Proof. unfold sortedConfigMapNames. rewrite sort_Strings_perm. apply range_NoDup. Qed.

Definition name_at (r : Registry) (cm : string) : string := pm_Name (pe_manifest (entry_at r cm)).

(** The first ConfigMap of a list that carries a plugin name. *)
Definition first_with (r : Registry) (names : list string) (p cm : string) : Prop :=
  exists l1 l2, names = l1 ++ cm :: l2 /\ name_at r cm = p /\ Forall (fun c => name_at r c <> p) l1.

Lemma index_loop_spec r names seen m :
  m ∈ index_loop r names seen <->
  seen !! pm_Name m = None /\ exists cm, first_with r names (pm_Name m) cm /\ pe_manifest (entry_at r cm) = m.
Proof.
  revert seen. induction names as [|c names IH]; intros seen; cbn [index_loop].
  { split; [by intros Hm%elem_of_nil|]. intros (_ & cm & (l1 & l2 & E & _) & _). by destruct l1. }
  set (mc := pe_manifest (entry_at r c)).
  assert (Hskip : forall cm, name_at r c <> pm_Name m ->
    first_with r (c :: names) (pm_Name m) cm <-> first_with r names (pm_Name m) cm).
  { intros cm Hne. split.
    - intros ([|x l1] & l2 & E & Hn & Hf); [injection E as -> ->; congruence|]. injection E as <- ->.
      apply Forall_cons in Hf as [_ Hf]. by exists l1, l2.
    - intros (l1 & l2 & -> & Hn & Hf). exists (c :: l1), l2. split_and!; [done|done|by constructor]. }
  assert (Hhead : forall cm, name_at r c = pm_Name m -> first_with r (c :: names) (pm_Name m) cm -> cm = c).
  { intros cm He ([|x l1] & l2 & E & Hn & Hf); [by injection E|]. injection E as <- _.
    by apply Forall_cons in Hf as [? _]. }
  destruct (seen !! pm_Name mc) as [o|] eqn:Hs.
  - rewrite IH. split; intros [Hm (cm & Hf & He)]; (split; [done|]); exists cm; (split; [|done]);
      (destruct (decide (name_at r c = pm_Name m)) as [E|E]; [unfold name_at in E; fold mc in E; congruence|]);
      by apply Hskip.
  - rewrite elem_of_cons, IH. split.
    + intros [->|[Hm (cm & Hf & He)]].
      * split; [done|]. exists c. split; [|done]. exists [], names. split_and!; [done|done|constructor].
      * apply lookup_insert_None in Hm as [Hm Hne]. split; [done|]. exists cm. split; [|done]. by apply Hskip.
    + intros [Hm (cm & Hf & He)]. destruct (decide (name_at r c = pm_Name m)) as [E|E].
      * left. apply (Hhead cm) in E; [|done]. by subst cm.
      * right. split; [by apply lookup_insert_None|]. exists cm. split; [|done]. by apply Hskip.
Qed.

Lemma file_loop_first r names p f cm : first_with r names p cm -> file_loop r names p f = pe_files (entry_at r cm) !! f.
Proof.
  intros (l1 & l2 & -> & Hn & Hf). induction Hf as [|c l1 Hc Hf IH]; cbn [app file_loop].
  - by rewrite decide_False by (intros Hx; by apply Hx).
  - by rewrite decide_True by done.
Qed.

Lemma first_with_exists r names p c : c ∈ names -> name_at r c = p -> exists cm, first_with r names p cm.
Proof.
  induction names as [|x names IH]; [by intros Hc%elem_of_nil|]. intros Hc Hn.
  destruct (decide (name_at r x = p)) as [E|E].
  - exists x, [], names. split_and!; [done|done|constructor].
  - apply elem_of_cons in Hc as [->|Hc]; [done|].
    destruct (IH Hc Hn) as (cm & l1 & l2 & -> & Hcm & Hf). exists cm, (x :: l1), l2. split_and!; [done|done|by constructor].
Qed.

Lemma file_loop_none r names p f : (forall c, c ∈ names -> name_at r c <> p) -> file_loop r names p f = None.
Proof.
  induction names as [|c names IH]; intros Hn; [done|]. cbn [file_loop].
  rewrite decide_True by (apply Hn; left). apply IH. intros c' Hc. apply Hn. by right.
Qed.

Lemma first_with_least r p cm c :
  first_with r (sortedConfigMapNames r) p cm -> is_Some (r !! c) -> name_at r c = p -> String.le cm c.
Proof.
  intros (l1 & l2 & E & Hn & Hf) Hc Hp. apply elem_of_names in Hc.
  pose proof (sort_Strings_sorted (range_map r).*1) as S. fold (sortedConfigMapNames r) in S. rewrite E in Hc, S.
  apply elem_of_app in Hc as [Hc|Hc]; [rewrite Forall_forall in Hf; by destruct (Hf c Hc)|].
  apply elem_of_cons in Hc as [->|Hc]; [done|].
  apply StronglySorted_app in S as (_ & _ & S). inversion S as [|? ? _ Hall]; subst.
  rewrite Forall_forall in Hall. by apply Hall.
Qed.

Lemma index_loop_NoDup r names seen : NoDup (pm_Name <$> index_loop r names seen).
Proof.
  revert seen. induction names as [|c names IH]; intros seen; cbn [index_loop]; [constructor|].
  destruct (seen !! _) eqn:Hs; [apply IH|]. cbn [fmap list_fmap]. constructor; [|apply IH].
  intros (m & Hm & Hin)%list_elem_of_fmap. apply index_loop_spec in Hin as [Hn _].
  rewrite <- Hm, lookup_insert_eq in Hn. done.
Qed.

(** C33. The index and the files agree, whatever ConfigMaps came and went: no plugin name is listed
    twice, every known plugin's name is listed, each listed plugin is the one whose ConfigMap sorts
    first, its files are exactly that ConfigMap's, its entry module among them, and a name that is
    not listed serves nothing. *)
Theorem Index_File_agree (evs : list cm_event) :
  let r := registry_after evs in
  NoDup (pm_Name <$> Index r) /\
  (forall cm e, r !! cm = Some e -> pm_Name (pe_manifest e) ∈ pm_Name <$> Index r) /\
  (forall m, m ∈ Index r -> exists cm e, r !! cm = Some e /\ pe_manifest e = m /\
     (forall cm' e', r !! cm' = Some e' -> pm_Name (pe_manifest e') = pm_Name m -> String.le cm cm') /\
     (forall f, File r (pm_Name m) f = pe_files e !! f) /\
     is_Some (File r (pm_Name m) (pm_Entry m))) /\
  (forall p f, p ∉ pm_Name <$> Index r -> File r p f = None).
Proof.
  intros r.
  assert (Hlisted : forall c p, is_Some (r !! c) -> name_at r c = p -> p ∈ pm_Name <$> Index r).
  { intros c p Hc Hn. apply elem_of_names in Hc.
    destruct (first_with_exists r _ p c Hc Hn) as (cm & Hf). pose proof Hf as (_ & _ & _ & Hnm & _).
    apply list_elem_of_fmap. exists (pe_manifest (entry_at r cm)). split; [done|].
    apply index_loop_spec. split; [apply lookup_empty|]. exists cm. split; [|done].
    unfold name_at in Hnm. by rewrite Hnm. }
  split_and!.
  - apply index_loop_NoDup.
  - intros cm e Hc. apply (Hlisted cm); [by eexists|]. unfold name_at, entry_at. by rewrite Hc.
  - intros m Hm. apply index_loop_spec in Hm as [_ (cm & Hf & He)].
    assert (Hcm : cm ∈ sortedConfigMapNames r).
    { destruct Hf as (l1 & l2 & -> & _). apply elem_of_app. right. left. }
    apply elem_of_names in Hcm as [e Hcm]. exists cm, e.
    assert (Hea : entry_at r cm = e) by (unfold entry_at; by rewrite Hcm).
    split_and!; [done|by rewrite <- Hea| | |].
    + intros cm' e' Hc' Hn'. apply (first_with_least r (pm_Name m)); [done|by eexists|].
      unfold name_at, entry_at. by rewrite Hc'.
    + intros f. unfold File. by rewrite (file_loop_first r _ _ f cm Hf), Hea.
    + unfold File. rewrite (file_loop_first r _ _ _ cm Hf), Hea.
      destruct (registry_importable evs cm e Hcm) as [_ Hi]. rewrite Hea in He. by rewrite He in Hi.
  - intros p f Hp. apply file_loop_none. intros c Hc Hn. apply Hp, (Hlisted c); [|done]. by apply elem_of_names.
Qed.

(** ** The routes ([api/plugins.go]) *)

(** [path.Ext]: from the last dot of the last path element. *)
Definition path_Ext (p : string) : string :=
  let base := match cut_last p "/" with Some (_, b) => b | None => p end in
  match cut_last base "." with Some (_, e) => String "." e | None => "" end.

Definition pluginFileContentType (filename : string) : string :=
  let ext := path_Ext filename in
  if decide (ext = ".js") then "application/javascript"
  else if decide (ext = ".mjs") then "application/javascript"
  else if decide (ext = ".json") then "application/json"
  else "application/octet-stream".

Definition isGzip (data : string) : bool :=
  match data with
  | String a (String b _) => bool_decide (a = byte 31) && bool_decide (b = byte 139)
  | _ => false
  end.

Definition GetPluginsIndex (json : list PluginManifest -> string) : ST (HState Registry) unit :=
  emit (SetHeader "Cache-Control" "no-store");;
  index ← lift (gets Index);
  emit (JSON StatusOK (json index)).

(** [name] and [filepath] are the parameters of the route. *)
Definition GetPluginFile (name filepath : string) : ST (HState Registry) unit :=
  let filename := strings_TrimPrefix filepath "/" in
  data ← lift (gets (fun r => File r name filename));
  match data with
  | None => emit (Status StatusNotFound)
  | Some data =>
      emit (SetHeader "Cache-Control" "no-store");;
      (if isGzip data then emit (SetHeader "Content-Encoding" "gzip") else mret tt);;
      emit (Data StatusOK (pluginFileContentType filename) data)
  end.
End Plugins.

Example ext_ex : pluginFileContentType "dist/main.min.mjs" = "application/javascript" /\ path_Ext "a.b/c" = "".
Proof. vm_compute. split; reflexivity. Qed.
