(* ===== verification/PluginsConc.v ===== *)
(** * The plugin registry under load ([pkg/plugins/registry.go])

    The informer changes the registry while requests read it. [handleUpsert] and [handleDelete] hold
    the registry's lock for their one assignment; [Index] and [File] hold it for reading while they
    go through the names, one entry after the other. *)
From S2P Require Import Prelude.
From S2P Require Import Steps.
From S2P Require Import GoStrings.
From S2P Require Import Http.
From S2P Require Import Critical.
From S2P Require Import Plugins.

Section Registry.
Context (json_manifest : string -> result string PluginManifest) `{R : RangeOrder}.
Local Notation Registry := (gmap string pluginEntry).

Inductive answer := Manifests (l : list PluginManifest) | Contents (data : option string) | Handled.

(** The loop of [Index], the names being those of the registry when it began. *)
Fixpoint Index_from (names : list string) (seen : gmap string string) (manifests : list PluginManifest)
    : crit Registry answer :=
  match names with
  | [] => Return (Manifests manifests)
  | cmName :: rest =>
      Step (fun r =>
        let m := pe_manifest (entry_at r cmName) in
        (match seen !! pm_Name m with
         | Some _ => Index_from rest seen manifests
         | None => Index_from rest (<[pm_Name m := cmName]> seen) (manifests ++ [m])
         end, r))
  end.
Definition Index_section : crit Registry answer := Step (fun r => (Index_from (sortedConfigMapNames r) ∅ [], r)).

Fixpoint File_from (names : list string) (pluginName filename : string) : crit Registry answer :=
  match names with
  | [] => Return (Contents None)
  | cmName :: rest =>
      Step (fun r =>
        let entry := entry_at r cmName in
        (if decide (pm_Name (pe_manifest entry) <> pluginName) then File_from rest pluginName filename
         else Return (Contents (pe_files entry !! filename)), r))
  end.
Definition File_section (pluginName filename : string) : crit Registry answer :=
  Step (fun r => (File_from (sortedConfigMapNames r) pluginName filename, r)).

(** A notification: what it carries is parsed before the lock is taken, which [handle_event] does too. *)
Definition event_section (e : cm_event) : crit Registry answer :=
  Step (fun r => (Return Handled, handle_event json_manifest r e)).

Inductive request := GetIndex | GetFile (pluginName filename : string) | Notify (e : cm_event).

Definition section_of (r : request) : mode * crit Registry answer :=
  match r with
  | GetIndex => (RLock, Index_section)
  | GetFile p f => (RLock, File_section p f)
  | Notify e => (Lock, event_section e)
  end.

Lemma Index_from_run names seen manifests r :
  run_crit (Index_from names seen manifests) r = (Manifests (manifests ++ index_loop r names seen), r) /\
  read_only (Index_from names seen manifests).
Proof.
  revert seen manifests; induction names as [|c names IH]; intros seen manifests; cbn; [by rewrite app_nil_r|].
  split; [|intros r'; split; [done|]; destruct (seen !! _); apply IH].
  destruct (seen !! _); [apply IH|]. destruct (IH (<[pm_Name (pe_manifest (entry_at r c)) := c]> seen)
    (manifests ++ [pe_manifest (entry_at r c)])) as [-> _]. by rewrite <- (assoc_L (++)).
Qed.

Lemma File_from_run names p f r :
  run_crit (File_from names p f) r = (Contents (file_loop r names p f), r) /\ read_only (File_from names p f).
Proof.
  induction names as [|c names IH]; cbn; [done|]. split; [case_decide; [apply IH|done]|].
  intros r'. split; [done|]. case_decide; [apply IH|done].
Qed.

(** Each section, run in one piece, is the method of [Plugins]. *)
Lemma section_run q r :
  run_crit (section_of q).2 r =
    match q with
    | GetIndex => (Manifests (Index r), r)
    | GetFile p f => (Contents (File r p f), r)
    | Notify e => (Handled, handle_event json_manifest r e)
    end.
Proof.
  destruct q as [|p f|e]; cbn; [|apply File_from_run|done].
  by destruct (Index_from_run (sortedConfigMapNames r) ∅ [] r) as [-> _].
Qed.

Lemma section_reads q : (section_of q).1 = RLock -> read_only (section_of q).2.
Proof.
  destruct q as [|p f|e]; [..|done]; intros _ r; (split; [done|]); [apply Index_from_run|apply File_from_run]; exact r.
Qed.

(** The notifications among the requests of an order, each with the goroutine that brought it. *)
Definition notified (o : list (nat * request)) : list (nat * cm_event) :=
  omap (fun nr => match nr.2 with Notify e => Some (nr.1, e) | _ => None end) o.

Lemma elem_of_notified n e o : (n, e) ∈ notified o <-> (n, Notify e) ∈ o.
Proof.
  unfold notified. rewrite list_elem_of_omap. split; [|by exists (n, Notify e)].
  intros ([m q] & Hin & Hq). cbn in Hq. destruct q; try done. by injection Hq as -> ->.
Qed.

Lemma notified_nodup o : NoDup o.*1 -> NoDup (notified o).*1.
Proof.
  induction o as [|[n q] o IH]; cbn; [done|]. intros [Hn Ho]%NoDup_cons. destruct q as [|p f|e]; cbn; auto.
  apply NoDup_cons. split; [|by auto]. intros ([m e'] & -> & Hin)%list_elem_of_fmap. apply Hn. cbn.
  apply elem_of_notified in Hin. apply list_elem_of_fmap. by exists (m, Notify e').
Qed.

Lemma state_after_notified o r : state_after section_of o r = foldl (handle_event json_manifest) r (notified o).*2.
Proof.
  revert r; induction o as [|[n q] o IH]; intros r; [done|]. unfold state_after in *. cbn [foldl snd].
  rewrite section_run, IH. by destruct q.
Qed.

Lemma notified_take k o q n :
  o !! k = Some (n, q) ->
  notified (take k o) = take (length (notified (take k o))) (notified o) /\
  match q with Notify e => notified o !! length (notified (take k o)) = Some (n, e) | _ => True end.
Proof.
  intros Hk. assert (E : notified o = notified (take k o) ++ notified (drop k o)).
  { unfold notified. by rewrite <- omap_app, take_drop. }
  rewrite E. split; [by rewrite take_app_length|]. rewrite (drop_S _ _ _ Hk). destruct q; [done..|].
  by rewrite lookup_app_r, Nat.sub_diag by done.
Qed.

(** C32. Requests for plugins that arrive while ConfigMaps come and go see a registry that was. In
    every interleaving of the loops of [Index] and [File] with the notifications, there is an order
    of the run's own notifications, each of them at most once and every one that was handled among
    them, such that every index and every file served is the one of the registry after some first
    part of them, never a mixture of two; a request that starts after a notification was handled
    sees it, and when nobody holds the lock the registry is what the notifications make of it. *)
Theorem registry_linearizable (l1 l2 : list event) (x1 x2 : sys) :
  of_methods section_of (l1 ++ l2) -> fine l1 (mkSys ∅ ∅) = Some x1 -> fine l2 x1 = Some x2 ->
  exists us1 us2, let us := us1 ++ us2 in NoDup us.*1 /\
    (forall n e, (n, e) ∈ us1 -> (n, method section_of (Notify e)) ∈ spawned l1) /\
    (forall n e, (n, e) ∈ us -> (n, method section_of (Notify e)) ∈ spawned (l1 ++ l2)) /\
    (forall n, answered n Handled x1 -> n ∈ us1.*1) /\
    (forall n a, answered n a x2 -> exists q k, (n, method section_of q) ∈ spawned (l1 ++ l2) /\
       (k <= length us)%nat /\ (sy_threads x1 !! n = None -> (length us1 <= k)%nat) /\
       let r := registry_after json_manifest (take k us.*2) in
       match q with
       | GetIndex => a = Manifests (Index r)
       | GetFile p f => a = Contents (File r p f)
       | Notify e => a = Handled /\ us !! k = Some (n, e)
       end) /\
    (quiet x2 -> sy_state x2 = registry_after json_manifest us.*2).
Proof.
  intros Hl H1 H2. destruct (methods_linearizable section_of section_reads l1 l2 ∅ x1 x2 Hl H1 H2)
    as (o1 & o2 & Hnd & Hstart & Hsp1 & Hsp & Hfirst & Hall & Hq). cbn zeta in *. set (o := o1 ++ o2) in *.
  assert (E : notified o1 ++ notified o2 = notified o) by (unfold notified, o; by rewrite omap_app).
  exists (notified o1), (notified o2). rewrite E. split_and!.
  - by apply notified_nodup.
  - intros n e Hin%elem_of_notified. by apply Hsp1.
  - intros n e Hin%elem_of_notified. by apply Hsp.
  - intros n Ha. destruct (Hfirst n Handled Ha) as (q & k & _ & Hk & Ha'). rewrite section_run in Ha'.
    destruct q as [|p f|e]; [done..|]. apply list_elem_of_fmap. exists (n, e). split; [done|].
    apply elem_of_notified. by eapply list_elem_of_lookup_2.
  - intros n a Ha. destruct (Hall n a Ha) as (q & k & Hin & Hk & ->). exists q, (length (notified (take k o))).
    split; [done|]. destruct (notified_take k o q n Hk) as [Ht Hn]. split_and!.
    + rewrite Ht, length_take. lia.
    + intros Hnew. assert (length o1 <= k)%nat as Hle.
      { destruct (decide (k < length o1)%nat) as [Hlt|]; [|lia]. unfold o in Hk. rewrite lookup_app_l in Hk by done.
        destruct (Hstart n) as [t Hx]; [|congruence]. apply list_elem_of_fmap. exists (n, q). split; [done|].
        by eapply list_elem_of_lookup_2. }
      unfold o, notified. rewrite take_app_ge, omap_app, length_app by done. lia.
    + cbn zeta. rewrite section_run, state_after_notified, <- fmap_take, <- Ht. by destruct q.
  - intros Hqu. by rewrite (Hq Hqu), state_after_notified.
Qed.
End Registry.

Module PluginsConcDemo.
Definition demo_manifest (s : string) : result string PluginManifest := Ok (mkManifest s "1.0" "main.js").
Definition demo_map (cm plugin : string) : ConfigMap :=
  mkConfigMap cm {["manifest.json" := plugin; "main.js" := "export default " +:+ plugin]} ∅.

#[local] Instance demo_range : RangeOrder := range_default.

(** Two plugins come; the index is read while a third waits to be added. *)
Definition demo_l1 : list event :=
  let go n := [Enter n; Act n; Leave n] in
  let start n q := Spawn n (method (section_of demo_manifest) q) in
  [start 0%nat (Notify (Upsert (ObjConfigMap (demo_map "b" "flows")))); start 1%nat (Notify (Upsert (ObjConfigMap (demo_map "a" "map"))))]
    ++ go 0%nat ++ go 1%nat.
Definition demo_l2 : list event :=
  let start n q := Spawn n (method (section_of demo_manifest) q) in
  [start 2%nat GetIndex; start 3%nat (Notify (Upsert (ObjConfigMap (demo_map "c" "new")))); Enter 2; Act 2; Act 2; Act 2; Leave 2;
   Enter 3; Act 3; Leave 3]%nat.

Definition demo_x1 := default (mkSys ∅ ∅) (fine demo_l1 (mkSys ∅ ∅)).
Definition demo_x2 := default demo_x1 (fine demo_l2 demo_x1).

Lemma registry_linearizable_witness :
  let served := Manifests [mkManifest "map" "1.0" "main.js"; mkManifest "flows" "1.0" "main.js"] in
  answered 2 served demo_x2 /\
  exists us k, served = Manifests (Index (registry_after demo_manifest (take k us.*2))) /\
    NoDup us.*1 /\ forall n e, (n, e) ∈ us -> (n, method (section_of demo_manifest) (Notify e)) ∈ spawned (demo_l1 ++ demo_l2).
Proof.
  assert (E1 : match fine demo_l1 (mkSys ∅ ∅) with Some _ => true | None => false end = true) by (vm_compute; reflexivity).
  assert (H1 : fine demo_l1 (mkSys ∅ ∅) = Some demo_x1) by (unfold demo_x1; by destruct (fine _ _)).
  assert (E2 : match fine demo_l2 demo_x1 with Some _ => true | None => false end = true) by (vm_compute; reflexivity).
  assert (H2 : fine demo_l2 demo_x1 = Some demo_x2) by (unfold demo_x2; by destruct (fine _ _)).
  assert (Ho : of_methods (section_of demo_manifest) (demo_l1 ++ demo_l2)) by (repeat constructor; by eexists).
  intros served. assert (Ha : answered 2 served demo_x2) by (vm_compute; reflexivity). split; [exact Ha|].
  destruct (registry_linearizable demo_manifest demo_l1 demo_l2 demo_x1 demo_x2 Ho H1 H2)
    as (us1 & us2 & Hnd & _ & Hsp & _ & Hall & _).
  destruct (Hall 2%nat served Ha) as (q & k & _ & _ & _ & Hq). exists (us1 ++ us2), k.
  split; [|split; [exact Hnd|exact Hsp]]. destruct q as [|p f|e]; [exact Hq|discriminate Hq|destruct Hq as [Hq _]; discriminate Hq].
Defined.
End PluginsConcDemo.
