(* ===== verification/Config.v ===== *)
(** * Configuration ([pkg/config/server/config.go], [cmd/server/main.go], [pkg/server/server.go])

    The parsed configuration, its validation and defaults, and what the program makes of it at
    startup: the options of the session store, the log level, the TLS settings of the Flow
    Aggregator's client, the settings of the HTTP server and of the frontend. *)
From S2P Require Import Prelude.
From S2P Require Import GoStrings.
From S2P Require Import GoUrl.
From S2P Require Import Http.
From S2P Require Import Lru.
From S2P Require Import RateLimit.
From S2P Require Import Session.
From S2P Require Import SessionStore.
From S2P Require Import SessionInv.
From S2P Require Import K8sCred.
From S2P Require Import Authn.
From S2P Require Import Oidc.
From S2P Require Import Auth.

Definition DefaultMaxLoginsPerSecond : Z := 1.
Definition DefaultMaxTraceflowsPerHour : Z := 100.
Definition DefaultSessionIdleTimeout : duration := 30 * Minute.
Definition DefaultSessionMaxLifetime : duration := 12 * Hour.
Definition DefaultMaxSessions_config : Z := 1000.
Definition DefaultMaxSessionsPerUser_config : Z := 10.

Record FlowAggregatorConfig := mkFlowAggregatorConfig {
  fa_Enabled : bool; fa_Address : string; fa_CAConfigMap : string; fa_Namespace : string;
  fa_ServerName : string; fa_InsecureSkipVerify : bool }.

Record OIDCConfig := mkOIDCConfig {
  oc_Enabled : bool; oc_ProviderName : string; oc_ClientID : string; oc_ClientSecret : string;
  oc_IssuerURL : string; oc_DiscoveryURL : string; oc_LogoutURL : string; oc_Scopes : list string }.

Record AuthConfig := mkAuthConfig {
  au_Basic : bool; au_OIDC : OIDCConfig; au_Kubeconfig : bool; au_ServiceAccountToken : bool;
  au_BearerToken : bool; au_CookieSecure : bool }.

Record PluginsConfig := mkPluginsConfig { pl_LabelSelector : string; pl_Namespace : string }.

(** The session part of the configuration has the fields of the store's [Options]. *)
Record SessionConfig := mkSessionConfig {
  sc_IdleTimeout : duration; sc_MaxLifetime : duration; sc_MaxSessions : Z; sc_MaxSessionsPerUser : Z }.

Record Config := mkConfig_ {
  c_Addr : string;
  c_URL : string;
  c_Auth : AuthConfig;
  c_Session : SessionConfig;
  c_FlowAggregator : FlowAggregatorConfig;
  c_MaxLoginsPerSecond : Z;
  c_MaxTraceflowsPerHour : Z;
  c_LogVerbosity : Z;
  c_AntreaNamespace : string;
  c_Plugins : PluginsConfig;
}.

Definition anyModeEnabled (a : AuthConfig) : bool :=
  au_Basic a || oc_Enabled (au_OIDC a) || au_Kubeconfig a || au_ServiceAccountToken a.

(** [validateConfig]: the first complaint, or [None]. *)
Definition validateConfig (config : Config) : option string :=
  let s := c_Session config in
  if (c_LogVerbosity config <? 0) || (128 <=? c_LogVerbosity config) then
    Some "invalid verbosity level: it should be >= 0 and < 128"
  else if oc_Enabled (au_OIDC (c_Auth config)) && bool_decide (c_URL config = "") then
    Some "URL is required when enabling OIDC authentication"
  else if negb (anyModeEnabled (c_Auth config)) then
    Some "at least one authentication mode must be enabled (auth.basic, auth.oidc, auth.kubeconfig, auth.serviceAccountToken)"
  else if sc_IdleTimeout s <=? 0 then Some "session.idleTimeout must be positive"
  else if sc_MaxLifetime s <=? 0 then Some "session.maxLifetime must be positive"
  else if sc_MaxLifetime s <? sc_IdleTimeout s then Some "session.maxLifetime must be >= session.idleTimeout"
  else if sc_MaxSessions s <=? 0 then Some "session.maxSessions must be positive"
  else if sc_MaxSessionsPerUser s <=? 0 then Some "session.maxSessionsPerUser must be positive"
  else if sc_MaxSessions s <? sc_MaxSessionsPerUser s then Some "session.maxSessionsPerUser must be <= session.maxSessions"
  else None.

(** The defaults [LoadConfig] gives viper; what has none is the zero value. *)
Definition default_config : Config := {|
  c_Addr := ":8080";
  c_URL := "";
  c_Auth := mkAuthConfig true (mkOIDCConfig false "" "" "" "" "" "" ["openid"; "email"; "groups"; "offline_access"])
    false true true true;
  c_Session := mkSessionConfig DefaultSessionIdleTimeout DefaultSessionMaxLifetime DefaultMaxSessions_config
    DefaultMaxSessionsPerUser_config;
  c_FlowAggregator := mkFlowAggregatorConfig false "flow-aggregator.flow-aggregator.svc:14740" "flow-aggregator-ca"
    "flow-aggregator" "" false;
  c_MaxLoginsPerSecond := DefaultMaxLoginsPerSecond;
  c_MaxTraceflowsPerHour := DefaultMaxTraceflowsPerHour;
  c_LogVerbosity := 0;
  c_AntreaNamespace := "kube-system";
  c_Plugins := mkPluginsConfig "ui.antrea.io/plugin=true" "";
|}.

(** The outcome of viper's [ReadInConfig]. *)
Inductive read_config := ReadOk | ReadNotFound | ReadFailed (msg : string).

(** The outcome of parsing the command line, and what [LoadConfig] does: it returns, or it does not,
    because the flag set was made with [ExitOnError] and pflag exits the process. *)
Inductive flag_parse := FlagsParsed | FlagsHelp | FlagsBad (msg : string).
Inductive loaded := Loaded (c : Config) | LoadFailed (msg : string) | LoadExits (code : Z).

(** [LoadConfig], given how parsing the command line and reading the file went and what viper
    unmarshals over its defaults from the flags, the environment and the file: a missing file is
    not an error. *)
Definition LoadConfig (flags : flag_parse) (read : read_config) (unmarshal : Config -> result string Config)
    : loaded :=
  match flags with
  | FlagsHelp => LoadExits 0
  | FlagsBad _ => LoadExits 2
  | FlagsParsed =>
      match read with
      | ReadFailed e => LoadFailed ("error when reading config: " +:+ e)
      | ReadOk | ReadNotFound =>
          match unmarshal default_config with
          | Err e => LoadFailed ("error when unmarshalling config: " +:+ e)
          | Ok config => match validateConfig config with Some e => LoadFailed e | None => Loaded config end
          end
      end
  end.

(** *** What startup makes of it ([main.go]) *)

Definition session_options (c : Config) : Options :=
  let s := c_Session c in
  mkOptions (sc_IdleTimeout s) (sc_MaxLifetime s) (sc_MaxSessions s) (sc_MaxSessionsPerUser s).

(** [zapcore.Level(-1 * int8(verbosity))], in 8 bits. *)
Definition wrap8 (z : Z) : Z := (z + 128) mod 256 - 128.
Definition zap_level (c : Config) : Z := wrap8 (-1 * wrap8 (c_LogVerbosity c)).

Definition plugins_namespace (c : Config) (own : string) : string :=
  if decide (pl_Namespace (c_Plugins c) = "") then own else pl_Namespace (c_Plugins c).

(** The part of [tls.Config] that is set; [tls_RootCAs] is [None] for the system's roots. *)
Record TLSConfig := mkTLSConfig {
  tls_InsecureSkipVerify : bool; tls_RootCAs : option string; tls_ServerName : string }.

(** [buildFlowAggregatorTLSConfig]; [parses] is [AppendCertsFromPEM] on an empty pool. *)
Definition buildFlowAggregatorTLSConfig (parses : string -> bool) (cfg : FlowAggregatorConfig) (caData : string)
    : result string TLSConfig :=
  if fa_InsecureSkipVerify cfg then Ok (mkTLSConfig true None (fa_ServerName cfg))
  else if (0 <? String.length caData)%nat then
    if parses caData then Ok (mkTLSConfig false (Some caData) (fa_ServerName cfg))
    else Err "failed to parse FlowAggregator CA cert"
  else Ok (mkTLSConfig false None (fa_ServerName cfg)).

(** The CA data [run] reads: none without a ConfigMap name, and never an empty certificate. [get]
    is the API server's answer for a namespace and a name. *)
Definition flow_aggregator_ca (get : string -> string -> result string (gmap string string))
    (cfg : FlowAggregatorConfig) : result string string :=
  if decide (fa_CAConfigMap cfg <> "") then
    let ns := if decide (fa_Namespace cfg = "") then "flow-aggregator" else fa_Namespace cfg in
    let at_ := ns +:+ "/" +:+ fa_CAConfigMap cfg in
    match get ns (fa_CAConfigMap cfg) with
    | Err e => Err ("failed to get FlowAggregator CA configmap " +:+ at_ +:+ ": " +:+ e)
    | Ok data =>
        let missing := "FlowAggregator CA configmap " +:+ at_ +:+ " is missing or has empty 'ca.crt' key" in
        match data !! "ca.crt" with
        | None => Err missing
        | Some caCert => if decide (caCert = "") then Err missing else Ok caCert
        end
    end
  else Ok "".

Definition flow_aggregator_tls (parses : string -> bool) (get : string -> string -> result string (gmap string string))
    (cfg : FlowAggregatorConfig) : result string TLSConfig :=
  match flow_aggregator_ca get cfg with
  | Err e => Err e
  | Ok caData => match buildFlowAggregatorTLSConfig parses cfg caData with
                 | Err e => Err ("failed to build TLS config for FlowAggregator: " +:+ e)
                 | Ok t => Ok t
                 end
  end.

(** [NewServer] ([server.go]) and [NewFromServerConfig] ([authn.go]): the settings each part gets. *)
Definition server_config (c : Config) (adminUserName : string) : serverConfig :=
  mkServerConfig (au_Basic (c_Auth c)) (oc_Enabled (au_OIDC (c_Auth c)))
    (negb (bool_decide (oc_LogoutURL (au_OIDC (c_Auth c)) = ""))) (au_Kubeconfig (c_Auth c))
    (au_ServiceAccountToken (c_Auth c)) (au_CookieSecure (c_Auth c)) (c_MaxLoginsPerSecond c) adminUserName.

Definition authn_config (c : Config) (validator devMode : bool) : AuthnConfig :=
  mkAuthnConfig (c_URL c) (au_CookieSecure (c_Auth c)) (au_BearerToken (c_Auth c)) validator devMode.

(** [buildFrontendSettingsFromConfig] ([api/frontend_settings.go]). *)
Record FrontendSettings := mkFrontendSettings {
  fe_Version : string; fe_BasicEnabled : bool; fe_OIDCEnabled : bool; fe_OIDCProviderName : string;
  fe_KubeconfigEnabled : bool; fe_ServiceAccountTokenEnabled : bool; fe_FlowVisibilityEnabled : bool }.

Definition buildFrontendSettingsFromConfig (version : string) (c : Config) : FrontendSettings :=
  mkFrontendSettings version (au_Basic (c_Auth c)) (oc_Enabled (au_OIDC (c_Auth c)))
    (oc_ProviderName (au_OIDC (c_Auth c))) (au_Kubeconfig (c_Auth c)) (au_ServiceAccountToken (c_Auth c))
    (fa_Enabled (c_FlowAggregator c)).

(** ** Properties *)

Lemma validateConfig_None c :
  validateConfig c = None ->
  (0 <= c_LogVerbosity c < 128) /\ (oc_Enabled (au_OIDC (c_Auth c)) = true -> c_URL c <> "") /\
  anyModeEnabled (c_Auth c) = true /\ opts_ok (session_options c) /\
  sc_IdleTimeout (c_Session c) <= sc_MaxLifetime (c_Session c).
Proof.
  unfold validateConfig. intros V.
  repeat (match type of V with (if ?b then _ else _) = _ => destruct b eqn:? end; [done|]).
  repeat (match goal with
          | H : (_ || _)%bool = false |- _ => apply orb_false_iff in H as [? ?]
          | H : negb _ = false |- _ => apply negb_false_iff in H
          | H : (_ <? _) = false |- _ => apply Z.ltb_ge in H
          | H : (_ <=? _) = false |- _ => apply Z.leb_gt in H end).
  split; [lia|]. split.
  { intros Ho E. rewrite Ho, bool_decide_true in * by done. done. }
  split; [done|]. split; [|done]. split; cbn; [done..|]. split; [lia|done].
Qed.

(** A configuration that loads is one the server can run with: the session store takes its
    options as they are, the log level fits its 8 bits, OIDC has the server URL it needs for its
    callback, and at least one route hands out sessions. With no file and no flags, the defaults
    load. *)
Theorem LoadConfig_usable (flags : flag_parse) (read : read_config)
    (unmarshal : Config -> result string Config) (c : Config) :
  LoadConfig flags read unmarshal = Loaded c ->
  opts_ok (session_options c) /\ setDefaults (session_options c) = session_options c /\
  zap_level c = - c_LogVerbosity c /\ -127 <= zap_level c <= 0 /\
  (OIDCAuthEnabled (server_config c "") = true -> c_URL c <> "") /\
  (BasicAuthEnabled (server_config c "") || OIDCAuthEnabled (server_config c "") ||
   KubeconfigAuthEnabled (server_config c "") || SATokenAuthEnabled (server_config c "") = true) /\
  LoadConfig FlagsParsed ReadNotFound Ok = Loaded default_config.
Proof.
  unfold LoadConfig. destruct flags; [|done..]. intros Hl.
  assert (V : validateConfig c = None).
  { destruct read; [..|done]; destruct (unmarshal default_config) as [c'|]; try done;
      destruct (validateConfig c') eqn:E; try done; by injection Hl as <-. }
  apply validateConfig_None in V as (Hv & Hu & Hm & Ho & _). split; [done|].
  assert (Hz : zap_level c = - c_LogVerbosity c).
  { unfold zap_level, wrap8. rewrite (Z.mod_small (c_LogVerbosity c + 128)) by lia.
    rewrite Z.mod_small by lia. lia. }
  split_and!; [|done|lia|lia|exact Hu|exact Hm|vm_compute; reflexivity].
  destruct Ho as [H1 H2 H3 [H4 H5]]. destruct (session_options c) as [i l m p]. cbn in *. unfold setDefaults. cbn.
  rewrite (proj2 (Z.leb_gt i 0)), (proj2 (Z.leb_gt l 0)), (proj2 (Z.leb_gt m 0)), (proj2 (Z.leb_gt p 0)) by done.
  by rewrite (proj2 (Z.ltb_ge m p)).
Qed.

(** The Flow Aggregator's certificate goes unverified only when the configuration says so:
    without that, a connection is checked against the configured CA or, when no ConfigMap is
    named, against the system's roots; it is not skipped in that case. *)
Theorem tls_verified_unless_insecure (parses : string -> bool)
    (get : string -> string -> result string (gmap string string)) (cfg : FlowAggregatorConfig) (t : TLSConfig) :
  flow_aggregator_tls parses get cfg = Ok t ->
  tls_InsecureSkipVerify t = fa_InsecureSkipVerify cfg /\
  (fa_InsecureSkipVerify cfg = false -> fa_CAConfigMap cfg <> "" ->
     exists ca, tls_RootCAs t = Some ca /\ ca <> "" /\ parses ca = true) /\
  (fa_CAConfigMap cfg = "" -> tls_RootCAs t = None).
Proof.
  unfold flow_aggregator_tls, flow_aggregator_ca, buildFlowAggregatorTLSConfig. case_decide as Hn.
  - destruct (get _ _) as [data|]; [|done]. destruct (data !! "ca.crt") as [ca|]; [|done]. case_decide as Hc; [done|].
    destruct (fa_InsecureSkipVerify cfg); [intros [= <-]; by split_and!|].
    destruct (Nat.ltb_spec 0 (String.length ca)) as [Hlt|Hge]; [|by destruct ca; [|cbn in Hge; lia]].
    destruct (parses ca) eqn:Hp; [|done]. intros [= <-]. split_and!; [done| |done]. intros _ _. by exists ca.
  - cbn [String.length Nat.ltb Nat.leb].
    destruct (fa_InsecureSkipVerify cfg); intros [= <-]; by split_and!.
Qed.

Module ConfigDemo.
Lemma LoadConfig_usable_witness : opts_ok (session_options default_config).
Proof. apply (LoadConfig_usable FlagsParsed ReadOk Ok default_config). vm_compute. reflexivity. Defined.

Lemma tls_verified_unless_insecure_witness :
  tls_RootCAs (mkTLSConfig false None "") = None.
Proof.
  apply (tls_verified_unless_insecure (fun _ => true) (fun _ _ => Err "unreachable")
    (mkFlowAggregatorConfig true "fa:14740" "" "" "" false) (mkTLSConfig false None "")); reflexivity.
Defined.
End ConfigDemo.
