(* ===== verification/Traceflow.v ===== *)
(** * Traceflow requests ([pkg/handlers/traceflow/handler.go])

    Creation, lookup and deletion of Traceflow resources on behalf of a user, and the loop that
    deletes the ones that are too old with the admin's client. *)
From S2P Require Import Prelude.
From S2P Require Import GoStrings.
From S2P Require Import Session.
From S2P Require Import K8sCred.

Definition traceflowExpiryTimeout : duration := 60 * Minute.
Definition gcPeriod : duration := 1 * Minute.

(** How the API server refuses a call, as [k8s.io/apimachinery]'s predicates tell it. *)
Inductive api_error :=
| ApiUnauthorized (msg : string) | ApiForbidden (msg : string) | ApiNotFound (msg : string) | ApiOther (msg : string).

Definition err_string (e : api_error) : string :=
  match e with ApiUnauthorized m | ApiForbidden m | ApiNotFound m | ApiOther m => m end.

(** A Traceflow object: its name, its spec as JSON, and its status: absent, present with a phase
    that is not a string, or a phase. *)
Inductive tf_status := NoPhase | BadPhase | Phase (p : string).
Record TraceflowObj := mkTraceflow {
  tf_Name : string; tf_Labels : gmap string string; tf_Spec : option string; tf_Status : tf_status;
  tf_Created : time }.

Definition traceflowLabels : gmap string string := {["ui.antrea.io" := ""]}.

(** The API server's Traceflow resources, through a transport: the i-th call of the server. *)
Class TraceflowAPI `{Platform} := {
  tf_do_Create : nat -> RoundTripper -> TraceflowObj -> option api_error;
  tf_do_Get : nat -> RoundTripper -> string -> result api_error TraceflowObj;
  tf_do_Delete : nat -> RoundTripper -> string -> option api_error;
  tf_do_List : nat -> RoundTripper -> gmap string string -> result api_error (list TraceflowObj);
  uuid_NewString : nat -> string;
}.

Section Traceflow.
Context `{P : Platform} `{T : !TraceflowAPI}.

(** One call of the API server. *)
Definition kube_call {A} (call : nat -> A) : ST KubeState A := fun ks =>
  (call (ks_calls ks), mkKubeState (S (ks_calls ks)) (ks_closed ks)).

(** [CreateRequest]: the id of the request is the name of the object. [spec] is the field of the
    request's JSON, absent when it has none. *)
Definition CreateRequest (client : RoundTripper) (spec : option string) : ST KubeState (result api_error string) :=
  n ← gets ks_calls;
  let requestID := uuid_NewString n in
  e ← kube_call (fun i => tf_do_Create i client (mkTraceflow requestID traceflowLabels spec NoPhase 0));
  mret (match e with Some e => Err e | None => Ok requestID end).

(** [GetRequestResult]: the object and whether it is done. *)
Definition GetRequestResult (client : RoundTripper) (requestID : string)
    : ST KubeState (result api_error (TraceflowObj * bool)) :=
  r ← kube_call (fun i => tf_do_Get i client requestID);
  mret (match r with
        | Err e => Err e
        | Ok tf =>
            match tf_Status tf with
            | BadPhase => Err (ApiOther "status.phase is not a string")
            | NoPhase => Ok (tf, false)
            | Phase p => Ok (tf, bool_decide (p = "Succeeded") || bool_decide (p = "Failed"))
            end
        end).

(** [DeleteRequest]: false when there was nothing to delete. *)
Definition DeleteRequest (client : RoundTripper) (requestID : string) : ST KubeState (result api_error bool) :=
  e ← kube_call (fun i => tf_do_Delete i client requestID);
  mret (match e with
        | Some (ApiNotFound _) => Ok false
        | Some e => Err e
        | None => Ok true
        end).

(** [doGC]: collects the expired names, then deletes them one by one, whatever fails. The names it
    asked to delete are returned. *)
Definition tf_expired (now : time) (tf : TraceflowObj) : bool :=
  traceflowExpiryTimeout <? time_Sub now (tf_Created tf).

Fixpoint gc_delete (gcClient : RoundTripper) (names : list string) : ST KubeState unit :=
  match names with
  | [] => mret tt
  | n :: rest => kube_call (fun i => tf_do_Delete i gcClient n);; gc_delete gcClient rest
  end.

Definition tf_doGC (gcClient : RoundTripper) (now : time) : ST KubeState (list string) :=
  r ← kube_call (fun i => tf_do_List i gcClient traceflowLabels);
  match r with
  | Err _ => mret []
  | Ok items =>
      let expired := foldl (fun l tf => if tf_expired now tf then l ++ [tf_Name tf] else l) [] items in
      gc_delete gcClient expired;;
      mret expired
  end.

Lemma gc_delete_run c names ks :
  gc_delete c names ks = (tt, mkKubeState (ks_calls ks + length names) (ks_closed ks)).
Proof.
  revert ks. induction names as [|n names IH]; intros ks; cbn [gc_delete].
  - destruct ks. unfold mret, ST_ret. by rewrite Nat.add_0_r.
  - rewrite bind_run. unfold kube_call. rewrite IH. cbn. by rewrite Nat.add_succ_r.
Qed.

(** One round deletes, in the order of the list, exactly the objects of this program that are more
    than an hour old, each with one call, after one call to list them; it deletes nothing when
    they cannot be listed. *)
Theorem tf_doGC_deletes (c : RoundTripper) (now : time) (ks : KubeState) :
  match tf_do_List (ks_calls ks) c traceflowLabels with
  | Err _ => eval (tf_doGC c now) ks = [] /\ ks_calls (exec (tf_doGC c now) ks) = S (ks_calls ks)
  | Ok items =>
      eval (tf_doGC c now) ks = tf_Name <$> filter (fun tf => now - tf_Created tf > traceflowExpiryTimeout) items /\
      ks_calls (exec (tf_doGC c now) ks) = (S (ks_calls ks) + length (eval (tf_doGC c now) ks))%nat
  end.
Proof.
  unfold eval, exec, tf_doGC. rewrite bind_run. unfold kube_call.
  destruct (tf_do_List (ks_calls ks) c traceflowLabels) as [items|]; [|done].
  rewrite bind_run, gc_delete_run. cbn [fst snd mret ST_ret ks_calls]. split; [|done].
  assert (Hexp : forall tf, tf_expired now tf = true <-> now - tf_Created tf > traceflowExpiryTimeout).
  { intros tf. unfold tf_expired. rewrite Z.ltb_lt.
    pose proof (time_Sub_le now (tf_Created tf) traceflowExpiryTimeout ltac:(cbv; done)). lia. }
  assert (Hg : forall l, foldl (fun l tf => if tf_expired now tf then l ++ [tf_Name tf] else l) l items =
    l ++ (tf_Name <$> filter (fun tf => now - tf_Created tf > traceflowExpiryTimeout) items)); [|apply (Hg [])].
  induction items as [|tf items IH]; intros l; [by rewrite app_nil_r|]. cbn [foldl]. rewrite IH, filter_cons.
  specialize (Hexp tf). destruct (tf_expired now tf).
  - rewrite decide_True by by apply Hexp. by rewrite <- (assoc_L (++)).
  - rewrite decide_False; [done|]. intros Hx. by apply Hexp in Hx.
Qed.

(** [runGC]: a round of [doGC] at each of the times at which [wait.BackoffUntil] calls it, a
    [gcPeriod] after the last one ended; the names of each round are returned. *)
Fixpoint runGC (gcClient : RoundTripper) (ticks : list time) : ST KubeState (list (list string)) :=
  match ticks with
  | [] => mret []
  | t :: ticks =>
      names ← tf_doGC gcClient t;
      rest ← runGC gcClient ticks;
      mret (names :: rest)
  end.

(** No failure stops the collector: there is a round for every tick, and each one asks to delete
    exactly what its own listing shows as expired, so that an object whose deletion failed, or
    that could not be listed, is tried again a period later. *)
Theorem runGC_retries (c : RoundTripper) (ticks : list time) (ks : KubeState) :
  length (eval (runGC c ticks) ks) = length ticks /\
  forall i t, ticks !! i = Some t -> exists n, (ks_calls ks <= n)%nat /\
    eval (runGC c ticks) ks !! i = Some
      match tf_do_List n c traceflowLabels with
      | Err _ => []
      | Ok items => tf_Name <$> filter (fun tf => t - tf_Created tf > traceflowExpiryTimeout) items
      end.
Proof.
  revert ks. induction ticks as [|t ticks IH]; intros ks; [done|]. unfold eval. cbn [runGC]. rewrite bind_run.
  pose proof (tf_doGC_deletes c t ks) as D. unfold eval, exec in D.
  destruct (tf_doGC c t ks) as [names ks'] eqn:E. cbn [fst snd] in *. rewrite bind_run.
  destruct (IH ks') as [L R]. unfold eval in L, R. destruct (runGC c ticks ks') as [rest ks2]. cbn [fst snd mret ST_ret] in *.
  split; [cbn; by rewrite L|]. intros [|i] u Hu.
  - injection Hu as <-. exists (ks_calls ks). split; [done|]. cbn. destruct (tf_do_List _ _ _) as [items|e]; by destruct D as [-> _].
  - destruct (R i u Hu) as (n & Hn & Hr). exists n. split; [|done].
    enough (ks_calls ks <= ks_calls ks')%nat by lia. destruct (tf_do_List _ _ _); destruct D as [_ ->]; lia.
Qed.
End Traceflow.
