(* ===== verification/Api.v ===== *)
(** * The API handlers ([pkg/server/api])

    What the handlers behind the authentication middleware do with the API server's answers: the
    mapping of its errors, the Traceflow endpoints and the access summary. [ra] is the identity the
    middleware left in the request's context. *)
From S2P Require Import Prelude.
From S2P Require Import GoStrings.
From S2P Require Import GoUrl.
From S2P Require Import Http.
From S2P Require Import Lru.
From S2P Require Import RateLimit.
From S2P Require Import Session.
From S2P Require Import SessionStore.
From S2P Require Import SessionFacts.
From S2P Require Import SessionContext.
From S2P Require Import K8sCred.
From S2P Require Import Authn.
From S2P Require Import Traceflow.
From S2P Require Import Access.

(** The answers of the self-review APIs. *)
Record RulesStatus := mkRules { ru_Rules : list string; ru_Incomplete : bool }.
Record ResourceAttributes := mkAttrs { at_Verb : string; at_Group : string; at_Resource : string }.

Class ReviewAPI `{Platform} := {
  api_SelfSubjectReview : nat -> RoundTripper -> result api_error (string * list string);
  api_RulesReview : nat -> RoundTripper -> string -> result api_error RulesStatus;
  api_AccessReview : nat -> RoundTripper -> ResourceAttributes -> result api_error bool;
  (** client-go's constructors of a client over a transport, dynamic and typed: an error, or none. *)
  api_NewClient : RoundTripper -> option string;
  api_NewClientset : RoundTripper -> option string;
  (** [validation.IsDNS1123Label]: the complaints. *)
  IsDNS1123Label : string -> list string;
}.

Record AccessSummary := mkSummary {
  as_Username : string; as_Groups : list string; as_ClusterAdmin : bool; as_Namespace : string;
  as_Rules : RulesStatus; as_Namespaces : list string }.

Section Api.
Context `{P : Platform} {S : Store} `{Limiter} `{LRU nat} `{BC : LRU bearerCacheEntry}
  `{K : !KubeLib} `{T : !TraceflowAPI} `{V : !ReviewAPI} `{R : RangeOrder} `{LI : Lister}.
(** The server's client factory, and the resolver of namespaces as it is when the request runs. *)
Context (f : ClientFactory) (access : resolver).

Local Notation HM := (ST (HState SrvState)).

(** [TransportForRequest] and the client over it. *)
Definition TransportForRequest (ra : option RequestAuth) : ST World (result string RoundTripper) :=
  match ra with
  | None => mret (Err "request is not authenticated")
  | Some ra => ra_TransportFor ra (transportKey f) (Some (TransportFor f))
  end.

(** [DynamicClient] and the typed clientset over a transport: thin wrappers that can fail. *)
Definition DynamicClient (rt : RoundTripper) : result string RoundTripper :=
  match api_NewClient rt with Some e => Err e | None => Ok rt end.

Definition DynamicClientForRequest (ra : option RequestAuth) : ST World (result string RoundTripper) :=
  r ← TransportForRequest ra;
  mret (match r with Err e => Err e | Ok rt => DynamicClient rt end).

Definition KubernetesClientForRequest (ra : option RequestAuth) : ST World (result string RoundTripper) :=
  r ← TransportForRequest ra;
  mret (match r with
        | Err e => Err e
        | Ok rt => match api_NewClientset rt with Some e => Err e | None => Ok rt end
        end).

(** The client of a handler, or its error. *)
Definition client_or_error (r : result string RoundTripper) : result ServerError RoundTripper :=
  match r with
  | Err e => Err (mkServerError StatusInternalServerError (Some ("failed to build K8s client for request: " +:+ e)) "")
  | Ok c => Ok c
  end.

Definition ClientForRequest (ra : option RequestAuth) : HM (result ServerError RoundTripper) :=
  r ← lift (on_store (DynamicClientForRequest ra));
  mret (client_or_error r).

Definition ClientsetForRequest (ra : option RequestAuth) : HM (result ServerError RoundTripper) :=
  r ← lift (on_store (KubernetesClientForRequest ra));
  mret (client_or_error r).

(** [k8sError]. *)
Definition k8sError (ra : option RequestAuth) (err : api_error) (message : string) : HM ServerError :=
  match err with
  | ApiUnauthorized _ =>
      match ra with
      | Some ra => lift (on_store (Invalidate ra));; UnsetSessionCookie
      | None => mret tt
      end;;
      mret (mkServerError StatusUnauthorized None "Session is no longer valid, please log in again")
  | ApiForbidden m => mret (mkServerError StatusForbidden None m)
  | ApiNotFound m => mret (mkServerError StatusNotFound None m)
  | ApiOther m => mret (mkServerError StatusInternalServerError (Some (message +:+ ": " +:+ m)) "")
  end.

(** [upstreamStatusError], for the Antrea Service's answers. *)
Definition upstreamStatusError (statusCode : Z) (body : string) : HM ServerError :=
  if statusCode =? StatusUnauthorized then
    UnsetSessionCookie;;
    mret (mkServerError StatusUnauthorized None "Session is no longer valid, please log in again")
  else if statusCode =? StatusForbidden then mret (mkServerError StatusForbidden None body)
  else mret (mkServerError StatusInternalServerError (Some ("unexpected status " +:+ itoa statusCode +:+ " from Antrea Service")) "").

(** The end of every handler: the error is answered and logged, or the rest runs. *)
Definition finish {A} (msg : string) (r : result ServerError A) (k : A -> HM unit) : HM unit :=
  match r with
  | Err e => HandleError e;; LogError (Some e) msg
  | Ok a => k a
  end.

(** ** Traceflow ([traceflow.go]) *)

(** Runs an operation of the Traceflow handler with the request's client. *)
Definition with_client {A} (ra : option RequestAuth) (message : string)
    (op : RoundTripper -> ST KubeState (result api_error A)) : HM (result ServerError A) :=
  c ← ClientForRequest ra;
  match c with
  | Err e => mret (Err e)
  | Ok client =>
      r ← lift (on_kube (op client));
      match r with
      | Err err => e ← k8sError ra err message; mret (Err e)
      | Ok a => mret (Ok a)
      end
  end.

(** [body] is the request's JSON object: the error of parsing it, or its spec. *)
Definition CreateTraceflowRequest (ra : option RequestAuth) (body : result string (option string)) : HM unit :=
  BindJSON (match body with Ok tfRequest => Some tfRequest | Err _ => None end);;
  r ← (match body with
       | Err err => mret (Err (mkServerError StatusBadRequest None err))
       | Ok spec => with_client ra "error when creating Traceflow request" (fun c => CreateRequest c spec)
       end : HM (result ServerError string));
  finish "Failed to create Traceflow request" r (fun requestID =>
    emit (SetHeader "Access-Control-Expose-Headers" "Location, Retry-After");;
    emit (SetHeader "Location" ("/api/v1/traceflow/" +:+ requestID));;
    emit (SetHeader "Retry-After" "2");;
    emit (Status StatusAccepted)).

Definition GetTraceflowRequestStatus (ra : option RequestAuth) (requestID : string) : HM unit :=
  r ← with_client ra "error when getting Traceflow request status" (fun c => GetRequestResult c requestID);
  finish "Failed to get Traceflow request status" r (fun '(_, done) =>
    if negb done then
      emit (SetHeader "Access-Control-Expose-Headers" "Location, Retry-After");;
      emit (SetHeader "Location" ("/api/v1/traceflow/" +:+ requestID +:+ "/status"));;
      emit (SetHeader "Retry-After" "1");;
      emit (Status StatusOK)
    else
      emit (SetHeader "Access-Control-Expose-Headers" "Location");;
      emit (SetHeader "Location" ("/api/v1/traceflow/" +:+ requestID +:+ "/result"));;
      emit (Status StatusFound)).

(** [json] is [json.Marshal] of the object. *)
Definition GetTraceflowRequestResult (json : TraceflowObj -> result string string) (ra : option RequestAuth)
    (requestID : string) : HM unit :=
  r ← with_client ra "error when getting Traceflow request result" (fun c => GetRequestResult c requestID);
  let r := match r with
           | Err e => Err e
           | Ok (tf, done) =>
               if negb (done : bool) then
                 Err (mkServerError StatusNotFound None "Traceflow result not available, call the /status endpoint to check progress")
               else match json tf with
                    | Err e => Err (mkServerError StatusInternalServerError
                                 (Some ("error when converting Traceflow request result to JSON: " +:+ e)) "")
                    | Ok data => Ok data
                    end
           end in
  finish "Failed to get result for Traceflow request" r (fun data =>
    emit (SetHeader "Access-Control-Expose-Headers" "Content-Disposition");;
    emit (Data StatusOK "application/json; charset=utf-8" data)).

Definition DeleteTraceflowRequest (ra : option RequestAuth) (requestID : string) : HM unit :=
  r ← with_client ra "error when deleting Traceflow request" (fun c => DeleteRequest c requestID);
  let r := match r with
           | Err e => Err e
           | Ok ok => if (ok : bool) then Ok tt
                      else Err (mkServerError StatusNotFound None "Traceflow request not found")
           end in
  finish "Failed to delete Traceflow request" r (fun _ => emit (Status StatusOK)).

(** ** The access summary ([access.go]) *)

Definition namespacesFor (username : string) (groups : list string) : result ServerError (list string) :=
  match NamespacesFor username groups access with
  | Err e => Err (mkServerError StatusServiceUnavailable (Some ("failed to resolve accessible namespaces: " +:+ e))
                    "namespace discovery is not ready")
  | Ok namespaces => Ok namespaces
  end.

Definition review_failed : string := "error when evaluating access summary".

(** A review, or the error it becomes. *)
Definition review {A} (ra : option RequestAuth) (call : nat -> result api_error A) : HM (result ServerError A) :=
  r ← lift (on_kube (kube_call call));
  match r with
  | Err err => e ← k8sError ra err review_failed; mret (Err e)
  | Ok a => mret (Ok a)
  end.

Definition GetAccessSummary_body (ra : option RequestAuth) (ns : string) : HM (result ServerError AccessSummary) :=
  let complaints := if decide (ns = "") then [] else IsDNS1123Label ns in
  match complaints with
  | _ :: _ => mret (Err (mkServerError StatusBadRequest None
        ("invalid namespace " +:+ quote ns +:+ ": " +:+ strings_Join complaints "; ")))
  | [] =>
      let rulesNamespace := if decide (ns = "") then ClusterScopeProbeNamespace else ns in
      c ← ClientsetForRequest ra;
      match c with
      | Err e => mret (Err e)
      | Ok client =>
          ssr ← review ra (fun i => api_SelfSubjectReview i client);
          match ssr with
          | Err e => mret (Err e)
          | Ok (username, groups) =>
              ssrr ← review ra (fun i => api_RulesReview i client rulesNamespace);
              match ssrr with
              | Err e => mret (Err e)
              | Ok rules =>
                  let rules := if bool_decide (ns = "") && negb (ClusterScopeProbeUsable access)
                               then mkRules (ru_Rules rules) true else rules in
                  admin ← review ra (fun i => api_AccessReview i client (mkAttrs "*" "*" "*"));
                  match admin with
                  | Err e => mret (Err e)
                  | Ok clusterAdmin =>
                      let summary nss := mkSummary username groups clusterAdmin ns rules nss in
                      if (match ra with Some ra => bool_decide (ra_Mode ra = ModeAdmin) | None => false end)
                      then mret (Ok (summary ["*"]))
                      else
                        lists ← review ra (fun i => api_AccessReview i client (mkAttrs "list" "" "namespaces"));
                        match lists with
                        | Err e => mret (Err e)
                        | Ok true => mret (Ok (summary ["*"]))
                        | Ok false =>
                            mret (match namespacesFor username groups with
                                  | Err e => Err e
                                  | Ok namespaces => Ok (summary namespaces)
                                  end)
                        end
                  end
              end
          end
      end
  end.

Definition GetAccessSummary (json : AccessSummary -> string) (ra : option RequestAuth) (req : Request) : HM unit :=
  r ← GetAccessSummary_body ra (Query req "namespace");
  finish "Failed to get access summary" r (fun s => emit (JSON StatusOK (json s))).

(** ** Running a handler *)

(** A request with this identity gets [client]: its transport is there, and the client over it. *)
Definition can_ask (ra : option RequestAuth) (client : RoundTripper) (h : HState SrvState) : Prop :=
  eval (TransportForRequest ra) (sv_store (h_world h)) = Ok client /\ api_NewClient client = None.

Lemma DynamicClientForRequest_run ra w :
  DynamicClientForRequest ra w =
    (match eval (TransportForRequest ra) w with Err e => Err e | Ok rt => DynamicClient rt end,
     exec (TransportForRequest ra) w).
Proof. unfold DynamicClientForRequest, eval, exec. rewrite bind_run. by destruct (TransportForRequest ra w). Qed.

Lemma with_client_run {A} ra message (op : RoundTripper -> ST KubeState (result api_error A)) client h :
  can_ask ra client h ->
  let s := h_world h in
  let answer := op client (sv_kube s) in
  let h1 := mkH (mkSrv (exec (TransportForRequest ra) (sv_store s)) answer.2 (sv_cache s) (sv_limiter s)) (h_out h) in
  with_client ra message op h =
    match answer.1 with
    | Ok a => (Ok a, h1)
    | Err err => let '(e, h2) := k8sError ra err message h1 in (Err e, h2)
    end.
Proof.
  intros [Ht Hn] s answer h1. unfold with_client, ClientForRequest. rewrite bind_run. srv_step.
  fold s in Ht |- *. rewrite DynamicClientForRequest_run, Ht. unfold DynamicClient. rewrite Hn.
  cbn [fst snd mret ST_ret client_or_error]. srv_step. fold answer.
  destruct answer as [[a|err] ks]; [done|]. cbn [fst snd]. rewrite bind_run. unfold h1, exec. cbn [snd]. by destruct (k8sError _ _ _ _).
Qed.

(** What [finish] answers for an error. *)
Definition failure (msg : string) (e : ServerError) : list effect :=
  error_effects e ++ match se_Err e with Some m => [LogErr (msg +:+ ": " +:+ m)] | None => [] end.

Lemma finish_error {A} msg e (k : A -> HM unit) h :
  finish msg (Err e) k h = (tt, mkH (h_world h) (h_out h ++ failure msg e)).
Proof.
  cbn [finish]. rewrite bind_run, HandleError_run. unfold LogError, failure, emit.
  destruct (se_Err e); cbn; by rewrite ?app_nil_r, <- ?(assoc_L (++)).
Qed.

(** ** Properties *)

(** A 401 of the API server ends the session, and nothing else does: the session is deleted and
    its cookie expired, so the browser has to log in again; a 403, a 404 or any other failure
    leaves every session and cookie alone, and an unexpected failure is not shown to the client. *)
Theorem k8sError_session {L : StoreLaws S} (ra : RequestAuth) (o : nat) (s : Session) (err : api_error)
    (message : string) (h : HState SrvState) :
  store_ok (sv_store (h_world h)) -> ra_session ra = Some o ->
  w_objs (sv_store (h_world h)) !! o = Some s ->
  let h' := exec (k8sError (Some ra) err message) h in
  let e := eval (k8sError (Some ra) err message) h in
  match err with
  | ApiUnauthorized _ => se_Code e = StatusUnauthorized /\
      eval (store_Peek (s_id s)) (sv_store (h_world h')) = None /\
      eval (KeepAlive ra) (sv_store (h_world h')) = false /\
      h_out h' = h_out h ++ [SetCookie (expired_cookie SessionCookieName sessionCookiePath)]
  | ApiForbidden m => h' = h /\ se_Code e = StatusForbidden /\ se_Message e = m
  | ApiNotFound m => h' = h /\ se_Code e = StatusNotFound /\ se_Message e = m
  | ApiOther m => h' = h /\ se_Code e = StatusInternalServerError /\
      error_effects e = [RecordError (message +:+ ": " +:+ m); JSON StatusInternalServerError "Internal Server Error"]
  end.
Proof.
  intros Hok Hr Hs. unfold exec, eval. destruct err as [m|m|m|m]; [|by split_and!..].
  set (w := sv_store (h_world h)) in *.
  assert (Hi : on_store (Invalidate ra) (h_world h) =
    (tt, mkSrv (exec (store_Delete (s_id s)) w) (sv_kube (h_world h)) (sv_cache (h_world h)) (sv_limiter (h_world h)))).
  { rewrite on_store_run. fold w. unfold Invalidate. rewrite Hr, bind_run, (ra_SessionID_run ra o s w) by done.
    unfold exec. by destruct (store_Delete (s_id s) w) as [[] ?]. }
  assert (Hrun : k8sError (Some ra) (ApiUnauthorized m) message h =
    (mkServerError StatusUnauthorized None "Session is no longer valid, please log in again",
     mkH (mkSrv (exec (store_Delete (s_id s)) w) (sv_kube (h_world h)) (sv_cache (h_world h)) (sv_limiter (h_world h)))
       (h_out h ++ [SetCookie (expired_cookie SessionCookieName sessionCookiePath)]))).
  { unfold k8sError. rewrite !bind_run, lift_run, Hi. done. }
  rewrite Hrun. cbn [fst snd h_world h_out sv_store]. split; [done|].
  destruct (KeepAlive_deleted ra o s w Hok Hr Hs) as [Hk _].
  split; [by apply store_Delete_Peek|]. split; [exact Hk|done].
Qed.

Lemma review_run {A} ra (call : nat -> result api_error A) (h : HState SrvState) a :
  eval (review ra call) h = Ok a -> exists i, call i = Ok a.
Proof.
  unfold eval, review. rewrite bind_run, lift_run, on_kube_run. cbn [fst snd kube_call].
  destruct (call _) as [a'|e] eqn:E; [intros [= <-]; by eexists|].
  rewrite bind_run. by destruct (k8sError _ _ _ _).
Qed.

Lemma review_bind {A B} ra (call : nat -> result api_error A) (k : A -> HM (result ServerError B)) h b :
  eval (r ← review ra call; match r with Err e => mret (Err e) | Ok a => k a end) h = Ok b ->
  exists i a h', call i = Ok a /\ eval (k a) h' = Ok b.
Proof.
  unfold eval. rewrite bind_run. pose proof (review_run ra call h) as Hr. unfold eval in Hr.
  destruct (review ra call h) as [[a|e] h']; cbn [fst] in *; [|done].
  destruct (Hr a eq_refl) as [i Hi]. intros Hk. by exists i, a, h'.
Qed.

(** C31. A summary is all or nothing: when it is sent, the identity, the rules and the verdict on
    cluster-admin are the API server's answers to the caller's own client, the rules were asked for
    the namespace of the request or, without one, for the probe namespace, and are then marked
    incomplete when the probe is not usable, and the namespaces are everything for an admin session
    or a user who may list namespaces, and the resolver's answer otherwise, never a stand-in for a
    resolver that failed. *)
Theorem access_summary_complete (ra : option RequestAuth) (ns : string) (h : HState SrvState) (sum : AccessSummary) :
  eval (GetAccessSummary_body ra ns) h = Ok sum ->
  exists client i1 i2 i3 rules,
    eval (ClientsetForRequest ra) h = Ok client /\
    api_SelfSubjectReview i1 client = Ok (as_Username sum, as_Groups sum) /\
    api_RulesReview i2 client (if decide (ns = "") then ClusterScopeProbeNamespace else ns) = Ok rules /\
    as_Rules sum = (if bool_decide (ns = "") && negb (ClusterScopeProbeUsable access)
                    then mkRules (ru_Rules rules) true else rules) /\
    api_AccessReview i3 client (mkAttrs "*" "*" "*") = Ok (as_ClusterAdmin sum) /\ as_Namespace sum = ns /\
    ((exists r, ra = Some r /\ ra_Mode r = ModeAdmin /\ as_Namespaces sum = ["*"]) \/
     (exists i4 may, api_AccessReview i4 client (mkAttrs "list" "" "namespaces") = Ok may /\
        if (may : bool) then as_Namespaces sum = ["*"]
        else NamespacesFor (as_Username sum) (as_Groups sum) access = Ok (as_Namespaces sum))).
Proof.
  unfold GetAccessSummary_body. destruct (if decide (ns = "") then [] else _) as [|? ?]; [|done].
  unfold eval at 1. rewrite bind_run. unfold eval at 1.
  destruct (ClientsetForRequest ra h) as [[client|e] h1]; cbn [fst]; [|done]. intros Hb.
  apply (review_bind (B := AccessSummary) ra (fun i => api_SelfSubjectReview i client)
    (fun '(username, groups) => _)) in Hb as (i1 & [username groups] & h2 & E1 & Hb).
  apply (review_bind (B := AccessSummary) ra _ (fun rules => _)) in Hb as (i2 & rules & h3 & E2 & Hb). cbn zeta in Hb.
  apply (review_bind (B := AccessSummary) ra _ (fun clusterAdmin => _)) in Hb as (i3 & adm & h4 & E3 & Hb). cbn zeta in Hb.
  exists client, i1, i2, i3, rules. split; [done|].
  destruct (match ra with Some _ => _ | None => _ end) eqn:Ha.
  - cbn in Hb. injection Hb as <-. cbn. split_and!; try done. left. destruct ra as [r|]; [|done].
    exists r. split_and!; try done. by apply bool_decide_eq_true in Ha.
  - apply (review_bind (B := AccessSummary) ra _ (fun may : bool => if may then _ else _)) in Hb as (i4 & may & h5 & E4 & Hb).
    destruct may; cbn in Hb.
    + injection Hb as <-. cbn. split_and!; try done. right. by exists i4, true.
    + unfold namespacesFor in Hb. destruct (NamespacesFor username groups access) as [l|e] eqn:En; cbn in Hb; [|done].
      injection Hb as <-. cbn. split_and!; try done. right. by exists i4, false.
Qed.
End Api.
