(* ===== verification/AntreaSvc.v ===== *)
(** * The Antrea Service ([pkg/handlers/antreasvc], [api/featuregates.go])

    The client factory for the Antrea Service, rebuilt whenever the Antrea CA bundle changes, the
    requests sent through it with the caller's own credential, and the feature gates endpoint. The
    controller that watches the CA ConfigMap is client-go's: the updates it delivers are the
    argument of [provider_run]. The forwarding that calls [setHost] is in [PortForward]. *)
From S2P Require Import Prelude.
From S2P Require Import GoStrings.
From S2P Require Import GoUrl.
From S2P Require Import Http.
From S2P Require Import Lru.
From S2P Require Import RateLimit.
From S2P Require Import Session.
From S2P Require Import SessionStore.
From S2P Require Import SessionFacts.
From S2P Require Import SessionInv.
From S2P Require Import SessionUse.
From S2P Require Import SessionContext.
From S2P Require Import K8sCred.
From S2P Require Import Authn.
From S2P Require Import Access.
From S2P Require Import Traceflow.
From S2P Require Import Api.

Definition antreaSvcName : string := "antrea".
Definition tokenFile : string := "/var/run/secrets/kubernetes.io/serviceaccount/token".

(** What [http.Client.Do] answers; [hr_ReadErr] is the error of reading the body to its end. *)
Record HttpResponse := mkHttpResponse { hr_StatusCode : Z; hr_Body : string; hr_ReadErr : option string }.

Class AntreaHTTP `{Platform} := {
  (** [http.NewRequestWithContext] of a method and a URL: an error, or none. *)
  http_NewRequest : string -> string -> option string;
  (** The i-th request sent through a transport: method and URL. *)
  http_Do : nat -> RoundTripper -> string -> string -> result string HttpResponse;
}.

(** ** The client factory provider ([client.go]) *)

(** [transportKey]: one key per CA bundle generation, under one upstream. *)
Definition svcTransportKey (generation : Z) : string := "antreasvc/" +:+ itoa generation.

(** [inClusterConfig], on what reading the token file gives. *)
Definition inClusterConfig (token : result string string) : result string RestConfig :=
  match token with
  | Err e => Err e
  | Ok token => Ok (mkRestConfig "" None "" token tokenFile None None "")
  end.

Definition rc_set_ca (bundle : option string) (serverName : string) (c : RestConfig) : RestConfig :=
  mkRestConfig (rc_Host c) bundle serverName (rc_BearerToken c) (rc_BearerTokenFile c)
    (rc_CertData c) (rc_KeyData c) (rc_Other c).

Section Svc.
Context `{P : Platform} {S : Store} `{Limiter} `{LRU nat} `{BC : LRU bearerCacheEntry}
  `{K : !KubeLib} `{A : !AntreaHTTP} `{R : RangeOrder}.

Local Notation HM := (ST (HState SrvState)).

(** [antreaClientFactoryProvider]: [ap_config] is nil inside a Pod; [ap_log] is what was logged as
    an error. *)
Record provider := mkProvider {
  ap_config : option RestConfig;
  ap_serverName : string;
  ap_factory : option ClientFactory;
  ap_generation : Z;
  ap_log : list string;
}.

Definition newAntreaClientProvider (config : option RestConfig) (serverName : string) : provider :=
  mkProvider config serverName None 0 [].

Definition GetClientFactory (p : provider) : result string (ClientFactory * Z) :=
  match ap_factory p with
  | None => Err "Antrea client is not ready"
  | Some f => Ok (f, ap_generation p)
  end.

(** [updateClientFactory]: [caBundle] is the content of the bundle, nil before there is one, and
    [token] what the token file holds. *)
Definition updateClientFactory (caBundle : option string) (token : result string string)
    : ST provider (option string) := fun p =>
  match caBundle with
  | None => (None, p)
  | Some _ =>
      match (match ap_config p with Some c => Ok c | None => inClusterConfig token end) with
      | Err e => (Some e, p)
      | Ok kubeConfig =>
          let kubeConfig := rc_set_ca caBundle (ap_serverName p) kubeConfig in
          match rest_TransportFor kubeConfig with
          | Err e => (Some e, p)
          | Ok saTransport =>
              let generation := ap_generation p + 1 in
              match NewClientFactory kubeConfig saTransport (svcTransportKey generation) with
              | Err e => (Some e, p)
              | Ok f => (None, mkProvider (ap_config p) (ap_serverName p) (Some f) generation (ap_log p))
              end
          end
      end
  end.

(** [Enqueue]: the listener the CA controller calls. *)
Definition Enqueue (caBundle : option string) (token : result string string) : ST provider unit :=
  e ← updateClientFactory caBundle token;
  match e with
  | Some e => modify (fun p => mkProvider (ap_config p) (ap_serverName p) (ap_factory p) (ap_generation p)
                (ap_log p ++ ["Failed to update Antrea client factory: " +:+ e]))
  | None => mret tt
  end.

(** ** Requests ([handler.go]) *)

Record requestsHandler := mkRequestsHandler {
  rh_host : string;
  rh_clientProvider : provider;
  rh_portForwardingNeeded : bool;
}.

(** [NewRequestsHandler]; [clientset] is the error of [kubernetes.NewForConfig]. *)
Definition NewRequestsHandler (inPod : bool) (config : RestConfig) (antreaNamespace : string)
    (clientset : option string) : result string requestsHandler :=
  let addr := antreaSvcName +:+ "." +:+ antreaNamespace +:+ ".svc" in
  match clientset with
  | Some e => Err e
  | None =>
      Ok (if inPod then mkRequestsHandler addr (newAntreaClientProvider None addr) false
          else mkRequestsHandler "" (newAntreaClientProvider (Some config) addr) true)
  end.

Definition setHost (host : string) (h : requestsHandler) : requestsHandler :=
  mkRequestsHandler host (rh_clientProvider h) (rh_portForwardingNeeded h).

Definition getHost (h : requestsHandler) : result string string :=
  if decide (rh_host h = "") then Err "not ready" else Ok (rh_host h).

(** [Request]: the body, the status code and the error. *)
Definition Request (h : requestsHandler) (ra : option RequestAuth) (method path : string)
    : ST SrvState (string * Z * option string) :=
  let fail e := ("", 0, Some e) in
  match getHost h with
  | Err e => mret (fail e)
  | Ok host =>
  match GetClientFactory (rh_clientProvider h) with
  | Err e => mret (fail e)
  | Ok (factory, generation) =>
  match ra with
  | None => mret (fail "request is not authenticated")
  | Some ra =>
      rt ← on_store (ra_TransportFor ra (svcTransportKey generation) (Some (TransportFor factory)));
      match rt with
      | Err e => mret (fail e)
      | Ok rt =>
          let url := url_String "https" host path in
          match http_NewRequest method url with
          | Some e => mret (fail e)
          | None =>
              resp ← on_kube (kube_call (fun i => http_Do i rt method url));
              match resp with
              | Err e => mret (fail e)
              | Ok resp =>
                  when (hr_StatusCode resp =? StatusUnauthorized) (on_store (Invalidate ra));;
                  mret (hr_Body resp, hr_StatusCode resp, hr_ReadErr resp)
              end
          end
      end
  end end end.

(** ** The endpoint ([api/featuregates.go]) *)

(** [json] is the error of unmarshalling a body into the list of feature gates. *)
Definition GetFeatureGates (json : string -> option string) (h : requestsHandler) (ra : option RequestAuth)
    : HM unit :=
  r ← lift (Request h ra "GET" "/featuregates");
  let '(b, statusCode, err) := r in
  r ← (match err with
       | Some e => mret (Err (mkServerError StatusInternalServerError (Some e) ""))
       | None =>
           if negb (statusCode =? StatusOK) then e ← upstreamStatusError statusCode b; mret (Err e)
           else match json b with
                | Some e => mret (Err (mkServerError StatusInternalServerError
                              (Some ("unexpected response from Antrea service: " +:+ e)) ""))
                | None => mret (Ok b)
                end
       end : HM (result ServerError string));
  finish "Failed to get feature gates" r (fun b => emit (Data StatusOK "application/json" b)).

(** ** Properties *)

Lemma svcTransportKey_inj a b :
  0 <= a < 2 ^ 64 -> 0 <= b < 2 ^ 64 -> svcTransportKey a = svcTransportKey b -> a = b.
Proof.
  intros Ha Hb E%(inj (String.append "antreasvc/")). apply (f_equal ParseUint64) in E.
  rewrite !parse_itoa in E by done. by injection E.
Qed.

Lemma updateClientFactory_run bundle token p :
  match updateClientFactory (Some bundle) token p with
  | (None, p') => exists f, GetClientFactory p' = Ok (f, ap_generation p + 1) /\
      rc_CAData (f_config f) = Some bundle /\ rc_ServerName (f_config f) = ap_serverName p /\
      transportKey f = svcTransportKey (ap_generation p + 1)
  | (Some _, p') => p' = p
  end.
Proof.
  unfold updateClientFactory. destruct (match ap_config p with Some c => Ok c | None => _ end) as [c|e]; [|done].
  destruct (rest_TransportFor _) as [sa|e]; [|done]. unfold NewClientFactory.
  destruct (rest_TransportFor _) as [base|e]; [|done]. by eexists.
Qed.

(** ** The provider over time ([RunOnce], [Run])

    The CA controller calls [Enqueue] for every change of the bundle it sees. *)
Definition provider_run (updates : list (option string * result string string)) : ST provider unit :=
  mfor updates (fun u => Enqueue u.1 u.2).

(** Whether an update makes a new factory, which does not depend on the ones before. *)
Definition accepted (config : option RestConfig) (serverName : string) (u : option string * result string string) : bool :=
  match u.1 with
  | None => false
  | Some _ => match eval (updateClientFactory u.1 u.2) (newAntreaClientProvider config serverName) with
              | None => true | Some _ => false end
  end.

Lemma Enqueue_run u p :
  exec (Enqueue u.1 u.2) p =
    match updateClientFactory u.1 u.2 p with
    | (None, p') => p'
    | (Some e, p') => mkProvider (ap_config p') (ap_serverName p') (ap_factory p') (ap_generation p')
                        (ap_log p' ++ ["Failed to update Antrea client factory: " +:+ e])
    end.
Proof. unfold exec, Enqueue. rewrite bind_run. by destruct (updateClientFactory u.1 u.2 p) as [[e|] p']. Qed.

(** What an update does to a provider made with [config] and [serverName]. *)
Lemma update_accepted u p :
  let q := exec (Enqueue u.1 u.2) p in
  ap_config q = ap_config p /\ ap_serverName q = ap_serverName p /\
  if accepted (ap_config p) (ap_serverName p) u
  then ap_generation q = ap_generation p + 1 /\
       exists f, ap_factory q = Some f /\ rc_CAData (f_config f) = u.1 /\ rc_ServerName (f_config f) = ap_serverName p /\
         transportKey f = svcTransportKey (ap_generation q)
  else ap_generation q = ap_generation p /\ ap_factory q = ap_factory p.
Proof.
  cbn zeta. rewrite Enqueue_run. destruct u as [[bundle|] token]; unfold accepted; cbn [fst snd]; [|done].
  unfold updateClientFactory, eval. cbn [newAntreaClientProvider ap_config ap_serverName].
  destruct (match ap_config p with Some c => Ok c | None => _ end) as [c|e]; [|done].
  destruct (rest_TransportFor _) as [sa|e]; [|done]. unfold NewClientFactory.
  destruct (rest_TransportFor _) as [base|e]; [|done]. cbn. split_and!; try done. eexists. by split_and!.
Qed.

(** The client follows the CA bundle. Whatever sequence of updates the controller delivers,
    with bundles that are missing, cannot be loaded or fail for want of a token in between, requests
    are refused as not ready until one update was accepted, and from then on the factory in use is
    the one of the last update that was accepted: it trusts exactly that bundle, expects the
    service's name in the certificate, and caches transports under a key of its own, numbered by
    how many updates were accepted. *)
Theorem provider_follows_bundle (config : option RestConfig) (serverName : string)
    (updates : list (option string * result string string)) :
  let p := exec (provider_run updates) (newAntreaClientProvider config serverName) in
  let good := filter (fun u => accepted config serverName u = true) updates in
  ap_generation p = Z.of_nat (length good) /\
  match last good with
  | None => GetClientFactory p = Err "Antrea client is not ready"
  | Some u => exists f, GetClientFactory p = Ok (f, Z.of_nat (length good)) /\
      rc_CAData (f_config f) = u.1 /\ is_Some u.1 /\ rc_ServerName (f_config f) = serverName /\
      transportKey f = svcTransportKey (Z.of_nat (length good))
  end.
Proof.
  cbn zeta. set (p0 := newAntreaClientProvider config serverName).
  enough (G : let p := exec (provider_run updates) p0 in
    ap_config p = config /\ ap_serverName p = serverName /\
    ap_generation p = Z.of_nat (length (filter (fun u => accepted config serverName u = true) updates)) /\
    match last (filter (fun u => accepted config serverName u = true) updates) with
    | None => ap_factory p = None
    | Some u => is_Some u.1 /\ exists f, ap_factory p = Some f /\ rc_CAData (f_config f) = u.1 /\
        rc_ServerName (f_config f) = serverName /\ transportKey f = svcTransportKey (ap_generation p)
    end).
  { cbn zeta in G. destruct G as (_ & _ & G1 & G2). split; [done|]. unfold GetClientFactory. rewrite <- G1.
    destruct (last _) as [u|]; [|by rewrite G2]. destruct G2 as (Hu & f & -> & ? & ? & ?). by exists f. }
  induction updates as [|u updates IH] using rev_ind; [done|]. cbn zeta in *.
  destruct IH as (E1 & E2 & E3 & E4). set (p := exec (provider_run updates) p0) in *.
  unfold provider_run. rewrite mfor_snoc. fold (provider_run updates). fold p.
  destruct (update_accepted u p) as (F1 & F2 & F3). rewrite E1, E2 in F3.
  rewrite last_filter_snoc, F1, F2, E1, E2. split; [done|]. split; [done|].
  rewrite filter_app, filter_cons, length_app. destruct (accepted config serverName u) eqn:Ha.
  - rewrite !decide_True by done. destruct F3 as [-> (f & F4 & F5 & F6 & F7)]. cbn. split; [lia|].
    split; [|exists f; by rewrite F4]. unfold accepted in Ha. by destruct u as [[] ?].
  - rewrite !decide_False by congruence. destruct F3 as [-> ->]. cbn. split; [lia|done].
Qed.

(** ** The provider beside the store

    The CA controller updates the provider while requests, which read the factory and its generation
    at one time and look their transport up at a later one, and the store's other clients run. *)
Record SvcState := mkSvc { vs_provider : provider; vs_handed : list (ClientFactory * Z); vs_store : World }.

Inductive vstep (opts : Options) : SvcState -> SvcState -> Prop :=
(* the controller delivers an update *)
| vs_update u p fs w : vstep opts (mkSvc p fs w) (mkSvc (exec (Enqueue u.1 u.2) p) fs w)
(* [Request] reads the factory *)
| vs_take fg p fs w : GetClientFactory p = Ok fg -> vstep opts (mkSvc p fs w) (mkSvc p (fg :: fs) w)
(* [Request] looks its transport up, with what it read *)
| vs_use (R' : RangeOrder) f g o p fs w : (f, g) ∈ fs ->
    vstep opts (mkSvc p fs w) (mkSvc p fs (exec (transportFor o (svcTransportKey g) (TransportFor f)) w))
(* a request to the API server, and any other call of the store *)
| vs_k8s (R' : RangeOrder) build o p fs w :
    vstep opts (mkSvc p fs w) (mkSvc p fs (exec (transportFor o TransportKeyK8s build) w))
| vs_call p fs w w' : call opts w w' -> vstep opts (mkSvc p fs w) (mkSvc p fs w').

Definition svc_start (config : option RestConfig) (serverName : string) : SvcState :=
  mkSvc (newAntreaClientProvider config serverName) [] world0.

Lemma vstep_store opts x y : vstep opts x y -> rtc (step opts) (vs_store x) (vs_store y).
Proof.
  intros [u p fs w|fg p fs w Hf|R' f g o p fs w Hf|R' build o p fs w|p fs w w' Hc]; cbn.
  - apply rtc_refl.
  - apply rtc_refl.
  - apply rtc_once. by econstructor.
  - apply rtc_once. by econstructor.
  - by apply rtc_once, call_step.
Qed.

Lemma svcTransportKey_other g : svcTransportKey g <> TransportKeyK8s.
Proof. done. Qed.

(** [c] was built by the factory the provider has now. *)
Definition built_now (p : provider) (c : cachedTransport) : Prop :=
  exists f v cl, ap_factory p = Some f /\ TransportFor f v = Ok (ct_rt c, cl).

(** The keys the sessions use: none is ahead of the provider's generation, and what is cached under
    the generation of now was built by the factory of now. *)
Record svc_inv (x : SvcState) : Prop := mkSvcInv {
  vi_gen : 0 <= ap_generation (vs_provider x);
  vi_ready : forall f, ap_factory (vs_provider x) = Some f -> 1 <= ap_generation (vs_provider x);
  vi_handed : forall f g, (f, g) ∈ vs_handed x -> 1 <= g <= ap_generation (vs_provider x) /\
    (g = ap_generation (vs_provider x) -> ap_factory (vs_provider x) = Some f);
  vi_keys : forall o s g c, w_objs (vs_store x) !! o = Some s -> s_transports s !! svcTransportKey g = Some c ->
    exists g', svcTransportKey g = svcTransportKey g' /\ 1 <= g' <= ap_generation (vs_provider x) /\
      (g' = ap_generation (vs_provider x) -> built_now (vs_provider x) c);
}.

Lemma svc_inv_start config serverName : svc_inv (svc_start config serverName).
Proof.
  split; cbn; [lia|done|by intros f g ?%elem_of_nil|].
  intros o s g c Hs. by rewrite lookup_empty in Hs.
Qed.

Lemma svc_inv_update u x :
  svc_inv x -> svc_inv (mkSvc (exec (Enqueue u.1 u.2) (vs_provider x)) (vs_handed x) (vs_store x)).
Proof.
  intros [I1 I2 I3 I4]. destruct (update_accepted u (vs_provider x)) as (_ & _ & U).
  destruct (accepted _ _ u).
  - destruct U as (Eg & f & Ef & _). split; cbn [vs_provider vs_handed vs_store]; rewrite ?Eg.
    + lia.
    + intros; lia.
    + intros f' g Hin. destruct (I3 f' g Hin) as [? _]. split; lia.
    + intros o s g c Hs Hk. destruct (I4 o s g c Hs Hk) as (g' & ? & ? & _). exists g'. split; [done|]. split; lia.
  - destruct U as (Eg & Ef). unfold built_now in *.
    split; cbn [vs_provider vs_handed vs_store]; unfold built_now; rewrite ?Eg, ?Ef; done.
Qed.

Lemma svc_inv_vstep opts x y : Inv opts (vs_store x) -> vstep opts x y -> svc_inv x -> svc_inv y.
Proof.
  intros Hi Hst. revert Hi.
  destruct Hst as [u p fs w|fg p fs w Hf|R' f g o p fs w Hf|R' build o p fs w|p fs w w' Hc]; cbn [vs_store]; intros Hi I.
  - apply (svc_inv_update u _ I).
  - destruct I as [I1 I2 I3 I4]. cbn in *. split; cbn; try done. intros f g [<-|Hin]%elem_of_cons; [|by apply I3].
    unfold GetClientFactory in Hf. destruct (ap_factory p) as [f'|]; [|done]. injection Hf as <- <-.
    specialize (I2 _ eq_refl). split; [lia|done].
  - destruct I as [I1 I2 I3 I4]. cbn in *. split; cbn; try done. intros o' s' g1 c Hs' Hk.
    destruct (transportFor_transports _ _ _ _ _ _ _ _ Hs' Hk) as (s & Hs & [Hk'|(E & _ & cl & Hb)]); [by apply (I4 o' s)|].
    destruct (I3 f g Hf) as [Hg Hcur]. exists g. split; [done|]. split; [done|]. intros Eg.
    exists f, (credential_val (w_mem w) (s_credential s)), cl. by rewrite (Hcur Eg).
  - destruct I as [I1 I2 I3 I4]. cbn in *. split; cbn; try done. intros o' s' g1 c Hs' Hk.
    destruct (transportFor_transports _ _ _ _ _ _ _ _ Hs' Hk) as (s & Hs & [Hk'|(E & _)]); [by apply (I4 o' s)|done].
  - destruct I as [I1 I2 I3 I4]. cbn in *. split; cbn; try done. intros o' s' g1 c Hs' Hk.
    destruct (call_transports opts w w' o' s' _ c Hi Hc Hs' Hk) as (s & Hs & Hk'). by apply (I4 o' s).
Qed.

Lemma svc_inv_run opts x y :
  opts_ok opts -> rtc (vstep opts) x y -> Inv opts (vs_store x) -> svc_inv x -> Inv opts (vs_store y) /\ svc_inv y.
Proof.
  intros Hok. induction 1 as [|x y z Hxy _ IH]; [done|]. intros Hi I. apply IH; [|by apply (svc_inv_vstep opts x)].
  pose proof (vstep_store _ _ _ Hxy) as Hs. clear -Hok Hs Hi. revert Hi.
  induction Hs as [|a b c Hab _ IH]; [done|]. intros Hi. by apply IH, (Inv_step opts a).
Qed.

(** The generation only grows, and the factory stays while it does not. *)
Lemma vstep_generation opts x y : rtc (vstep opts) x y ->
  ap_generation (vs_provider x) <= ap_generation (vs_provider y) /\
  (ap_generation (vs_provider y) = ap_generation (vs_provider x) ->
   ap_factory (vs_provider y) = ap_factory (vs_provider x)).
Proof.
  induction 1 as [|x y z Hxy _ [IH1 IH2]]; [done|].
  assert (G : ap_generation (vs_provider x) <= ap_generation (vs_provider y) /\
    (ap_generation (vs_provider y) = ap_generation (vs_provider x) -> ap_factory (vs_provider y) = ap_factory (vs_provider x))).
  { destruct Hxy as [u p fs w|? p fs w ?|R' f g o p fs w Hf|R' build o p fs w|p fs w w' Hc]; try done. cbn.
    destruct (update_accepted u p) as (_ & _ & U). destruct (accepted _ _ u); destruct U as [-> U]; [split; [lia|intros; lia]|by rewrite U]. }
  destruct G as [G1 G2]. split; [lia|]. intros E. rewrite IH2, G2 by lia. done.
Qed.

(** A lookup of a transport with the factory of now. *)
Lemma svc_use_spec p fs w f g ra a s :
  svc_inv (mkSvc p fs w) -> ap_factory p = Some f -> ap_generation p = g -> 0 <= g < 2 ^ 63 ->
  ra_session ra = Some a -> w_objs w !! a = Some s ->
  let use := ra_TransportFor ra (svcTransportKey g) (Some (TransportFor f)) in
  match s_transports s !! svcTransportKey g with
  | Some c => eval use w = Ok (ct_rt c) /\ exists v cl, TransportFor f v = Ok (ct_rt c, cl)
  | None =>
      match TransportFor f (credential_val (w_mem w) (s_credential s)) with
      | Err e => eval use w = Err e
      | Ok (rt, _) => eval use w = Ok rt /\
          forall n s', 0 <= n < g -> w_objs (exec use w) !! a = Some s' ->
            s_transports s' !! svcTransportKey n = None /\
            forall c x, s_transports s !! svcTransportKey n = Some c -> ct_cleanup c = Some x ->
              x ∈ w_closed (exec use w)
      end
  end.
Proof.
  intros I Hf Eg Hg Hr Hs. set (key := svcTransportKey g).
  assert (Huse : ra_TransportFor ra key (Some (TransportFor f)) = transportFor a key (TransportFor f))
    by (unfold ra_TransportFor; by rewrite Hr).
  cbn zeta. rewrite Huse. destruct (s_transports s !! key) as [c|] eqn:Hk.
  - unfold eval. rewrite (transportFor_run a key _ s), Hk by done. split; [done|].
    destruct (vi_keys _ I a s g c Hs Hk) as (g' & E & Hg' & Hnow). cbn in Hg', Hnow.
    apply svcTransportKey_inj in E; [|lia..]. destruct Hnow as (f' & v & cl & Hf' & Hb); [lia|].
    rewrite Hf in Hf'. injection Hf' as <-. by exists v, cl.
  - assert (He : eval (transportFor a key (TransportFor f)) w =
      match TransportFor f (credential_val (w_mem w) (s_credential s)) with Ok (rt, _) => Ok rt | Err e => Err e end).
    { unfold eval. rewrite (transportFor_run a key _ s), Hk by done. by destruct (TransportFor f _) as [[]|]. }
    destruct (TransportFor f _) as [[rt cl]|e]; [|exact He]. split; [exact He|]. intros n s' Hn Hs'.
    apply (transportFor_supersedes a "antreasvc" (itoa g) (TransportFor f) s w rt (itoa n) s'); try done.
    intros E. assert (n = g); [|lia]. apply svcTransportKey_inj; [lia..|]. unfold svcTransportKey. by rewrite E.
Qed.

(** C23. A rotation of the Antrea CA reaches every live session, whatever updates, requests and other
    calls of the store, one operation at a time, came before. A failed update changes nothing. A
    successful one (there being fewer than 2^63) makes a factory that trusts the new bundle, and no session has a transport cached
    under its key. From then on and until another update succeeds, whatever runs in between, every
    request that takes the factory takes that one, and every session it is used for is answered with
    a transport that this factory built: the first time it is built from the session's credential of
    that time, and the transports the session had cached for earlier bundles are dropped and
    released. *)
Theorem rotation_supersedes (o : Options) (config : option RestConfig) (serverName : string)
    (bundle : string) (token : result string string) (p : provider) (fs : list (ClientFactory * Z)) (w : World) :
  let opts := setDefaults o in
  let p' := exec (updateClientFactory (Some bundle) token) p in
  let g := ap_generation p + 1 in
  rtc (vstep opts) (svc_start config serverName) (mkSvc p fs w) -> g < 2 ^ 63 ->
  match eval (updateClientFactory (Some bundle) token) p with
  | Some _ => p' = p
  | None => exists f, GetClientFactory p' = Ok (f, g) /\ rc_CAData (f_config f) = Some bundle /\
      (forall a s, w_objs w !! a = Some s -> s_transports s !! svcTransportKey g = None) /\
      forall p2 fs2 w2, rtc (vstep opts) (mkSvc p' fs w) (mkSvc p2 fs2 w2) -> ap_generation p2 = g ->
        GetClientFactory p2 = Ok (f, g) /\
        forall ra a s, ra_session ra = Some a -> w_objs w2 !! a = Some s ->
          let use := ra_TransportFor ra (svcTransportKey g) (Some (TransportFor f)) in
          match s_transports s !! svcTransportKey g with
          | Some c => eval use w2 = Ok (ct_rt c) /\ exists v cl, TransportFor f v = Ok (ct_rt c, cl)
          | None =>
              match TransportFor f (credential_val (w_mem w2) (s_credential s)) with
              | Err e => eval use w2 = Err e
              | Ok (rt, _) => eval use w2 = Ok rt /\
                  forall n s', 0 <= n < g -> w_objs (exec use w2) !! a = Some s' ->
                    s_transports s' !! svcTransportKey n = None /\
                    forall c x, s_transports s !! svcTransportKey n = Some c -> ct_cleanup c = Some x ->
                      x ∈ w_closed (exec use w2)
              end
          end
  end.
Proof.
  intros opts p' g Hrun Hg. pose proof (updateClientFactory_run bundle token p) as U.
  assert (Hp' : p' = exec (Enqueue (Some bundle) token) p \/ exists e, eval (updateClientFactory (Some bundle) token) p = Some e).
  { unfold p', eval, exec, Enqueue. rewrite bind_run.
    destruct (updateClientFactory (Some bundle) token p) as [[e|] q]; [right; by exists e|by left]. }
  unfold p', exec, eval in *. destruct (updateClientFactory (Some bundle) token p) as [[e|] q]; [done|]. cbn [fst snd] in *.
  destruct U as (f & Hf & Hca & _ & _). destruct Hp' as [Hq|[e He]]; [|done].
  exists f. split; [done|]. split; [done|].
  destruct (svc_inv_run opts _ _ (setDefaults_ok o) Hrun (Inv_world0 opts (setDefaults_ok o)) (svc_inv_start config serverName)) as [Hi I].
  assert (I' : svc_inv (mkSvc q fs w)) by (rewrite Hq; apply (svc_inv_update (Some bundle, token) _ I)).
  pose proof (vi_gen _ I) as Hg0. cbn in Hg0. split.
  { intros a s Hs. destruct (s_transports s !! svcTransportKey g) as [c|] eqn:Hk; [|done].
    destruct (vi_keys _ I a s g c Hs Hk) as (g' & E & Hg' & _). cbn in Hg'.
    apply svcTransportKey_inj in E; lia. }
  intros p2 fs2 w2 Hrun2 Hg2. destruct (svc_inv_run opts _ _ (setDefaults_ok o) Hrun2 Hi I') as [_ I2].
  assert (Hgq : ap_generation q = g /\ ap_factory q = Some f).
  { unfold GetClientFactory in Hf. destruct (ap_factory q); [|done]. by injection Hf as -> ->. }
  destruct Hgq as [Hgq Hfq]. destruct (vstep_generation opts _ _ Hrun2) as [_ Hfac]. cbn in Hfac.
  rewrite Hgq, Hfq in Hfac. specialize (Hfac Hg2).
  split; [unfold GetClientFactory; by rewrite Hfac, Hg2|].
  intros ra a s Hr Hs. eapply (svc_use_spec p2 fs2 w2 f g); try done. lia.
Qed.

(** A request that is not ready, or has no identity, is not sent. *)
Lemma Request_not_sent h ra method path s e :
  (getHost h = Err e \/ GetClientFactory (rh_clientProvider h) = Err e \/ ra = None) ->
  exists e', Request h ra method path s = (("", 0, Some e'), s).
Proof.
  intros Hn. unfold Request. destruct (getHost h) as [host|e1]; [|by eexists].
  destruct (GetClientFactory _) as [[f g]|e2]; [|by eexists].
  destruct Hn as [Hn|[Hn|Hn]]; [done..|]. subst ra. by eexists.
Qed.

Lemma Request_run h ra method path s host f g rt resp :
  getHost h = Ok host -> GetClientFactory (rh_clientProvider h) = Ok (f, g) ->
  eval (ra_TransportFor ra (svcTransportKey g) (Some (TransportFor f))) (sv_store s) = Ok rt ->
  http_NewRequest method (url_String "https" host path) = None ->
  http_Do (ks_calls (sv_kube s)) rt method (url_String "https" host path) = Ok resp ->
  let w := exec (ra_TransportFor ra (svcTransportKey g) (Some (TransportFor f))) (sv_store s) in
  Request h (Some ra) method path s =
    ((hr_Body resp, hr_StatusCode resp, hr_ReadErr resp),
     mkSrv (if hr_StatusCode resp =? StatusUnauthorized then exec (Invalidate ra) w else w)
       (exec (kube_call (fun _ => tt)) (sv_kube s)) (sv_cache s) (sv_limiter s)).
Proof.
  intros Hh Hf Ht Hn Hd w. unfold Request. rewrite Hh, Hf. srv_step.
  unfold eval in Ht. rewrite Ht, Hn. srv_step. unfold kube_call at 1. cbn [fst snd]. rewrite Hd.
  unfold when. destruct (hr_StatusCode resp =? StatusUnauthorized); srv_step; done.
Qed.

(** The session itself is still there once its transport was looked up. *)
Lemma session_after_transport ra o key build s w :
  ra_session ra = Some o -> w_objs w !! o = Some s ->
  exists s', w_objs (exec (ra_TransportFor ra key (Some build)) w) !! o = Some s' /\ s_id s' = s_id s.
Proof.
  intros Hr Hs. unfold ra_TransportFor, exec. rewrite Hr, (transportFor_run o key build s w) by done.
  destruct (s_transports s !! key); [by exists s|].
  destruct (build _) as [[rt cl]|e]; cbn [snd]; rewrite with_obj_lookup; by eexists.
Qed.

Lemma Invalidate_run ra o s w :
  ra_session ra = Some o -> w_objs w !! o = Some s ->
  exec (Invalidate ra) w = exec (store_Delete (s_id s)) w.
Proof. intros Hr Hs. unfold Invalidate, exec. rewrite Hr, bind_run. by rewrite (ra_SessionID_run ra o s w). Qed.

(** A 401 of the Antrea Service ends the session, and only a 401 does: the request is sent once,
    with the caller's credential; on a 401 the session is deleted, its cookie expired and the
    client told to log in again; a 403 is passed on with the service's own words, a well-formed
    answer is passed on byte for byte, and anything else is an error whose details are only
    logged, all of them leaving every session as it was. *)
Theorem GetFeatureGates_session {L : StoreLaws S} (json : string -> option string) (h : requestsHandler)
    (ra : RequestAuth) (o : nat) (s : Session) (hs : HState SrvState) (host : string) (f : ClientFactory)
    (g : Z) (rt : RoundTripper) (resp : HttpResponse) :
  let url := url_String "https" host "/featuregates" in
  let use := ra_TransportFor ra (svcTransportKey g) (Some (TransportFor f)) in
  store_ok (sv_store (h_world hs)) -> ra_session ra = Some o -> w_objs (sv_store (h_world hs)) !! o = Some s ->
  getHost h = Ok host -> GetClientFactory (rh_clientProvider h) = Ok (f, g) ->
  eval use (sv_store (h_world hs)) = Ok rt -> http_NewRequest "GET" url = None ->
  http_Do (ks_calls (sv_kube (h_world hs))) rt "GET" url = Ok resp -> hr_ReadErr resp = None ->
  let hs' := exec (GetFeatureGates json h (Some ra)) hs in
  let w' := sv_store (h_world hs') in
  let failed e := [RecordError e; JSON StatusInternalServerError "Internal Server Error";
                   LogErr ("Failed to get feature gates: " +:+ e)] in
  ks_calls (sv_kube (h_world hs')) = Datatypes.S (ks_calls (sv_kube (h_world hs))) /\
  if decide (hr_StatusCode resp = StatusUnauthorized) then
    eval (store_Peek (s_id s)) w' = None /\ eval (KeepAlive ra) w' = false /\
    h_out hs' = h_out hs ++ [SetCookie (expired_cookie SessionCookieName sessionCookiePath);
      JSON StatusUnauthorized "Session is no longer valid, please log in again"]
  else
    w' = exec use (sv_store (h_world hs)) /\
    h_out hs' = h_out hs ++
      if decide (hr_StatusCode resp = StatusForbidden) then [JSON StatusForbidden (hr_Body resp)]
      else if decide (hr_StatusCode resp = StatusOK) then
        match json (hr_Body resp) with
        | None => [Data StatusOK "application/json" (hr_Body resp)]
        | Some e => failed ("unexpected response from Antrea service: " +:+ e)
        end
      else failed ("unexpected status " +:+ itoa (hr_StatusCode resp) +:+ " from Antrea Service").
Proof.
  intros url use Hok Hr Hs Hh Hf Ht Hn Hd He hs' w' failed.
  pose proof (Request_run h ra "GET" "/featuregates" (h_world hs) host f g rt resp Hh Hf Ht Hn Hd) as Hrun.
  cbn zeta in Hrun. fold use in Hrun. rewrite He in Hrun.
  unfold w', hs'. change (exec (GetFeatureGates json h (Some ra)) hs) with (GetFeatureGates json h (Some ra) hs).2.
  unfold GetFeatureGates. rewrite bind_run, lift_run, Hrun. cbn [fst snd].
  destruct (session_after_transport ra o (svcTransportKey g) (TransportFor f) s _ Hr Hs) as (s1 & Hs1 & Hid).
  fold use in Hs1. unfold upstreamStatusError. case_decide as H401.
  - rewrite H401. cbn. split; [done|]. rewrite (Invalidate_run ra o s1) by done. rewrite Hid.
    assert (Hok1 : store_ok (exec use (sv_store (h_world hs)))).
    { unfold use, ra_TransportFor. rewrite Hr. by apply store_ok_transportFor. }
    split; [by apply store_Delete_Peek|]. rewrite <- Hid. split.
    + by destruct (KeepAlive_deleted ra o s1 _ Hok1 Hr Hs1).
    + run_effects.
  - rewrite (proj2 (Z.eqb_neq _ StatusUnauthorized)) by done.
    destruct (Z.eqb_spec (hr_StatusCode resp) StatusOK) as [H200|H200]; cbn [negb].
    + rewrite H200. rewrite decide_False, decide_True by done.
      destruct (json (hr_Body resp)); cbn; (split; [done|]; split; [done|]); run_effects.
    + rewrite (decide_False (P := hr_StatusCode resp = StatusOK)) by done.
      destruct (Z.eqb_spec (hr_StatusCode resp) StatusForbidden) as [H403|H403].
      * rewrite H403, decide_True by done. cbn; (split; [done|]; split; [done|]). run_effects.
      * rewrite decide_False by done. cbn; (split; [done|]; split; [done|]). run_effects.
Qed.
End Svc.
