(* ===== verification/PortForward.v ===== *)
(** * Port forwarding ([pkg/utils/portforwarder], [pkg/handlers/antreasvc/handler.go])

    Out of a Pod the Antrea Service is reached through a forwarded port. The forwarder's goroutines
    and the loop that publishes the port are a step relation: [step] is partial, an event that
    cannot happen in a state has no successor. client-go's [ForwardPorts] appears as the events
    [Ready] and [Ends]. *)
From S2P Require Import Prelude.
From S2P Require Import GoStrings.
From S2P Require Import Steps.

(** ** One round of the loop, up to the forwarder ([Run] of [handler.go]) *)

(** A Pod, by the ports of its containers. *)
Record Pod := mkPod { po_Namespace : string; po_Name : string; po_Containers : list (list Z) }.

(** The forwarder's arguments, a failure that is logged, or an index out of range. *)
Inductive target := Forward (namespace name : string) (port : Z) | Failed (msg : string) | Panics.

(** [NewPortForwarder]'s error, for that of [kubernetes.NewForConfig]. *)
Definition NewPortForwarder (clientset : option string) : option string :=
  match clientset with Some e => Some ("failed to create Kubernetes client: " +:+ e) | None => None end.

(** [service] is the Service's selector, [pods] the Pods it selects; [clientset] is the error of
    [kubernetes.NewForConfig] in [NewPortForwarder], or none. *)
Definition round_target (service : result string (gmap string string))
    (pods : gmap string string -> result string (list Pod)) (clientset : option string) : target :=
  match service with
  | Err e => Failed ("Failed to get Antrea Service: " +:+ e)
  | Ok selector =>
      match pods selector with
      | Err e => Failed ("Failed to list Antrea Service Pods: " +:+ e)
      | Ok [] => Failed "No Pod found for Antrea Service"
      | Ok (pod :: _) =>
          match po_Containers pod with
          | (port :: _) :: _ =>
              match NewPortForwarder clientset with
              | Some e => Failed ("Failed to create port forwarder: " +:+ e)
              | None => Forward (po_Namespace pod) (po_Name pod) port
              end
          | _ => Panics
          end
      end
  end.

(** The port argument [Run] of the forwarder builds. *)
Definition port_spec (listenPort targetPort : Z) : string :=
  if 0 <? listenPort then itoa listenPort +:+ ":" +:+ itoa targetPort else ":" +:+ itoa targetPort.

(** ** The forwarder ([portforwarder.go]) *)

(** Where [Run] is: the first select, sending the port, the second select, returning, returned. *)
Inductive run_pc := RSelect | RSend (port : Z) | RWait | RReturn (err : option string) | REnd.

(** The goroutine around [ForwardPorts]: forwarding, sending its result on [errCh], gone. *)
Inductive fwd := FRunning | FReturned (err : option string) | FGone.

(** Who called [Run]: the loop of [handler.go], still ranging over the ports or done with the round;
    or [Start], waiting or returned. *)
Inductive caller := Loop (over : bool) | Starter (res : option (Z * option string)).

(** [pf_stop]: the channel given to [Run] is closed. [pf_pstop]: the forwarder's own channel, nil
    unless [Start] made it. [pf_host] is the handler's host. *)
Record PF := mkPF {
  pf_pc : run_pc; pf_fwd : fwd; pf_ready : bool; pf_stop : bool; pf_pstop : option bool;
  pf_caller : caller; pf_host : string }.


#[export] Instance run_pc_eq_dec : EqDecision run_pc.
Proof. solve_decision. Defined.

(** [Run] up to its first select; [prep] is the error of preparing the dialer and the forwarder,
    before which nothing is started. *)
Definition Run_start (prep : option string) (pstop : option bool) (c : caller) : PF :=
  match prep with
  | Some e => mkPF (RReturn (Some e)) FGone false false pstop c ""
  | None => mkPF RSelect FRunning false false pstop c ""
  end.

(** The loop's round, and [Start], which makes the forwarder's channel. *)
Definition loop_round (prep : option string) : PF := Run_start prep None (Loop false).
Definition Start (prep : option string) : PF := Run_start prep (Some false) (Starter None).

Inductive event :=
(** What the network and the process do. *)
| Ready | Ends (err : option string) | CloseStop
(** [Stop]. *)
| Stop
(** The selects of [Run]: [OnReady] with what [GetPorts] answers. *)
| OnErr | OnReady (ports : result string Z) | OnStop
(** The receiver of the port; the end of [Run]; the end of the loop's round. *)
| Deliver | Finish | Over.

Definition at_ (pc : run_pc) (s : PF) : PF :=
  mkPF pc (pf_fwd s) (pf_ready s) (pf_stop s) (pf_pstop s) (pf_caller s) (pf_host s).

(** [setHost]. *)
Definition setHost (host : string) (s : PF) : PF :=
  mkPF (pf_pc s) (pf_fwd s) (pf_ready s) (pf_stop s) (pf_pstop s) (pf_caller s) host.

Definition set_fwd (f : fwd) (s : PF) : PF :=
  mkPF (pf_pc s) f (pf_ready s) (pf_stop s) (pf_pstop s) (pf_caller s) (pf_host s).
Definition set_caller (c : caller) (s : PF) : PF :=
  mkPF (pf_pc s) (pf_fwd s) (pf_ready s) (pf_stop s) (pf_pstop s) c (pf_host s).

(** The address the loop publishes for a port. *)
Definition localhost (port : Z) : string := "localhost:" +:+ itoa port.
Arguments localhost : simpl never.

(** [%w] of an error that may be nil. *)
Definition wrapped (err : option string) : string := default "%!w(<nil>)" err.

Definition step (e : event) (s : PF) : option PF :=
  match e with
  | Ready =>
      match pf_fwd s, pf_ready s with
      | FRunning, false => Some (mkPF (pf_pc s) FRunning true (pf_stop s) (pf_pstop s) (pf_caller s) (pf_host s))
      | _, _ => None
      end
  | Ends err => match pf_fwd s with FRunning => Some (set_fwd (FReturned err) s) | _ => None end
  | CloseStop =>
      match pf_caller s, pf_stop s with
      | Loop _, false => Some (mkPF (pf_pc s) (pf_fwd s) (pf_ready s) true (pf_pstop s) (pf_caller s) (pf_host s))
      | _, _ => None
      end
  | Stop =>
      match pf_pstop s with
      | Some false => Some (mkPF (pf_pc s) (pf_fwd s) (pf_ready s) (pf_stop s) (Some true) (pf_caller s) (pf_host s))
      | _ => None
      end
  | OnErr =>
      match pf_pc s, pf_fwd s with
      | RSelect, FReturned err =>
          Some (at_ (RReturn (Some ("port forward request failed: " +:+ wrapped err))) (set_fwd FGone s))
      | RWait, FReturned err => Some (at_ (RReturn err) (set_fwd FGone s))
      | _, _ => None
      end
  | OnReady ports =>
      match pf_pc s, pf_ready s with
      | RSelect, true =>
          Some (at_ (match ports with
                     | Ok p => RSend p
                     | Err e => RReturn (Some ("error when getting forwarded ports: " +:+ e))
                     end) s)
      | _, _ => None
      end
  | OnStop =>
      match pf_pc s, pf_stop s with
      | RSelect, true | RWait, true => Some (at_ (RReturn None) s)
      | _, _ => None
      end
  | Deliver =>
      match pf_pc s, pf_caller s with
      | RSend p, Loop false => Some (at_ RWait (setHost (localhost p) s))
      | RSend p, Starter None => Some (at_ RWait (set_caller (Starter (Some (p, None))) s))
      | _, _ => None
      end
  | Finish =>
      match pf_pc s, pf_caller s with
      | RReturn _, Loop _ => Some (at_ REnd s)
      | RReturn err, Starter None => Some (at_ REnd (set_caller (Starter (Some (0, err))) s))
      | _, _ => None
      end
  | Over =>
      match pf_pc s, pf_caller s with
      | REnd, Loop false => Some (setHost "" (set_caller (Loop true) s))
      | _, _ => None
      end
  end.

Definition run : list event -> PF -> option PF := run_steps step.

(** The events that the program's own goroutines take. *)
Definition internal (e : event) : Prop :=
  match e with OnErr | OnReady _ | OnStop | Deliver | Finish | Over => True | _ => False end.

(** ** Properties *)

(** How far the round still is from its end. *)
Definition rank (s : PF) : nat :=
  match pf_pc s, pf_caller s with
  | RSelect, _ => 5 | RSend _, _ => 4 | RWait, _ => 3 | RReturn _, _ => 2
  | REnd, Loop false => 1 | REnd, _ => 0
  end.

Definition round_over (s : PF) : Prop := pf_pc s = REnd /\ pf_caller s = Loop true.

(** The port is published exactly between the select that follows its delivery and the end of the
    round; the forwarding goroutine is only gone once [Run] took its result. *)
Definition round_inv (s : PF) : Prop :=
  (pf_fwd s = FGone -> match pf_pc s with RReturn _ | REnd => True | _ => False end) /\
  match pf_caller s with
  | Loop false =>
      match pf_pc s with
      | RSelect | RSend _ => pf_host s = ""
      | RWait => exists p, pf_host s = localhost p
      | RReturn _ | REnd => pf_host s = "" \/ exists p, pf_host s = localhost p
      end
  | Loop true => pf_pc s = REnd /\ pf_host s = ""
  | Starter _ => False
  end.

(** Splits a step into the cases in which it happens. *)
Local Ltac step_cases H :=
  cbn in H; repeat (match type of H with context [match ?x with _ => _ end] => destruct x end);
  try discriminate H; injection H as <-; cbn.

Lemma round_step_inv e s s' : round_inv s -> step e s = Some s' -> round_inv s'.
Proof.
  unfold round_inv. destruct s as [pc f r st ps [[]|] h]; cbn; intros [Hg Hc] H; [| |done];
    destruct e; step_cases H; simplify_eq; (split; [try tauto; intros; discriminate|]); eauto; naive_solver.
Qed.

Lemma round_inv_start prep : round_inv (loop_round prep).
Proof. destruct prep; cbn; split; naive_solver. Qed.

(** What the events so far say of a state. *)
Definition published (l : list event) (s : PF) (p : Z) : Prop :=
  pf_host s = localhost p /\ Ready ∈ l /\ OnReady (Ok p) ∈ l /\ Deliver ∈ l /\ Over ∉ l.

Definition history_inv (l : list event) (s : PF) : Prop :=
  (pf_ready s = true -> Ready ∈ l) /\
  (forall p, pf_pc s = RSend p -> Ready ∈ l /\ OnReady (Ok p) ∈ l) /\
  (pf_caller s = Loop false -> Over ∉ l) /\
  (pf_host s = "" \/ exists p, published l s p).

Lemma step_history l e s s' :
  round_inv s -> history_inv l s -> step e s = Some s' -> history_inv (l ++ [e]) s'.
Proof.
  intros Hi (Hr & Hp & Hc & Hh) H. unfold history_inv, published in *.
  assert (Hw : forall x, x ∈ l -> x ∈ l ++ [e]) by (intros; apply elem_of_app; auto).
  assert (He : e ∈ l ++ [e]) by (apply elem_of_app; right; left).
  assert (Ho : e <> Over -> Over ∉ l -> Over ∉ l ++ [e]).
  { intros Hne Hn [|?%list_elem_of_singleton]%elem_of_app; congruence. }
  destruct s as [pc f r st ps [[]|] h]; cbn in *; [| |by destruct Hi];
    destruct e; step_cases H; split_and!; try done; try tauto;
    first [destruct Hh as [?|(q & ? & ? & ? & ? & ?)]; [by left|right; exists q; split_and!; by auto]|naive_solver].
Qed.

Lemma run_history prep l s :
  run l (loop_round prep) = Some s -> round_inv s /\ history_inv l s.
Proof.
  apply (run_steps_hist _ (fun l s => round_inv s /\ history_inv l s)).
  - split; [apply round_inv_start|]. destruct prep; split_and!; cbn; try done; try (by left); by intros _ ?%elem_of_nil.
  - intros l' e s1 s2 [Hi Hh] H. split; [by eapply round_step_inv|by eapply step_history].
Qed.

(** The handler's host is a forwarded port only while there is one: it is empty until the
    forwarder is ready and the port it reported was delivered, and again when the round is over,
    and it is never anything else than that port's address; whatever order the forwarder, the
    network and the stop channel act in. *)
Theorem host_while_forwarding (prep : option string) (l : list event) (s : PF) :
  run l (loop_round prep) = Some s ->
  (pf_host s = "" \/ exists p, published l s p) /\
  (pf_pc s = RWait -> pf_host s <> "") /\ (round_over s -> pf_host s = "").
Proof.
  intros H. destruct (run_history prep l s H) as [[_ Hc] (_ & _ & _ & Hh)]. split; [exact Hh|].
  unfold round_over. split.
  - intros E. rewrite E in Hc. destruct (pf_caller s) as [[]|]; [by destruct Hc| |done].
    destruct Hc as [p ->]. done.
  - intros [_ E]. rewrite E in Hc. apply Hc.
Qed.

Lemma internal_rank e s s' : internal e -> step e s = Some s' -> (rank s' < rank s)%nat.
Proof.
  destruct s as [pc f r st ps c h]. intros Hi H.
  destruct e; try done; cbn in H; unfold rank;
    repeat (match type of H with context [match ?x with _ => _ end] => destruct x end);
    try discriminate H; injection H as <-; cbn; repeat case_match; lia.
Qed.

(** Something ended the round: the channel is closed, or the forwarding is no longer running. *)
Definition ending (s : PF) : Prop := pf_stop s = true \/ pf_fwd s <> FRunning.

Lemma ending_step e s s' : ending s -> step e s = Some s' -> ending s'.
Proof.
  unfold ending. destruct s as [pc f r st ps c h]; cbn. intros Hi H.
  destruct e; step_cases H; naive_solver.
Qed.

Lemma ending_progress s :
  round_inv s -> ending s -> ~ round_over s -> exists e s', internal e /\ step e s = Some s'.
Proof.
  unfold round_inv, ending, round_over. destruct s as [pc f r st ps [[]|] h]; cbn; [naive_solver| |naive_solver].
  intros [Hg Hc] He Ho. destruct pc.
  - destruct f; [|by exists OnErr; eexists|by destruct Hg].
    destruct He as [->|]; [by exists OnStop; eexists|done].
  - by exists Deliver; eexists.
  - destruct f; [|by exists OnErr; eexists|by destruct Hg].
    destruct He as [->|]; [by exists OnStop; eexists|done].
  - by exists Finish; eexists.
  - by exists Over; eexists.
Qed.

(** A round of the loop ends: once the stop channel is closed, or the forwarding ended for
    whatever reason, at most five more steps of the program's goroutines are possible, and when
    none is left the round is over with the host reset, so that the loop can start the next one:
    neither [Run] nor the loop waits for ever on a channel. *)
Theorem round_terminates (prep : option string) (l l' : list event) (s s' : PF) :
  run l (loop_round prep) = Some s -> ending s -> Forall internal l' -> run l' s = Some s' ->
  (length l' <= 5)%nat /\
  ((forall e, internal e -> step e s' = None) -> round_over s' /\ pf_host s' = "").
Proof.
  intros H He Hl H'. destruct (run_history prep l s H) as [Hi _].
  destruct (run_steps_rank step (fun s => round_inv s /\ ending s) rank internal l' s s') as [[Hi' He'] Hr]; [|done..|].
  { intros e s1 s2 [H1 H2] Hint Hst. split; [|by eapply internal_rank].
    split; [by eapply round_step_inv|by eapply ending_step]. }
  split.
  - enough (rank s <= 5)%nat by lia. unfold rank. repeat case_match; lia.
  - intros Hnone. destruct (decide (pf_pc s' = REnd)) as [E|E].
    + destruct (pf_caller s') as [[]|] eqn:Ec.
      * split; [done|]. destruct Hi' as [_ Hc]. rewrite Ec in Hc. apply Hc.
      * pose proof (Hnone Over I) as Hn. unfold step in Hn. by rewrite E, Ec in Hn.
      * destruct Hi' as [_ Hc]. by rewrite Ec in Hc.
    + destruct (ending_progress s' Hi' He') as (e & s2 & Hint & H2); [intros [? _]; done|].
      by rewrite (Hnone e Hint) in H2.
Qed.

(** [Run] returned, or cannot. *)
Definition deserted (s : PF) : Prop :=
  match pf_pc s with RReturn _ | REnd => pf_fwd s <> FGone | _ => False end.

Lemma deserted_step e s s' : deserted s -> step e s = Some s' -> deserted s'.
Proof.
  unfold deserted. destruct s as [pc f r st ps c h]; cbn. intros Hd H.
  destruct e; step_cases H; try done; destruct pc; try done.
Qed.

(** C38. The stop channel given to [Run] does not stop the forwarding: in this order of events the
    channel is closed, [Run] returns without an error and the round is over, and the forwarding
    goroutine is still forwarding; and whatever happens then, that goroutine never ends, since
    nobody is left to take its result. *)
Theorem stop_leaves_forwarding (port : Z) :
  exists s, run [Ready; OnReady (Ok port); Deliver; CloseStop; OnStop; Finish; Over] (loop_round None) = Some s /\
    round_over s /\ pf_stop s = true /\ pf_fwd s = FRunning /\
    forall l s', run l s = Some s' -> pf_fwd s' <> FGone.
Proof.
  exists (mkPF REnd FRunning true true None (Loop true) ""). split; [reflexivity|]. split_and!; try done. intros l s' H.
  enough (Hd : deserted s') by (unfold deserted in Hd; by destruct (pf_pc s')).
  apply (run_steps_inv step deserted l _ s' deserted_step) in H; [done|]. unfold deserted; cbn. discriminate.
Qed.
