(* ===== verification/SvcForward.v ===== *)
(** * The loop that keeps the Antrea Service reachable ([Run] of [pkg/handlers/antreasvc/handler.go])

    Out of a Pod, [wait.Until] runs the round of [PortForward] again, five seconds after the last one
    ended, until the stop channel closes. The state is where the loop is; what the API server and the
    network answer comes with the events. *)
From S2P Require Import Prelude.
From S2P Require Import Steps.
From S2P Require Import PortForward.

Definition retryPeriod : duration := 5 * Second.

(** Waiting for the next round (the first one does not wait: [ran] tells them apart), in one,
    returned, or brought down by a round that panicked, which [wait.Until] does not survive. *)
Inductive loop := Idle (ran : bool) | InRound (s : PF) | LoopStopped | Crashed.

Inductive loop_event :=
(** The timer, [elapsed] after the last round, with what the API server answers to the round. *)
| Tick (elapsed : duration) (service : result string (gmap string string))
       (pods : gmap string string -> result string (list Pod)) (clientset prep : option string)
(** One step of the round. *)
| InRoundStep (e : event)
(** The round ended; the loop finds the stop channel closed. *)
| EndRound | StopIdle.

Definition loop_step (e : loop_event) (x : loop) : option loop :=
  match e, x with
  | Tick elapsed service pods clientset prep, Idle ran =>
      if ran && (elapsed <? retryPeriod) then None else
      Some (match round_target service pods clientset with
            | Forward _ _ _ => InRound (loop_round prep)
            | Failed _ => Idle true
            | Panics => Crashed
            end)
  | InRoundStep e, InRound s => s' ← step e s; Some (InRound s')
  | EndRound, InRound s =>
      if decide (pf_pc s = REnd) then
        match pf_caller s with
        | Loop true => Some (if pf_stop s then LoopStopped else Idle true)
        | _ => None
        end
      else None
  | StopIdle, Idle _ => Some LoopStopped
  | _, _ => None
  end.

Definition loop_run : list loop_event -> loop -> option loop := run_steps loop_step.

(** The handler's host, which [getHost] refuses to give out when it is empty. *)
Definition loop_host (x : loop) : string := match x with InRound s => pf_host s | _ => "" end.

(** What the program does by itself, as opposed to the network, the timer and the signals. *)
Definition loop_internal (e : loop_event) : Prop :=
  match e with InRoundStep e => internal e | EndRound => True | _ => False end.

(** Each round is a run of [PortForward] from its start. *)
Definition in_round (x : loop) : Prop :=
  match x with InRound s => exists prep l, run l (loop_round prep) = Some s | _ => True end.

Lemma in_round_step e x x' : in_round x -> loop_step e x = Some x' -> in_round x'.
Proof.
  destruct e as [t service pods cs prep|e| |], x as [ran|s| |]; cbn; try done.
  - destruct (ran && (t <? retryPeriod)); [done|]. intros _ [= <-]. destruct (round_target _ _ _); cbn; try done.
    by exists prep, [].
  - intros (prep & l & Hl) (s' & Hs & [= <-])%bind_Some. exists prep, (l ++ [e]).
    unfold run in *. rewrite run_steps_app, Hl. cbn. by rewrite Hs.
  - destruct (decide _); [|done]. destruct (pf_caller s) as [[]|]; try done. intros _ [= <-]. by destruct (pf_stop s).
  - by intros _ [= <-].
Qed.

Definition loop_rank (x : loop) : nat := match x with InRound s => S (rank s) | _ => 0 end.

(** The round is one that has to end. *)
Definition loop_ending (x : loop) : Prop :=
  match x with InRound s => round_inv s /\ ending s | Idle ran => ran = true | LoopStopped => True | Crashed => False end.

Lemma loop_internal_step e x x' :
  loop_ending x -> loop_internal e -> loop_step e x = Some x' -> loop_ending x' /\ (loop_rank x' < loop_rank x)%nat.
Proof.
  destruct e as [? ? ? ? ?|e| |], x as [|s| |]; cbn; try done.
  - intros [Hi He] Hint (s' & Hs & [= <-])%bind_Some. cbn. pose proof (internal_rank e s s' Hint Hs). split; [|lia].
    split; [by eapply round_step_inv|by eapply ending_step].
  - intros [Hi He] _. destruct (decide _); [|done]. destruct (pf_caller s) as [[]|]; try done.
    intros [= <-]. destruct (pf_stop s); cbn; split; try done; lia.
Qed.

(** C29. The loop recovers. In every run of it, the host is a forwarded port that the round in
    progress has published, or it is empty; and when the forwarding of a round has ended, for
    whatever reason, or the stop channel is closed, at most six more steps of the program are
    possible, and when none is left the loop is back at its timer, where the next tick, five seconds later, tries again
    whatever happened before, or it has returned because it was told to stop. *)
Theorem loop_recovers (l : list loop_event) (x : loop) :
  loop_run l (Idle false) = Some x ->
  (loop_host x = "" \/ exists s prep l' p, x = InRound s /\ run l' (loop_round prep) = Some s /\ published l' s p) /\
  (forall s l' x', x = InRound s -> ending s -> Forall loop_internal l' -> loop_run l' x = Some x' ->
     (length l' <= 6)%nat /\
     ((forall e, loop_internal e -> loop_step e x' = None) ->
        loop_host x' = "" /\ (x' = Idle true \/ x' = LoopStopped))) /\
  (forall ran, x = Idle ran -> forall service pods clientset prep,
     is_Some (loop_step (Tick retryPeriod service pods clientset prep) x)).
Proof.
  intros H. assert (Hr : in_round x) by (by apply (run_steps_inv loop_step in_round l (Idle false) x in_round_step)).
  split_and!.
  - destruct x as [|s| |]; cbn; auto. destruct Hr as (prep & l' & Hl).
    destruct (run_history prep l' s Hl) as [_ (_ & _ & _ & [Hh|[p Hp]])]; [by left|right].
    by exists s, prep, l', p.
  - intros s l' x' -> He Hint H'. destruct Hr as (prep & l0 & Hl0).
    destruct (run_history prep l0 s Hl0) as [Hi _].
    destruct (run_steps_rank loop_step loop_ending loop_rank loop_internal l' (InRound s) x' loop_internal_step)
      as [He' Hk]; [by split|done|exact H'|]. split.
    + cbn in Hk. enough (rank s <= 5)%nat by lia. unfold rank. repeat case_match; lia.
    + intros Hnone. destruct x' as [ran|s'| |]; [by cbn in He'; subst ran; auto| |by auto|done]. exfalso. destruct He' as [Hi' He''].
      assert (Hover : round_over s' -> False).
      { intros [E1 E2]. specialize (Hnone EndRound Logic.I). cbn in Hnone. by rewrite decide_True, E2 in Hnone. }
      destruct (ending_progress s' Hi' He'' Hover) as (e & s2 & Hi2 & Hs2).
      specialize (Hnone (InRoundStep e) Hi2). cbn in Hnone. by rewrite Hs2 in Hnone.
  - intros ran -> *. cbn. rewrite andb_false_r. by eexists.
Qed.
