(* ===== verification/K8sProxy.v ===== *)
(** * The Kubernetes API proxy ([pkg/handlers/k8sproxy], [api/k8s.go])

    [GetK8s] forwards a read to the API server with the caller's own credential: what is stripped
    and rewritten on the way, the transport it goes through, and what a 401 does to the session. *)
From S2P Require Import Prelude.
From S2P Require Import GoStrings.
From S2P Require Import GoUrl.
From S2P Require Import Http.
From S2P Require Import Lru.
From S2P Require Import RateLimit.
From S2P Require Import GoHttp.
From S2P Require Import Session.
From S2P Require Import SessionStore.
From S2P Require Import SessionFacts.
From S2P Require Import SessionInv.
From S2P Require Import SessionContext.
From S2P Require Import K8sCred.
From S2P Require Import Authn.
From S2P Require Import Access.
From S2P Require Import Traceflow.
From S2P Require Import Api.
From S2P Require Import AntreaSvc.

(** client-go's names of the impersonation headers, and what the API server answers. *)
Class ProxyLib `{Platform} := {
  ImpersonateUserHeader : string;
  ImpersonateUIDHeader : string;
  ImpersonateGroupHeader : string;
  ImpersonateUserExtraHeaderPrefix : string;
  (** net/url's reprinting of a query it cannot parse. *)
  cleanQueryParams : string -> string;
  (** The i-th request sent through a transport: the status code and the rest of the answer. *)
  k8s_Do : nat -> RoundTripper -> HttpRequest -> result string (Z * string);
}.

Section Proxy.
Context `{P : Platform} {S : Store} `{Limiter} `{LRU nat} `{BC : LRU bearerCacheEntry}
  `{K : !KubeLib} `{T : !TraceflowAPI} `{V : !ReviewAPI} `{R : RangeOrder} `{LI : Lister} `{X : !ProxyLib}.
(** The API server's URL, and the factory whose [TransportForRequest] the proxy is given. *)
Context (k8sServerURL : PURL) (f : ClientFactory).

Local Notation HM := (ST (HState SrvState)).

(** The [Rewrite] hook, on the request as received and the one to send. *)
Definition Rewrite (inr out : HttpRequest) : HttpRequest :=
  let out := SetURL k8sServerURL out in
  let out := set_header <["X-Forwarded-For" := default [] (hq_Header inr !! "X-Forwarded-For")]> out in
  let out := SetXForwarded inr out in
  set_header (fun h =>
    let h := Header_Del "Cookie" h in
    let h := Header_Del "Authorization" h in
    let h := Header_Del ImpersonateUserHeader h in
    let h := Header_Del ImpersonateUIDHeader h in
    let h := Header_Del ImpersonateGroupHeader h in
    fold_left (fun h' e => if strings_HasPrefix e.1 ImpersonateUserExtraHeaderPrefix then Header_Del e.1 h' else h')
      (range_map h) h) out.

(** [perRequestTransport.RoundTrip]. *)
Definition RoundTrip (ra : option RequestAuth) (r : HttpRequest) : ST SrvState (result string (Z * string)) :=
  rt ← on_store (TransportForRequest f ra);
  match rt with
  | Err e => mret (Err e)
  | Ok rt => on_kube (kube_call (fun i => k8s_Do i rt r))
  end.

(** The [ModifyResponse] hook. *)
Definition ModifyResponse (ra : option RequestAuth) (status : Z) : ST SrvState unit :=
  match ra with
  | Some ra => when (status =? StatusUnauthorized) (on_store (Invalidate ra))
  | None => mret tt
  end.

(** [ServeHTTP] of the reverse proxy: its error log goes through [proxyErrorWriter]. *)
Definition ServeHTTP (ra : option RequestAuth) (req : HttpRequest) : HM unit :=
  resp ← lift (RoundTrip ra (outgoing cleanQueryParams Rewrite req));
  match resp with
  | Err e => emit (LogErr ("K8s proxy error: http: proxy error: " +:+ e));; emit (Status StatusBadGateway)
  | Ok (status, rest) => lift (ModifyResponse ra status);; emit (Data status "" rest)
  end.

(** What [GetK8s] makes of its request: the path parameter becomes the path. *)
Definition stripped (path : string) (req : HttpRequest) : HttpRequest :=
  let u := hq_URL req in
  set_header (fun h => Header_Del "Cookie" (Header_Del "Authorization" h))
    (set_URL (mkPURL (pu_Scheme u) (pu_Host u) path (pu_RawPath u) (pu_RawQuery u)) (hq_Host req) req).

Definition GetK8s (ra : option RequestAuth) (path : string) (req : HttpRequest) : HM unit :=
  ServeHTTP ra (stripped path req).

(** ** Properties *)

(** The request that [GetK8s] puts on the wire. *)
Definition sent (path : string) (req : HttpRequest) : HttpRequest :=
  outgoing cleanQueryParams Rewrite (stripped path req).

Definition credential_header (k : string) : Prop :=
  k ∈ map CanonicalHeaderKey
    ["Cookie"; "Authorization"; ImpersonateUserHeader; ImpersonateUIDHeader; ImpersonateGroupHeader] \/
  strings_HasPrefix k ImpersonateUserExtraHeaderPrefix = true.

#[global] Instance credential_header_dec k : Decision (credential_header k).
Proof. apply _. Defined.

(** The loop over the headers, on canonical keys. *)
Lemma extra_loop l (h : headers) k :
  (forall e, e ∈ l -> CanonicalHeaderKey e.1 = e.1) ->
  fold_left (fun h' (e : string * list string) =>
      if strings_HasPrefix e.1 ImpersonateUserExtraHeaderPrefix then Header_Del e.1 h' else h') l h !! k =
    if decide (k ∈ l.*1 /\ strings_HasPrefix k ImpersonateUserExtraHeaderPrefix = true) then None else h !! k.
Proof.
  revert h; induction l as [|[k' v] l IH]; intros h Hc; cbn [fold_left].
  { rewrite decide_False; [done|]. intros [E%elem_of_nil _]. done. }
  rewrite IH by (intros e He; apply Hc; by right). cbn [fst].
  destruct (decide (k ∈ l.*1 /\ _)) as [[? ?]|Hn].
  { rewrite decide_True; [done|]. split; [|done]. cbn. by right. }
  pose proof (Hc (k', v) ltac:(left)) as Hk. cbn in Hk.
  destruct (strings_HasPrefix k' _) eqn:Hp.
  - unfold Header_Del. rewrite Hk. destruct (decide (k' = k)) as [->|Hne].
    + rewrite lookup_delete_eq, decide_True; [done|]. split; [left|done].
    + rewrite lookup_delete_ne, decide_False; [done| |done].
      intros [[->|?]%elem_of_cons ?]; [done|]. apply Hn. auto.
  - rewrite decide_False; [done|]. cbn. intros [[->|?]%elem_of_cons ?]; [congruence|]. apply Hn. auto.
Qed.

Definition strip_credentials (h : headers) : headers :=
  del_all ["Cookie"; "Authorization"; ImpersonateUserHeader; ImpersonateUIDHeader; ImpersonateGroupHeader] h.

Lemma Rewrite_header inr out k :
  let h0 := hq_Header (SetXForwarded inr (set_header <["X-Forwarded-For" :=
              default [] (hq_Header inr !! "X-Forwarded-For")]> (SetURL k8sServerURL out))) in
  canonical h0 ->
  hq_Header (Rewrite inr out) !! k = if decide (credential_header k) then None else h0 !! k.
Proof.
  intros h0 Hc. unfold Rewrite. cbn [set_header hq_Header]. fold h0.
  change (Header_Del ImpersonateGroupHeader _) with (strip_credentials h0).
  rewrite extra_loop.
  2:{ intros [k' v] He%elem_of_range. apply (canonical_del_all _ _ Hc k' v He). }
  assert (Hdom : k ∈ (range_map (strip_credentials h0)).*1 <-> is_Some (strip_credentials h0 !! k)).
  { rewrite list_elem_of_fmap. split.
    - intros ([k' v] & -> & He%elem_of_range). by exists v.
    - intros [v Hv]. exists (k, v). split; [done|]. by apply elem_of_range. }
  pose proof (del_all_lookup ["Cookie"; "Authorization"; ImpersonateUserHeader; ImpersonateUIDHeader;
    ImpersonateGroupHeader] h0 k) as Hd. fold (strip_credentials h0) in Hd. unfold credential_header.
  destruct (decide (k ∈ map CanonicalHeaderKey _)) as [Hin|Hnin].
  - rewrite (decide_True (P := _ \/ _)) by auto. by destruct (decide _).
  - rewrite Hd in *. destruct (decide (strings_HasPrefix k ImpersonateUserExtraHeaderPrefix = true)) as [Hp|Hp].
    + rewrite (decide_True (P := _ \/ _)) by auto. destruct (h0 !! k) eqn:E; [|by destruct (decide _)].
      rewrite decide_True; [done|]. split; [by apply Hdom|done].
    + rewrite (decide_False (P := _ /\ _)) by tauto. by rewrite (decide_False (P := _ \/ _)) by tauto.
Qed.

Lemma stripped_lookup path req k :
  k <> "Cookie" -> k <> "Authorization" -> hq_Header (stripped path req) !! k = hq_Header req !! k.
Proof.
  intros H1 H2. unfold stripped, Header_Del. cbn [set_header set_URL hq_Header].
  by rewrite !lookup_delete_ne by (apply not_eq_sym; done).
Qed.

Lemma X_key (s : string) : s ∈ ["X-Forwarded-For"; "X-Forwarded-Host"; "X-Forwarded-Proto"] -> CanonicalHeaderKey s = s.
Proof. rewrite !elem_of_cons, elem_of_nil. intros [->|[->|[->|[]]]]; vm_compute; reflexivity. Qed.

Lemma SetXForwarded_header inr out k :
  hq_Header (SetXForwarded inr out) !! k =
    if decide (k = "X-Forwarded-Proto") then Some [if hq_TLS inr then "https" else "http"]
    else if decide (k = "X-Forwarded-Host") then Some [hq_Host inr]
    else if decide (k = "X-Forwarded-For") then
      match SplitHost (hq_RemoteAddr inr) with
      | Some ip => let prior := default [] (hq_Header out !! "X-Forwarded-For") in
          Some [if bool_decide (prior = []) then ip else strings_Join prior ", " +:+ ", " +:+ ip]
      | None => None
      end
    else hq_Header out !! k.
Proof.
  unfold SetXForwarded, Header_Set, Header_Del. cbn [set_header hq_Header].
  rewrite !X_key by set_solver.
  case_decide as H1; [subst; apply lookup_insert_eq|]. rewrite lookup_insert_ne by congruence.
  case_decide as H2; [subst; apply lookup_insert_eq|]. rewrite lookup_insert_ne by congruence.
  destruct (SplitHost _) as [ip|]; case_decide as H3; subst.
  - apply lookup_insert_eq.
  - by rewrite lookup_insert_ne by congruence.
  - apply lookup_delete_eq.
  - by rewrite lookup_delete_ne by congruence.
Qed.

Lemma canonical_insert (k : string) v (h : headers) : CanonicalHeaderKey k = k -> canonical h -> canonical (<[k := v]> h).
Proof. intros Hk Hc k' w [[<- _]|[_ Hw]]%lookup_insert_Some; [done|]. by apply (Hc k' w). Qed.

Lemma canonical_SetXForwarded inr out : canonical (hq_Header out) -> canonical (hq_Header (SetXForwarded inr out)).
Proof.
  intros Hc k v. rewrite SetXForwarded_header. intros Hk.
  repeat (case_decide; [apply X_key; set_solver|]). by apply (Hc k v).
Qed.

Lemma SetURL_run target out :
  SetURL target out = set_URL (mkPURL (pu_Scheme target) (pu_Host target) (joinURLPath target (hq_URL out)).1
    (joinURLPath target (hq_URL out)).2
    (if bool_decide (pu_RawQuery target = "") || bool_decide (pu_RawQuery (hq_URL out) = "")
     then pu_RawQuery target +:+ pu_RawQuery (hq_URL out)
     else pu_RawQuery target +:+ "&" +:+ pu_RawQuery (hq_URL out))) "" out.
Proof. unfold SetURL. by destruct (joinURLPath target (hq_URL out)). Qed.

Lemma SetURL_header target out : hq_Header (SetURL target out) = hq_Header out.
Proof. by rewrite SetURL_run. Qed.

(** What arrives at the API server under a key that is not a credential's. *)
Lemma sent_header path req k :
  canonical (hq_Header req) -> k <> "User-Agent" ->
  hq_Header (sent path req) !! k =
    if decide (credential_header k) then None
    else hq_Header (SetXForwarded (stripped path req) (set_header (fun h => <["X-Forwarded-For" :=
        default [] (hq_Header req !! "X-Forwarded-For")]> (prepare_header h)) (stripped path req))) !! k.
Proof.
  intros Hc Hk. unfold sent. rewrite outgoing_header by done. rewrite Rewrite_header.
  - rewrite !SetXForwarded_header. cbn [set_header set_URL hq_Header]. rewrite SetURL_header.
    by rewrite (stripped_lookup path req "X-Forwarded-For").
  - apply canonical_SetXForwarded.
    cbn [set_header set_URL hq_Header]. rewrite SetURL_header. apply canonical_insert; [apply X_key; set_solver|].
    apply canonical_prepare. unfold stripped. cbn [set_header set_URL hq_Header]. auto with hdr.
Qed.

(** C14. Nothing the client used to authenticate, and no identity it asks to be, reaches the API
    server: the request sent has no Cookie, no Authorization and no impersonation header, however
    the client spelled or repeated them. Every other end-to-end header arrives as it came, and
    X-Forwarded-For is what the client sent with the peer's address appended. *)
Theorem proxied_headers (path : string) (req : HttpRequest) :
  canonical (hq_Header req) ->
  let h := hq_Header (sent path req) in
  (forall k, credential_header k -> k <> "User-Agent" -> h !! k = None) /\
  (forall k, ~ credential_header k -> k ∉ connection_keys (hq_Header req) -> k <> "User-Agent" ->
     k <> "Cookie" -> k <> "Authorization" -> h !! k = hq_Header req !! k) /\
  (forall ip, SplitHost (hq_RemoteAddr req) = Some ip -> ~ credential_header "X-Forwarded-For" ->
     h !! "X-Forwarded-For" = Some [match default [] (hq_Header req !! "X-Forwarded-For") with
                                    | [] => ip | prior => (strings_Join prior ", " +:+ ", " +:+ ip)%string end]).
Proof.
  intros Hc h. unfold h. split_and!.
  - intros k Hk Hu. rewrite sent_header by done. by rewrite decide_True.
  - intros k Hk Hn Hu H1 H2. rewrite sent_header, decide_False by done.
    assert (Hfwd : k ∉ forwardingHeaders).
    { intros Hin. apply Hn. unfold connection_keys. rewrite !map_app, !elem_of_app. right. right.
      unfold forwardingHeaders in *. rewrite !elem_of_cons, elem_of_nil in Hin.
      destruct Hin as [->|[->|[->|[->|[]]]]]; apply (bool_decide_eq_true_1 _); vm_compute; reflexivity. }
    unfold forwardingHeaders in Hfwd. rewrite !not_elem_of_cons in Hfwd. destruct Hfwd as (_ & X1 & X2 & X3 & _).
    rewrite SetXForwarded_header, !decide_False by done. cbn [set_header hq_Header].
    rewrite lookup_insert_ne by congruence. rewrite prepare_header_lookup; [by apply stripped_lookup|].
    unfold connection_keys, connection_named in *. by rewrite (stripped_lookup path req "Connection").
  - intros ip Hip Hx. rewrite sent_header, decide_False by done.
    rewrite SetXForwarded_header, !decide_False, decide_True by done. cbn [set_header hq_Header].
    change (hq_RemoteAddr (stripped path req)) with (hq_RemoteAddr req). rewrite Hip, lookup_insert_eq.
    cbn [default]. by destruct (default [] (hq_Header req !! "X-Forwarded-For")).
Qed.

(** *** The URL *)

Lemma sent_URL path req :
  let u := hq_URL (sent path req) in
  let b := mkPURL (pu_Scheme (hq_URL req)) (pu_Host (hq_URL req)) path (pu_RawPath (hq_URL req))
             (cleanQueryParams (pu_RawQuery (hq_URL req))) in
  pu_Scheme u = pu_Scheme k8sServerURL /\ pu_Host u = pu_Host k8sServerURL /\ hq_Host (sent path req) = "" /\
  (pu_Path u, pu_RawPath u) = joinURLPath k8sServerURL b /\
  (pu_RawQuery k8sServerURL = "" -> pu_RawQuery u = pu_RawQuery b).
Proof.
  intros u b. unfold u, sent, outgoing, Rewrite, SetXForwarded.
  rewrite SetURL_run. cbn [set_header set_URL stripped hq_URL hq_Host pu_Scheme pu_Host pu_Path pu_RawPath pu_RawQuery].
  fold b. split_and!; try done; [by rewrite <- surjective_pairing|]. intros ->. by rewrite bool_decide_true.
Qed.

(** [joinURLPath] of a server URL without a raw path and a captured path: one slash between them,
    also when the client's raw path, which encodes a longer path, is still around. *)
Lemma join_captured a b rest :
  pu_RawPath a = "" -> pu_Path a <> "*" -> pu_Path b = String "/" rest ->
  unescape encodePath (pu_RawPath b) <> Some (String "/" rest) ->
  (joinURLPath a b).1 = (if ends_with "/" (pu_Path a) then pu_Path a +:+ rest else pu_Path a +:+ String "/" rest)%string.
Proof.
  intros Ha Hs Hb Hr. unfold joinURLPath. rewrite Ha, Hb. cbn [bool_decide andb].
  assert (Hp : forall s, strings_HasPrefix (String "/" s) "/" = true) by (intros s; by destruct s).
  destruct (bool_decide (pu_RawPath b = "")).
  - rewrite Hp. unfold join_slash. by destruct (ends_with "/" (pu_Path a)).
  - assert (Hea : EscapedPath "" (pu_Path a) = url_escape shouldEscape_path (pu_Path a))
      by (unfold EscapedPath; cbn [bool_decide negb andb]; by rewrite decide_False).
    assert (Heb : EscapedPath (pu_RawPath b) (String "/" rest) = String "/" (url_escape shouldEscape_path rest)).
    { unfold EscapedPath. rewrite (bool_decide_false (unescape _ _ = _)) by done. rewrite andb_false_r.
      by rewrite decide_False by done. }
    rewrite Hea, Heb, ends_with_escape by (vm_compute; reflexivity). rewrite Hp. unfold join_slash.
    by destruct (ends_with "/" (pu_Path a)).
Qed.

(** The proxy asks the API server for the path the route captured: under the server's own URL,
    with exactly one slash between the server's path and it, whatever raw path the client's URL
    carried; and the server decodes the path on the wire to just that path, so no encoding of the
    client's survives to be read differently. *)
Theorem proxied_url (path rest pre : string) (req : HttpRequest) :
  path = String "/" rest -> pre <> "" ->
  pu_RawPath k8sServerURL = "" -> pu_Path k8sServerURL <> "*" -> pu_RawQuery k8sServerURL = "" ->
  pu_RawPath (hq_URL req) = "" \/ unescape encodePath (pu_RawPath (hq_URL req)) = Some (pre +:+ path)%string ->
  let u := hq_URL (sent path req) in
  pu_Scheme u = pu_Scheme k8sServerURL /\ pu_Host u = pu_Host k8sServerURL /\ hq_Host (sent path req) = "" /\
  pu_Path u = (if ends_with "/" (pu_Path k8sServerURL) then pu_Path k8sServerURL +:+ rest
               else pu_Path k8sServerURL +:+ path)%string /\
  unescape encodePath (EscapedPath (pu_RawPath u) (pu_Path u)) = Some (pu_Path u) /\
  pu_RawQuery u = cleanQueryParams (pu_RawQuery (hq_URL req)).
Proof.
  intros -> Hpre Ha Hs Hq Hraw u. destruct (sent_URL (String "/" rest) req) as (E1 & E2 & E3 & E4 & E5). fold u in E1, E2, E4, E5.
  set (b := mkPURL _ _ _ _ _) in *. split_and!; try done.
  - change (pu_Path u) with ((pu_Path u, pu_RawPath u).1). rewrite E4. apply join_captured; try done.
    cbn [b pu_RawPath]. destruct Hraw as [->| ->]; [done|]. intros E. injection E as E.
    apply (f_equal String.length) in E. rewrite string_length_app in E. destruct pre; [done|]. cbn in E. lia.
  - apply unescape_EscapedPath.
  - by apply E5.
Qed.

(** *** The session *)

(** A request without an identity is not sent. *)
Lemma GetK8s_anonymous path req h :
  h_world (exec (GetK8s None path req) h) = h_world h /\
  h_out (exec (GetK8s None path req) h) = h_out h ++
    [LogErr "K8s proxy error: http: proxy error: request is not authenticated"; Status StatusBadGateway].
Proof.
  destruct h as [[w k c l] out].
  split; unfold exec, GetK8s, ServeHTTP, RoundTrip; rewrite bind_run, lift_run; [done|run_effects].
Qed.

Lemma GetK8s_run ra path req h rt status rest :
  let use := TransportForRequest f (Some ra) in
  let w := sv_store (h_world h) in
  eval use w = Ok rt -> k8s_Do (ks_calls (sv_kube (h_world h))) rt (sent path req) = Ok (status, rest) ->
  GetK8s (Some ra) path req h =
    (tt, mkH (mkSrv (if status =? StatusUnauthorized then exec (Invalidate ra) (exec use w) else exec use w)
                (exec (kube_call (fun _ => tt)) (sv_kube (h_world h))) (sv_cache (h_world h)) (sv_limiter (h_world h)))
           (h_out h ++ [Data status "" rest])).
Proof.
  intros use w Ht Hd.
  assert (HR : RoundTrip (Some ra) (sent path req) (h_world h) = (Ok (status, rest),
    mkSrv (exec use w) (exec (kube_call (fun _ => tt)) (sv_kube (h_world h)))
      (sv_cache (h_world h)) (sv_limiter (h_world h)))).
  { unfold RoundTrip. srv_step. fold use. unfold eval, w in Ht. rewrite Ht, on_kube_run. unfold kube_call.
    cbn [fst snd sv_store sv_kube sv_cache sv_limiter]. by rewrite Hd. }
  unfold GetK8s, ServeHTTP. fold (sent path req). rewrite bind_run, lift_run, HR. cbn [fst snd].
  rewrite bind_run, lift_run. unfold ModifyResponse, when.
  destruct (status =? StatusUnauthorized); [rewrite on_store_run|]; done.
Qed.

(** The session itself is still there once its transport was looked up, in a store that is well formed. *)
Lemma use_ok {L : StoreLaws S} ra o s w :
  store_ok w -> ra_session ra = Some o -> w_objs w !! o = Some s ->
  let w1 := exec (TransportForRequest f (Some ra)) w in
  store_ok w1 /\ exists s1, w_objs w1 !! o = Some s1 /\ s_id s1 = s_id s.
Proof.
  intros Hok Hr Hs w1. split; [|by apply (session_after_transport ra o (transportKey f) (TransportFor f) s)].
  unfold w1, TransportForRequest, ra_TransportFor. rewrite Hr. by apply store_ok_transportFor.
Qed.

(** The proxy ends a session exactly when the API server rejects its credential: the request is
    sent once, through the transport of the caller's own credential, and the answer is passed on;
    after a 401 the session is gone and nothing keeps a request of it alive, and after any other
    answer, a 403 included, the store is as the transport lookup left it. *)
Theorem GetK8s_session {L : StoreLaws S} (ra : RequestAuth) (o : nat) (s : Session) (path : string)
    (req : HttpRequest) (h : HState SrvState) (rt : RoundTripper) (status : Z) (rest : string) :
  let use := TransportForRequest f (Some ra) in
  store_ok (sv_store (h_world h)) -> ra_session ra = Some o -> w_objs (sv_store (h_world h)) !! o = Some s ->
  eval use (sv_store (h_world h)) = Ok rt ->
  k8s_Do (ks_calls (sv_kube (h_world h))) rt (sent path req) = Ok (status, rest) ->
  let h' := exec (GetK8s (Some ra) path req) h in
  let w' := sv_store (h_world h') in
  ks_calls (sv_kube (h_world h')) = Datatypes.S (ks_calls (sv_kube (h_world h))) /\
  h_out h' = h_out h ++ [Data status "" rest] /\
  if decide (status = StatusUnauthorized) then
    eval (store_Peek (s_id s)) w' = None /\ eval (KeepAlive ra) w' = false
  else w' = exec use (sv_store (h_world h)).
Proof.
  intros use Hok Hr Hs Ht Hd h' w'. pose proof (GetK8s_run ra path req h rt status rest Ht Hd) as Hrun. fold use in Hrun.
  unfold w'. replace h' with (GetK8s (Some ra) path req h).2 by done. rewrite Hrun. cbn [snd h_world h_out sv_store sv_kube].
  split; [done|]. split; [done|]. destruct (use_ok ra o s _ Hok Hr Hs) as (Hok1 & s1 & Hs1 & Hid).
  destruct (Z.eqb_spec status StatusUnauthorized) as [E|E];
    [rewrite decide_True by done|by rewrite decide_False by done].
  rewrite (Invalidate_run ra o s1) by done. rewrite <- Hid.
  split; [by apply store_Delete_Peek|]. by destruct (KeepAlive_deleted ra o s1 _ Hok1 Hr Hs1).
Qed.
End Proxy.
