(* ===== verification/Server.v ===== *)
(** * The HTTP server ([pkg/server/server.go], [pkg/server/api/server.go])

    What [NewServer] makes of the configuration, the routes it registers with their middlewares, and
    how a request goes through the chain of its route. Matching a URL to a route is gin's; what a
    route's handler does is an argument of [serve]. *)
From S2P Require Import Prelude.
From S2P Require Import GoStrings.
From S2P Require Import GoUrl.
From S2P Require Import Http.
From S2P Require Import Lru.
From S2P Require Import RateLimit.
From S2P Require Import Session.
From S2P Require Import SessionStore.
From S2P Require Import SessionContext.
From S2P Require Import K8sCred.
From S2P Require Import Authn.
From S2P Require Import Oidc.
From S2P Require Import Auth.
From S2P Require Import Config.

(** ** Routes *)

Inductive api_handler :=
| h_healthz | h_version | h_FrontendSettings | h_GetPluginsIndex | h_GetPluginFile
| h_CreateTraceflowRequest | h_GetTraceflowRequestStatus | h_TraceflowRedirect
| h_GetTraceflowRequestResult | h_DeleteTraceflowRequest
| h_UpdatePassword | h_GetK8s | h_GetFeatureGates | h_flowStreamDisabled | h_StreamFlows
| h_GetAccessSummary.

Inductive handler := h_api (h : api_handler) | h_auth (h : route_handler).

(** The middlewares of the login routes are those of [Auth]. *)
Inductive mw := mw_authenticate | mw_TraceflowLimit | mw_auth (m : middleware).

#[export] Instance api_handler_eq_dec : EqDecision api_handler.
Proof. solve_decision. Defined.
#[export] Instance route_handler_eq_dec : EqDecision route_handler.
Proof. solve_decision. Defined.
#[export] Instance middleware_eq_dec : EqDecision middleware.
Proof. solve_decision. Defined.
#[export] Instance handler_eq_dec : EqDecision handler.
Proof. solve_decision. Defined.
#[export] Instance mw_eq_dec : EqDecision mw.
Proof. solve_decision. Defined.

Record route := mkRoute { rt_Method : string; rt_Path : string; rt_Chain : list mw; rt_Handler : handler }.

(** gin's [RouterGroup]: a path prefix, and the middlewares of every route added to the group. *)
Record RouterGroup := mkGroup { g_basePath : string; g_Handlers : list mw }.

Definition Group (path : string) (g : RouterGroup) : RouterGroup :=
  mkGroup (g_basePath g +:+ path) (g_Handlers g).
Definition Use (m : mw) (g : RouterGroup) : RouterGroup := mkGroup (g_basePath g) (g_Handlers g ++ [m]).
Definition Handle (method path : string) (ms : list mw) (h : handler) (g : RouterGroup) : route :=
  mkRoute method (g_basePath g +:+ path) (g_Handlers g ++ ms) h.
Notation GET path ms h := (Handle "GET" path ms (h_api h)).

(** ** The servers *)

(** [api.Server]: what of its fields the routes and handlers depend on. *)
Record ApiServer := mkApiServer {
  api_flowStreamSSEHandler : bool;
  api_passwordStore : bool;
  api_MaxTraceflowsPerHour : Z;
  api_frontendSettings : FrontendSettings;
}.

Definition api_NewServer (version : string) (c : Config) (flowStream passwordStore : bool) : ApiServer :=
  mkApiServer flowStream passwordStore (c_MaxTraceflowsPerHour c) (buildFrontendSettingsFromConfig version c).

Record Server := mkServer { s_config : serverConfig; s_apiServer : ApiServer; s_authenticator : Authenticator }.

Section Server.
Context `{P : Platform} {S : Store} {V : CredentialValidator} `{L : Limiter} `{C1 : LRU nat}
  `{BC : LRU bearerCacheEntry} `{GoIP} `{N : GoNet} `{C : Crypto} `{K : !KubeLib} `{O : OIDCLib}.

(** [NewServer]: the only error is the authenticator's. *)
Definition NewServer (version : string) (c : Config) (adminUserName : string)
    (validator devMode flowStream passwordStore : bool) : result string Server :=
  match Authenticator_New (authn_config c validator devMode) with
  | Err e => Err e
  | Ok a => Ok (mkServer (server_config c adminUserName) (api_NewServer version c flowStream passwordStore) a)
  end.

Lemma NewServer_fields version c admin v d f p s :
  NewServer version c admin v d f p = Ok s ->
  s_config s = server_config c admin /\ s_apiServer s = api_NewServer version c f p /\
  a_config (s_authenticator s) = authn_config c v d.
Proof.
  unfold NewServer. destruct (Authenticator_New _) as [a|e] eqn:E; [|done]. intros [= <-]. split_and!; try done.
  cbn [s_authenticator]. revert E. unfold Authenticator_New. repeat case_match; intros [= <-]; done.
Qed.

Definition AddPluginsRoutes (r : RouterGroup) : list route :=
  let r := Group "/plugins" r in
  [GET "/index.json" [] h_GetPluginsIndex r; GET "/:name/*filepath" [] h_GetPluginFile r].

(** The limiter of [AddTraceflowRoutes]: none for a negative limit; [Some None] is the panic. *)
Definition tfRateLimiter (s : ApiServer) : option (option GlobalRateLimiter) :=
  if 0 <=? api_MaxTraceflowsPerHour s then
    let burst := if 0 <? api_MaxTraceflowsPerHour s then 10 else 0 in
    match NewGlobalRateLimiter (itoa (api_MaxTraceflowsPerHour s) +:+ "/h") burst with
    | Err _ => Some None
    | Ok l => Some (Some l)
    end
  else None.

Definition AddTraceflowRoutes (limited : bool) (r : RouterGroup) : list route :=
  let r := Use mw_authenticate (Group "/traceflow" r) in
  let createTfHandlers := if limited then [mw_TraceflowLimit] else [] in
  [Handle "POST" "" createTfHandlers (h_api h_CreateTraceflowRequest) r;
   GET "/:requestId/status" [] h_GetTraceflowRequestStatus r;
   GET "/:requestId" [] h_TraceflowRedirect r;
   GET "/:requestId/result" [] h_GetTraceflowRequestResult r;
   Handle "DELETE" "/:requestId" [] (h_api h_DeleteTraceflowRequest) r].

Definition AddAccountRoutes (s : ApiServer) (r : RouterGroup) : list route :=
  if negb (api_passwordStore s) then []
  else let r := Use mw_authenticate (Group "/account" r) in
       [Handle "PUT" "/password" [] (h_api h_UpdatePassword) r].

Definition AddK8sRoutes (r : RouterGroup) : list route :=
  let r := Use mw_authenticate (Group "/k8s" r) in [GET "/*path" [] h_GetK8s r].

Definition AddFlowStreamRoutes (s : ApiServer) (r : RouterGroup) : list route :=
  let flows := Use mw_authenticate (Group "/flows" r) in
  if negb (api_flowStreamSSEHandler s) then [GET "/stream" [] h_flowStreamDisabled flows]
  else [GET "/stream" [] h_StreamFlows flows].

Definition AddAccessRoutes (r : RouterGroup) : list route :=
  [GET "/access-summary" [mw_authenticate] h_GetAccessSummary r].

(** [AddRoutes] of the API server. *)
Definition api_AddRoutes (s : ApiServer) (limited : bool) (r : RouterGroup) : list route :=
  let apiv1 := Group "/api/v1" r in
  [GET "/version" [] h_version apiv1; GET "/settings" [] h_FrontendSettings apiv1] ++
  AddPluginsRoutes apiv1 ++ AddTraceflowRoutes limited apiv1 ++ AddAccountRoutes s apiv1 ++
  AddK8sRoutes apiv1 ++ [GET "/featuregates" [mw_authenticate] h_GetFeatureGates apiv1] ++
  AddFlowStreamRoutes s apiv1 ++ AddAccessRoutes apiv1.

Definition root : RouterGroup := mkGroup "" [].

Definition auth_route (r : string * string * list middleware * route_handler) : route :=
  let '(method, path, ms, h) := r in mkRoute method path (map mw_auth ms) (h_auth h).

(** The limiters the registered middlewares hold; [None] inside is a limiter that was not asked for. *)
Record Limits := mkLimits { lm_login : option ClientRateLimiter; lm_traceflow : option GlobalRateLimiter }.

Definition asked {A} (limiter : option A) : bool := match limiter with Some _ => true | None => false end.

Definition server_routes (s : Server) (tf : bool) : list route :=
  GET "/healthz" [] h_healthz root ::
  api_AddRoutes (s_apiServer s) tf root ++ map auth_route (auth_routes (s_config s)).

(** [AddRoutes] of the server: the routes and the limiters, or [None] for the panic. *)
Definition AddRoutes (s : Server) : option (list route * Limits) :=
  match tfRateLimiter (s_apiServer s), loginRateLimiter (s_config s) with
  | Some None, _ | _, Some None => None
  | tf, login => Some (server_routes s (asked tf), mkLimits (mjoin login) (mjoin tf))
  end.

(** ** Serving a request *)

Definition flowStreamDisabled_error : string :=
  "Flow Aggregator integration is not enabled for this Antrea UI instance (set flowAggregator.enabled in the Helm chart).".
Definition flowStreamDisabled {W} : ST (HState W) unit :=
  emit (JSON StatusNotImplemented ("{" +:+ quote "error" +:+ ":" +:+ quote flowStreamDisabled_error +:+ "}")).

(** The handlers that [AddRoutes] and [AddTraceflowRoutes] write in place. *)
Definition healthz {W} : ST (HState W) unit := emit (Status StatusOK).
Definition TraceflowRedirect {W} (path : string) : ST (HState W) unit :=
  emit (Redirect StatusSeeOther (path +:+ "/status")).

(** A request's body: what a reader of it gets, and whether it then fails instead of ending. *)
Record Body := mkBody { b_bytes : string; b_fails : bool }.

(** [http.MaxBytesReader]. *)
Definition MaxBytesReader (n : Z) (b : Body) : Body :=
  if n <? Z.of_nat (String.length (b_bytes b)) then mkBody (String.substring 0 (Z.to_nat n) (b_bytes b)) true else b.

(** What the handlers of a chain pass on through the request's context. *)
Record Context := mkContext { cx_RequestAuth : option RequestAuth; cx_Body : Body }.

(** [Attach] of the authenticator, which leaves the identity in the context, and the lookups that
    find it there ([RequestAuthFromGin], [session.RequestAuthFrom]). *)
Definition Attach (ra : RequestAuth) (cx : Context) : Context := mkContext (Some ra) (cx_Body cx).
Definition RequestAuthFrom (cx : Context) : option RequestAuth := cx_RequestAuth cx.

(** The two gates against cross-origin requests: for API calls, and for navigations. *)
Definition CSRFMiddleware (auth : Authenticator) (req : Request) : ST (HState SrvState) bool :=
  csrfMiddleware auth req false.
Definition NavigationCSRFMiddleware (auth : Authenticator) (req : Request) : ST (HState SrvState) bool :=
  csrfMiddleware auth req true.

Record ServerState := mkServerState { ss_srv : SrvState; ss_limits : Limits }.

Local Notation HM := (ST (HState ServerState)).

Definition on_srv {A} (m : ST (HState SrvState) A) : HM A := fun h =>
  let '(a, h') := m (mkH (ss_srv (h_world h)) (h_out h)) in
  (a, mkH (mkServerState (h_world h') (ss_limits (h_world h))) (h_out h')).

(** A nil limiter would be a nil dereference, which gin's [Recovery] answers with a 500. *)
Definition limit_with {R} `{RateLimiter R} (get : Limits -> option R) (put : R -> Limits -> Limits)
    (req : Request) : HM bool := fun h =>
  let lm := ss_limits (h_world h) in
  match get lm with
  | None => (false, mkH (h_world h) (h_out h ++ [Status StatusInternalServerError; Abort]))
  | Some l =>
      let '(t, w) := now (sv_store (ss_srv (h_world h))) in
      let srv := ss_srv (h_world h) in
      let '(ok, h') := Middleware t req (mkH l (h_out h)) in
      (ok, mkH (mkServerState (mkSrv w (sv_kube srv) (sv_cache srv) (sv_limiter srv)) (put (h_world h') lm)) (h_out h'))
  end.

(** One middleware: the context the rest of the chain runs with, or [None] when it is cut. *)
Definition run_mw (auth : Authenticator) (m : mw) (req : Request) (cx : Context) : HM (option Context) :=
  let continue (ok : bool) := if ok then Some cx else None in
  match m with
  | mw_authenticate =>
      ra ← on_srv (authn_Middleware auth req);
      mret ((fun ra => Attach ra cx) <$> ra)
  | mw_TraceflowLimit =>
      ok ← limit_with lm_traceflow (fun l lm => mkLimits (lm_login lm) (Some l)) req; mret (continue ok)
  | mw_auth mw_CSRF => ok ← on_srv (CSRFMiddleware auth req); mret (continue ok)
  | mw_auth mw_NavigationCSRF => ok ← on_srv (NavigationCSRFMiddleware auth req); mret (continue ok)
  | mw_auth (mw_LimitBody n) => mret (Some (mkContext (cx_RequestAuth cx) (MaxBytesReader n (cx_Body cx))))
  | mw_auth mw_RateLimit =>
      ok ← limit_with lm_login (fun l lm => mkLimits (Some l) (lm_traceflow lm)) req; mret (continue ok)
  end.

Fixpoint run_chain (auth : Authenticator) (ms : list mw) (req : Request) (cx : Context) : HM (option Context) :=
  match ms with
  | [] => mret (Some cx)
  | m :: ms =>
      r ← run_mw auth m req cx;
      match r with Some cx => run_chain auth ms req cx | None => mret None end
  end.

(** A request on a route: its chain, then its handler, which [run] gives. *)
Definition serve (auth : Authenticator) (run : handler -> Request -> Context -> HM unit)
    (rt : route) (req : Request) (body : Body) : HM unit :=
  cx ← run_chain auth (rt_Chain rt) req (mkContext None body);
  match cx with Some cx => run (rt_Handler rt) req cx | None => mret tt end.
(** ** Properties *)

(** The handlers that act for a user. *)
Definition needs_identity (h : handler) : bool :=
  match h with
  | h_api (h_healthz | h_version | h_FrontendSettings | h_GetPluginsIndex | h_GetPluginFile) => false
  | h_api _ => true
  | h_auth _ => false
  end.

Definition is_login (h : handler) : bool :=
  match h with h_auth (h_Login | h_LoginWithToken | h_LoginWithKubeconfig) => true | _ => false end.

Definition login_chain (limited : bool) : list mw :=
  [mw_auth mw_CSRF; mw_auth (mw_LimitBody maxLoginBodySize)] ++ (if limited then [mw_auth mw_RateLimit] else []).

Definition traceflow_chain (limited : bool) : list mw :=
  mw_authenticate :: if limited then [mw_TraceflowLimit] else [].

(** What the chain of a route must be, given the limiters there are. *)
Definition chain_ok (login traceflow : bool) (rt : route) : Prop :=
  rt_Chain rt =
    if needs_identity (rt_Handler rt) then
      if decide (rt_Handler rt = h_api h_CreateTraceflowRequest) then traceflow_chain traceflow
      else [mw_authenticate]
    else if is_login (rt_Handler rt) then login_chain login
    else if decide (rt_Handler rt = h_auth h_Logout) then
      [mw_auth (if decide (rt_Method rt = "GET") then mw_NavigationCSRF else mw_CSRF)]
    else [].

#[local] Instance chain_ok_dec login traceflow rt : Decision (chain_ok login traceflow rt).
Proof. unfold chain_ok. apply _. Defined.

Definition route_key (rt : route) : string * string := (rt_Method rt, rt_Path rt).

Lemma api_routes_ok s tf login :
  Forall (chain_ok login tf) (GET "/healthz" [] h_healthz root :: api_AddRoutes s tf root) /\
  NoDup (map route_key (api_AddRoutes s tf root)) /\
  Forall (fun k => strings_HasPrefix k.2 "/api/v1/" = true) (map route_key (api_AddRoutes s tf root)).
Proof.
  destruct s as [[] [] n fe]; destruct tf, login;
    (split_and!; [|apply (bool_decide_unpack _); vm_compute; exact I..];
     apply (bool_decide_unpack _); vm_compute; exact I).
Qed.

Lemma auth_routes_ok c tf :
  Forall (chain_ok (asked (loginRateLimiter c)) tf) (map auth_route (auth_routes c)) /\
  NoDup (map route_key (map auth_route (auth_routes c))) /\
  Forall (fun k => strings_HasPrefix k.2 "/auth/" = true) (map route_key (map auth_route (auth_routes c))).
Proof.
  unfold auth_routes. cbn zeta.
  destruct (loginRateLimiter c), (BasicAuthEnabled c), (OIDCAuthEnabled c), (KubeconfigAuthEnabled c),
    (SATokenAuthEnabled c), tf; cbn [app];
    split_and!; apply (bool_decide_unpack _); vm_compute; exact I.
Qed.

Lemma server_routes_ok s tf :
  Forall (chain_ok (asked (loginRateLimiter (s_config s))) tf) (server_routes s tf) /\
  NoDup (map route_key (server_routes s tf)).
Proof.
  destruct (api_routes_ok (s_apiServer s) tf (asked (loginRateLimiter (s_config s)))) as (O1 & N1 & P1).
  destruct (auth_routes_ok (s_config s) tf) as (O2 & N2 & P2). unfold server_routes. split.
  { rewrite app_comm_cons. by apply Forall_app. }
  cbn [map]. rewrite map_app. rewrite Forall_forall in P1, P2. apply NoDup_cons. split.
  - intros [Hin%P1|Hin%P2]%elem_of_app; vm_compute in Hin; discriminate Hin.
  - apply NoDup_app. split_and!; [done| |done]. intros [m p] H1%P1 H2%P2. clear -H1 H2.
    cbn [snd] in H1, H2. destruct p as [|c [|c2 p]]; [done|..]; unfold strings_HasPrefix in *; cbn in H1, H2;
      repeat case_match; congruence.
Qed.

(** Whether what a handler works on was configured. *)
Definition available (s : Server) (h : handler) : bool :=
  match h with
  | h_api h_UpdatePassword => api_passwordStore (s_apiServer s)
  | h_api h_StreamFlows => api_flowStreamSSEHandler (s_apiServer s)
  | h_api h_flowStreamDisabled => negb (api_flowStreamSSEHandler (s_apiServer s))
  | h_auth h_Login => BasicAuthEnabled (s_config s)
  | h_auth h_LoginWithToken => SATokenAuthEnabled (s_config s)
  | h_auth h_LoginWithKubeconfig => KubeconfigAuthEnabled (s_config s)
  | h_auth (h_OAuth2Login | h_OAuth2Callback) => OIDCAuthEnabled (s_config s)
  | _ => true
  end.

Lemma server_routes_handlers s tf h :
  bool_decide (h ∈ map rt_Handler (server_routes s tf)) = available s h.
Proof.
  unfold server_routes, auth_routes. cbn zeta.
  destruct s as [[b o n k t cs ml au] [fs pw mt fe] a]. unfold available.
  cbn [s_config s_apiServer BasicAuthEnabled OIDCAuthEnabled KubeconfigAuthEnabled SATokenAuthEnabled
       api_passwordStore api_flowStreamSSEHandler].
  generalize (match loginRateLimiter (mkServerConfig b o n k t cs ml au) with Some _ => true | None => false end).
  intros limited. destruct b, o, k, t, fs, pw, h as [[]|[]]; vm_compute; reflexivity.
Qed.

Lemma tfRateLimiter_built s :
  api_MaxTraceflowsPerHour s <= int64_max ->
  match tfRateLimiter s with
  | None => api_MaxTraceflowsPerHour s < 0
  | Some None => False
  | Some (Some l) =>
      let n := api_MaxTraceflowsPerHour s in 0 <= n /\
      g_rl l = NewLimiter (float64_div (float64_of_Z n) (float64_of_Z 3600)) (if 0 <? n then 10 else 0)
  end.
Proof.
  unfold tfRateLimiter, int64_max. intros Hmax.
  destruct (Z.leb_spec 0 (api_MaxTraceflowsPerHour s)); [|lia].
  unfold NewGlobalRateLimiter, newConfig. rewrite rateFromStr_hours by lia.
  set (burst := if 0 <? api_MaxTraceflowsPerHour s then 10 else 0).
  by rewrite (proj2 (Z.ltb_ge burst 0)) by (unfold burst; destruct (_ <? _); lia).
Qed.

(** The limiters are always built, so the routes are registered, no two alike. *)
Lemma AddRoutes_total s :
  api_MaxTraceflowsPerHour (s_apiServer s) <= int64_max -> MaxLoginsPerSecond (s_config s) <= int64_max ->
  exists routes lm, AddRoutes s = Some (routes, lm) /\ NoDup (map route_key routes) /\
    (lm_login lm = None <-> MaxLoginsPerSecond (s_config s) < 0) /\
    (lm_traceflow lm = None <-> api_MaxTraceflowsPerHour (s_apiServer s) < 0).
Proof.
  intros Ht Hl. pose proof (tfRateLimiter_built (s_apiServer s) Ht) as T.
  pose proof (login_limiter_built (s_config s) Hl) as B. pose proof (server_routes_ok s) as R.
  unfold AddRoutes. destruct (tfRateLimiter (s_apiServer s)) as [[t|]|], (loginRateLimiter (s_config s)) as [[l|]|];
    try done; cbn [asked] in *;
    (do 2 eexists; split; [reflexivity|]; cbn [lm_login lm_traceflow mjoin option_join asked];
     split; [apply R|]; naive_solver lia).
Qed.

Lemma route_chain s routes lm rt :
  AddRoutes s = Some (routes, lm) -> rt ∈ routes -> chain_ok (asked (lm_login lm)) (asked (lm_traceflow lm)) rt.
Proof.
  unfold AddRoutes. intros Hadd Hin. destruct (server_routes_ok s (asked (lm_traceflow lm))) as [Hok _].
  rewrite Forall_forall in Hok. specialize (Hok rt).
  destruct (tfRateLimiter (s_apiServer s)) as [[t|]|], (loginRateLimiter (s_config s)) as [[l|]|];
    try done; injection Hadd as <- <-; by apply Hok.
Qed.

(** C13. Every route is guarded, whatever the configuration: the server registers its routes without
    a panic and no method and path twice; a handler that acts for a user runs behind the
    authentication middleware, and creating a Traceflow then behind its limiter; a login runs
    behind the cross-origin gate, the body limit and the login limiter, in that order, and a logout
    behind the gate of its method; no other route has a middleware. There is a limiter exactly
    where the configured limit is not negative. *)
Theorem routes_guarded (s : Server) :
  api_MaxTraceflowsPerHour (s_apiServer s) <= int64_max -> MaxLoginsPerSecond (s_config s) <= int64_max ->
  exists routes lm, AddRoutes s = Some (routes, lm) /\
    NoDup (map route_key routes) /\
    (forall rt, rt ∈ routes ->
       chain_ok (asked (lm_login lm)) (asked (lm_traceflow lm)) rt) /\
    (lm_login lm = None <-> MaxLoginsPerSecond (s_config s) < 0) /\
    (lm_traceflow lm = None <-> api_MaxTraceflowsPerHour (s_apiServer s) < 0).
Proof.
  intros Ht Hl. destruct (AddRoutes_total s Ht Hl) as (routes & lm & Ha & Hn & Hlim). exists routes, lm.
  split; [exact Ha|]. split; [exact Hn|]. split; [|exact Hlim]. intros rt. by apply route_chain with s.
Qed.

(** *** Running a chain *)

Lemma on_srv_run {A} (m : ST (HState SrvState) A) (h : HState ServerState) :
  let r := m (mkH (ss_srv (h_world h)) (h_out h)) in
  on_srv m h = (r.1, mkH (mkServerState (h_world r.2) (ss_limits (h_world h))) (h_out r.2)).
Proof. unfold on_srv. by destruct (m _). Qed.

(** What a middleware that refuses a request sends and logs. *)
Definition refusal (e : ServerError) (msg : string) : list effect :=
  error_effects e ++
  (match se_Err e with Some m => [LogErr (msg +:+ ": " +:+ m)] | None => [] end) ++ [Abort].

Lemma refuse_run {W A} e msg (a : A) (h : HState W) :
  (HandleError e;; LogError (Some e) msg;; emit Abort;; mret a) h =
  (a, mkH (h_world h) (h_out h ++ refusal e msg)).
Proof.
  rewrite bind_run, HandleError_run. unfold refusal, LogError, emit.
  destruct (se_Err e); run_effects.
Qed.

Lemma authn_Middleware_run auth req h :
  authn_Middleware auth req h =
  match Resolve auth req h with
  | (Ok ra, h') => (Some ra, h')
  | (Err e, h') => (None, mkH (h_world h') (h_out h' ++ refusal e "Failed to authenticate request"))
  end.
Proof. unfold authn_Middleware. rewrite bind_run. destruct (Resolve auth req h) as [[ra|e] h']; [done|]. apply refuse_run. Qed.

Lemma csrfMiddleware_run auth req nav h :
  csrfMiddleware auth req nav h =
  match checkCrossOrigin auth req nav with
  | Some e => (false, mkH (h_world h) (h_out h ++ refusal e "Rejected cross-origin request"))
  | None => (true, h)
  end.
Proof. unfold csrfMiddleware. destruct (checkCrossOrigin auth req nav); [apply refuse_run|done]. Qed.

(** A limiter's verdict: only the limiter and the clock moved. *)
Lemma limit_with_run {R} `{RateLimiter R} get (put : R -> Limits -> Limits) req h l :
  get (ss_limits (h_world h)) = Some l ->
  let srv := ss_srv (h_world h) in
  let verdict := rl_Allow (clock_Now (w_ticks (sv_store srv))) req l in
  limit_with get put req h =
  (verdict.1, mkH (mkServerState (exec (on_store now) srv) (put verdict.2 (ss_limits (h_world h))))
     (h_out h ++ if verdict.1 then [] else [Status StatusTooManyRequests; Abort])).
Proof.
  intros Hl srv verdict. unfold limit_with. rewrite Hl. cbn zeta.
  unfold exec. rewrite on_store_run. unfold now at 1. unfold Middleware. rewrite bind_run, lift_run. cbn [h_world h_out snd].
  fold srv verdict. destruct verdict as [[] l']; [by cbn; rewrite app_nil_r|run_effects].
Qed.

Lemma serve_run auth run rt req body h :
  serve auth run rt req body h =
  match run_chain auth (rt_Chain rt) req (mkContext None body) h with
  | (Some cx, h') => run (rt_Handler rt) req cx h'
  | (None, h') => (tt, h')
  end.
Proof. unfold serve. rewrite bind_run. by destruct (run_chain _ _ _ _ h) as [[cx|] h']. Qed.

Lemma run_chain_cons auth m ms req cx h :
  run_chain auth (m :: ms) req cx h =
  match run_mw auth m req cx h with
  | (Some cx', h') => run_chain auth ms req cx' h'
  | (None, h') => (None, h')
  end.
Proof. cbn [run_chain]. rewrite bind_run. by destruct (run_mw auth m req cx h) as [[cx'|] h']. Qed.

(** The part of the state the handlers of [Authn] see. *)
Definition srv_part (h : HState ServerState) : HState SrvState := mkH (ss_srv (h_world h)) (h_out h).

(** The limit on Traceflows, for the handler that is behind it. *)
Definition traceflow_limit (h : handler) (lm : Limits) : option GlobalRateLimiter :=
  if decide (h = h_api h_CreateTraceflowRequest) then lm_traceflow lm else None.

(** A route behind the authentication middleware, with the rest of its chain. *)
Lemma serve_authenticated auth run rt ms req body hs :
  rt_Chain rt = mw_authenticate :: ms ->
  let '(who, h1) := Resolve auth req (srv_part hs) in
  let h' := mkH (mkServerState (h_world h1) (ss_limits (h_world hs))) (h_out h1) in
  serve auth run rt req body hs =
  match who with
  | Err e => (tt, mkH (h_world h') (h_out h1 ++ refusal e "Failed to authenticate request"))
  | Ok ra => match run_chain auth ms req (mkContext (Some ra) body) h' with
             | (Some cx, h2) => run (rt_Handler rt) req cx h2
             | (None, h2) => (tt, h2)
             end
  end.
Proof.
  intros Hc. destruct (Resolve _ _ _) as [who h1] eqn:Hr. rewrite serve_run, Hc, run_chain_cons.
  cbn [run_mw]. rewrite bind_run, on_srv_run, authn_Middleware_run. fold (srv_part hs). rewrite Hr. by destruct who.
Qed.

(** C6. No handler that acts for a user runs without an identity, and it runs with exactly the one
    [Resolve] found: when there is none, the error is answered, the rest of the server is as
    resolving left it, neither the login nor the Traceflow limit was charged, and the handler was
    not run; a request to create a Traceflow is then charged to its limit, and answered 429 without
    running the handler when the limit is reached. *)
Theorem identity_gate (s : Server) (routes : list route) (lm : Limits) (rt : route)
    (run : handler -> Request -> Context -> HM unit) (req : Request) (body : Body) (hs : HState ServerState) :
  AddRoutes s = Some (routes, lm) -> rt ∈ routes -> needs_identity (rt_Handler rt) = true ->
  asked (lm_traceflow (ss_limits (h_world hs))) = asked (lm_traceflow lm) ->
  let '(who, h1) := Resolve (s_authenticator s) req (srv_part hs) in
  let limits := ss_limits (h_world hs) in
  exec (serve (s_authenticator s) run rt req body) hs =
  match who with
  | Err e => mkH (mkServerState (h_world h1) limits) (h_out h1 ++ refusal e "Failed to authenticate request")
  | Ok ra =>
      let handle srv lm := exec (run (rt_Handler rt) req (mkContext (Some ra) body)) (mkH (mkServerState srv lm) (h_out h1)) in
      match traceflow_limit (rt_Handler rt) limits with
      | None => handle (h_world h1) limits
      | Some l =>
          let '(ok, l') := Global_Allow (clock_Now (w_ticks (sv_store (h_world h1)))) req l in
          let srv := exec (on_store now) (h_world h1) in
          let lm' := mkLimits (lm_login limits) (Some l') in
          if (ok : bool) then handle srv lm'
          else mkH (mkServerState srv lm') (h_out h1 ++ [Status StatusTooManyRequests; Abort])
      end
  end.
Proof.
  intros Hadd Hin Hneed Hlm.
  assert (Hc : rt_Chain rt = mw_authenticate ::
    match traceflow_limit (rt_Handler rt) (ss_limits (h_world hs)) with Some _ => [mw_TraceflowLimit] | None => [] end).
  { pose proof (route_chain s routes lm rt Hadd Hin) as Hok. unfold chain_ok in Hok. rewrite Hneed in Hok.
    rewrite Hok. unfold traceflow_limit, traceflow_chain. case_decide; [|done]. rewrite <- Hlm. by destruct (lm_traceflow _). }
  pose proof (serve_authenticated (s_authenticator s) run rt _ req body hs Hc) as Hserve.
  destruct (Resolve _ _ _) as [who h1]. unfold exec at 1. rewrite Hserve. destruct who as [ra|e]; [|done]. cbn.
  unfold traceflow_limit. case_decide; [|done]. destruct (lm_traceflow (ss_limits (h_world hs))) as [l|] eqn:Hl; [|done].
  rewrite run_chain_cons. cbn [run_mw]. rewrite bind_run, (limit_with_run _ _ _ _ l) by exact Hl.
  cbn [h_world h_out ss_srv ss_limits rl_Allow global_rate_limiter].
  destruct (Global_Allow _ req l) as [[] l']; cbn; by rewrite ?app_nil_r.
Qed.

Lemma MaxBytesReader_spec n b :
  0 <= n ->
  Z.of_nat (String.length (b_bytes (MaxBytesReader n b))) <= n /\
  (b_fails b = false -> b_fails (MaxBytesReader n b) = false -> MaxBytesReader n b = b).
Proof.
  intros Hn. unfold MaxBytesReader. destruct (Z.ltb_spec n (Z.of_nat (String.length (b_bytes b)))); [|done].
  split; [|done]. cbn [b_bytes]. pose proof (length_substring_le (Z.to_nat n) (b_bytes b)). lia.
Qed.

(** C12. No login handler sees a request before it passed the gate: a cross-origin one is refused with
    nothing changed, not even charged to the client's limit; one over the limit is answered 429,
    with only the limiter and the clock moved, so the API server is not asked; any other reaches
    the handler with its body cut at 256 KiB, and a body that was cut reads as an error. *)
Theorem login_gate (s : Server) (routes : list route) (lm : Limits) (rt : route)
    (run : handler -> Request -> Context -> HM unit) (req : Request) (body : Body) (hs : HState ServerState) :
  AddRoutes s = Some (routes, lm) -> rt ∈ routes -> is_login (rt_Handler rt) = true ->
  asked (lm_login (ss_limits (h_world hs))) = asked (lm_login lm) ->
  let '(mkServerState srv limits) := h_world hs in
  let capped := MaxBytesReader maxLoginBodySize body in
  let handle ws := exec (run (rt_Handler rt) req (mkContext None capped)) (mkH ws (h_out hs)) in
  Z.of_nat (String.length (b_bytes capped)) <= 262144 /\
  (b_fails body = false -> b_fails capped = false -> capped = body) /\
  exec (serve (s_authenticator s) run rt req body) hs =
  match checkCSRF (s_authenticator s) req with
  | Some e => mkH (h_world hs) (h_out hs ++ refusal e "Rejected cross-origin request")
  | None =>
      match lm_login limits with
      | None => handle (h_world hs)
      | Some l =>
          let '(ok, l') := Allow (clock_Now (w_ticks (sv_store srv))) req l in
          let ws := mkServerState (exec (on_store now) srv) (mkLimits (Some l') (lm_traceflow limits)) in
          if (ok : bool) then handle ws else mkH ws (h_out hs ++ [Status StatusTooManyRequests; Abort])
      end
  end.
Proof.
  intros Hadd Hin Hl Hlm. destruct hs as [[srv limits] out]. cbn [h_world h_out ss_limits] in *.
  destruct (MaxBytesReader_spec maxLoginBodySize body ltac:(done)) as [Hcap Hsame]. split; [exact Hcap|]. split; [exact Hsame|].
  assert (Hc : rt_Chain rt = login_chain (asked (lm_login limits))).
  { pose proof (route_chain s routes lm rt Hadd Hin) as Hok. unfold chain_ok in Hok.
    destruct (rt_Handler rt) as [|[]]; try done; by rewrite Hlm. }
  unfold exec at 1. rewrite serve_run, Hc. unfold login_chain. cbn [app]. rewrite run_chain_cons.
  cbn [run_mw]. rewrite bind_run, on_srv_run. unfold CSRFMiddleware. rewrite csrfMiddleware_run. unfold checkCSRF.
  destruct (checkCrossOrigin _ req false) as [e|]; [done|]. cbn [fst snd mret ST_ret h_world h_out ss_srv ss_limits].
  rewrite run_chain_cons. cbn [run_mw mret ST_ret cx_RequestAuth cx_Body].
  destruct (lm_login limits) as [l|] eqn:El; [|done]. cbn [asked]. rewrite run_chain_cons. cbn [run_mw].
  rewrite bind_run, (limit_with_run _ _ _ _ l) by exact El.
  cbn [h_world h_out ss_srv ss_limits rl_Allow client_rate_limiter].
  destruct (Allow _ req l) as [[] l']; cbn; by rewrite ?app_nil_r.
Qed.

End Server.
