(* ===== verification/Startup.v ===== *)
(** * Starting the process ([cmd/server/main.go], [pkg/env], [pkg/version],
    [pkg/k8s/client.go], [pkg/signals])

    [run] up to the point where the server listens: every component built from the configuration,
    in order, with the errors that stop the program; the lines the access log gets; and the signal
    handler as a step relation. *)
From S2P Require Import Prelude.
From S2P Require Import GoStrings.
From S2P Require Import GoUrl.
From S2P Require Import Http.
From S2P Require Import Lru.
From S2P Require Import RateLimit.
From S2P Require Import Session.
From S2P Require Import SessionStore.
From S2P Require Import SessionFacts.
From S2P Require Import SessionContext.
From S2P Require Import K8sCred.
From S2P Require Import Authn.
From S2P Require Import Oidc.
From S2P Require Import Password.
From S2P Require Import Auth.
From S2P Require Import Config.
From S2P Require Import AntreaSvc.
From S2P Require Import Server.
From S2P Require Import Steps.

(** ** The environment and the version *)

(** [os.LookupEnv]. *)
Definition environment := gmap string string.
Definition Getenv (env : environment) (name : string) : string := default "" (env !! name).

Definition IsDevelopmentEnv (env : environment) : bool :=
  bool_decide (Getenv env "APP_ENV" = "dev") || bool_decide (Getenv env "APP_ENV" = "development").

Definition IsRunningInPod (env : environment) : bool :=
  negb (bool_decide (Getenv env "POD_NAMESPACE" = "")) &&
  negb (bool_decide (Getenv env "KUBERNETES_SERVICE_HOST" = "")).

Definition GetNamespace (env : environment) : string :=
  let ns := Getenv env "POD_NAMESPACE" in if decide (ns = "") then "kube-system" else ns.

(** The build's variables of [version.go]. *)
Record build := mkBuild { Version : string; GitSHA : string; GitTreeState : string; ReleaseStatus : string }.

Definition GetFullVersion (b : build) : string :=
  if decide (Version b = "") then "UNKNOWN"
  else if decide (ReleaseStatus b = "released") then Version b
  else if decide (GitSHA b = "") then Version b +:+ "-unknown"
  else if decide (GitTreeState b = "dirty") then Version b +:+ "-" +:+ GitSHA b +:+ ".dirty"
  else Version b +:+ "-" +:+ GitSHA b.

(** With [runtime.GOOS], [runtime.GOARCH] and [runtime.Version]. *)
Definition GetFullVersionWithRuntimeInfo (b : build) (os arch go : string) : string :=
  GetFullVersion b +:+ " " +:+ os +:+ "/" +:+ arch +:+ " " +:+ go.

(** ** Kubernetes clients ([client.go]) *)

Definition inCluster (env : environment) : bool := bool_decide (is_Some (env !! "KUBERNETES_SERVICE_HOST")).

Definition ServiceAccountUserName (namespace serviceAccountName : string) : string :=
  "system:serviceaccount:" +:+ namespace +:+ ":" +:+ serviceAccountName.

Definition antreaUIAdminSAName : string := "antrea-ui-admin".

(** client-go and gRPC: where a client's configuration comes from, and the constructors that can
    fail; [url_Parse_error] is the text of net/url's error. *)
Class BootLib `{Platform} := {
  rest_InClusterConfig : result string RestConfig;
  clientcmd_ClientConfig : string -> result string RestConfig;
  rest_HTTPClientFor : RestConfig -> result string RoundTripper;
  dynamic_NewForConfigAndClient : RestConfig -> RoundTripper -> option string;
  kubernetes_NewForConfig : RestConfig -> option string;
  url_Parse_error : string -> string;
  grpc_NewClient : string -> TLSConfig -> option string;
}.

Section Startup.
Context `{P : Platform} {S : Store} {V : CredentialValidator} `{L : Limiter} `{C1 : LRU nat}
  `{BC : LRU bearerCacheEntry} `{GoIP} `{N : GoNet} `{C : Crypto} `{K : !KubeLib} `{O : OIDCLib} `{B : !BootLib}.
Context {W : Type} `{R : ReadWriter W} (Hash : string -> string -> result string string)
  (random : nat -> nat -> result string string).

Definition restConfig (env : environment) (kubeconfigPath : string) : result string RestConfig :=
  if inCluster env then rest_InClusterConfig else clientcmd_ClientConfig kubeconfigPath.

(** [Client]: the configuration and the HTTP client's transport. *)
Definition Client (env : environment) (kubeconfigPath : string) : result string (RestConfig * RoundTripper) :=
  match restConfig env kubeconfigPath with
  | Err e => Err e
  | Ok config =>
      match rest_HTTPClientFor config with
      | Err e => Err e
      | Ok transport =>
          match dynamic_NewForConfigAndClient config transport with
          | Some e => Err e
          | None => Ok (config, transport)
          end
      end
  end.

(** [ImpersonatedClient]: the transport of the client. *)
Definition ImpersonatedClient (config : RestConfig) (base : RoundTripper) (userName : string)
    : result string RoundTripper :=
  let rt := NewImpersonatingRoundTripper userName base in
  match dynamic_NewForConfigAndClient config rt with Some e => Err e | None => Ok rt end.

(** ** [run] *)

(** The middlewares every request passes first: gin's own logger, the access log below, gin's
    recovery from panics, and the cross-origin policy, with the one origin it allows. *)
Inductive global_mw := GmLogger | GmAccessLog | GmRecovery | GmCors (origin : string).

Definition router_middlewares (dev : bool) : list global_mw :=
  (if dev then [GmLogger; GmRecovery] else [GmAccessLog; GmRecovery]) ++
  (if dev then [GmCors "http://localhost:3000"] else []).

(** [http.Server], and the parameters of the gRPC client. *)
Record http_Server := mkHttpServer {
  srv_Addr : string; srv_Handler : list global_mw; srv_ReadHeaderTimeout : duration }.
Record GRPCConfig := mkGRPCConfig { gc_Address : string; gc_TLSConfig : TLSConfig }.

(** [NewGRPCFlowStreamSubscriber]: a client for this address and these TLS settings. *)
Definition NewGRPCFlowStreamSubscriber (cfg : GRPCConfig) : result string GRPCConfig :=
  match grpc_NewClient (gc_Address cfg) (gc_TLSConfig cfg) with
  | Some e => Err ("failed to create gRPC connection to " +:+ gc_Address cfg +:+ ": " +:+ e)
  | None => Ok cfg
  end.

(** What [run] has built when the server starts to listen. *)
Record App := mkApp {
  app_gcTransport : RoundTripper;
  app_factory : ClientFactory;
  app_pluginsNamespace : string;
  app_antreaSvc : requestsHandler;
  app_password : option (PwStore W);
  app_sessions : Options;
  app_oidc : option OIDCProvider;
  app_flow : option GRPCConfig;
  app_server : Server;
  app_routes : list route;
  app_limits : Limits;
  app_srv : http_Server;
}.

(** [Waiting] is discovery still going on when the fuel ends. *)
Inductive startup := Started (a : App) | StartError (msg : string) | StartPanic | Waiting.

Local Notation Boot := (ST World startup).

(** The rest of [run], unless this step failed. *)
Definition check {A} (msg : string) (r : result string A) (k : A -> Boot) : Boot :=
  match r with Err e => mret (StartError (msg +:+ e)) | Ok a => k a end.

Definition no_error (e : option string) : result string unit :=
  match e with Some e => Err e | None => Ok tt end.

(** The password store, when basic authentication is enabled; [w] is what the Secret holds. *)
Definition start_password (c : Config) (w : W) (k : option (PwStore W) -> Boot) : Boot :=
  if au_Basic (c_Auth c) then
    let '(e, store) := PwInit Hash random (NewPwStore w 0) in
    check "" (no_error e) (fun _ => k (Some store))
  else k None.

Definition start_oidc (fuel : nat) (ctx_done : nat -> bool) (c : Config) (k : option OIDCProvider -> Boot) : Boot :=
  let o := au_OIDC (c_Auth c) in
  if oc_Enabled o then
    provider ← NewOIDCProvider (c_URL c) (oc_IssuerURL o) (oc_DiscoveryURL o) (oc_ClientID o)
                 (oc_ClientSecret o) (oc_LogoutURL o) (oc_Scopes o);
    check "" provider (fun p =>
      match (Init fuel ctx_done p).1 with
      | InitDone => k (Some p)
      | InitCancelled => mret (StartError "failed to initialize OIDC provider with OIDC discovery: context deadline exceeded")
      | InitRunning => mret Waiting
      end)
  else k None.

Definition start_flow (parses : string -> bool) (get : string -> string -> result string (gmap string string))
    (c : Config) (k : option GRPCConfig -> Boot) : Boot :=
  let fa := c_FlowAggregator c in
  if fa_Enabled fa then
    check "" (flow_aggregator_tls parses get fa) (fun tls =>
    check "failed to create gRPC flow stream handler: "
      (NewGRPCFlowStreamSubscriber (mkGRPCConfig (fa_Address fa) tls)) (fun client => k (Some client)))
  else k None.

(** Everything before the server listens. *)
Definition run (env : environment) (kubeconfigPath : string) (b : build) (c : Config) (w : W) (fuel : nat)
    (ctx_done : nat -> bool) (parses : string -> bool)
    (get : string -> string -> result string (gmap string string)) : Boot :=
  check "failed to create K8s clients: " (Client env kubeconfigPath) (fun '(config, transport) =>
  check ("failed to parse K8s server URL '" +:+ rc_Host config +:+ "': ")
    (match url_Parse (rc_Host config) with Some u => Ok u | None => Err (url_Parse_error (rc_Host config)) end) (fun _ =>
  let adminUser := ServiceAccountUserName (GetNamespace env) antreaUIAdminSAName in
  check "failed to create impersonated K8s clients for antrea-ui-admin: "
    (ImpersonatedClient config transport adminUser) (fun gc =>
  check "failed to create K8s client factory: " (NewClientFactory config transport TransportKeyK8s) (fun factory =>
  check "failed to create K8s clientset: " (no_error (kubernetes_NewForConfig config)) (fun _ =>
  check "failed to create handler for Antrea Service requests: "
    (NewRequestsHandler (IsRunningInPod env) config (c_AntreaNamespace c) (kubernetes_NewForConfig config)) (fun svc =>
  start_password c w (fun password =>
  start_oidc fuel ctx_done c (fun oidc =>
  start_flow parses get c (fun flow =>
  check "failed to create server: "
    (NewServer (GetFullVersion b) c adminUser true (IsDevelopmentEnv env) (bool_decide (is_Some flow))
       (bool_decide (is_Some password))) (fun server =>
  mret (match AddRoutes server with
        | None => StartPanic
        | Some (routes, limits) =>
            Started (mkApp gc factory (plugins_namespace c (GetNamespace env)) svc password (session_options c)
              oidc flow server routes limits
              (mkHttpServer (c_Addr c) (router_middlewares (IsDevelopmentEnv env)) (5 * Second)))
        end))))))))))).

(** ** Properties of [run] *)

(** Every way [m] can end satisfies [Q]. *)
Definition yields (Q : startup -> Prop) (m : Boot) : Prop := forall w, Q (eval m w).

(** A provider made from the configuration, whose discovery was answered, at attempt [i], before
    its context was done. *)
Definition discovered (ctx_done : nat -> bool) (c : Config) (p : OIDCProvider) : Prop :=
  let o := au_OIDC (c_Auth c) in
  p_issuerURL p = oc_IssuerURL o /\ p_discoveryURL p = oc_DiscoveryURL o /\ p_clientID p = oc_ClientID o /\
  exists i, oidc_Discover i (discovery_url p) = true /\
    forall j, (j < i)%nat -> oidc_Discover j (discovery_url p) = false /\ ctx_done j = false.

Section Yields.
Context (Q : startup -> Prop) (Qerr : forall e, Q (StartError e)) (Qwait : Q Waiting).

Lemma yields_check {A} msg (r : result string A) k :
  (forall a, r = Ok a -> yields Q (k a)) -> yields Q (check msg r k).
Proof. intros Hk w. destruct r as [a|e]; [by apply Hk|apply Qerr]. Qed.

Lemma PwInit_initialised w : eval (PwInit Hash random) w = None -> is_Some (pw_salt (exec (PwInit Hash random) w)).
Proof.
  unfold eval, exec, PwInit. rewrite bind_run, on_rw_run. destruct (eval rw_Read _) as [[[hash salt]|]|e]; [by eexists| |done].
  cbn [fst snd]. rewrite bind_run. unfold draw_salt. cbn [fst snd].
  destruct (random _ _) as [salt|e]; [|done]. destruct (Hash _ salt) as [hash|e]; [|done].
  rewrite bind_run, on_rw_run. cbn [fst snd]. destruct (eval (rw_Write hash salt) _); [done|]. by eexists.
Qed.

Lemma yields_password c w k :
  (forall st, (au_Basic (c_Auth c) = true <-> is_Some st) -> (forall s, st = Some s -> is_Some (pw_salt s)) ->
     yields Q (k st)) ->
  yields Q (start_password c w k).
Proof.
  intros Hk. unfold start_password. destruct (au_Basic (c_Auth c)).
  - pose proof (PwInit_initialised (NewPwStore w 0)) as Hi. unfold eval, exec in Hi.
    destruct (PwInit Hash random (NewPwStore w 0)) as [e st]. apply yields_check. intros a He.
    destruct e as [e|]; [by destruct a; discriminate He|]. apply Hk; [by split; eauto|]. intros s [= <-]. by apply Hi.
  - apply Hk; [split; [done|by intros [? ?]]|done].
Qed.

Lemma NewOIDCProvider_fields serverURL issuerURL discoveryURL clientID clientSecret logout scopes w p :
  eval (NewOIDCProvider serverURL issuerURL discoveryURL clientID clientSecret logout scopes) w = Ok p ->
  p_issuerURL p = issuerURL /\ p_discoveryURL p = discoveryURL /\ p_clientID p = clientID.
Proof.
  unfold eval, NewOIDCProvider. destruct (url_Parse serverURL); [|done]. rewrite bind_run.
  destruct (random_Bytes _ w) as [[s|e] w']; [|done]. cbn [fst snd]. destruct (Template_New _ _); [|done].
  by intros [= <-].
Qed.

Lemma yields_oidc fuel ctx_done c k :
  (forall p, (oc_Enabled (au_OIDC (c_Auth c)) = true <-> is_Some p) ->
     (forall q, p = Some q -> discovered ctx_done c q) -> yields Q (k p)) ->
  yields Q (start_oidc fuel ctx_done c k).
Proof.
  intros Hk. unfold start_oidc. destruct (oc_Enabled (au_OIDC (c_Auth c))).
  - intros w. unfold eval. rewrite bind_run. pose proof (NewOIDCProvider_fields (c_URL c) (oc_IssuerURL (au_OIDC (c_Auth c)))
      (oc_DiscoveryURL (au_OIDC (c_Auth c))) (oc_ClientID (au_OIDC (c_Auth c))) (oc_ClientSecret (au_OIDC (c_Auth c)))
      (oc_LogoutURL (au_OIDC (c_Auth c))) (oc_Scopes (au_OIDC (c_Auth c))) w) as Hf. unfold eval in Hf.
    destruct (NewOIDCProvider _ _ _ _ _ _ _ w) as [p w'].
    cbn [fst snd] in *. fold (eval (check "" p (fun p => match (Init fuel ctx_done p).1 with
      | InitDone => k (Some p)
      | InitCancelled => mret (StartError "failed to initialize OIDC provider with OIDC discovery: context deadline exceeded")
      | InitRunning => mret Waiting end)) w'). revert w'. apply yields_check. intros a Ha w'.
    destruct ((Init fuel ctx_done a).1) eqn:Hi; [|apply Qerr|apply Qwait]. apply Hk; [split; eauto|]. intros q [= <-].
    destruct (Hf a Ha) as (F1 & F2 & F3). destruct (Init_loop_done _ _ _ _ _ _ Hi) as (i & Hd & Hj).
    split_and!; [done..|]. exists i. by split.
  - apply Hk; [|done]. split; [done|by intros [? ?]].
Qed.

Lemma yields_flow parses get c k :
  (forall f, (fa_Enabled (c_FlowAggregator c) = true <-> is_Some f) ->
     (forall g, f = Some g -> gc_Address g = fa_Address (c_FlowAggregator c)) -> yields Q (k f)) ->
  yields Q (start_flow parses get c k).
Proof.
  intros Hk. unfold start_flow. destruct (fa_Enabled (c_FlowAggregator c)).
  - apply yields_check. intros tls _. apply yields_check. intros cl Hcl. apply Hk; [split; eauto|].
    intros g [= <-]. unfold NewGRPCFlowStreamSubscriber in Hcl. destruct (grpc_NewClient _ _); [done|]. by injection Hcl as <-.
  - apply Hk; [|done]. split; [done|by intros [? ?]].
Qed.
End Yields.


(** What is in place when the server starts to listen, and that it does not panic before. *)
Definition wired (env : environment) (c : Config) (ctx_done : nat -> bool) (o : startup) : Prop :=
  match o with
  | StartPanic => False
  | Started a =>
      let s := app_server a in
      let admin := ServiceAccountUserName (GetNamespace env) antreaUIAdminSAName in
      let registered h := h ∈ map rt_Handler (app_routes a) in
      AddRoutes s = Some (app_routes a, app_limits a) /\
      (registered (h_auth h_Login) <-> au_Basic (c_Auth c) = true) /\
      (registered (h_api h_UpdatePassword) <-> au_Basic (c_Auth c) = true) /\
      (registered (h_auth h_OAuth2Callback) <-> oc_Enabled (au_OIDC (c_Auth c)) = true) /\
      (registered (h_api h_StreamFlows) <-> fa_Enabled (c_FlowAggregator c) = true) /\
      (registered (h_auth h_Login) -> exists st, app_password a = Some st /\ is_Some (pw_salt st)) /\
      (registered (h_auth h_OAuth2Callback) -> exists p, app_oidc a = Some p /\ discovered ctx_done c p) /\
      (registered (h_api h_StreamFlows) ->
         exists g, app_flow a = Some g /\ gc_Address g = fa_Address (c_FlowAggregator c)) /\
      AdminUserName (s_config s) = admin /\
      (forall cred, cv_Kind cred = KindImpersonate -> cv_UserName cred = admin ->
         TransportFor (app_factory a) cred = Ok (app_gcTransport a, None)) /\
      ac_DevMode (a_config (s_authenticator s)) = IsDevelopmentEnv env /\
      srv_Addr (app_srv a) = c_Addr c /\ GmRecovery ∈ srv_Handler (app_srv a) /\
      (GmCors DevOrigin ∈ srv_Handler (app_srv a) <-> IsDevelopmentEnv env = true)
  | _ => True
  end.

Lemma AddRoutes_handlers s routes lm h :
  AddRoutes s = Some (routes, lm) -> h ∈ map rt_Handler routes <-> available s h = true.
Proof.
  unfold AddRoutes. intros Ha.
  assert (E : exists tf, routes = server_routes s tf).
  { destruct (tfRateLimiter (s_apiServer s)) as [[]|], (loginRateLimiter (s_config s)) as [[]|]; try done;
      injection Ha as <- _; by eexists. }
  destruct E as [tf ->]. rewrite <- (server_routes_handlers s tf h). symmetry. apply bool_decide_eq_true.
Qed.

(** Every end of [run] is wired. *)
Lemma run_wired (env : environment) (kubeconfigPath : string) (b : build) (c : Config) (w : W) (fuel : nat)
    (ctx_done : nat -> bool) (parses : string -> bool)
    (get : string -> string -> result string (gmap string string)) (world : World) :
  c_MaxLoginsPerSecond c <= int64_max -> c_MaxTraceflowsPerHour c <= int64_max ->
  wired env c ctx_done (eval (run env kubeconfigPath b c w fuel ctx_done parses get) world).
Proof.
  intros Hl Ht. revert world. change (yields (wired env c ctx_done) (run env kubeconfigPath b c w fuel ctx_done parses get)).
  unfold run. apply yields_check; [done|]. intros [config transport] _. apply yields_check; [done|]. intros _ _.
  set (admin := ServiceAccountUserName _ _).
  apply yields_check; [done|]. intros gc Hgc. apply yields_check; [done|]. intros factory Hf.
  do 2 (apply yields_check; [done|]; intros ? _).
  apply yields_password; [done|]. intros st Hst Hinit. apply yields_oidc; [done..|]. intros o Ho Hdisc.
  apply yields_flow; [done|]. intros fl Hfl Haddr. apply yields_check; [done|].
  intros s Hs w'. apply NewServer_fields in Hs as (Hc & Ha & Hau).
  destruct (AddRoutes_total s) as (routes & lm & Hr & _); [by rewrite Ha|by rewrite Hc|].
  pose proof (fun h => AddRoutes_handlers s routes lm h Hr) as Hh.
  unfold eval. cbn [mret ST_ret fst]. rewrite Hr. cbn [wired app_server app_routes app_limits app_password app_oidc
    app_flow app_factory app_gcTransport app_srv srv_Addr srv_Handler].
  rewrite !Hh. unfold available. rewrite Hc, Ha, Hau.
  cbn [server_config api_NewServer authn_config BasicAuthEnabled OIDCAuthEnabled AdminUserName
    api_passwordStore api_flowStreamSSEHandler ac_DevMode].
  rewrite !bool_decide_eq_true, <- Hst, <- Hfl. split_and!; try done.
  - intros Hb. apply Hst in Hb as [x Hx]. exists x. eauto.
  - intros Hen. apply Ho in Hen as [x Hx]. exists x. eauto.
  - intros Hen. apply Hfl in Hen as [x Hx]. exists x. eauto.
  - intros cred Hk Hu. unfold TransportFor. rewrite Hk, Hu. cbn.
    unfold NewClientFactory in Hf. destruct (rest_TransportFor _) as [base|]; [|done]. injection Hf as <-.
    unfold ImpersonatedClient in Hgc. destruct (dynamic_NewForConfigAndClient _ _); [done|]. by injection Hgc as <-.
  - destruct (IsDevelopmentEnv env); set_solver.
  - destruct (IsDevelopmentEnv env); [set_solver|]. split; [|done].
    cbn. by intros [?|[?|[]%elem_of_nil]%elem_of_cons]%elem_of_cons.
Qed.

(** C21. The server only ever listens with everything its routes need in place: [run] does not
    panic, and when it starts, a handler is registered exactly where the configuration enables it,
    a password login only next to an initialised password store, an OIDC login only next to a
    provider of the configured issuer whose discovery was answered before its time was up, the flow
    stream only next to a client for the configured address; every handler runs behind the recovery
    from panics; a session of the admin password acts through the very transport the Traceflow garbage collection uses, as the
    ServiceAccount of the process's own namespace; and the cross-origin exemptions are those of the
    development environment. *)
Theorem startup_wiring (env : environment) (kubeconfigPath : string) (b : build) (c : Config) (w : W) (fuel : nat)
    (ctx_done : nat -> bool) (parses : string -> bool)
    (get : string -> string -> result string (gmap string string)) (world : World) :
  c_MaxLoginsPerSecond c <= int64_max -> c_MaxTraceflowsPerHour c <= int64_max ->
  wired env c ctx_done (eval (run env kubeconfigPath b c w fuel ctx_done parses get) world).
Proof. apply run_wired. Qed.
End Startup.

(** ** The access log ([ginLogger]) *)

Record log_entry := mkLogEntry {
  le_code : Z; le_client : string; le_method : string; le_path : string; le_latency : duration;
  le_error : option string }.

(** [Duration.Truncate]. *)
Definition Truncate (d m : duration) : duration := if m <=? 0 then d else d - Z.rem d m.

(** [errs] are the private errors the handlers recorded. *)
Definition ginLogger (start stop : time) (path raw clientIP method : string) (statusCode : Z) (errs : list string)
    : log_entry :=
  let latency := time_Sub stop start in
  let latency := if Minute <? latency then Truncate latency Second else latency in
  let path := if decide (raw <> "") then path +:+ "?" +:+ raw else path in
  let errorMessage := default "" (last errs) in
  mkLogEntry statusCode clientIP method path latency (if decide (errorMessage <> "") then Some errorMessage else None).

(** ** Signals ([RegisterSignalHandlers]) *)

(** The goroutine waits for the first signal, for the second, or has exited the process. *)
Inductive sig_pc := SigFirst | SigSecond | SigExited.

#[export] Instance sig_pc_eq_dec : EqDecision sig_pc.
Proof. solve_decision. Defined.

(** [sg_buffer]: how many signals [notifyCh] holds; [sg_stopped]: [stopCh] is closed. *)
Record SigState := mkSig { sg_pc : sig_pc; sg_buffer : nat; sg_stopped : bool }.

Definition notifyCap : nat := 2.
Definition sig0 : SigState := mkSig SigFirst 0 false.

(** A signal arrives, or the goroutine takes one. *)
Inductive sig_event := Notify | Take.

#[export] Instance sig_event_eq_dec : EqDecision sig_event.
Proof. solve_decision. Defined.

(** A signal that finds the channel full is dropped. *)
Definition sig_step (e : sig_event) (s : SigState) : option SigState :=
  match e, sg_pc s, sg_buffer s with
  | _, SigExited, _ => None
  | Notify, pc, n => Some (mkSig pc (if (n <? notifyCap)%nat then S n else n) (sg_stopped s))
  | Take, SigFirst, S n => Some (mkSig SigSecond n true)
  | Take, SigSecond, S n => Some (mkSig SigExited n (sg_stopped s))
  | Take, _, 0%nat => None
  end.

Definition sig_run : list sig_event -> SigState -> option SigState := run_steps sig_step.

Definition signals (l : list sig_event) : nat :=
  length (filter (fun e => e = Notify) l).

Definition taken (s : SigState) : nat := match sg_pc s with SigFirst => 0 | SigSecond => 1 | SigExited => 2 end.

(** No signal is dropped that the goroutine still needs. *)
Definition sig_inv (n : nat) (s : SigState) : Prop :=
  (taken s + sg_buffer s <= n)%nat /\ ((taken s + sg_buffer s)%nat = n \/ (2 <= taken s + sg_buffer s)%nat) /\
  (sg_stopped s = true <-> sg_pc s <> SigFirst).

Lemma sig_inv_step e n s s' :
  sig_inv n s -> sig_step e s = Some s' -> sig_inv (n + signals [e]) s'.
Proof.
  unfold sig_inv, taken, signals. destruct s as [pc k b]. intros Hi H1.
  destruct e, pc; cbn in *; try done; [destruct k as [|[|[|k]]]..|destruct k|destruct k];
    try done; injection H1 as <-; cbn in *; naive_solver lia.
Qed.

Lemma signals_app l1 l2 : signals (l1 ++ l2) = (signals l1 + signals l2)%nat.
Proof. unfold signals. by rewrite filter_app, length_app. Qed.

Lemma sig_inv0 : sig_inv 0 sig0.
Proof. split_and!; cbn; auto; by split. Qed.

Lemma sig_inv_run l s : sig_run l sig0 = Some s -> sig_inv (signals l) s.
Proof.
  apply (run_steps_hist sig_step (fun l s => sig_inv (signals l) s)); [apply sig_inv0|].
  intros l' e s1 s2 Hi H. rewrite signals_app. by eapply sig_inv_step.
Qed.

(** The first signal asks for a graceful stop and the second one forces the exit, however the
    signals arrive: the stop channel is only closed after a signal and the exit only forced after
    two, and once the goroutine took what it could, it has closed the channel if there was a signal
    and exited if there were two, though the channel drops what it has no room for. *)
Theorem signals_counted (l : list sig_event) (s : SigState) :
  sig_run l sig0 = Some s ->
  (sg_stopped s = true -> (1 <= signals l)%nat) /\ (sg_pc s = SigExited -> (2 <= signals l)%nat) /\
  (sig_step Take s = None ->
     (sg_stopped s = true <-> (1 <= signals l)%nat) /\ (sg_pc s = SigExited <-> (2 <= signals l)%nat)).
Proof.
  intros H. destruct (sig_inv_run l s H) as (I1 & I2 & I3). clear H. unfold taken in *.
  destruct s as [[] [|n] []]; cbn in *; naive_solver lia.
Qed.
