(* ===== verification/Lifecycle.v ===== *)
(** * The life of the process ([run] and [main] of [cmd/server/main.go])

    Once [run] has built everything, the process is a set of goroutines: the signal handler of
    [Startup], the workers that run until the stop channel closes, the HTTP server with the requests
    it is answering, and [main] itself, which waits for the stop channel, shuts the server down and
    exits. [pstep] is one action of one of them; the first that exits the process ends all of them.

    net/http's documented behaviour, on which this relies: [ListenAndServe] only ever returns an
    error, which is [ErrServerClosed] once [Shutdown] was called; [Shutdown] looks for requests that
    are being answered, at once and then from time to time, and returns when there is none, with the
    error of closing the listeners if there was one, or when it found some and its context is done;
    it does not cancel the requests' contexts. *)
From S2P Require Import Prelude.
From S2P Require Import Steps.
From S2P Require Import GoStrings.
From S2P Require Import GoUrl.
From S2P Require Import Http.
From S2P Require Import Lru.
From S2P Require Import RateLimit.
From S2P Require Import Session.
From S2P Require Import SessionStore.
From S2P Require Import SessionFacts.
From S2P Require Import SessionContext.
From S2P Require Import K8sCred.
From S2P Require Import Authn.
From S2P Require Import Oidc.
From S2P Require Import Password.
From S2P Require Import Auth.
From S2P Require Import Config.
From S2P Require Import Flow.
From S2P Require Import FlowStream.
From S2P Require Import Server.
From S2P Require Import Startup.

(** The goroutines started with [stopCh], by the [Run] they execute. *)
Inductive worker := WTraceflow | WAntreaSvc | WSessions | WPlugins | WAccess.

#[export] Instance worker_eq_dec : EqDecision worker.
Proof. solve_decision. Defined.

Definition workers : list worker := [WTraceflow; WAntreaSvc; WSessions; WPlugins; WAccess].

(** [main] waits for the stop channel; is in [Shutdown], which has looked and found the server busy,
    or not yet; or [run] has returned, after [Shutdown] had drained the server, or without. *)
Inductive main_pc := MWait | MShutdown (busy : bool) | MReturned (drained : bool) (err : option string).

Definition shutdownTimeout : duration := 5 * Second.

Section Process.
(** A request being answered, what moves it, and whether its handler has returned. *)
Context {Req A : Type} (rq_step : A -> Req -> option Req) (rq_done : Req -> bool).

Record Proc := mkProc {
  pr_sig : SigState;
  pr_main : main_pc;
  (** The goroutine of [ListenAndServe] has not returned. *)
  pr_serving : bool;
  pr_requests : gmap nat Req;
  pr_workers : list worker;
  pr_exit : option Z;
}.

Inductive proc_event :=
| ESignal (e : sig_event)
(** A request is read from a connection, advances, and was answered. *)
| EAccept (n : nat) (r : Req) | EProgress (n : nat) (a : A) | EAnswered (n : nat)
(** [ListenAndServe] returns: [None] is [ErrServerClosed]. *)
| EServe (err : option string)
| EWorker (w : worker)
(** [main] finds the stop channel closed; [Shutdown] finds the server busy for the first time (the
    later times change nothing), or finds it idle, with the error of the listeners, or its context
    is done after [elapsed]; [main] ends. *)
| EBegin | ELook | EDrained (err : option string) | ETimeout (elapsed : duration) | EExit.

Definition set_main (m : main_pc) (p : Proc) : Proc :=
  mkProc (pr_sig p) m (pr_serving p) (pr_requests p) (pr_workers p) (pr_exit p).
Definition set_requests (r : gmap nat Req) (p : Proc) : Proc :=
  mkProc (pr_sig p) (pr_main p) (pr_serving p) r (pr_workers p) (pr_exit p).
Definition os_Exit (code : Z) (p : Proc) : Proc :=
  mkProc (pr_sig p) (pr_main p) (pr_serving p) (pr_requests p) (pr_workers p) (Some code).

Definition forced (e : string) : string := "server forced to shutdown: " +:+ e.

Definition step_live (e : proc_event) (p : Proc) : option Proc :=
  match e with
  | ESignal x =>
      sg ← sig_step x (pr_sig p);
      Some (mkProc sg (pr_main p) (pr_serving p) (pr_requests p) (pr_workers p)
              (if decide (sg_pc sg = SigExited) then Some 1 else None))
  | EAccept n r =>
      match pr_main p, pr_requests p !! n with
      | MReturned true _, _ | _, Some _ => None
      | _, None => Some (set_requests (<[n := r]> (pr_requests p)) p)
      end
  | EProgress n a =>
      r ← pr_requests p !! n;
      r' ← rq_step a r;
      Some (set_requests (<[n := r']> (pr_requests p)) p)
  | EAnswered n =>
      r ← pr_requests p !! n;
      if rq_done r then Some (set_requests (delete n (pr_requests p)) p) else None
  | EServe err =>
      match pr_serving p, pr_main p, err with
      | true, MWait, Some _ => Some (os_Exit 1 p)
      | true, (MShutdown _ | MReturned _ _), None =>
          Some (mkProc (pr_sig p) (pr_main p) false (pr_requests p) (pr_workers p) (pr_exit p))
      | _, _, _ => None
      end
  | EWorker w =>
      if sg_stopped (pr_sig p) && bool_decide (w ∈ pr_workers p)
      then Some (mkProc (pr_sig p) (pr_main p) (pr_serving p) (pr_requests p)
                   (filter (fun x => x <> w) (pr_workers p)) (pr_exit p))
      else None
  | EBegin =>
      match pr_main p with
      | MWait => if sg_stopped (pr_sig p) then Some (set_main (MShutdown false) p) else None
      | _ => None
      end
  | ELook =>
      match pr_main p with
      | MShutdown false => if decide (pr_requests p = ∅) then None else Some (set_main (MShutdown true) p)
      | _ => None
      end
  | EDrained err =>
      match pr_main p with
      | MShutdown _ => if decide (pr_requests p = ∅) then Some (set_main (MReturned true (forced <$> err)) p) else None
      | _ => None
      end
  | ETimeout elapsed =>
      match pr_main p with
      | MShutdown true =>
          if shutdownTimeout <=? elapsed
          then Some (set_main (MReturned false (Some (forced "context deadline exceeded"))) p)
          else None
      | _ => None
      end
  | EExit =>
      match pr_main p with
      | MReturned _ err => Some (os_Exit (match err with Some _ => 1 | None => 0 end) p)
      | _ => None
      end
  end.

(** Nothing happens in a process that has exited. *)
Definition pstep (e : proc_event) (p : Proc) : option Proc :=
  match pr_exit p with Some _ => None | None => step_live e p end.

Definition prun : list proc_event -> Proc -> option Proc := run_steps pstep.

(** The process when the server starts to listen, and one that ended before. *)
Definition proc0 : Proc := mkProc sig0 MWait true ∅ workers None.

(** ** What the events so far say *)

Definition notified (l : list proc_event) : nat :=
  total (fun e => match e with ESignal Notify => 1%nat | _ => 0%nat end) l.

Lemma notified_app l1 l2 : notified (l1 ++ l2) = (notified l1 + notified l2)%nat.
Proof. apply total_app. Qed.

(** [Shutdown] looked while a request was being answered. *)
Definition busy_at (l1 l2 l : list proc_event) : Prop :=
  l = l1 ++ ELook :: l2 /\ exists q, prun l1 proc0 = Some q /\ pr_requests q <> ∅.

(** It did, and its context was done later. *)
Definition timed_out (l : list proc_event) : Prop :=
  exists l1 l2 d, busy_at l1 l2 l /\ ETimeout d ∈ l2 /\ shutdownTimeout <= d.

(** How [main] got where it is. *)
Definition main_hist (l : list proc_event) (p : Proc) : Prop :=
  match pr_main p with
  | MWait => True
  | MShutdown busy => sg_stopped (pr_sig p) = true /\ (busy = true -> exists l1 l2, busy_at l1 l2 l)
  | MReturned true e =>
      sg_stopped (pr_sig p) = true /\ pr_requests p = ∅ /\ exists err, e = forced <$> err /\ EDrained err ∈ l
  | MReturned false e => sg_stopped (pr_sig p) = true /\ is_Some e /\ timed_out l
  end.

Record proc_hist (l : list proc_event) (p : Proc) : Prop := mkProcHist {
  ph_run : prun l proc0 = Some p;
  ph_sig : sig_inv (notified l) (pr_sig p);
  ph_main : main_hist l p;
  ph_workers : pr_workers p <> workers -> sg_stopped (pr_sig p) = true;
  ph_exit0 : pr_exit p = Some 0 -> pr_main p = MReturned true None;
  ph_exit : forall c, pr_exit p = Some c -> c = 0 \/
    c = 1 /\ ((exists e, EServe (Some e) ∈ l) \/ sg_pc (pr_sig p) = SigExited \/
              exists d m, pr_main p = MReturned d (Some m));
}.

Lemma proc_hist0 : proc_hist [] proc0.
Proof. by split; [|apply sig_inv0|..]. Qed.

Lemma main_hist_stopped l p : main_hist l p -> pr_main p <> MWait -> sg_stopped (pr_sig p) = true.
Proof. unfold main_hist. by destruct (pr_main p) as [| |[]]; intros H ?; try apply H. Qed.

Lemma sig_stopped_mono x s s' : sig_step x s = Some s' -> sg_stopped s = true -> sg_stopped s' = true.
Proof.
  destruct s as [pc k b]. destruct x, pc; cbn; try done; [by intros [= <-]..| |]; destruct k; try done; by intros [= <-].
Qed.

Lemma busy_at_snoc l1 l2 l e : busy_at l1 l2 l -> busy_at l1 (l2 ++ [e]) (l ++ [e]).
Proof. intros [-> Hq]. split; [|done]. by rewrite <- (assoc_L (++)). Qed.

(** While [main] stays where it is, so does its history. *)
Lemma main_hist_snoc l e p p' :
  main_hist l p -> pr_main p' = pr_main p ->
  (sg_stopped (pr_sig p) = true -> sg_stopped (pr_sig p') = true) ->
  (forall x, pr_main p = MReturned true x -> pr_requests p = ∅ -> pr_requests p' = ∅) ->
  main_hist (l ++ [e]) p'.
Proof.
  unfold main_hist. intros H -> Hs Hr. destruct (pr_main p) as [|busy|[] x]; [done|..].
  - destruct H as [H Hb]. split; [auto|]. intros Hbusy. destruct (Hb Hbusy) as (l1 & l2 & Hat).
    by eexists _, _; apply busy_at_snoc.
  - destruct H as (H & Hrq & err & -> & Hin). split; [auto|]. split; [by eapply Hr|]. exists err.
    split; [done|]. apply elem_of_app. by left.
  - destruct H as (H & Hx & l1 & l2 & d & Hat & Hin & Hd). split; [auto|]. split; [done|].
    exists l1, (l2 ++ [e]), d. split; [by apply busy_at_snoc|]. split; [|done]. apply elem_of_app. by left.
Qed.

(** A change of the signal handler, and of nothing else, keeps what a longer history says. *)
Lemma proc_hist_sig l e x p sg p' :
  e = ESignal x -> proc_hist l p -> pr_exit p = None -> sig_step x (pr_sig p) = Some sg ->
  p' = mkProc sg (pr_main p) (pr_serving p) (pr_requests p) (pr_workers p)
    (if decide (sg_pc sg = SigExited) then Some 1 else None) ->
  prun (l ++ [e]) proc0 = Some p' -> proc_hist (l ++ [e]) p'.
Proof.
  intros -> [Hrun H1 H2 H3 H6 H7] He Hs -> Hrun'. split; cbn; [done|..].
  - rewrite notified_app. pose proof (sig_inv_step x _ _ _ H1 Hs) as Hi. by destruct x.
  - apply (main_hist_snoc l _ p); try done. by eapply sig_stopped_mono.
  - intros ?. eapply sig_stopped_mono; [done|]. auto.
  - by case_decide.
  - intros c. case_decide; [|done]. intros [= <-]. auto.
Qed.

(** So does every other step, of which this lists the cases. *)
Lemma proc_hist_keep l e p p' :
  proc_hist l p -> pr_exit p = None -> notified [e] = 0%nat -> prun (l ++ [e]) proc0 = Some p' ->
  pr_sig p' = pr_sig p -> main_hist (l ++ [e]) p' ->
  (pr_workers p' = pr_workers p \/ sg_stopped (pr_sig p) = true) ->
  (forall c, pr_exit p' = Some c ->
     c = 0 /\ pr_main p' = MReturned true None \/
     c = 1 /\ ((exists x, e = EServe (Some x)) \/ exists d m, pr_main p' = MReturned d (Some m))) ->
  proc_hist (l ++ [e]) p'.
Proof.
  intros [Hrun H1 H2 H3 H6 H7] He Hn Hrun' Es Hm Hw Hx.
  assert (Hlast : e ∈ l ++ [e]) by (apply elem_of_app; right; left).
  split; rewrite ?Es; [done|..].
  - by rewrite notified_app, Hn, Nat.add_0_r.
  - done.
  - destruct Hw as [->|?]; auto.
  - intros [[_ ?]|[? _]]%Hx; done.
  - intros c [[-> _]|(-> & [[x ->]|(d & m & ?)])]%Hx; [by left|right; split; [done|]..]; eauto.
Qed.

(** The steps that move [main], and one that does not. *)
Lemma main_hist_step l e p p' :
  proc_hist l p -> pr_exit p = None -> step_live e p = Some p' -> (forall x, e <> ESignal x) -> main_hist (l ++ [e]) p'.
Proof.
  intros [Hrun _ H _ _ _] He Hs Hne. assert (Hlast : e ∈ l ++ [e]) by (apply elem_of_app; right; left).
  destruct e as [x|n r|n a|n|err|w| | |err|d|]; cbn [step_live] in Hs; [by destruct (Hne x)|..].
  - assert (Hm : forall q, Some (set_requests q p) = Some p' -> (forall y, pr_main p <> MReturned true y) -> main_hist (l ++ [EAccept n r]) p').
    { intros q [= <-] Hn. apply (main_hist_snoc l _ p); try done. by intros y Hy; destruct (Hn y). }
    destruct (pr_main p) as [| |[]] eqn:E, (pr_requests p !! n); try done; by eapply Hm.
  - apply bind_Some in Hs as (r & Hr & (r' & _ & [= <-])%bind_Some). apply (main_hist_snoc l _ p); try done.
    intros _ _ Hrq. by rewrite Hrq, lookup_empty in Hr.
  - apply bind_Some in Hs as (r & Hr & Hs). destruct (rq_done r); [|done]. injection Hs as <-.
    apply (main_hist_snoc l _ p); try done. intros _ _ Hrq. by rewrite Hrq, lookup_empty in Hr.
  - destruct (pr_serving p), (pr_main p) eqn:E, err; try done; injection Hs as <-; by apply (main_hist_snoc l _ p).
  - destruct (_ && _); [|done]. injection Hs as <-. by apply (main_hist_snoc l _ p).
  - destruct (pr_main p); [|done..]. destruct (sg_stopped _) eqn:Hst; [|done]. injection Hs as <-. by split.
  - destruct (pr_main p) as [|[]|] eqn:E; [done..| |done]. case_decide as Hrq; [done|]. injection Hs as <-.
    unfold main_hist in H. rewrite E in H. split; [apply H|]. intros _. exists l, []. split; [done|]. by exists p.
  - destruct (pr_main p) as [|busy|] eqn:E; [done| |done]. case_decide as Hrq; [|done]. injection Hs as <-.
    unfold main_hist in H. rewrite E in H. split; [apply H|]. split; [done|]. by exists err.
  - destruct (pr_main p) as [|[]|] eqn:E; [done| |done..]. destruct (Z.leb_spec shutdownTimeout d); [|done]. injection Hs as <-.
    unfold main_hist in H. rewrite E in H. destruct H as [Hst Hb]. destruct (Hb eq_refl) as (l1 & l2 & Hat).
    split; [done|]. split; [by eexists|]. exists l1, (l2 ++ [ETimeout d]), d. split; [by apply busy_at_snoc|].
    split; [|done]. apply elem_of_app. right. left.
  - destruct (pr_main p) as [| |dr err] eqn:E; [done..|]. injection Hs as <-. by apply (main_hist_snoc l _ p).
Qed.

Lemma proc_hist_step l e p p' : proc_hist l p -> pstep e p = Some p' -> proc_hist (l ++ [e]) p'.
Proof.
  intros Hh Hs. assert (Hrun : prun (l ++ [e]) proc0 = Some p').
  { unfold prun. rewrite run_steps_app. fold (prun l proc0). rewrite (ph_run _ _ Hh). cbn. by rewrite Hs. }
  unfold pstep in Hs. destruct (pr_exit p) eqn:He; [done|].
  assert (Hcase : (exists x, e = ESignal x) \/ forall x, e <> ESignal x) by (destruct e; eauto; by right).
  destruct Hcase as [[x ->]|Hne].
  { cbn [step_live] in Hs. apply bind_Some in Hs as (sg & Hs & [= Hp]). by eapply (proc_hist_sig l _ x p sg). }
  pose proof (main_hist_step l e p p' Hh He Hs Hne) as Hmain.
  pose proof (ph_main _ _ Hh) as Hm0. unfold main_hist in Hm0.
  destruct e as [x|n r|n a|n|err|w| | |err|d|]; cbn [step_live] in Hs; [by destruct (Hne x)|..].
  all: eapply proc_hist_keep; [exact Hh|exact He|done|exact Hrun| |exact Hmain|..]; clear Hmain Hrun Hh;
    destruct p as [sg m sv rq ws ex]; cbn in *; subst ex;
    repeat (match type of Hs with
      | context [match ?x with _ => _ end] => destruct x eqn:?
      | (_ ≫= _) = Some _ => apply bind_Some in Hs as (? & ? & Hs)
      end); simplify_eq/=; auto; try (by intros c; cbn).
  all: try (right; by destruct (sg_stopped sg)); intros c; intros [= <-]; cbn in *; eauto 7.
  destruct drained; [by left|]. by destruct Hm0 as (_ & [x Hx] & _).
Qed.

Lemma prun_hist l p : prun l proc0 = Some p -> proc_hist l p.
Proof. apply (run_steps_hist pstep); [apply proc_hist0|apply proc_hist_step]. Qed.

(** The second signal's exit needs two signals. *)
Lemma hist_second l p : proc_hist l p -> sg_pc (pr_sig p) = SigExited -> (2 <= notified l)%nat.
Proof. intros [_ (H & _) _ _ _ _] E. unfold taken in H. rewrite E in H. lia. Qed.

Lemma hist_stopped l p : proc_hist l p -> sg_stopped (pr_sig p) = true -> (1 <= notified l)%nat.
Proof.
  intros [_ (H & _ & Hst) _ _ _ _] E. apply Hst in E. unfold taken in H.
  destruct (sg_pc (pr_sig p)); [done|lia..].
Qed.

(** ** How the process ends *)

(** What the process's own goroutines and its timer do. *)
Definition own (e : proc_event) : bool :=
  match e with
  | ESignal Take | EServe None | EWorker _ | EBegin | ELook | EDrained _ | ETimeout _ | EExit => true
  | _ => false
  end.

Definition own_steps (l : list proc_event) : nat := total (fun e => if own e then 1%nat else 0%nat) l.

(** How many steps of its own a process has left at most. *)
Definition proc_rank (p : Proc) : nat :=
  match pr_exit p with
  | Some _ => 0
  | None =>
      (2 - taken (pr_sig p)) + match pr_main p with MWait => 4 | MShutdown false => 3 | MShutdown true => 2 | MReturned _ _ => 1 end +
      (if pr_serving p then 1 else 0) + length (pr_workers p)
  end.

Lemma sig_take_rank s s' : sig_step Take s = Some s' -> taken s' = S (taken s) /\ (taken s < 2)%nat.
Proof. destruct s as [[] [|k] b]; cbn; try done; intros [= <-]; cbn; lia. Qed.

Lemma sig_notify_rank s s' : sig_step Notify s = Some s' -> taken s' = taken s.
Proof. destruct s as [[] k b]; cbn; try done; by intros [= <-]. Qed.

Lemma worker_gone w ws : w ∈ ws -> (length (filter (fun x : worker => x <> w) ws) < length ws)%nat.
Proof.
  induction ws as [|x ws IH]; [by intros ?%elem_of_nil|]. intros [->|Hin]%elem_of_cons.
  - rewrite filter_cons_False by tauto. cbn. apply Nat.lt_succ_r, length_filter.
  - rewrite filter_cons. case_decide; cbn; specialize (IH Hin); lia.
Qed.

Lemma pstep_rank e p p' :
  pstep e p = Some p' -> ((if own e then 1 else 0) + proc_rank p' <= proc_rank p)%nat.
Proof.
  unfold pstep, proc_rank. destruct (pr_exit p) eqn:He; [done|]. destruct p as [sg m sv rq ws ex]. cbn in He. subst ex.
  destruct e as [[]|n r|n a|n|[]|w| | |err|d|]; cbn [step_live own]; cbn; intros Hs;
    try (apply bind_Some in Hs as (sg' & Hsg & [= <-])); cbn.
  - rewrite (sig_notify_rank _ _ Hsg). case_decide; lia.
  - destruct (sig_take_rank _ _ Hsg). case_decide; lia.
  - destruct m as [| |[]], (rq !! n); try done; injection Hs as <-; cbn; lia.
  - apply bind_Some in Hs as (r & _ & (r' & _ & [= <-])%bind_Some). cbn. lia.
  - apply bind_Some in Hs as (r & _ & Hs). destruct (rq_done r); [|done]. injection Hs as <-. cbn. lia.
  - destruct sv, m; try done; injection Hs as <-; cbn; lia.
  - destruct sv, m; try done; injection Hs as <-; cbn; lia.
  - destruct (sg_stopped sg); [|done]. destruct (bool_decide (w ∈ ws)) eqn:Hw; [|done].
    apply bool_decide_eq_true in Hw. injection Hs as <-. cbn. pose proof (worker_gone w ws Hw). lia.
  - destruct m; [|done..]. destruct (sg_stopped sg); [|done]. injection Hs as <-. cbn. lia.
  - destruct m as [|[]|]; [done..| |done]. destruct (decide _); [done|]. injection Hs as <-. cbn. lia.
  - destruct m as [|[]|]; [done| | |done]; (destruct (decide _); [|done]); injection Hs as <-; cbn; lia.
  - destruct m as [|[]|]; [done| |done..]. destruct (_ <=? _); [|done]. injection Hs as <-. cbn. lia.
  - destruct m as [| |dr err]; [done..|]. injection Hs as <-. cbn. lia.
Qed.

Lemma proc_progress l p :
  proc_hist l p -> (1 <= notified l)%nat -> pr_exit p = None ->
  exists e, own e = true /\ is_Some (pstep e p).
Proof.
  intros [_ (S1 & S2 & S3) _ _ _ _] Hn He. unfold pstep. rewrite He. destruct (pr_main p) as [|[]|dr err] eqn:Hm.
  - destruct (sg_stopped (pr_sig p)) eqn:Hst.
    + exists EBegin. split; [done|]. cbn. rewrite Hm, Hst. by eexists.
    + exists (ESignal Take). split; [done|]. cbn. destruct (pr_sig p) as [[] k b]; cbn in *; [|naive_solver..].
      destruct k; [exfalso; lia|]. by eexists.
  - exists (ETimeout shutdownTimeout). split; [done|]. cbn. rewrite Hm. by eexists.
  - destruct (decide (pr_requests p = ∅)) as [Hrq|Hrq].
    + exists (EDrained None). split; [done|]. cbn. rewrite Hm, decide_True by done. by eexists.
    + exists ELook. split; [done|]. cbn. rewrite Hm, decide_False by done. by eexists.
  - exists EExit. split; [done|]. cbn. rewrite Hm. by eexists.
Qed.

Lemma prun_rank l p p' : prun l p = Some p' -> (own_steps l + proc_rank p' <= proc_rank p)%nat.
Proof.
  intros H. destruct (run_steps_budget pstep (fun _ => True) proc_rank (fun e => if own e then 1%nat else 0%nat)
    (fun _ => 0%nat) l p p') as [_ Hb]; [|done..|].
  - intros e p1 p2 _ Hs. split; [done|]. pose proof (pstep_rank e p1 p2 Hs). lia.
  - assert (Z0 : forall l : list proc_event, total (fun _ => 0%nat) l = 0%nat) by (induction l0; done).
    rewrite Z0 in Hb. unfold own_steps. lia.
Qed.


(** A stop ends the process: in whatever order signals arrive and requests come, go and
    advance, the program's own goroutines and its timer take at most twelve steps in all, and
    once a signal was sent and none of these steps is left, the process has exited. So no worker,
    request or connection keeps it from exiting; the workers never end before a signal. *)
Theorem stop_terminates (l : list proc_event) (p : Proc) :
  prun l proc0 = Some p ->
  (own_steps l <= 12)%nat /\
  (pr_workers p <> workers -> (1 <= notified l)%nat) /\
  ((1 <= notified l)%nat -> (forall e, own e = true -> pstep e p = None) -> is_Some (pr_exit p)).
Proof.
  intros H. pose proof (prun_hist l p H) as Hh. split; [|split].
  - pose proof (prun_rank l proc0 p H) as Hr. change (proc_rank proc0) with 12%nat in Hr. lia.
  - intros Hw. apply (hist_stopped l p Hh). by apply (ph_workers _ _ Hh).
  - intros Hn Hnone. destruct (pr_exit p) as [c|] eqn:He; [by eexists|].
    destruct (proc_progress l p Hh Hn He) as (e & Ho & [p' Hs]). by rewrite (Hnone e Ho) in Hs.
Qed.
End Process.

Arguments Proc : clear implicits.
Arguments proc_event : clear implicits.

Section Whole.
Context `{P : Platform} {S : Store} {V : CredentialValidator} `{L : Limiter} `{C1 : LRU nat}
  `{BC : LRU bearerCacheEntry} `{GoIP} `{N : GoNet} `{C : Crypto} `{K : !KubeLib} `{O : OIDCLib} `{B : !BootLib}.
Context {W : Type} `{R : ReadWriter W} (Hash : string -> string -> result string string)
  (random : nat -> nat -> result string string).
Context {Req A : Type} (rq_step : A -> Req -> option Req) (rq_done : Req -> bool).



End Whole.

(** ** A stop while a flow stream is attached *)

Section OpenStream.
Context {W : Type} `{GoText} (sessionAlive : ST W bool).

(** An action of a stream whose browser stays, whose session goes on and whose connection to the
    Flow Aggregator holds. *)
Definition steady (a : action) : Prop :=
  match a with
  | Cancel | FlowStream.Start (Some _) | Recv RecvEOF | Recv (RecvErr _) | OnTick false => False
  | _ => True
  end.

(** The handler is in its loop, and has no reason to leave it. *)
Record attached (s : Sys (W := W)) : Prop := mkAttached {
  at_stopped : y_stopped s = false;
  at_cancelled : y_cancelled s = false;
  at_closed : y_flowsClosed s = false;
  at_errs : y_errs s = [];
  at_pc : finished (y_pc s) = false;
}.

Lemma attached0 w : attached (sys0 w).
Proof. done. Qed.

Lemma attached_step a s s' :
  (forall w, eval sessionAlive w = true) -> steady a -> attached s -> step sessionAlive a s = Some s' -> attached s'.
Proof.
  intros Halive Ha Hat. pose proof Hat as [A1 A2 A3 A4 A5].
  destruct a as [|[e|]|[r| |e]| | | | |b| |[]| |]; try done; cbn [step]; unfold producer, consumer;
    rewrite ?A1, ?A2, ?A4; try (match goal with |- context [y_preamble s] => destruct (y_preamble s); cbn [negb] end); try done.
  - destruct (y_pc s); try done. by intros [= <-].
  - destruct (y_pc s); try done. intros [= <-]. split; cbn; try done. by destruct (worth_sending _).
  - destruct (y_pc s); try done. destruct (_ <? _)%nat; [|done]. by intros [= <-].
  - by destruct (y_pc s).
  - by destruct (y_pc s).
  - by destruct (y_pc s).
  - by intros [= <-].
  - pose proof (Halive (y_world s)) as Hw. unfold eval in Hw.
    destruct (sessionAlive (y_world s)) as [al w']. cbn in Hw. subst al. by intros [= <-].
  - destruct (y_flows s); [by rewrite A3|]. by intros [= <-].
  - destruct (y_errCh s); [|done]. destruct (y_errsClosed _); [|done]. by intros [= <-].
Qed.

(** The process is answering an attached stream as its request [n]. *)
Definition streaming (n : nat) (p : Proc (Sys (W := W))) : Prop :=
  exists s, pr_requests p !! n = Some s /\ attached s.

Local Notation pstep := (pstep (step sessionAlive) y_stopped).
Local Notation prun := (prun (step sessionAlive) y_stopped).

Lemma streaming_step n e p p' :
  (forall w, eval sessionAlive w = true) -> (forall a, e = EProgress n a -> steady a) ->
  streaming n p -> pstep e p = Some p' -> streaming n p'.
Proof.
  intros Halive Hsteady (s & Hn & Hat) Hs. unfold Lifecycle.pstep in Hs. destruct (pr_exit p); [done|].
  assert (Hsame : pr_requests p' = pr_requests p -> streaming n p') by (intros E; exists s; by rewrite E).
  destruct e as [x|m r|m a|m|err|wk| | |err|d|]; cbn [step_live] in Hs.
  - apply bind_Some in Hs as (sg & _ & [= <-]). by apply Hsame.
  - assert (Hm : pr_requests p !! m = None -> streaming n (set_requests (<[m:=r]> (pr_requests p)) p)).
    { intros Hm. exists s. cbn. rewrite lookup_insert_ne; [done|]. intros ->. congruence. }
    destruct (pr_main p) as [| |[]], (pr_requests p !! m); try done; injection Hs as <-; by apply Hm.
  - apply bind_Some in Hs as (r & Hr & (r' & Hr' & [= <-])%bind_Some). destruct (decide (m = n)) as [->|Hne].
    + exists r'. cbn. rewrite lookup_insert_eq. split; [done|]. simplify_eq.
      apply (attached_step a s r'); [done|by apply Hsteady|done..].
    + exists s. cbn. by rewrite lookup_insert_ne.
  - apply bind_Some in Hs as (r & Hr & Hs). destruct (y_stopped r) eqn:Hst; [|done]. injection Hs as <-.
    destruct (decide (m = n)) as [->|Hne]; [simplify_eq; destruct Hat; congruence|].
    exists s. cbn. by rewrite lookup_delete_ne.
  - destruct (pr_serving p), (pr_main p), err; try done; injection Hs as <-; by apply Hsame.
  - destruct (_ && _); [|done]. injection Hs as <-. by apply Hsame.
  - destruct (pr_main p); [|done..]. destruct (sg_stopped _); [|done]. injection Hs as <-. by apply Hsame.
  - destruct (pr_main p) as [|[]|]; [done..| |done]. case_decide; [done|]. injection Hs as <-. by apply Hsame.
  - destruct (pr_main p); [done| |done]. case_decide; [|done]. injection Hs as <-. by apply Hsame.
  - destruct (pr_main p) as [|[]|]; [done| |done..]. case_match; [|done]. injection Hs as <-. by apply Hsame.
  - destruct (pr_main p); [done..|]. injection Hs as <-. by apply Hsame.
Qed.

Lemma streaming_accept n w p p' : pstep (EAccept n (sys0 w)) p = Some p' -> streaming n p'.
Proof.
  unfold Lifecycle.pstep. destruct (pr_exit p); [done|]. cbn [step_live]. intros Hs.
  exists (sys0 w). split; [|apply attached0].
  destruct (pr_main p) as [| |[]], (pr_requests p !! n); try done; injection Hs as <-; apply lookup_insert_eq.
Qed.

Lemma streaming_run n w l p :
  (forall w, eval sessionAlive w = true) -> prun l proc0 = Some p ->
  EAccept n (sys0 w) ∈ l -> (forall a, EProgress n a ∈ l -> steady a) -> streaming n p.
Proof.
  intros Halive Hr. pattern l, p. revert Hr. apply run_steps_hist.
  { by intros ?%elem_of_nil. }
  intros l1 e p1 p2 IH Hs Hin Hst.
  assert (Hlast : e ∈ l1 ++ [e]) by (apply elem_of_app; right; left).
  apply elem_of_app in Hin as [Hin|He%list_elem_of_singleton].
  - apply (streaming_step n e p1 p2); [done| | |done].
    + intros a ->. by apply Hst.
    + apply IH; [done|]. intros a Ha. apply Hst, elem_of_app. by left.
  - subst e. by apply (streaming_accept n w p1).
Qed.

(** C39. Nothing tells an attached flow stream that the server is stopping: as long as the browser
    stays, the session goes on and the connection to the aggregator holds, the stream's handler
    does not return, so the server's shutdown cannot finish. A stop then always ends after the five
    seconds, and as a failure: the process never exits with status 0, and when a single signal
    came and the server did serve, it exits because the shutdown's deadline passed. *)
Theorem open_stream_fails_stop (n : nat) (w : W) (l : list (proc_event Sys action)) (p : Proc Sys) :
  (forall w, eval sessionAlive w = true) -> prun l proc0 = Some p ->
  EAccept n (sys0 w) ∈ l -> (forall a, EProgress n a ∈ l -> steady a) ->
  pr_requests p !! n <> None /\ pr_exit p <> Some 0 /\
  (is_Some (pr_exit p) -> notified l = 1%nat -> (forall e, EServe (Some e) ∉ l) ->
   pr_exit p = Some 1 /\ exists d, ETimeout d ∈ l /\ shutdownTimeout <= d).
Proof.
  intros Halive Hr Hin Hst. destruct (streaming_run n w l p Halive Hr Hin Hst) as (s & Hn & _).
  pose proof (prun_hist _ _ l p Hr) as Hh.
  assert (Hnd : forall e, pr_main p <> MReturned true e).
  { intros e Hm. pose proof (ph_main _ _ _ _ Hh) as Hmain. unfold main_hist in Hmain. rewrite Hm in Hmain.
    destruct Hmain as (_ & E & _). by rewrite E, lookup_empty in Hn. }
  assert (H0 : pr_exit p <> Some 0) by (by intros He%(ph_exit0 _ _ _ _ Hh); destruct (Hnd None)).
  split; [congruence|]. split; [done|]. intros [c Hc] H1 Hserve.
  destruct (ph_exit _ _ _ _ Hh c Hc) as [->|[-> [[e He]|[Hs|(d & m & Hm)]]]]; [done|by destruct (Hserve e)| |].
  - pose proof (hist_second _ _ l p Hh Hs). lia.
  - split; [done|]. destruct d; [by destruct (Hnd (Some m))|]. pose proof (ph_main _ _ _ _ Hh) as Hmain.
    unfold main_hist in Hmain. rewrite Hm in Hmain. destruct Hmain as (_ & _ & l1 & l2 & d & [-> _] & Hd & Hle).
    exists d. split; [|done]. apply elem_of_app. right. by right.
Qed.
End OpenStream.
