(* ===== verification/EndToEnd.v ===== *)
(** * From a login to the API server and back

    The components put together, over the store of [SessionStore]: the credential a login was given
    is the one later requests are sent with ([login_then_use]), a credential that the API server
    stops accepting ends the session for every later request ([revoked_session_ends]), and a
    Traceflow goes from its creation, by way of its status, to its result and to the sweep
    ([traceflow_life]). *)
From S2P Require Import Prelude.
From S2P Require Import AntreaSvc.
From S2P Require Import GoStrings.
From S2P Require Import GoUrl.
From S2P Require Import Http.
From S2P Require Import Lru.
From S2P Require Import RateLimit.
From S2P Require Import GoHttp.
From S2P Require Import Session.
From S2P Require Import SessionStore.
From S2P Require Import SessionFacts.
From S2P Require Import SessionOps.
From S2P Require Import SessionRefresh.
From S2P Require Import SessionInv.
From S2P Require Import SessionUse.
From S2P Require Import SessionContext.
From S2P Require Import K8sCred.
From S2P Require Import Authn.
From S2P Require Import Oidc.
From S2P Require Import Auth.
From S2P Require Import Access.
From S2P Require Import Traceflow.
From S2P Require Import Api.
From S2P Require Import K8sProxy.
From S2P Require Import Server.

(** ** The store *)

Section StoreUse.
Context `{P : Platform} (opts : Options) {R : RangeOrder}.

(** A session that nothing can renew, looked up: it is served exactly while it is alive and its
    credential has not expired, as it is but for the time it was seen. *)
Lemma Get_static id o s w :
  Inv opts w -> w_sessions w !! id = Some o -> w_objs w !! o = Some s -> s_refresher s = None ->
  let t := clock_Now (w_ticks w) in
  let t2 := clock_Now (S (w_ticks w)) in
  if alive opts s t && negb (credentialExpired s t2)
  then Get opts id w = (Ok o, with_obj o (s_set_lastSeen (clock_Now (S (S (w_ticks w)))) s) []
                                (exec now (exec now (exec now w))))
  else eval (Get opts id) w = Err ErrExpired.
Proof.
  intros Hi Hid Hs Hr t t2. pose proof (Get_cases opts id w Hi) as C.
  assert (Hn : forall t', needsRefresh s t' refreshWindow = false) by (intros t'; unfold needsRefresh; by rewrite Hr).
  unfold eval, exec in C |- *. destruct (Get opts id w) as [r w'] eqn:E. cbn [fst snd] in *.
  inversion C as [Hid'|o' s' w2 Hid' Hs' Ha Ev|o' s' s1 w1 w2 Hid' Hs' Ha U M Hc Ev|o' s' s1 w1 Hid' Hs' Ha U M Hc]; subst.
  - congruence.
  - simplify_eq. unfold t. by rewrite Ha.
  - simplify_eq. unfold maybe_result in M. rewrite Hn in M. destruct M as [-> ->].
    unfold t. rewrite Ha. cbn in Hc. unfold t2. by rewrite Hc.
  - simplify_eq. unfold maybe_result in M. rewrite Hn in M. destruct M as [-> ->].
    unfold t. rewrite Ha. cbn in Hc. unfold t2. by rewrite Hc.
Qed.

(** A credential just allocated is one no session holds. *)
Lemma spec_fresh_allocated mode v user w :
  Inv opts w ->
  spec_fresh (mkSpec mode (eval (alloc_credential v) w) None user None) (exec (alloc_credential v) w).
Proof.
  intros Hi. destruct (alloc_credential_grown v w) as (G & F & _).
  assert (Hl : forall l, l ∈ spec_locs (mkSpec mode (eval (alloc_credential v) w) None user None) ->
                 l ∈ cred_locs (eval (alloc_credential v) w)).
  { intros l. unfold spec_locs. cbn. by rewrite app_nil_r. }
  split; [|done|].
  - intros l Hin%Hl. by apply (fresh_credential_locs w _ (eval (alloc_credential v) w)).
  - intros o s l Hs Hls Hin%Hl. rewrite (gr_objs _ _ G) in Hs.
    destruct (fresh_credential_locs w _ _ l F Hin) as [? _].
    pose proof (i_mem _ _ Hi l (i_locs _ _ Hi o s Hs l Hls)). lia.
Qed.

End StoreUse.

(** ** From the login to the request *)

Section Use.
Context `{P : Platform} (opts : Options) {R : RangeOrder} {V : CredentialValidator} `{L : Limiter}
  `{C1 : LRU nat} `{BC : LRU bearerCacheEntry} `{GoIP} `{N : GoNet} `{C : Crypto} `{K : !KubeLib}
  `{O : OIDCLib} `{T : !TraceflowAPI} `{RV : !ReviewAPI} `{LI : Lister} `{X : !ProxyLib}.

#[local] Instance the_store : Store := mem_store opts R.
#[local] Instance the_laws : StoreLaws the_store := mem_store_laws opts R.

Local Notation HM := (ST (HState SrvState)).

(** The time limits of a session made at [t0] with a credential that ends at [expiry] and seen last
    at [seen], for a request that reads the clock at [t] and [t2]. *)
Definition within_limits (t0 seen t t2 expiry : time) : bool :=
  bool_decide (t <= t0 + MaxLifetime opts)
  && ((expiry =? 0) || bool_decide (t <= expiry) && bool_decide (t2 <= expiry))
  && (time_Sub t seen <=? IdleTimeout opts).

Lemma alive_limits s t t2 :
  s_refresher s = None ->
  alive opts s t && negb (credentialExpired s t2) =
    within_limits (s_createdAt s) (s_lastSeen s) t t2 (cr_ExpiresAt (s_credential s)).
Proof.
  intros Hr. unfold alive, credentialExpired, within_limits, time_After, time_Add, time_IsZero.
  rewrite Hr. set (e := cr_ExpiresAt (s_credential s)).
  destruct (Z.ltb_spec (s_createdAt s + MaxLifetime opts) t), (Z.eqb_spec e 0), (Z.ltb_spec e t), (Z.ltb_spec e t2),
    (time_Sub t (s_lastSeen s) <=? IdleTimeout opts);
    repeat first [rewrite bool_decide_true by lia|rewrite bool_decide_false by lia]; done.
Qed.

(** The world a login works on once it holds its own copy of the credential and the caller's
    former session is gone. *)
Definition login_world (req : Request) (v : CredVal) (w : World) : World :=
  after_replace req (exec (alloc_credential v) w).

Lemma login_world_ok req mode v user w :
  Inv opts w ->
  let cred := eval (alloc_credential v) w in
  let w1 := login_world req v w in
  Inv opts w1 /\ spec_fresh (mkSpec mode cred None user None) w1 /\ w_ticks w1 = w_ticks w /\
  credential_val (w_mem w1) cred = v.
Proof.
  intros Hi cred w1. destruct (alloc_credential_grown v w) as (G & _ & _).
  set (w0 := exec (alloc_credential v) w) in *.
  assert (Hi0 : Inv opts w0) by (apply (Inv_grown opts w); [done|apply (mem_wf_grown w); [done|apply Hi]|done]).
  pose proof (spec_fresh_allocated opts mode v user w Hi) as Hf. fold cred w0 in Hf.
  assert (Ht : w_ticks w0 = w_ticks w) by (unfold w0, exec, alloc_credential; by destruct v as [? [] [] [] ? ?]).
  pose proof (alloc_credential_val v w) as Hv. fold cred w0 in Hv.
  unfold w1, login_world, after_replace. fold w0. destruct (GetSessionCookie req) as [id|]; [|done].
  change (exec (store_Delete id) w0) with (exec (Delete id) w0).
  pose proof (Delete_evicted id w0 (i_live _ _ Hi0)) as E.
  split_and!; [by apply Inv_Delete|by apply (spec_fresh_evicted _ _ _ _ E)| |].
  - by rewrite (er_ticks _ _ _ (proj1 E)).
  - rewrite <- Hv. apply credential_val_ext. intros l Hl. apply (spec_fresh_mem _ _ _ _ _ E Hf).
    unfold spec_locs. rewrite elem_of_app. by left.
Qed.

Context (auth : Authenticator).

(** What a credential login that succeeds leaves behind. *)
Lemma login_made req mode v h :
  let w := sv_store (h_world h) in
  let h' := exec (login_with auth req mode v) h in
  let w' := sv_store (h_world h') in
  Inv opts w -> eval (login_with auth req mode v) h = None ->
  exists user id o s, (cv_Validate v (sv_kube (h_world h))).1 = Ok user /\
    s = new_session opts id (clock_Now (w_ticks w)) (mkSpec mode (eval (alloc_credential v) w) None user None) /\
    h_out h' = h_out h ++ [SetCookie (session_cookie id (ac_CookieSecure (a_config auth)) (SameSite_mode auth))]
                 ++ legacy_effects req /\
    w_sessions w' !! id = Some o /\ w_objs w' !! o = Some s /\ credential_val (w_mem w') (s_credential s) = v.
Proof.
  intros w h' w' Hi Hok. unfold w', h', exec, eval in *. rewrite login_with_run in *. cbn zeta in *.
  destruct ((cv_Validate v _).1) as [user|e]; [|done].
  rewrite createSession_run in *. cbn [h_world h_out sv_store sv_kube sv_cache sv_limiter] in *.
  fold w in Hok |- *. fold (login_world req v w) in Hok |- *. change (store_Create ?sp) with (Create opts sp) in *.
  destruct (login_world_ok req mode v user w Hi) as (Hi1 & Hf & Ht & Hv). set (sp := mkSpec _ _ _ _ _) in *.
  pose proof (Create_made opts sp (login_world req v w)) as M. unfold exec, eval in M.
  destruct (Create opts sp _) as [[o|e] w2]; [|done]. cbn [fst snd h_world h_out sv_store] in *.
  destruct (M o Hi1 Hf eq_refl) as (b & _ & Hid & Hs & Hmem). rewrite Hs.
  exists user, (hex_EncodeToString b), o, (new_session opts (hex_EncodeToString b) (clock_Now (w_ticks (login_world req v w))) sp).
  rewrite Ht in *. split_and!; try done. rewrite <- Hv. apply credential_val_ext. intros l Hl. apply Hmem.
  unfold spec_locs. rewrite elem_of_app. by left.
Qed.

(** A login that succeeds keeps the store well formed. *)
Lemma login_with_Inv req mode v h :
  let w := sv_store (h_world h) in
  opts_ok opts -> Inv opts w -> id_unused (login_world req v w) -> eval (login_with auth req mode v) h = None ->
  Inv opts (sv_store (h_world (exec (login_with auth req mode v) h))).
Proof.
  intros w Hopts Hi Hu Hok. unfold exec, eval in *. rewrite login_with_run in *. cbn zeta in *.
  destruct ((cv_Validate v _).1) as [user|e]; [|done]. rewrite createSession_run in *.
  cbn [h_world h_out sv_store sv_kube sv_cache sv_limiter] in *.
  fold w in Hok |- *. fold (login_world req v w) in Hok |- *. change (store_Create ?sp) with (Create opts sp) in *.
  destruct (login_world_ok req mode v user w Hi) as (Hi1 & Hf & _).
  pose proof (Inv_Create opts _ _ Hopts Hi1 Hf Hu) as Hi2. unfold exec in Hi2.
  by destruct (Create opts _ _) as [[o|e] w2].
Qed.

(** A session whose transports were all built from [v] answers with one built from [v]. *)
Lemma TransportForRequest_built (f : ClientFactory) ra o s v w :
  ra_session ra = Some o -> w_objs w !! o = Some s -> credential_val (w_mem w) (s_credential s) = v ->
  (forall c, s_transports s !! transportKey f = Some c -> exists cl, TransportFor f v = Ok (ct_rt c, cl)) ->
  eval (TransportForRequest f (Some ra)) w =
    match TransportFor f v with Ok (rt, _) => Ok rt | Err e => Err e end.
Proof.
  intros Hr Hs Hv Ht. unfold eval, TransportForRequest, ra_TransportFor. rewrite Hr.
  rewrite (transportFor_run o _ _ s) by done. destruct (s_transports s !! transportKey f) as [c|].
  - by destruct (Ht c eq_refl) as [cl ->].
  - rewrite Hv. by destruct (TransportFor f v) as [[]|].
Qed.

(** A lookup of a session that [followed] describes. *)
Lemma Get_followed id o s0 v n0 f w :
  s_refresher s0 = None -> followed opts id o s0 v n0 (transportKey f) (TransportFor f) w ->
  w_sessions w !! id = Some o ->
  exists s, w_objs w !! o = Some s /\ follows s0 v n0 (transportKey f) (TransportFor f) w s /\
    let t := clock_Now (w_ticks w) in let t2 := clock_Now (Datatypes.S (w_ticks w)) in
    if within_limits (s_createdAt s0) (s_lastSeen s) t t2 (cr_ExpiresAt (s_credential s0))
    then Get opts id w = (Ok o, with_obj o (s_set_lastSeen (clock_Now (Datatypes.S (Datatypes.S (w_ticks w)))) s) []
                                  (exec now (exec now (exec now w))))
    else eval (Get opts id) w = Err ErrExpired.
Proof.
  intros Hr0 [Hi _ _ Hlive] Hid. destruct (Hlive Hid) as (s & Hs & F). exists s. split; [done|]. split; [done|].
  pose proof (follows_refresher s0 v n0 _ _ Hr0 w s F) as Hr.
  pose proof (Get_static opts id o s w Hi Hid Hs Hr) as G. cbn zeta in G |- *. rewrite alive_limits in G by done.
  by rewrite (follows_createdAt s0 v n0 _ _ w s F), (follows_credential s0 v n0 _ _ w s F) in G.
Qed.

(** C7. A login is good for requests as the user the API server named, with the very credential that
    was pasted, and for no longer than the limits allow. After a token or kubeconfig login that
    succeeded, and any sequence of store operations since, by any clients, the server building its
    transports for the API server with its one client factory: a request that presents the cookie
    the login set and passes the cross-origin gate is answered that there is no such session exactly
    when it is no longer in the store (ended, evicted or swept); while it is there (and no later
    login drew its random id again) it is resolved to that user and mode and goes to the API server
    through a transport built from exactly the bytes of the login if the lifetime cap, the idle
    timeout since the store last saw it and the credential's own expiry are all kept, and it is
    answered that the session expired if one of them is not. *)
Theorem login_then_use (req : Request) (mode : string) (v : CredVal) (h : HState SrvState) :
  let w := sv_store (h_world h) in
  let h' := exec (login_with auth req mode v) h in
  let w' := sv_store (h_world h') in
  opts_ok opts -> Inv opts w -> id_unused (login_world req v w) -> eval (login_with auth req mode v) h = None ->
  exists user id o, (cv_Validate v (sv_kube (h_world h))).1 = Ok user /\
    SetCookie (session_cookie id (ac_CookieSecure (a_config auth)) (SameSite_mode auth)) ∈ h_out h' /\
    w_sessions w' !! id = Some o /\
    forall (f : ClientFactory) (req2 : Request) (h2 : HState SrvState),
      let w2 := sv_store (h_world h2) in
      rtc (fstep opts (transportKey f) (TransportFor f)) w' w2 ->
      GetSessionCookie req2 = Some id -> checkCSRF auth req2 = None ->
      match w_sessions w2 !! id with
      | None => eval (Resolve auth req2) h2 = Err (session_invalid ErrNotFound)
      | Some o2 => o2 = o -> exists s, w_objs w2 !! o = Some s /\
          (s_lastSeen s = clock_Now (w_ticks w) \/
           exists i, (w_ticks w' <= i < w_ticks w2)%nat /\ s_lastSeen s = clock_Now i) /\
          if within_limits (clock_Now (w_ticks w)) (s_lastSeen s) (clock_Now (w_ticks w2))
               (clock_Now (Datatypes.S (w_ticks w2))) (cv_ExpiresAt v)
          then exists ra, eval (Resolve auth req2) h2 = Ok ra /\ ra_Mode ra = mode /\ ra_Username ra = user /\
            eval (TransportForRequest f (Some ra)) (sv_store (h_world (exec (Resolve auth req2) h2))) =
              match TransportFor f v with Ok (rt, _) => Ok rt | Err e => Err e end
          else eval (Resolve auth req2) h2 = Err (session_invalid ErrExpired)
      end.
Proof.
  intros w h' w' Hopts Hi Hunused Hok. destruct (login_made req mode v h Hi Hok) as (user & id & o & s0 & Hu & Es & Ho & Hid & Hs & Hv).
  pose proof (login_with_Inv req mode v h Hopts Hi Hunused Hok) as Hi'.
  exists user, id, o. fold h' in Ho, Hi'. fold w in Es. fold h' w' in Hid, Hs, Hv. fold w' in Hi'. split_and!; try done.
  { rewrite Ho, !elem_of_app. right. left. by left. }
  intros f req2 h2 w2 Hrun Hc Hg. assert (Hr0 : s_refresher s0 = None) by (by rewrite Es).
  assert (F' : followed opts id o s0 v (w_ticks w') (transportKey f) (TransportFor f) w').
  { split; [done|done|by eexists|]. intros _. exists s0. split; [done|]. split; [by rewrite Es|done|by rewrite Es|by left]. }
  pose proof (followed_run opts id o s0 v _ _ _ Hopts Hr0 w' w2 Hrun F') as F2.
  unfold eval, exec in *. rewrite (Resolve_session auth req2 h2 id Hc Hg). fold w2.
  change (store_Get id w2) with (Get opts id w2). destruct (w_sessions w2 !! id) as [o2|] eqn:Hid2.
  2:{ unfold Get, lookup_session, gets. rewrite bind_run. cbn [fst snd]. by rewrite Hid2. }
  intros ->. destruct (Get_followed id o s0 v _ f w2 Hr0 F2 Hid2) as (s & Hs2 & Fs & G). exists s. split; [done|].
  assert (Et : s_createdAt s0 = clock_Now (w_ticks w)) by (by rewrite Es).
  assert (El : s_lastSeen s0 = clock_Now (w_ticks w)) by (by rewrite Es).
  assert (Ee : cr_ExpiresAt (s_credential s0) = cv_ExpiresAt v).
  { rewrite Es. by destruct (alloc_credential_grown v w) as (_ & _ & He). }
  rewrite Et, Ee in G. destruct Fs as [F3 F4 F5 F6]. rewrite El in F6. split; [done|]. cbn zeta in G.
  destruct (within_limits _ _ _ _ _).
  - rewrite G. cbn [fst snd h_world sv_store]. eexists. split; [done|]. unfold eval, NewSessionAuth.
    rewrite (deref_run _ _ _ _ _ (with_obj_lookup _ _ _ _)). cbn [fst mret ST_ret ra_Mode ra_Username].
    split; [by rewrite F3, Es|]. split; [by rewrite F3, Es|].
    eapply (TransportForRequest_built f _ o (s_set_lastSeen _ s)); [done|apply with_obj_lookup| |exact F5].
    cbn. rewrite <- F4. by rewrite F3.
  - unfold eval in G. destruct (Get opts id w2) as [r w3]. cbn [fst] in G. by subst r.
Qed.

(** *** A credential the API server rejects *)

Context (k8sServerURL : PURL) (f : ClientFactory).

(** The handlers of a server as far as the proxy goes: the path gin captured and the request as
    net/http has it are arguments; every other handler is [other]. *)
Definition proxy_handlers (path : string) (hreq : HttpRequest)
    (other : handler -> Request -> Context -> ST (HState ServerState) unit) (hd : handler) (req : Request) (cx : Context)
    : ST (HState ServerState) unit :=
  match hd with
  | h_api h_GetK8s => on_srv (GetK8s k8sServerURL f (cx_RequestAuth cx) path hreq)
  | _ => other hd req cx
  end.

(** A route of the server that needs an identity runs nothing on a cookie the store does not know. *)
Lemma serve_unknown s routes lm rt run req body id hs :
  AddRoutes s = Some (routes, lm) -> rt ∈ routes -> needs_identity (rt_Handler rt) = true ->
  GetSessionCookie req = Some id -> checkCSRF (s_authenticator s) req = None ->
  eval (store_Peek id) (sv_store (ss_srv (h_world hs))) = None ->
  exec (serve (s_authenticator s) run rt req body) hs =
    mkH (h_world hs) (h_out hs ++ [SetCookie (expired_cookie SessionCookieName sessionCookiePath)] ++
                      legacy_effects req ++ refusal (session_invalid ErrNotFound) "Failed to authenticate request").
Proof.
  intros Hadd Hin Hneed Hc Hg Hp.
  assert (exists ms, rt_Chain rt = mw_authenticate :: ms) as [ms Hms].
  { pose proof (route_chain s routes lm rt Hadd Hin) as Hok. unfold chain_ok in Hok. rewrite Hneed in Hok.
    case_decide; rewrite Hok; by eexists. }
  pose proof (serve_authenticated (s_authenticator s) run rt ms req body hs Hms) as Hserve.
  rewrite (Resolve_session _ req (srv_part hs) id Hc Hg) in Hserve.
  change (sv_store (h_world (srv_part hs))) with (sv_store (ss_srv (h_world hs))) in Hserve.
  rewrite (store_Get_unknown id _ Hp) in Hserve. unfold exec. rewrite Hserve. cbn [snd h_world h_out srv_part].
  destruct hs as [[[w k c l] lim] out]. cbn [h_world h_out ss_srv sv_store sv_kube sv_cache sv_limiter ss_limits] in *.
  by rewrite <- !(assoc_L (++)).
Qed.

(** What [Get] answers with is an object of the store, under that id. *)
Lemma Get_found id o w :
  Inv opts w -> eval (Get opts id) w = Ok o ->
  exists s, w_objs (exec (Get opts id) w) !! o = Some s /\ s_id s = id /\
    w_sessions (exec (Get opts id) w) !! id = Some o.
Proof.
  intros Hi Hg. destruct (store_Get_Peek (StoreLaws := mem_store_laws opts R) id w o Hi Hg) as (_ & Hp & s & Hs & Hid).
  exists s. split; [done|]. split; [done|]. exact Hp.
Qed.

Lemma TransportForRequest_sessions ra o s w :
  ra_session ra = Some o -> w_objs w !! o = Some s ->
  w_sessions (exec (TransportForRequest f (Some ra)) w) = w_sessions w.
Proof.
  intros Hr Hs. unfold exec, TransportForRequest, ra_TransportFor. rewrite Hr.
  rewrite (transportFor_run o _ _ s) by done. destruct (s_transports s !! _); [done|]. by destruct (TransportFor f _) as [[]|].
Qed.

(** A proxied read with a live session cookie, from the route to the answer. *)
Lemma serve_proxied a rt other path hreq req body hs id o tr status rest :
  let srv := ss_srv (h_world hs) in
  let w1 := exec (Get opts id) (sv_store srv) in
  let use := TransportForRequest f (Some (eval (NewSessionAuth o) w1)) in
  rt_Chain rt = [mw_authenticate] -> rt_Handler rt = h_api h_GetK8s -> Inv opts (sv_store srv) ->
  GetSessionCookie req = Some id -> checkCSRF a req = None ->
  eval (Get opts id) (sv_store srv) = Ok o -> eval use w1 = Ok tr ->
  k8s_Do (ks_calls (sv_kube srv)) tr (sent k8sServerURL path hreq) = Ok (status, rest) ->
  store_ok (exec use w1) /\ w_sessions (exec use w1) !! id = Some o /\
  exec (serve a (proxy_handlers path hreq other) rt req body) hs =
    mkH (mkServerState (mkSrv (if status =? StatusUnauthorized then exec (Delete id) (exec use w1) else exec use w1)
                          (exec (kube_call (fun _ => tt)) (sv_kube srv)) (sv_cache srv) (sv_limiter srv))
           (ss_limits (h_world hs))) (h_out hs ++ [Data status "" rest]).
Proof.
  intros srv w1 use Hms Hh Hi Hc Hg Hget Htr Hdo.
  destruct (Get_found id o (sv_store srv) Hi Hget) as (sn & Hs & Hid & Hlive). fold w1 in Hs, Hlive.
  pose proof (Inv_Get opts id _ Hi) as Hi1. fold w1 in Hi1. set (ra := eval (NewSessionAuth o) w1) in *.
  assert (Hra : ra_session ra = Some o) by (unfold ra, eval, NewSessionAuth; by rewrite (deref_run _ _ _ sn)).
  destruct (use_ok (L := the_laws) f ra o sn w1 Hi1 Hra Hs) as (Hok & s1 & Hs1 & Hid1). fold use in Hok, Hs1.
  split; [exact Hok|]. split; [unfold use; by rewrite (TransportForRequest_sessions ra o sn)|].
  pose proof (serve_authenticated a (proxy_handlers path hreq other) rt [] req body hs Hms) as Hserve.
  rewrite (Resolve_session _ req (srv_part hs) id Hc Hg) in Hserve.
  change (store_Get id (sv_store (h_world (srv_part hs)))) with (Get opts id (sv_store srv)) in Hserve.
  unfold eval, w1, exec in Hget, ra. unfold exec at 1. destruct (Get opts id (sv_store srv)) as [r w] eqn:E.
  cbn [fst] in Hget. subst r. assert (w = w1) as -> by (unfold w1, exec; by rewrite E).
  rewrite Hserve. cbn [run_chain mret ST_ret]. unfold proxy_handlers. rewrite Hh, on_srv_run.
  cbn [cx_RequestAuth h_world h_out ss_srv ss_limits].
  rewrite (GetK8s_run k8sServerURL f ra path hreq _ tr status rest); cbn [snd h_world h_out sv_store sv_kube sv_cache sv_limiter].
  - rewrite (Invalidate_run ra o s1) by done. by rewrite Hid1, Hid.
  - exact Htr.
  - exact Hdo.
Qed.

(** C9. A credential that stops working upstream ends the session everywhere: a proxied read with a
    session cookie is sent to the API server once, and its answer passed on; when that is a 401,
    every later request with the same cookie, on every route that acts for a user, is refused with
    the cookie expired, its handler not run and the state not touched; after any other answer, a 403
    included, the cookie still names the session it did. *)
Theorem revoked_session_ends (s : Server) (routes : list route) (lm : Limits) (rt : route)
    (other : handler -> Request -> Context -> ST (HState ServerState) unit) (path : string) (hreq : HttpRequest)
    (req : Request) (body : Body) (hs : HState ServerState) (id : string) (o : nat) (tr : RoundTripper)
    (status : Z) (rest : string) :
  let srv := ss_srv (h_world hs) in
  let w1 := exec (Get opts id) (sv_store srv) in
  let ra := eval (NewSessionAuth o) w1 in
  let hs' := exec (serve (s_authenticator s) (proxy_handlers path hreq other) rt req body) hs in
  let srv' := ss_srv (h_world hs') in
  AddRoutes s = Some (routes, lm) -> rt ∈ routes -> rt_Handler rt = h_api h_GetK8s ->
  Inv opts (sv_store srv) ->
  GetSessionCookie req = Some id -> checkCSRF (s_authenticator s) req = None ->
  eval (Get opts id) (sv_store srv) = Ok o ->
  eval (TransportForRequest f (Some ra)) w1 = Ok tr ->
  k8s_Do (ks_calls (sv_kube srv)) tr (sent k8sServerURL path hreq) = Ok (status, rest) ->
  h_out hs' = h_out hs ++ [Data status "" rest] /\
  ks_calls (sv_kube srv') = Datatypes.S (ks_calls (sv_kube srv)) /\
  if decide (status = StatusUnauthorized) then
    forall (rt2 : route) (run2 : handler -> Request -> Context -> ST (HState ServerState) unit)
      (req2 : Request) (body2 : Body) (out : list effect),
      rt2 ∈ routes -> needs_identity (rt_Handler rt2) = true ->
      GetSessionCookie req2 = Some id -> checkCSRF (s_authenticator s) req2 = None ->
      exec (serve (s_authenticator s) run2 rt2 req2 body2) (mkH (h_world hs') out) =
        mkH (h_world hs') (out ++ [SetCookie (expired_cookie SessionCookieName sessionCookiePath)] ++
          legacy_effects req2 ++ refusal (session_invalid ErrNotFound) "Failed to authenticate request")
  else w_sessions (sv_store srv') !! id = Some o.
Proof.
  intros srv w1 ra hs' srv' Hadd Hin Hh Hi Hc Hg Hget Htr Hdo.
  assert (Hms : rt_Chain rt = [mw_authenticate]).
  { pose proof (route_chain s routes lm rt Hadd Hin) as Hok. unfold chain_ok in Hok. by rewrite Hh in Hok. }
  destruct (serve_proxied (s_authenticator s) rt other path hreq req body hs id o tr status rest Hms Hh Hi Hc Hg Hget Htr Hdo)
    as (Hok & Hlive & Hrun). fold srv w1 ra in Hok, Hlive, Hrun. fold hs' in Hrun.
  unfold srv'. rewrite Hrun. cbn [h_world h_out ss_srv sv_store sv_kube]. split; [done|]. split; [done|].
  destruct (Z.eqb_spec status StatusUnauthorized) as [E|E]; [rewrite decide_True by done|by rewrite decide_False by done].
  intros rt2 run2 req2 body2 out Hin2 Hneed Hc2 Hg2.
  apply (serve_unknown s routes lm rt2 run2 req2 body2 id); try done. exact (store_Delete_Peek (StoreLaws := the_laws) id _ Hok).
Qed.

End Use.

(** ** A Traceflow, from its creation to its end *)

Section TraceflowLife.
Context `{P : Platform} {S : Store} `{L : Limiter} `{C1 : LRU nat} `{BC : LRU bearerCacheEntry} `{K : !KubeLib}
  `{T : !TraceflowAPI} `{RV : !ReviewAPI} {R : RangeOrder} (f : ClientFactory).

Definition tf_location (id : string) : string := "/api/v1/traceflow/" +:+ id.

Definition poll_again (id : string) : list effect :=
  [SetHeader "Access-Control-Expose-Headers" "Location, Retry-After"; SetHeader "Location" (tf_location id +:+ "/status");
   SetHeader "Retry-After" "1"; Status StatusOK].
Definition poll_done (id : string) : list effect :=
  [SetHeader "Access-Control-Expose-Headers" "Location"; SetHeader "Location" (tf_location id +:+ "/result");
   Status StatusFound].
Definition not_available : ServerError :=
  mkServerError StatusNotFound None "Traceflow result not available, call the /status endpoint to check progress".
Definition bad_json (e : string) : ServerError :=
  mkServerError StatusInternalServerError (Some ("error when converting Traceflow request result to JSON: " +:+ e)) "".
Definition bad_phase (message : string) : ServerError :=
  mkServerError StatusInternalServerError (Some (message +:+ ": status.phase is not a string")) "".

Definition tf_done (st : tf_status) : bool :=
  match st with Phase p => bool_decide (p = "Succeeded") || bool_decide (p = "Failed") | _ => false end.

Lemma GetRequestResult_run client id tf ks :
  tf_do_Get (ks_calls ks) client id = Ok tf ->
  eval (GetRequestResult client id) ks =
    match tf_Status tf with
    | BadPhase => Err (ApiOther "status.phase is not a string")
    | st => Ok (tf, tf_done st)
    end.
Proof. intros Hg. unfold eval, GetRequestResult, kube_call. rewrite bind_run. cbn [fst snd]. rewrite Hg. by destruct (tf_Status tf). Qed.

Lemma status_run ra client id tf (h : HState SrvState) :
  can_ask f ra client h -> tf_do_Get (ks_calls (sv_kube (h_world h))) client id = Ok tf ->
  h_out (exec (GetTraceflowRequestStatus f ra id) h) = h_out h ++
    match tf_Status tf with
    | BadPhase => failure "Failed to get Traceflow request status" (bad_phase "error when getting Traceflow request status")
    | st => if tf_done st then poll_done id else poll_again id
    end.
Proof.
  intros Hask Hg%GetRequestResult_run. unfold exec, GetTraceflowRequestStatus. rewrite bind_run, (with_client_run _ _ _ _ _ _ Hask).
  unfold eval in Hg. rewrite Hg. destruct (tf_Status tf) as [| |p]; cbn [k8sError mret ST_ret].
  - cbn [finish]. unfold emit. run_effects.
  - by rewrite finish_error.
  - cbn [finish]. destruct (tf_done (Phase p)); cbn [negb]; run_effects.
Qed.

Lemma result_run json ra client id tf (h : HState SrvState) :
  can_ask f ra client h -> tf_do_Get (ks_calls (sv_kube (h_world h))) client id = Ok tf ->
  h_out (exec (GetTraceflowRequestResult f json ra id) h) = h_out h ++
    let failed := failure "Failed to get result for Traceflow request" in
    match tf_Status tf with
    | BadPhase => failed (bad_phase "error when getting Traceflow request result")
    | st => if tf_done st then
              match json tf with
              | Ok data => [SetHeader "Access-Control-Expose-Headers" "Content-Disposition";
                            Data StatusOK "application/json; charset=utf-8" data]
              | Err e => failed (bad_json e)
              end
            else failed not_available
    end.
Proof.
  intros Hask Hg%GetRequestResult_run. unfold exec, GetTraceflowRequestResult. rewrite bind_run, (with_client_run _ _ _ _ _ _ Hask).
  unfold eval in Hg. rewrite Hg. destruct (tf_Status tf) as [| |p]; cbn [k8sError mret ST_ret];
    cbn [tf_done negb]; [by rewrite finish_error..|].
  destruct (_ || _); cbn [negb]; [|by rewrite finish_error].
  destruct (json tf); [|by rewrite finish_error]. cbn [finish]. run_effects.
Qed.

(** C30. The life of a Traceflow request, as its client sees it: a creation that the API server takes is
    answered 202 with the place of the request, whose name is the object's, and which redirects to
    its status; from then on, whoever may ask for it, the status sends the client on to the result
    exactly when the result is served, the object's JSON as it is, and otherwise has it poll again,
    while the result is 404; and the object is one that the sweep finds, which deletes it exactly
    when it is more than an hour old. *)
Theorem traceflow_life (ra : option RequestAuth) (client : RoundTripper) (spec : option string) (h : HState SrvState) :
  let ks := sv_kube (h_world h) in
  let id := uuid_NewString (ks_calls ks) in
  let created := mkTraceflow id traceflowLabels spec NoPhase 0 in
  can_ask f ra client h -> tf_do_Create (ks_calls ks) client created = None ->
  h_out (exec (CreateTraceflowRequest f ra (Ok spec)) h) = h_out h ++
    [SetHeader "Access-Control-Expose-Headers" "Location, Retry-After"; SetHeader "Location" (tf_location id);
     SetHeader "Retry-After" "2"; Status StatusAccepted] /\
  h_out (exec (TraceflowRedirect (tf_location id)) h) =
    h_out h ++ [Redirect StatusSeeOther (tf_location id +:+ "/status")] /\
  (forall json ra2 client2 tf (h2 : HState SrvState),
     can_ask f ra2 client2 h2 -> tf_do_Get (ks_calls (sv_kube (h_world h2))) client2 id = Ok tf ->
     let status := h_out (exec (GetTraceflowRequestStatus f ra2 id) h2) in
     let result := h_out (exec (GetTraceflowRequestResult f json ra2 id) h2) in
     (tf_done (tf_Status tf) = true ->
        status = h_out h2 ++ poll_done id /\
        result = h_out h2 ++ match json tf with
                  | Ok data => [SetHeader "Access-Control-Expose-Headers" "Content-Disposition";
                                Data StatusOK "application/json; charset=utf-8" data]
                  | Err e => failure "Failed to get result for Traceflow request" (bad_json e)
                  end) /\
     (tf_done (tf_Status tf) = false -> tf_Status tf <> BadPhase ->
        status = h_out h2 ++ poll_again id /\
        result = h_out h2 ++ [JSON StatusNotFound (se_Message not_available)])) /\
  (forall gc now ks2 items, tf_do_List (ks_calls ks2) gc (tf_Labels created) = Ok items ->
     id ∈ eval (tf_doGC gc now) ks2 <->
       exists tf, tf ∈ items /\ tf_Name tf = id /\ now - tf_Created tf > traceflowExpiryTimeout).
Proof.
  intros ks id created Hask Hc. split_and!.
  - unfold exec, CreateTraceflowRequest. cbn [BindJSON]. rewrite bind_run. cbn [mret ST_ret].
    rewrite bind_run, (with_client_run _ _ _ _ _ _ Hask). unfold CreateRequest, gets, kube_call. rewrite !bind_run. cbn [fst snd].
    fold ks id created. rewrite Hc. cbn [mret ST_ret fst snd finish]. run_effects.
  - done.
  - intros json ra2 client2 tf h2 Hask2 Hg status result. unfold status, result.
    rewrite (status_run _ _ _ _ _ Hask2 Hg), (result_run _ _ _ _ _ _ Hask2 Hg). split; intros Hd.
    + destruct (tf_Status tf); [done|done|]. by rewrite Hd.
    + intros Hb. destruct (tf_Status tf); [done|done|]. by rewrite Hd.
  - intros gc now ks2 items Hl. pose proof (tf_doGC_deletes gc now ks2) as G. cbn [tf_Labels created] in Hl. rewrite Hl in G.
    destruct G as [-> _]. rewrite list_elem_of_fmap. setoid_rewrite list_elem_of_filter. naive_solver.
Qed.

End TraceflowLife.
