(* ===== verification/Renewal.v ===== *)
(** * A request that arrives when the credential is about to expire

    The session store, the identity of a request and the client factory put together for a session
    that an identity provider can renew: the request that finds the credential inside the refresh
    window pays for one call of the provider, and is itself sent with the renewed credential. *)
From S2P Require Import Prelude.
From S2P Require Import AntreaSvc.
From S2P Require Import GoStrings.
From S2P Require Import GoUrl.
From S2P Require Import Http.
From S2P Require Import Lru.
From S2P Require Import RateLimit.
From S2P Require Import GoHttp.
From S2P Require Import Session.
From S2P Require Import SessionStore.
From S2P Require Import SessionFacts.
From S2P Require Import SessionOps.
From S2P Require Import SessionRefresh.
From S2P Require Import SessionInv.
From S2P Require Import SessionContext.
From S2P Require Import K8sCred.
From S2P Require Import Authn.
From S2P Require Import Oidc.
From S2P Require Import Auth.
From S2P Require Import Access.
From S2P Require Import Traceflow.
From S2P Require Import Api.
From S2P Require Import EndToEnd.

Section StoreRenewal.
Context `{P : Platform} (opts : Options) {R : RangeOrder}.

(** The session is due at both looks at it, before and after the refresh lock. *)
Definition due (s : Session) (w : World) : bool :=
  alive opts s (clock_Now (w_ticks w))
  && needsRefresh s (clock_Now (w_ticks w)) refreshWindow
  && needsRefresh s (clock_Now (S (w_ticks w))) refreshWindow.

(** What the session looks like after a renewal with [v] and the token [nt]. *)
Record renewed (v : CredVal) (nt : option string) (s s1 : Session) (w w1 : World) : Prop := mkRenewed {
  rn_mode : s_mode s1 = s_mode s;
  rn_username : s_username s1 = s_username s;
  rn_created : s_createdAt s1 = s_createdAt s;
  rn_refresher : s_refresher s1 = s_refresher s;
  rn_transports : s_transports s1 = ∅;
  rn_credential : credential_val (w_mem w1) (s_credential s1) = v;
  rn_token : slice_bytes (w_mem w1) (s_refreshToken s1) =
    match nt with Some _ => nt | None => slice_bytes (w_mem w) (s_refreshToken s) end;
  rn_expiry : s_expiresAt s1 = effectiveExpiry (s_createdAt s) (MaxLifetime opts) (cv_ExpiresAt v);
}.

(** What [maybeRefresh] did to a session that is due and whose provider answers. *)
Lemma due_renewed o s s1 w w1 r v nt :
  Inv opts w -> w_objs w !! o = Some s -> due s w = true -> s_refresher s = Some r ->
  refresher_Refresh r (w_calls w) (slice_bytes (w_mem w) (s_refreshToken s)) = Ok (v, nt) ->
  maybe_result opts s s1 (clock_Now (w_ticks w)) (exec now w) w1 ->
  w_ticks w1 = S (S (w_ticks w)) /\ w_calls w1 = S (w_calls w) /\ renewed v nt s s1 w w1.
Proof.
  intros Hi Hs Hdue Hr Hcall M. unfold due in Hdue.
  apply andb_true_iff in Hdue as [[_ Hn1]%andb_true_iff Hn2].
  unfold maybe_result in M. rewrite Hn1 in M. destruct M as (out & Ht & M). rewrite Hr in M.
  change (clock_Now (w_ticks (exec now w))) with (clock_Now (S (w_ticks w))) in M. rewrite Hn2 in M.
  destruct M as [Hc M]. change (w_calls (exec now w)) with (w_calls w) in *.
  change (w_mem (exec now w)) with (w_mem w) in M. rewrite Hcall in M.
  destruct M as (_ & c & tok & -> & V & B & Hk). split; [done|]. split; [done|]. split; try done.
  - cbn [refreshed s_refreshToken s_upd_transports s_set_expiresAt s_set_refreshToken].
    destruct tok as [l|]; cbn in B; rewrite <- B; [done|]. apply Hk; [done|]. by apply (i_self _ _ Hi o).
  - cbn. rewrite <- V. done.
Qed.

(** [Get] of a session that is due: it is renewed, and served unless the provider's new credential
    is already dead. *)
Lemma Get_renewing id o s w r v nt :
  Inv opts w -> w_sessions w !! id = Some o -> w_objs w !! o = Some s -> due s w = true ->
  s_refresher s = Some r ->
  refresher_Refresh r (w_calls w) (slice_bytes (w_mem w) (s_refreshToken s)) = Ok (v, nt) ->
  let w' := exec (Get opts id) w in
  w_calls w' = S (w_calls w) /\
  if negb (time_IsZero (cv_ExpiresAt v)) && time_After (clock_Now (S (S (w_ticks w)))) (cv_ExpiresAt v)
  then eval (Get opts id) w = Err ErrExpired /\ w_sessions w' !! id = None
  else eval (Get opts id) w = Ok o /\ w_sessions w' !! id = Some o /\
    exists s1, w_objs w' !! o = Some s1 /\ renewed v nt s s1 w w'.
Proof.
  intros Hi Hid Hs Hdue Hr Hcall w'. pose proof (Get_cases opts id w Hi) as C. fold w' in C.
  assert (Ha : alive opts s (clock_Now (w_ticks w)) = true).
  { unfold due in Hdue. by apply andb_true_iff in Hdue as [[? _]%andb_true_iff _]. }
  assert (Hex : forall s1 w1, renewed v nt s s1 w w1 -> forall t, credentialExpired s1 t =
            negb (time_IsZero (cv_ExpiresAt v)) && time_After t (cv_ExpiresAt v)).
  { intros s1 w1 Hn t. unfold credentialExpired. by rewrite <- (rn_credential _ _ _ _ _ _ Hn). }
  inversion C as [Hid'|o' s' w2 Hid' Hs' Ha' E|o' s' s1 w1 w2 Hid' Hs' Ha' U M He E|o' s' s1 w1 Hid' Hs' Ha' U M He];
    [congruence|simplify_eq; congruence|..];
    simplify_eq; destruct (due_renewed _ _ _ _ _ _ _ _ Hi Hs Hdue Hr Hcall M) as (Ht & Hc & Hn);
    rewrite Ht, (Hex _ _ Hn) in He; rewrite He.
  - split; [by rewrite (er_calls _ _ _ (proj1 E))|]. split; [done|].
    destruct (w_sessions w' !! id) as [o'|] eqn:Ho'; [|done]. apply E in Ho' as [Ho' Hni]. cbn in Ho'.
    rewrite (up_sessions _ _ _ _ _ _ U) in Ho'. cbn in Ho'. simplify_eq. set_solver.
  - split; [done|]. split; [done|]. split; [cbn; by rewrite (up_sessions _ _ _ _ _ _ U)|].
    eexists. split; [apply with_obj_lookup|]. destruct Hn. by split.
Qed.
End StoreRenewal.

Section Use.
Context `{P : Platform} (opts : Options) {R : RangeOrder} {V : CredentialValidator} `{L : Limiter}
  `{C1 : LRU nat} `{BC : LRU bearerCacheEntry} `{GoIP} `{N : GoNet} `{C : Crypto} `{K : !KubeLib}
  `{O : OIDCLib} `{T : !TraceflowAPI} `{RV : !ReviewAPI} `{LI : Lister}.

#[local] Instance renewal_store : Store := mem_store opts R.

(** C8. A request that arrives when its session's credential is about to expire is sent with the
    renewed one. The provider is asked exactly once, with the session's refresh token. When it
    answers with a credential that is not already dead, the request is resolved to the session's
    user, the session holds the new credential and the rotated token, or the old one if it was not
    rotated, its expiry is that of the new credential, and the transport the request gets is built
    from exactly the new bytes, none of the transports made before being left. When the new
    credential is already dead, the session is gone and the request refused. *)
Theorem renewed_before_use (auth : Authenticator) (f : ClientFactory) (req : Request) (h : HState SrvState)
    (id : string) (o : nat) (s : Session) (r : Refresher) (v : CredVal) (nt : option string) :
  let w := sv_store (h_world h) in
  let h' := exec (Resolve auth req) h in
  let w' := sv_store (h_world h') in
  Inv opts w -> GetSessionCookie req = Some id -> checkCSRF auth req = None ->
  w_sessions w !! id = Some o -> w_objs w !! o = Some s -> due opts s w = true -> s_refresher s = Some r ->
  refresher_Refresh r (w_calls w) (slice_bytes (w_mem w) (s_refreshToken s)) = Ok (v, nt) ->
  w_calls w' = S (w_calls w) /\
  if negb (time_IsZero (cv_ExpiresAt v)) && time_After (clock_Now (S (S (w_ticks w)))) (cv_ExpiresAt v)
  then eval (Resolve auth req) h = Err (session_invalid ErrExpired) /\ w_sessions w' !! id = None
  else exists ra s', eval (Resolve auth req) h = Ok ra /\ ra_Mode ra = s_mode s /\ ra_Username ra = s_username s /\
    w_sessions w' !! id = Some o /\ w_objs w' !! o = Some s' /\ renewed opts v nt s s' w w' /\
    eval (TransportForRequest f (Some ra)) w' =
      match TransportFor f v with Ok (rt, _) => Ok rt | Err e => Err e end.
Proof.
  intros w h' w' Hi Hc Hg Hid Hs Hdue Hr Hcall. unfold w', h', eval, exec.
  rewrite (Resolve_session auth req h id Hc Hg). fold w. change (store_Get id w) with (Get opts id w).
  pose proof (Get_renewing opts id o s w r v nt Hi Hid Hs Hdue Hr Hcall) as G. unfold eval, exec in G.
  destruct (Get opts id w) as [res w1]; cbn [fst snd] in *. destruct G as [Hn G].
  destruct (_ && _); destruct G as [-> G]; (split; [exact Hn|]); [by split|].
  destruct G as (Hid1 & s1 & Hs1 & Hren). cbn [fst snd h_world sv_store]. do 2 eexists. split; [done|].
  unfold eval, NewSessionAuth. rewrite (deref_run _ _ _ s1) by done. cbn [fst mret ST_ret ra_Mode ra_Username].
  split; [apply Hren|]. split; [apply Hren|]. split_and!; [done..|].
  apply (TransportForRequest_built f _ o s1); [done..|apply Hren|].
  assert (s_transports s1 = ∅) as -> by apply Hren. done.
Qed.
End Use.
