(* ===== verification/ApiDemo.v ===== *)
(** * Concrete instances for the API and stream theorems

    The server of [AuthDemo] with an API server for Traceflows and reviews, and a request of the
    session that [SessionProps.Demo] opened for alice. *)
From S2P Require Import Prelude.
From S2P Require Import GoStrings.
From S2P Require Import GoUrl.
From S2P Require Import Http.
From S2P Require Import Lru.
From S2P Require Import RateLimit.
From S2P Require Import Session.
From S2P Require Import SessionStore.
From S2P Require Import SessionFacts.
From S2P Require Import SessionInv.
From S2P Require Import SessionProps.
From S2P Require Import SessionContext.
From S2P Require Import K8sCred.
From S2P Require Import Authn.
From S2P Require Import AuthDemo.
From S2P Require Import Flowpb.
From S2P Require Import Flow.
From S2P Require Import FlowFilter.
From S2P Require Import FlowStream.
From S2P Require Import FlowStreamEnd.
From S2P Require Import Access.
From S2P Require Import Traceflow.
From S2P Require Import Api.

Module ApiDemo.
Import Demo AuthDemo AccessDemo.

#[local] Existing Instance demo_lister.
#[local] Existing Instance demo_lister_laws.

#[local] Instance demo_text : GoText := {|
  time_RFC3339Nano _ := "2026-01-01T00:00:00Z"; netip_String16 _ := "::" |}.

#[local] Instance demo_tf : TraceflowAPI := {|
  tf_do_Create _ _ _ := None; tf_do_Get _ _ _ := Err (ApiNotFound "none"); tf_do_Delete _ _ _ := None;
  tf_do_List _ _ _ := Ok []; uuid_NewString _ := "uuid" |}.

(** Alice may neither list namespaces nor do everything. *)
#[local] Instance demo_reviews : ReviewAPI := {|
  api_SelfSubjectReview _ _ := Ok ("alice", ["dev"]);
  api_RulesReview _ _ ns := Ok (mkRules ["get pods"] false);
  api_AccessReview _ _ _ := Ok false;
  api_NewClient _ := None;
  api_NewClientset _ := None;
  IsDNS1123Label _ := [] |}.

Definition alice_ra : RequestAuth := mkRequestAuth ModeOIDC "alice" (Some alice_obj) Credential_zero_value.

Definition demo_factory : ClientFactory := mkClientFactory demo_config (0%nat : RoundTripper) (0%nat : RoundTripper) "k8s".

Lemma both_ok : Inv demo_opts w_both.
Proof. apply Inv_reachable; [apply setDefaults_ok|apply reachable_both]. Qed.

(** *** Namespaces *)

Definition dev_binding : RoleBinding := mkRoleBinding "team" "devs" [mkSubject GroupKind "dev" ""] [] ∅.
Definition demo_access : resolver :=
  mkResolver {[("team", "devs") := dev_binding]} [] true true true false [].

Lemma NamespacesFor_exact_witness :
  exists l, NamespacesFor "alice" ["dev"] demo_access = Ok l /\ NoDup l /\ "team" ∈ l.
Proof.
  destruct (NamespacesFor_exact (LL := demo_lister_laws) "alice" ["dev"] demo_access) as [_ E].
  destruct (E eq_refl eq_refl) as (l & Hl & _ & Hn & Hin). exists l. split; [exact Hl|]. split; [exact Hn|].
  apply Hin. exists ("team", "devs"), dev_binding, (mkSubject GroupKind "dev" "").
  split; [reflexivity|]. split; [reflexivity|]. split; [left|]. constructor. left.
Defined.

(** *** Handlers *)

Lemma k8sError_session_witness :
  eval (store_Peek id_alice)
    (sv_store (h_world (exec (k8sError (Some alice_ra) (ApiUnauthorized "expired") "m") (mkH (demo_srv w_both) [])))) = None.
Proof.
  destruct alice_lookup as [_ Hs].
  destruct (k8sError_session (L := mem_store_laws demo_opts demo_order) alice_ra alice_obj alice_session
    (ApiUnauthorized "expired") "m" (mkH (demo_srv w_both) [])) as (_ & Hp & _).
  - exact both_ok.
  - reflexivity.
  - exact Hs.
  - exact Hp.
Defined.

Lemma access_summary_complete_witness :
  NamespacesFor "alice" ["dev"] demo_access = Ok ["team"].
Proof.
  destruct (access_summary_complete demo_factory demo_access (Some alice_ra) "" (mkH (demo_srv w_both) [])
    (mkSummary "alice" ["dev"] false "" (mkRules ["get pods"] false) ["team"]))
    as (client & i1 & i2 & i3 & rules & _ & _ & _ & _ & _ & _ & [(r & E & Hm & _)|(i4 & may & Ha & Hn)]).
  - vm_compute. reflexivity.
  - injection E as <-. discriminate Hm.
  - injection Ha as <-. exact Hn.
Defined.

(** *** The stream *)

Definition demo_flow_msg : option pb_Flow := Some (mk_pb_Flow "f1" None None None 0 None None None None None None 0 None).

Definition demo_run (w : World) : option (Sys (W := World)) :=
  run (stream_session_alive (Some alice_ra))
    [OnCall true; Start None; Recv (RecvOk (mkGetFlowsResponse [demo_flow_msg] 3)); Send; OnFlow] (sys0 w).

Lemma stream_in_order_witness :
  exists s, demo_run world0 = Some s /\ StronglySorted Z.lt (omap dropped_of (y_out s)) /\ omap dropped_of (y_out s) = [3].
Proof.
  eexists. split; [reflexivity|]. split; [|reflexivity].
  refine (proj1 (proj2 (proj2 (proj2 (proj2 (stream_in_order (stream_session_alive (Some alice_ra)) world0 _ _)))))).
  exists [OnCall true; Start None; Recv (RecvOk (mkGetFlowsResponse [demo_flow_msg] 3)); Send; OnFlow]. reflexivity.
Defined.

(** The request is cancelled while the goroutine waits for the aggregator. *)
Definition cancelled_run : list action :=
  [Start None; Recv (RecvOk (mkGetFlowsResponse [demo_flow_msg] 3)); Send; Cancel; Recv (RecvErr "canceled");
   CloseFlows; CloseErrs].

Definition always_alive : ST unit bool := fun w => (true, w).
Definition cancelled_end : Sys := default (sys0 tt) (run always_alive cancelled_run (sys0 tt)).

Lemma subscriber_ends_witness :
  y_errsClosed cancelled_end = true /\ forall r, step always_alive (Recv r) cancelled_end = None.
Proof.
  assert (Hr : run always_alive cancelled_run (sys0 tt) = Some cancelled_end) by (vm_compute; reflexivity).
  destruct (subscriber_ends always_alive cancelled_run tt cancelled_end Hr) as (_ & _ & _ & _ & _ & Hc).
  assert (He : y_errsClosed cancelled_end = true) by (vm_compute; reflexivity).
  split; [exact He|]. intros r. exact (Hc He (Recv r) eq_refl).
Defined.

Definition w_logged_out : World := exec (store_Delete (s_id alice_session)) w_both.

Definition opened_stream : Sys := writePreamble true (sys0 w_logged_out).

Lemma logout_ends_stream_witness :
  exists s', step (stream_session_alive (Some alice_ra)) (OnTick true) opened_stream = Some s' /\ y_stopped s' = true.
Proof.
  destruct alice_lookup as [_ Hs].
  destruct (step (stream_session_alive (Some alice_ra)) (OnTick true) opened_stream) as [s'|] eqn:E.
  - exists s'. split; [reflexivity|].
    apply (logout_ends_stream (L := mem_store_laws demo_opts demo_order) alice_ra alice_obj alice_session w_both
      opened_stream s' true [] s'); [exact both_ok|reflexivity|exact Hs|reflexivity|exact E|reflexivity].
  - cbn [step] in E. unfold consumer in E. cbn [opened_stream writePreamble sys0 y_stopped y_preamble negb] in E.
    destruct (stream_session_alive _ _) as [[] w] in E; discriminate E.
Defined.
End ApiDemo.
