(* ===== verification/ServerDemo.v ===== *)
(** * Concrete instances for the server, proxy and startup theorems

    The server of [AuthDemo] and [ApiDemo] with an Antrea Service, a proxy and a process
    environment, at which the theorems of [AntreaSvc], [K8sProxy], [Server], [PortForward] and
    [Startup] are applied. *)
From S2P Require Import Prelude.
From S2P Require Import GoStrings.
From S2P Require Import GoUrl.
From S2P Require Import Http.
From S2P Require Import Lru.
From S2P Require Import RateLimit.
From S2P Require Import GoHttp.
From S2P Require Import Session.
From S2P Require Import SessionStore.
From S2P Require Import SessionFacts.
From S2P Require Import SessionInv.
From S2P Require Import SessionProps.
From S2P Require Import SessionUse.
From S2P Require Import SessionContext.
From S2P Require Import K8sCred.
From S2P Require Import Authn.
From S2P Require Import Oidc.
From S2P Require Import Password.
From S2P Require Import Auth.
From S2P Require Import AuthDemo.
From S2P Require Import Access.
From S2P Require Import Config.
From S2P Require Import Traceflow.
From S2P Require Import Api.
From S2P Require Import AntreaSvc.
From S2P Require Import PortForward.
From S2P Require Import SvcForward.
From S2P Require Import K8sProxy.
From S2P Require Import Server.
From S2P Require Import Startup.
From S2P Require Import Steps.
From S2P Require Import Flow.
From S2P Require Import FlowStream.
From S2P Require Import Lifecycle.
From S2P Require Import EndToEnd.
From S2P Require Import Renewal.
From S2P Require Import ApiDemo.

Module ServerDemo.
Import Demo AuthDemo ApiDemo.

(** Upstreams that reject every credential. *)
#[local] Instance demo_antrea_http : AntreaHTTP := {|
  http_NewRequest _ _ := None;
  http_Do _ _ _ _ := Ok (mkHttpResponse 401 "no" None) |}.

#[local] Instance demo_proxy : ProxyLib := {|
  ImpersonateUserHeader := "Impersonate-User";
  ImpersonateUIDHeader := "Impersonate-Uid";
  ImpersonateGroupHeader := "Impersonate-Group";
  ImpersonateUserExtraHeaderPrefix := "Impersonate-Extra-";
  cleanQueryParams q := q;
  k8s_Do _ _ _ := Ok (401, "no") |}.

(** Evaluates an option without normalising its type. *)
Lemma eval_None {A} (x : option A) : asked x = false -> x = None.
Proof. by destruct x. Qed.

(** ** The Antrea Service *)

Definition demo_ap : provider := newAntreaClientProvider (Some demo_config) "antrea.kube-system.svc".
Definition demo_ap' : provider := exec (updateClientFactory (Some "CA") (Err "no file")) demo_ap.

(** A Kubernetes client library whose transports are numbered by the bundle they trust. *)
Definition cert_kube : KubeLib := {|
  clientcmd_Load _ := None;
  pem_Decode s := Some s;
  x509_NotAfter _ := None;
  json_exp _ := None;
  NewBearerAuthRoundTripper _ base := base;
  rest_TransportFor c := Ok (if decide (rc_CAData c = Some "CA2") then 2%nat else 1%nat);
  AnonymousClientConfig c := c;
  kubernetes_NewForConfigAndClient _ _ := None;
  NewImpersonatingRoundTripper _ base := base;
  CloseIdleConnectionsFor rt := rt;
  SelfSubjectReview _ _ := Ok "carol" |}.

(** Carol has logged in with a client certificate, and her session has used the service once. *)
Definition carol_spec : Spec :=
  mkSpec ModeKubeconfig (mkCredential KindCert None (Some 0%nat) (Some 1%nat) "" 0) None "carol" None.
Definition w_pasted : World := exec (alloc (Some "key")) (exec (alloc (Some "cert")) world0).
Definition w_carol : World := exec (Create demo_opts carol_spec) w_pasted.
Definition carol_obj : nat := 2%nat.
Definition carol_ra : RequestAuth := mkRequestAuth ModeKubeconfig "carol" (Some carol_obj) Credential_zero_value.
Definition ap_first : provider := exec (Enqueue (K := cert_kube) (Some "CA1") (Err "no file")) demo_ap.
Definition ap_second : provider := exec (updateClientFactory (K := cert_kube) (Some "CA2") (Err "no file")) ap_first.
Definition factory_of (p : provider) : ClientFactory :=
  match GetClientFactory p with Ok (f, _) => f | Err _ => mkClientFactory demo_config 0%nat 0%nat "" end.
Definition w_used : World :=
  exec (transportFor carol_obj (svcTransportKey 1) (TransportFor (K := cert_kube) (factory_of ap_first))) w_carol.

Lemma first_factory : GetClientFactory ap_first = Ok (factory_of ap_first, 1).
Proof.
  assert (H : match GetClientFactory ap_first with Ok (_, g) => g =? 1 | Err _ => false end = true)
    by (vm_compute; reflexivity).
  unfold factory_of. destruct (GetClientFactory ap_first) as [[f g]|]; [|discriminate H].
  apply Z.eqb_eq in H as ->. reflexivity.
Qed.

Lemma carol_logged_in : rtc (call demo_opts) world0 w_carol.
Proof.
  eapply rtc_l; [apply (call_alloc demo_opts (Some "cert"))|].
  eapply rtc_l; [apply (call_alloc demo_opts (Some "key"))|].
  apply rtc_once. apply (call_Create demo_opts demo_order carol_spec w_pasted).
  - apply spec_freshb_sound. vm_compute. reflexivity.
  - apply id_unusedb_sound. vm_compute. reflexivity.
Qed.

Lemma carol_used :
  rtc (vstep (K := cert_kube) demo_opts) (svc_start (Some demo_config) "antrea.kube-system.svc")
    (mkSvc ap_first [(factory_of ap_first, 1)] w_used).
Proof.
  transitivity (mkSvc demo_ap [] w_carol).
  { apply (rtc_congruence (R := call demo_opts) (fun w => mkSvc demo_ap [] w)); [|exact carol_logged_in].
    intros x y. apply (vs_call (K := cert_kube)). }
  apply (rtc_l _ _ (mkSvc ap_first [] w_carol)).
  { exact (vs_update (K := cert_kube) demo_opts (Some "CA1", Err "no file") demo_ap [] w_carol). }
  apply (rtc_l _ _ (mkSvc ap_first [(factory_of ap_first, 1)] w_carol)).
  { exact (vs_take (K := cert_kube) demo_opts (factory_of ap_first, 1) ap_first [] w_carol first_factory). }
  apply rtc_once. apply (vs_use (K := cert_kube) demo_opts demo_order (factory_of ap_first) 1). by left.
Qed.

(** The bundle is rotated: her next request drops the first transport and closes its connections. *)
Lemma rotation_supersedes_witness :
  exists f s', GetClientFactory ap_second = Ok (f, 2) /\ rc_CAData (f_config f) = Some "CA2" /\
    let use := ra_TransportFor carol_ra (svcTransportKey 2) (Some (TransportFor (K := cert_kube) f)) in
    eval use w_used = Ok 2%nat /\ w_objs (exec use w_used) !! carol_obj = Some s' /\
    s_transports s' !! svcTransportKey 1 = None /\ 1%nat ∈ w_closed (exec use w_used).
Proof.
  pose proof (rotation_supersedes (K := cert_kube) (mkOptions 0 0 2 1) (Some demo_config) "antrea.kube-system.svc" "CA2" (Err "no file") ap_first
    [(factory_of ap_first, 1)] w_used carol_used ltac:(vm_compute; reflexivity)) as G.
  assert (E : eval (updateClientFactory (K := cert_kube) (Some "CA2") (Err "no file")) ap_first = None) by (vm_compute; reflexivity).
  rewrite E in G. destruct G as (f & Hf & Hca & _ & G). fold ap_second in Hf, G.
  assert (f = factory_of ap_second) as -> by (unfold factory_of; rewrite Hf; reflexivity).
  destruct (G ap_second [(factory_of ap_first, 1)] w_used ltac:(apply rtc_refl) ltac:(vm_compute; reflexivity)) as [_ U].
  set (key := svcTransportKey (ap_generation ap_first + 1)) in U.
  assert (Hs : match w_objs w_used !! carol_obj with
    | Some s => match s_transports s !! key, s_transports s !! svcTransportKey 1,
                      TransportFor (K := cert_kube) (factory_of ap_second) (credential_val (w_mem w_used) (s_credential s)) with
                | None, Some c, Ok (rt, _) => bool_decide (rt = 2%nat /\ ct_cleanup c = Some 1%nat)
                | _, _, _ => false end
    | None => false end = true) by (vm_compute; reflexivity).
  destruct (w_objs w_used !! carol_obj) as [s|] eqn:Ho; [|discriminate Hs].
  specialize (U carol_ra carol_obj s eq_refl Ho). fold key in U. cbn zeta in U.
  destruct (s_transports s !! key); [discriminate Hs|].
  destruct (s_transports s !! svcTransportKey 1) as [c|] eqn:Hc; [|discriminate Hs].
  destruct (TransportFor (factory_of ap_second) _) as [[rt cl]|]; [|discriminate Hs].
  apply bool_decide_eq_true in Hs as [-> Hcl]. destruct U as [Hu Hd].
  set (use := ra_TransportFor carol_ra key _) in Hu, Hd.
  assert (Hs' : is_Some (w_objs (exec use w_used) !! carol_obj)) by (apply (bool_decide_eq_true_1 _); vm_compute; reflexivity).
  destruct Hs' as [s' Hs']. destruct (Hd 1 s' ltac:(vm_compute; split; [discriminate|reflexivity]) Hs') as [Hn Hx].
  exists (factory_of ap_second), s'. split; [exact Hf|]. split; [exact Hca|].
  split; [exact Hu|]. split; [exact Hs'|]. split; [exact Hn|]. apply (Hx c 1%nat Hc Hcl).
Defined.

Definition demo_svc_factory : ClientFactory :=
  mkClientFactory (rc_set_ca (Some "CA") "antrea.kube-system.svc" demo_config) 0%nat 0%nat (svcTransportKey 1).
Definition demo_svc : requestsHandler := mkRequestsHandler "localhost:10349" demo_ap' true.

Lemma GetFeatureGates_session_witness :
  eval (store_Peek id_alice)
    (sv_store (h_world (exec (GetFeatureGates (fun _ => None) demo_svc (Some alice_ra)) (mkH (demo_srv w_both) [])))) = None.
Proof.
  destruct alice_lookup as [_ Hs].
  pose proof (GetFeatureGates_session (L := mem_store_laws demo_opts demo_order) (fun _ => None) demo_svc alice_ra
    alice_obj alice_session (mkH (demo_srv w_both) []) "localhost:10349" demo_svc_factory 1 2%nat (mkHttpResponse 401 "no" None)) as G.
  cbn zeta in G. destruct G as [_ G]; [exact both_ok|reflexivity|exact Hs|reflexivity..|].
  exact (proj1 G).
Defined.

(** ** The proxy *)

Definition demo_api_url : PURL := mkPURL "https" "10.0.0.1" "" "" "".
Definition demo_headers : headers :=
  {["Cookie" := ["antrea-ui-session=x"]; "Impersonate-User" := ["admin"]; "Accept" := ["*/*"]]}.
Definition demo_hq : HttpRequest :=
  mkHttpRequest "GET" (mkPURL "" "" "/api/v1/k8s/api/v1/pods" "" "limit=5") "ui" "1.1.1.1:80" false demo_headers.

Lemma demo_canonical : canonical (hq_Header demo_hq).
Proof.
  intros k v. cbn [demo_hq hq_Header]. unfold demo_headers.
  intros [[<- _]|[_ [[<- _]|[_ [<- _]%lookup_singleton_Some]]%lookup_insert_Some]]%lookup_insert_Some; vm_compute; reflexivity.
Qed.

Lemma proxied_headers_witness :
  let h := hq_Header (sent demo_api_url "/api/v1/pods" demo_hq) in
  h !! "Cookie" = None /\ h !! "Impersonate-User" = None /\ h !! "Accept" = Some ["*/*"].
Proof.
  destruct (proxied_headers demo_api_url "/api/v1/pods" demo_hq demo_canonical) as (H1 & H2 & _).
  split; [|split].
  - apply H1; [apply (bool_decide_unpack _); vm_compute; exact I|discriminate].
  - apply H1; [apply (bool_decide_unpack _); vm_compute; exact I|discriminate].
  - rewrite H2; [vm_compute; reflexivity|apply (bool_decide_unpack _); vm_compute; exact I..|discriminate|discriminate|discriminate].
Defined.

Lemma proxied_url_witness :
  let u := hq_URL (sent demo_api_url "/api/v1/pods" demo_hq) in
  pu_Path u = "/api/v1/pods" /\ pu_Host u = "10.0.0.1" /\ pu_RawQuery u = "limit=5".
Proof.
  destruct (proxied_url demo_api_url "/api/v1/pods" "api/v1/pods" "/api/v1/k8s" demo_hq)
    as (_ & H2 & _ & H4 & _ & H6); [reflexivity|discriminate|reflexivity|discriminate|reflexivity|left; reflexivity|].
  split; [exact H4|split; [exact H2|exact H6]].
Defined.

Lemma GetK8s_session_witness :
  eval (store_Peek id_alice)
    (sv_store (h_world (exec (GetK8s demo_api_url demo_factory (Some alice_ra) "/api/v1/pods" demo_hq) (mkH (demo_srv w_both) [])))) = None.
Proof.
  destruct alice_lookup as [_ Hs].
  pose proof (GetK8s_session demo_api_url demo_factory (L := mem_store_laws demo_opts demo_order) alice_ra
    alice_obj alice_session "/api/v1/pods" demo_hq (mkH (demo_srv w_both) []) 2%nat 401 "no") as G.
  cbn zeta in G. destruct G as (_ & _ & G); [exact both_ok|reflexivity|exact Hs|reflexivity..|].
  exact (proj1 G).
Defined.

(** ** The server *)

Definition demo_server_config : Config := mkConfig_ ":8080" "https://ui" (c_Auth default_config) (c_Session default_config)
  (c_FlowAggregator default_config) 1 100 0 "kube-system" (c_Plugins default_config).

Definition demo_server : Server :=
  match NewServer "v1" demo_server_config "admin" true false false true with
  | Ok s => s
  | Err _ => mkServer demo_cfg (api_NewServer "" demo_server_config false false) demo_auth
  end.

Definition demo_routes : list route * Limits := default ([], mkLimits None None) (AddRoutes demo_server).

Lemma routes_guarded_witness :
  NoDup (map route_key demo_routes.1) /\
  (forall rt, rt ∈ demo_routes.1 -> rt_Path rt = "/api/v1/k8s/*path" -> needs_identity (rt_Handler rt) = true ->
     rt_Handler rt <> h_api h_CreateTraceflowRequest -> rt_Chain rt = [mw_authenticate]).
Proof.
  destruct (routes_guarded demo_server) as (routes & lm & E & Hn & Hok & _); [vm_compute; discriminate..|].
  unfold demo_routes. rewrite E. split; [exact Hn|]. intros rt Hin _ Hneed Hne. specialize (Hok rt Hin).
  unfold chain_ok in Hok. rewrite Hneed, decide_False in Hok by exact Hne. exact Hok.
Defined.

Definition demo_state : ServerState := mkServerState (demo_srv w_both) demo_routes.2.
Definition ok_handler : handler -> Http.Request -> Context -> ST (HState ServerState) unit := fun _ _ _ => emit (Status StatusOK).

Definition find_route (h : handler) : route :=
  default (mkRoute "" "" [] h) (head (filter (fun rt => rt_Handler rt = h) demo_routes.1)).

Lemma demo_AddRoutes : AddRoutes demo_server = Some (demo_routes.1, demo_routes.2).
Proof.
  assert (A : asked (AddRoutes demo_server) = true) by (vm_compute; reflexivity).
  unfold demo_routes. destruct (AddRoutes demo_server) as [[r l]|]; [reflexivity|discriminate A].
Qed.

#[local] Instance route_eq_dec : EqDecision route.
Proof. solve_decision. Defined.

Lemma demo_registered h : bool_decide (find_route h ∈ demo_routes.1) = true -> find_route h ∈ demo_routes.1.
Proof. apply bool_decide_eq_true_1. Qed.

(** A request without a cookie or a token reaches no handler. *)
Lemma identity_gate_witness :
  h_out (exec (serve (s_authenticator demo_server) ok_handler (find_route (h_api h_GetK8s)) (demo_req ∅ ∅ []) (mkBody "" false))
    (mkH demo_state [])) =
  [JSON StatusUnauthorized "No authentication present (session cookie / Authorization header)"; Abort].
Proof.
  pose proof (identity_gate demo_server demo_routes.1 demo_routes.2 (find_route (h_api h_GetK8s)) ok_handler
    (demo_req ∅ ∅ []) (mkBody "" false) (mkH demo_state []) demo_AddRoutes) as G.
  specialize (G (demo_registered (h_api h_GetK8s) ltac:(vm_compute; reflexivity)) eq_refl eq_refl).
  assert (R : Resolve (s_authenticator demo_server) (demo_req ∅ ∅ []) (srv_part (mkH demo_state [])) =
    (Err no_authentication, srv_part (mkH demo_state []))) by reflexivity.
  rewrite R in G. rewrite G. reflexivity.
Defined.

(** A cross-site login is refused before the limiter. *)
Lemma login_gate_witness :
  let req := demo_req {["Sec-Fetch-Site" := ["cross-site"]]} ∅ [] in
  h_world (exec (serve (s_authenticator demo_server) ok_handler (find_route (h_auth h_LoginWithToken)) req (mkBody "{}" false))
    (mkH demo_state [])) = demo_state.
Proof.
  intros req.
  pose proof (login_gate demo_server demo_routes.1 demo_routes.2 (find_route (h_auth h_LoginWithToken)) ok_handler
    req (mkBody "{}" false) (mkH demo_state []) demo_AddRoutes) as G.
  specialize (G (demo_registered (h_auth h_LoginWithToken) ltac:(vm_compute; reflexivity)) eq_refl eq_refl).
  destruct G as (_ & _ & G). rewrite G. clear G.
  destruct (checkCSRF (s_authenticator demo_server) req) as [e|] eqn:E; [reflexivity|].
  vm_compute in E. discriminate E.
Defined.

(** ** From a login to the API server and back *)

Definition good_val : CredVal := bearer_val "good" 0.
Definition pasted : HState SrvState := mkH (demo_srv world0) [].
Definition logged_in : HState SrvState := exec (login_with demo_auth (demo_req ∅ ∅ []) ModeSAToken good_val) pasted.
Definition cookie_req (id : string) : Http.Request := demo_req ∅ ∅ [(SessionCookieName, id)].

(** The second request after a login. *)
Lemma login_then_use_witness :
  exists id ra, let h2 := exec (Resolve demo_auth (cookie_req id)) logged_in in
    eval (Resolve demo_auth (cookie_req id)) h2 = Ok ra /\ ra_Username ra = "alice" /\
    eval (TransportForRequest demo_factory (Some ra))
      (sv_store (h_world (exec (Resolve demo_auth (cookie_req id)) h2))) = Ok 1%nat.
Proof.
  assert (Hi : Inv demo_opts world0) by (apply Inv_reachable; [apply setDefaults_ok|apply rtc_refl]).
  assert (Hok : eval (login_with demo_auth (demo_req ∅ ∅ []) ModeSAToken good_val) pasted = None)
    by (vm_compute; reflexivity).
  assert (Hun : id_unused (login_world demo_opts (demo_req ∅ ∅ []) good_val (sv_store (h_world pasted))))
    by (apply id_unusedb_sound; vm_compute; reflexivity).
  destruct (login_then_use demo_opts demo_auth (demo_req ∅ ∅ []) ModeSAToken good_val pasted
    (setDefaults_ok _) Hi Hun Hok) as (user & id & o & Hu & Hcookie & Hid & Huse).
  assert (user = "alice") as -> by (vm_compute in Hu; injection Hu as <-; reflexivity).
  assert (id = id_alice) as ->.
  { assert (Ho : h_out logged_in = [SetCookie (session_cookie id_alice false SameSiteStrict)]) by (vm_compute; reflexivity).
    change (SetCookie (session_cookie id false SameSiteStrict) ∈ h_out logged_in) in Hcookie.
    rewrite Ho in Hcookie. apply list_elem_of_singleton in Hcookie. by injection Hcookie. }
  set (h2 := exec (Resolve demo_auth (cookie_req id_alice)) logged_in).
  assert (Hrun : rtc (fstep demo_opts (transportKey demo_factory) (TransportFor demo_factory))
            (sv_store (h_world logged_in)) (sv_store (h_world h2))).
  { apply rtc_once. assert (E : sv_store (h_world h2) = exec (Get demo_opts id_alice) (sv_store (h_world logged_in))).
    { unfold h2, exec. rewrite (Resolve_session demo_auth (cookie_req id_alice) logged_in id_alice eq_refl eq_refl).
      change (store_Get id_alice) with (Get demo_opts id_alice). by destruct (Get demo_opts id_alice _) as [[]]. }
    rewrite E. apply fs_call, call_Get. }
  specialize (Huse demo_factory (cookie_req id_alice) h2 Hrun eq_refl eq_refl). exists id_alice.
  assert (H2 : (match w_sessions (sv_store (h_world h2)) !! id_alice with
    | Some o2 => match w_objs (sv_store (h_world h2)) !! o2 with
        | Some s => bool_decide (o2 = 1%nat) && within_limits demo_opts (clock_Now (w_ticks (sv_store (h_world pasted)))) (s_lastSeen s)
            (clock_Now (w_ticks (sv_store (h_world h2)))) (clock_Now (Datatypes.S (w_ticks (sv_store (h_world h2)))))
            (cv_ExpiresAt good_val)
        | None => false end
    | None => false end) = true) by (vm_compute; reflexivity).
  assert (Ho : (match w_sessions (sv_store (h_world logged_in)) !! id_alice with
    | Some o => bool_decide (o = 1%nat) | None => false end) = true) by (vm_compute; reflexivity).
  change (w_sessions (sv_store (h_world logged_in)) !! id_alice = Some o) in Hid.
  rewrite Hid, bool_decide_eq_true in Ho. subst o.
  destruct (w_sessions (sv_store (h_world h2)) !! id_alice) as [o2|]; [|discriminate H2].
  destruct (w_objs (sv_store (h_world h2)) !! o2) as [s|] eqn:Hs; [|discriminate H2].
  apply andb_true_iff in H2 as [->%bool_decide_eq_true W]. destruct (Huse eq_refl) as (s2 & Hs2 & _ & G).
  rewrite Hs in Hs2. injection Hs2 as <-. rewrite W in G. destruct G as (ra & Hra & _ & Huser & Htr).
  exists ra. split; [exact Hra|]. split; [exact Huser|exact Htr].
Defined.

Lemma revoked_session_ends_witness :
  let hs' := exec (serve (s_authenticator demo_server) (proxy_handlers demo_opts demo_api_url demo_factory "/api/v1/pods" demo_hq ok_handler)
    (find_route (h_api h_GetK8s)) (cookie_req id_alice) (mkBody "" false)) (mkH demo_state []) in
  h_out hs' = [Data 401 "" "no"] /\
  h_world (exec (serve (s_authenticator demo_server) ok_handler (find_route (h_api h_GetAccessSummary))
    (cookie_req id_alice) (mkBody "" false)) (mkH (h_world hs') [])) = h_world hs'.
Proof.
  intros hs'.
  destruct (revoked_session_ends demo_opts demo_api_url demo_factory demo_server demo_routes.1 demo_routes.2
    (find_route (h_api h_GetK8s)) ok_handler "/api/v1/pods" demo_hq (cookie_req id_alice) (mkBody "" false)
    (mkH demo_state []) id_alice alice_obj 2%nat 401 "no") as (Hout & _ & Hgone);
    [exact demo_AddRoutes|apply demo_registered; vm_compute; reflexivity|vm_compute; reflexivity|exact both_ok
    |reflexivity|reflexivity|vm_compute; reflexivity|vm_compute; reflexivity|vm_compute; reflexivity|].
  split; [exact Hout|]. rewrite decide_True in Hgone by reflexivity.
  change (the_store demo_opts) with demo_store in Hgone. fold hs' in Hgone.
  rewrite (Hgone (find_route (h_api h_GetAccessSummary)) ok_handler (cookie_req id_alice) (mkBody "" false) []);
    [reflexivity|apply demo_registered; vm_compute; reflexivity|vm_compute; reflexivity|reflexivity|reflexivity].
Defined.

(** Alice's credential ends within the minute: her next request renews it. *)
Definition renewed_val : CredVal := mkCredVal KindBearer (Some "new-token") None None "" (demo_now 0 + Hour).

Lemma renewed_before_use_witness :
  let h := mkH (demo_srv w_both) [] in
  exists ra, eval (Resolve demo_auth (cookie_req id_alice)) h = Ok ra /\ ra_Username ra = "alice" /\
    eval (TransportForRequest demo_factory (Some ra)) (sv_store (h_world (exec (Resolve demo_auth (cookie_req id_alice)) h))) =
      match TransportFor demo_factory renewed_val with Ok (rt, _) => Ok rt | Err e => Err e end.
Proof.
  intros h. destruct alice_lookup as [Hid Hs].
  pose proof (renewed_before_use demo_opts demo_auth demo_factory (cookie_req id_alice) h id_alice alice_obj alice_session
    1%nat renewed_val None both_ok eq_refl eq_refl Hid Hs) as G.
  specialize (G ltac:(vm_compute; reflexivity) ltac:(vm_compute; reflexivity) ltac:(vm_compute; reflexivity)).
  destruct G as [_ G].
  assert (E : negb (time_IsZero (cv_ExpiresAt renewed_val)) &&
     time_After (clock_Now (Datatypes.S (Datatypes.S (w_ticks (sv_store (h_world h)))))) (cv_ExpiresAt renewed_val) = false)
    by (vm_compute; reflexivity).
  rewrite E in G. destruct G as (ra & s' & Hra & _ & Huser & _ & _ & _ & Htr).
  exists ra. split; [exact Hra|]. split; [|exact Htr]. rewrite Huser. vm_compute. reflexivity.
Defined.

(** *** A Traceflow that succeeds, and is swept an hour later *)

Definition demo_tfobj : TraceflowObj := mkTraceflow "uuid" traceflowLabels (Some "{}") (Phase "Succeeded") 0.
#[local] Instance demo_tf_done : TraceflowAPI := {|
  tf_do_Create _ _ _ := None; tf_do_Get _ _ _ := Ok demo_tfobj; tf_do_Delete _ _ _ := None;
  tf_do_List _ _ _ := Ok [demo_tfobj]; uuid_NewString _ := "uuid" |}.
#[local] Existing Instance demo_reviews.

Lemma traceflow_life_witness :
  let h := mkH (demo_srv w_both) [] in
  h_out (exec (CreateTraceflowRequest demo_factory (Some alice_ra) (Ok (Some "{}"))) h) =
    [SetHeader "Access-Control-Expose-Headers" "Location, Retry-After";
     SetHeader "Location" "/api/v1/traceflow/uuid"; SetHeader "Retry-After" "2"; Status StatusAccepted] /\
  h_out (exec (GetTraceflowRequestResult demo_factory (fun _ => Ok "{}") (Some alice_ra) "uuid") h) =
    [SetHeader "Access-Control-Expose-Headers" "Content-Disposition"; Data StatusOK "application/json; charset=utf-8" "{}"] /\
  "uuid" ∈ eval (tf_doGC 0%nat (2 * Hour)) (sv_kube (h_world h)).
Proof.
  intros h.
  assert (Hask : can_ask demo_factory (Some alice_ra) 2%nat h) by (split; vm_compute; reflexivity).
  destruct (traceflow_life (T := demo_tf_done) demo_factory (Some alice_ra) 2%nat (Some "{}") h Hask eq_refl) as (H1 & _ & H3 & H4).
  split; [exact H1|]. split.
  - apply (H3 (fun _ => Ok "{}") (Some alice_ra) 2%nat demo_tfobj h Hask eq_refl). reflexivity.
  - apply (H4 0%nat (2 * Hour) _ [demo_tfobj] eq_refl). exists demo_tfobj.
    split; [left|]. split; reflexivity.
Defined.

(** ** The port forwarder *)

Definition demo_trace : list event := [Ready; OnReady (Ok 10349); Deliver].

Lemma host_while_forwarding_witness :
  exists s, PortForward.run demo_trace (loop_round None) = Some s /\ exists p, published demo_trace s p.
Proof.
  eexists. split; [reflexivity|].
  destruct (host_while_forwarding None demo_trace _ eq_refl) as [[E|E] _]; [discriminate E|exact E].
Defined.

Lemma round_terminates_witness :
  exists s s', PortForward.run (demo_trace ++ [CloseStop]) (loop_round None) = Some s /\ PortForward.run [OnStop; Finish; Over] s = Some s' /\
    round_over s' /\ PortForward.pf_host s' = "".
Proof.
  do 2 eexists. split; [reflexivity|]. split; [reflexivity|].
  refine (proj2 (round_terminates None (demo_trace ++ [CloseStop]) [OnStop; Finish; Over] _ _ eq_refl _ _ eq_refl) _).
  - left. reflexivity.
  - repeat constructor.
  - intros e He. destruct e; try reflexivity; destruct He.
Defined.

(** The first try finds no Pod; the second one forwards, until the connection breaks. *)
Definition demo_pod : Pod := mkPod "kube-system" "antrea-controller" [[10349]].
Definition demo_loop : list loop_event :=
  [Tick (5 * Second) (Ok ∅) (fun _ => Ok []) None None; Tick (5 * Second) (Ok ∅) (fun _ => Ok [demo_pod]) None None;
   InRoundStep Ready; InRoundStep (OnReady (Ok 40000)); InRoundStep Deliver; InRoundStep (Ends (Some "lost connection"))].
Definition demo_broken : loop := default (Idle false) (loop_run demo_loop (Idle false)).
Definition demo_recovery : list loop_event := [InRoundStep PortForward.OnErr; InRoundStep Finish; InRoundStep Over; EndRound].

Lemma loop_recovers_witness :
  loop_host demo_broken = "localhost:40000" /\
  exists x, loop_run demo_recovery demo_broken = Some x /\ loop_host x = "" /\ (x = Idle true \/ x = LoopStopped).
Proof.
  assert (H : loop_run demo_loop (Idle false) = Some demo_broken) by (vm_compute; reflexivity).
  destruct (loop_recovers demo_loop demo_broken H) as (_ & Hrec & _). split; [vm_compute; reflexivity|].
  exists (Idle true). assert (H' : loop_run demo_recovery demo_broken = Some (Idle true)) by (vm_compute; reflexivity).
  split; [exact H'|]. destruct demo_broken as [|s| |] eqn:E; try (vm_compute in E; discriminate E).
  refine (proj2 (Hrec s demo_recovery (Idle true) eq_refl _ _ H') _).
  - right. assert (Hs : match demo_broken with InRound s => PortForward.pf_fwd s | _ => FRunning end = FReturned (Some "lost connection"))
      by (vm_compute; reflexivity). rewrite E in Hs. rewrite Hs. discriminate.
  - repeat constructor.
  - intros e He. destruct e; try reflexivity; destruct He.
Defined.

(** ** The process *)

#[local] Instance demo_boot : BootLib := {|
  rest_InClusterConfig := Ok demo_config;
  clientcmd_ClientConfig _ := Err "no kubeconfig";
  rest_HTTPClientFor _ := Ok (0%nat : RoundTripper);
  dynamic_NewForConfigAndClient _ _ := None;
  kubernetes_NewForConfig _ := None;
  url_Parse_error _ := "";
  grpc_NewClient _ _ := None |}.

Definition demo_env : environment := {["KUBERNETES_SERVICE_HOST" := "10.0.0.1"; "POD_NAMESPACE" := "antrea-ui"]}.

Definition demo_run : startup :=
  eval (Startup.run (R := InMemory) PasswordDemo.demo_hash PasswordDemo.demo_random demo_env "" (mkBuild "v1" "" "" "released")
    demo_server_config None 5 (fun _ => false) (fun _ => true) (fun _ _ => Err "none")) world0.

Lemma startup_wiring_witness :
  match demo_run with
  | Started a => AdminUserName (s_config (app_server a)) = "system:serviceaccount:antrea-ui:antrea-ui-admin" /\
      exists st, app_password a = Some st /\ is_Some (pw_salt st)
  | _ => False
  end.
Proof.
  pose proof (startup_wiring (R := InMemory) PasswordDemo.demo_hash PasswordDemo.demo_random demo_env "" (mkBuild "v1" "" "" "released")
    demo_server_config None 5 (fun _ => false) (fun _ => true) (fun _ _ => Err "none") world0) as G.
  specialize (G ltac:(vm_compute; discriminate) ltac:(vm_compute; discriminate)). fold demo_run in G.
  assert (E : match demo_run with Started _ => true | _ => false end = true) by (vm_compute; reflexivity).
  destruct demo_run as [a| | |]; try discriminate E.
  destruct G as (_ & (_ & Hlogin) & _ & _ & _ & Hpw & _ & _ & Hadmin & _). split; [exact Hadmin|].
  apply Hpw, Hlogin. reflexivity.
Defined.

(** A process that answers one request while it is told to stop, and one with a flow stream. The
    requests of the first are a number of steps to go. *)
Definition count_step (_ : unit) (r : nat) : option nat := Some (pred r).

Definition graceful : list (proc_event nat unit) :=
  [EAccept 0 1%nat; ESignal Notify; ESignal Take; EBegin; EWorker WSessions; EProgress 0 tt; EAnswered 0%nat;
   EServe None; EDrained None; EExit].

Definition graceful_end : Proc nat := default proc0 (prun count_step (Nat.eqb 0) graceful proc0).

Lemma graceful_run : prun count_step (Nat.eqb 0) graceful proc0 = Some graceful_end.
Proof. vm_compute. reflexivity. Qed.


Lemma stop_terminates_witness : is_Some (pr_exit graceful_end).
Proof.
  refine (proj2 (proj2 (stop_terminates count_step (Nat.eqb 0) graceful graceful_end graceful_run)) _ _).
  - apply Nat.leb_le. vm_compute. reflexivity.
  - intros e _. unfold pstep. replace (pr_exit graceful_end) with (Some 0) by (vm_compute; reflexivity). reflexivity.
Defined.

Definition with_stream : list (proc_event Sys action) :=
  [EAccept 0 (sys0 tt); EProgress 0 (FlowStream.Start None); ESignal Notify; ESignal Take; EBegin; ELook; EServe None;
   EProgress 0 (OnCall true); EProgress 0 (OnTick true); ETimeout (5 * Second); EExit].

#[local] Existing Instance demo_text.
Definition stream_step : action -> Sys -> option Sys := FlowStream.step always_alive.
Definition stream_end : Proc Sys := default proc0 (prun stream_step y_stopped with_stream proc0).

Lemma open_stream_fails_stop_witness : pr_exit stream_end = Some 1.
Proof.
  assert (Hr : prun stream_step y_stopped with_stream proc0 = Some stream_end) by (vm_compute; reflexivity).
  refine (proj1 (proj2 (proj2 (open_stream_fails_stop always_alive 0 tt with_stream stream_end
    (fun _ => eq_refl) Hr _ _)) _ _ _)).
  - left.
  - intros a Ha. unfold with_stream in Ha.
    repeat (apply elem_of_cons in Ha as [Ha|Ha]; [by inversion Ha|]). by apply elem_of_nil in Ha.
  - exists 1. vm_compute. reflexivity.
  - reflexivity.
  - intros e He. unfold with_stream in He.
    repeat (apply elem_of_cons in He as [He|He]; [by inversion He|]). by apply elem_of_nil in He.
Defined.

(** Three signals before the goroutine ran: one is dropped, and the process still exits. *)
Lemma signals_counted_witness :
  exists s, sig_run [Notify; Notify; Notify; Take; Take] sig0 = Some s /\ sg_pc s = SigExited /\ sg_stopped s = true.
Proof.
  eexists. split; [reflexivity|].
  destruct (signals_counted [Notify; Notify; Notify; Take; Take] _ eq_refl) as (_ & _ & Q).
  destruct (Q eq_refl) as [Q1 Q2]. split; [apply Q2|apply Q1]; apply Nat.leb_le; reflexivity.
Defined.
End ServerDemo.
